(* ===== verification/_CoqProject ===== *)
-Q . S2P
Prelude.v
Modes.v
Region.v
World.v
Video.v
Lut.v
Cursor.v
Fb.v
DriState.v
Queue.v
QueueSpec.v
Bo.v
PixmapFb.v
Crtc.v
Keeps.v
Scanout.v
Modeset.v
CursorHw.v
Flip.v
Prime.v
Present.v
Dri2.v
Exchange.v
Dri2Time.v
Dri2Safe.v
Names.v
Color.v
Outputs.v
Dri3.v
Wrappers.v
Coherence.v
Leases.v
Screen.v
ScreenSpec.v
Hotplug.v
Hooks.v
Zaphod.v
Probe.v
Startup.v
Dispatch.v
