(* ===== verification/Prelude.v ===== *)
(** * Verification of xf86-video-amdgpu

    The X.Org driver for AMD GPUs, src/src/*.c, as a shallow embedding: every
    function of the driver that is modelled is a definition of the same name.

    ** The program and its parts

    The X server calls the driver through tables of hooks (RandR, Present, DRI2,
    DRI3, the wrapped drawing operations, the block handler); the driver calls the
    kernel through libdrm (modes, page flips, vblank events, framebuffers,
    properties), libdrm_amdgpu and gbm (buffers), and the server back.  What the
    kernel is asked for is answered by events that the driver reads from its file
    descriptor; amdgpu_drm_queue.c matches them with requests and calls their
    handlers.  All parts share the structures of the screen, its CRTCs, outputs,
    pixmaps, buffers and framebuffers, most of which are reference counted by hand.

    ** How the model is built

    The state is a record [world] (World.v): one finite map per kind of structure,
    with addresses as keys, and a counter for fresh addresses.  A pointer is an
    [option loc]; a null or dangling pointer that is used is a fault.  The code runs
    in the monad [D] = [M world] (Prelude.v): a run ends with a result and a state,
    with a fault, or without fuel.  Everything the driver does not decide itself (the
    answer of the kernel, of a library or of the server) is a call [ext] whose typed
    answer comes from a parameter [env], which may depend on all calls made before;
    theorems hold for every [env] unless they name what they need of it.  Each call
    is recorded in [w_trace], so that theorems can speak about what was asked of the
    kernel.  Integers have the width of the C types, with wrap-around written out.
    The code of other parts that is called through function pointers is an interface
    (a class) in the file that calls it: [Callbacks] for the event handlers,
    [Rotator] for xf86CrtcRotate, [Composite], [PrimeServer], [ServerBacking].

    ** Files

    - Prelude.v: integers, record update, the monad with its rules [wp] (total
      correctness) and [pwp] (partial), sums over maps, reference counts.
    - Modes.v: display modes; drmmode_ConvertFromKMode and drmmode_ConvertToKMode.
    - Region.v, Video.v: boxes and regions; amdgpu_video.c, the CRTC that covers a
      drawable.
    - World.v: the structures of amdgpu_drv.h, amdgpu_pixmap.h, drmmode_display.h;
      the calls to the outside.
    - Lut.v, Color.v: color tables and the color properties of RandR
      (drmmode_display.c).
    - Cursor.v, CursorHw.v: cursor images, hot spots, the count of software cursors;
      showing, moving and loading a hardware cursor.
    - Fb.v, Bo.v, PixmapFb.v: framebuffers (drmmode_fb_reference, amdgpu_fb_create),
      buffers and pixmaps (amdgpu_bo_helper.c, amdgpu_pixmap.c, amdgpu_pixmap.h, the
      pixmap functions of amdgpu_glamor.c) and their reference counts.
    - Queue.v, QueueSpec.v: amdgpu_drm_queue.c, and the contract it implements.
    - Crtc.v, Scanout.v, Modeset.v: vblank counters, power, modes and scanout
      pixmaps of a CRTC (drmmode_display.c, amdgpu_kms.c).
    - Keeps.v: that these do not disturb the event queue.
    - Flip.v: page flips (amdgpu_do_pageflip, drmmode_flip_handler, amdgpu_scanout_flip).
    - Prime.v: screens that share their outputs and AMDGPUBlockHandler_KMS
      (amdgpu_kms.c).
    - Present.v: amdgpu_present.c.
    - DriState.v, Dri2.v, Dri2Time.v, Dri2Safe.v, Exchange.v: amdgpu_dri2.c; who owns
      buffers, events and timers; the frames and times it computes; swaps without a copy.
    - Names.v, Outputs.v: names, properties, detection and clones of outputs
      (drmmode_display.c).
    - Dri3.v: amdgpu_dri3.c.
    - Wrappers.v, Coherence.v: amdgpu_glamor_wrappers.c and what it achieves: the CPU
      does not touch a pixmap the GPU is working on.
    - Leases.v: leases of outputs (drmmode_create_lease and others).
    - Screen.v, ScreenSpec.v: what a running screen does: damage callbacks, blanking,
      initial modes, panning, resizing, leaving and entering the virtual terminal, its
      buffers and color maps (amdgpu_kms.c, drmmode_display.c).
    - Hotplug.v: connectors that come and go, and drmmode_pre_init.
    - Hooks.v: the hooks of the screen, of fences (amdgpu_sync.c) and of property
      requests that the driver wraps and puts back.
    - Zaphod.v: several screens that divide the CRTCs of one device.
    - Probe.v: opening a device and sharing it between screens (amdgpu_probe.c), with a
      state of its own.
    - Startup.v: AMDGPUPreInit_KMS, AMDGPUScreenInit_KMS,
      AMDGPUCreateScreenResources_KMS and AMDGPUCloseScreen_KMS with their parts.
    - Dispatch.v: the whole driver as a transition system: any sequence of requests
      of the server, kernel events and timers.

    ** What the theorems show

    - Ownership: framebuffer and buffer counts are the number of pointers, kept by
      every operation on pixmaps ([fb_reference_safe], [set_pixmap_bo_safe],
      [glamor_create_pixmap_safe], [set_shared_pixmap_backing_safe],
      [exchange_buffers_safe]); DRI2 buffers
      outlive the swaps that wait for them, whatever else the driver is asked to do
      ([driver_reachable_safe], [waiting_swap_alive]); sync objects and property blobs
      are released ([syncobj_lifecycle], [color_blobs_balanced]), and so are the
      framebuffers of pixmaps and CRTCs when the virtual terminal is left
      ([vt_fbs_unreferenced]); a
      device stays open as long as a screen has it ([device_shared]), and its CRTCs are
      divided among its screens ([zaphod_crtcs_divided]).
    - The event queue: it stays well-formed whatever handlers do
      ([queue_reachable_wf]), and refines the contract "every request is answered by one
      callback" ([queue_refines_contract]).  With handlers that take no event off the
      lists and do not wait for flips themselves ([Calm]; they may ask for more events),
      its loops terminate and deliver in order ([handle_event_delivers]) and nothing
      stays deferred ([deferred_delivered]).
    - Page flips: each is reported once ([flip_completes]) and waits are balanced
      ([pageflip_balanced]).
    - Frames and time: [dpms_cycle], [msc_continuous], [timer_not_early],
      [wait_target_correct].
    - Pictures: TearFree shows the whole screen on CRTCs without a transform
      ([scanout_do_update_shows]), color
      tables are exact ([lut_interpolate_exact], [lut_compose_exact]), CPU and GPU
      accesses are ordered, if mapping a buffer waits or is done early
      ([cpu_gpu_coherent]), drawing is submitted before damage
      events and fences are seen ([damage_flushed_exact], [fence_flushed_first]).
    - Cursors: [cursor_position_exact], [cursor_double_buffered],
      [sprites_visible_exact].
    - Screens, outputs and leases: AMDGPUPreInit_KMS chooses one way to draw
      ([preinit_drawn_one_way]; later glamor can still fail, [accel_lost]), a failed
      resize changes nothing of it but its shadow ([resize_failure_restores]), hooks are
      put back, with the exceptions it names ([glamor_hooks_restored]), color tables
      have a size ([cm_init_sizes]), outputs follow the connectors
      ([hotplug_follows_connectors]) and leases the kernel ([lease_lifecycle]).
    - Round trips and searches: [kmode_roundtrip], [cm_set_get],
      [crtc_covering_box_best], [zaphod_matches_exact], [tear_free_property].
    - Defects the model exposes, as theorems about the code as it is: see the
      theorems on errors in Flip.v, PixmapFb.v, Cursor.v, Dri2Time.v, Dri3.v,
      Coherence.v, Color.v, Names.v, Leases.v, ScreenSpec.v, Hotplug.v, Hooks.v,
      Startup.v and Probe.v.  Theorems that need such a defect excluded say so in their
      comment.

    ** Fuel and bounds

    Loops over the entries of a list that the body changes run on fuel (the queue's
    loops, waiting for a flip, polling, handlers that call the queue again);
    out of fuel is a result of its own, never success.  Termination theorems
    ([handle_event_delivers], [deferred_delivered]) say how much is enough.  Safety
    theorems about the queue are partial in fuel: they hold for every amount.  Loops
    over lists that are fixed at entry need none.

    Integers are wrapped to their C width.  Not wrapped are counts that only a state no
    machine can hold would wrap: the int count of a framebuffer (2{^31} pointers to
    it), the count of users of the queue and the nesting level of a CRTC (2{^31}
    screens or nested waits), and the 32-bit mask of assigned CRTCs (a device with more
    than 32 CRTCs).  The counts of DRI2 buffers are shown not to wrap while fewer than
    2{^30} objects have been made ([counts_fit]).

    ** Not modelled

    Module and option tables (amdgpu_misc.c, AMDGPUOptions_KMS), functions that only
    call one of the server or of another part (AMDGPUSwitchMode_KMS,
    amdgpu_pci_probe, the sprite functions without state), the visuals of
    AMDGPUScreenInit_KMS, and fields that are written but never read.  Log messages are
    left out everywhere. *)
From stdpp Require Export base list gmap sets.
From Stdlib Require Export ZArith Lia.
#[global] Open Scope Z_scope.

(** ** Machine integers *)

Definition u16 (x : Z) : Z := x mod 2 ^ 16.
Definition u32 (x : Z) : Z := x mod 2 ^ 32.
Definition u64 (x : Z) : Z := x mod 2 ^ 64.
Definition s16 (x : Z) : Z := (x + 2 ^ 15) mod 2 ^ 16 - 2 ^ 15.
Definition s32 (x : Z) : Z := (x + 2 ^ 31) mod 2 ^ 32 - 2 ^ 31.
Definition s64 (x : Z) : Z := (x + 2 ^ 63) mod 2 ^ 64 - 2 ^ 63.

Definition in_u16 (x : Z) : Prop := 0 <= x < 2 ^ 16.
Definition in_u32 (x : Z) : Prop := 0 <= x < 2 ^ 32.
Definition in_u64 (x : Z) : Prop := 0 <= x < 2 ^ 64.
Definition in_s16 (x : Z) : Prop := - 2 ^ 15 <= x < 2 ^ 15.
Definition in_s32 (x : Z) : Prop := - 2 ^ 31 <= x < 2 ^ 31.
Definition in_s64 (x : Z) : Prop := - 2 ^ 63 <= x < 2 ^ 63.

Create HintDb machint.

Lemma u16_id x : in_u16 x -> u16 x = x.
Proof. intros H. apply Z.mod_small, H. Qed.
Lemma u32_id x : in_u32 x -> u32 x = x.
Proof. intros H. apply Z.mod_small, H. Qed.
Lemma u64_id x : in_u64 x -> u64 x = x.
Proof. intros H. apply Z.mod_small, H. Qed.
Lemma s16_id x : in_s16 x -> s16 x = x.
Proof. unfold in_s16, s16. intros H. rewrite Z.mod_small; lia. Qed.
Lemma s32_id x : in_s32 x -> s32 x = x.
Proof. unfold in_s32, s32. intros H. rewrite Z.mod_small; lia. Qed.

Lemma s64_id x : in_s64 x -> s64 x = x.
Proof. unfold in_s64, s64. intros H. rewrite Z.mod_small; lia. Qed.

Lemma u16_range x : in_u16 (u16 x).
Proof. apply Z.mod_pos_bound. lia. Qed.
Lemma u32_range x : in_u32 (u32 x).
Proof. apply Z.mod_pos_bound. lia. Qed.
Lemma u64_range x : in_u64 (u64 x).
Proof. apply Z.mod_pos_bound. lia. Qed.
Lemma s16_range x : in_s16 (s16 x).
Proof. unfold in_s16, s16. pose proof (Z.mod_pos_bound (x + 2 ^ 15) (2 ^ 16)). lia. Qed.
Lemma s32_range x : in_s32 (s32 x).
Proof. unfold in_s32, s32. pose proof (Z.mod_pos_bound (x + 2 ^ 31) (2 ^ 32)). lia. Qed.

#[export] Hint Resolve u16_range u32_range u64_range s16_range s32_range : machint.

(** The C macros [MAX] and [MIN] and the conditional expressions written out. *)
Lemma if_gtb_max a b : (if a >? b then a else b) = Z.max a b.
Proof. destruct (a >? b) eqn:?; lia. Qed.
Lemma if_ltb_min a b : (if a <? b then a else b) = Z.min a b.
Proof. destruct (a <? b) eqn:?; lia. Qed.

(** Case analysis on every [if] of the goal, innermost conditions first. *)
Ltac case_ifs :=
  repeat match goal with
         | |- context [if ?c then _ else _] =>
             lazymatch c with context [if _ then _ else _] => fail | _ => destruct c eqn:? end
         end.

(** Compute the bit tests between constants that [cbn] leaves alone. *)
Ltac eval_land :=
  repeat match goal with
         | |- context [Z.land (Zpos ?a) (Zpos ?b)] =>
             let v := eval vm_compute in (Z.land (Zpos a) (Zpos b)) in
             change (Z.land (Zpos a) (Zpos b)) with v
         end.

(** ** Record update

    [r <| f := v |>] is the C assignment [r.f = v].  A record declares its
    eta expansion once; the setter of a field is found from it. *)

Class Eta (R : Type) : Type := eta_of : R -> R.
Class Setter {R E : Type} (proj : R -> E) : Type := setf : (E -> E) -> R -> R.
Arguments setf {R E} proj {_} _ _.

Ltac derive_setter :=
  lazymatch goal with
  | |- @Setter ?R ?E ?proj =>
      let i := constr:(_ : Eta R) in
      let b := eval hnf in i in
      lazymatch eval pattern proj in b with
      | (fun _ => ?c) _ => fail "not a field"
      | ?F _ => exact (fun f : E -> E => F (fun r : R => f (proj r)))
      end
  end.
#[export] Hint Extern 0 (@Setter _ _ _) => derive_setter : typeclass_instances.

Declare Scope record_scope.
Delimit Scope record_scope with rec.
#[global] Open Scope record_scope.
Notation "r <| f := v |>" := (setf f (fun _ => v) r)
  (at level 12, f at next level, v at level 200, left associativity) : record_scope.
Notation "r <| f ::= g |>" := (setf f g r)
  (at level 12, f at next level, g at level 200, left associativity) : record_scope.

(** ** Faults, fuel and the state monad of the driver code

    C code that dereferences [NULL], touches freed memory, indexes outside an
    array, divides by zero or calls [FatalError] does not return: it ends in a
    [Fault].  Loops that the source does not bound run on fuel and end in
    [OutOfFuel] when it is spent; every such loop has a theorem that gives a
    sufficient amount. *)

Inductive fault : Type :=
| NullDeref
| UseAfterFree
| OutOfBounds
| DivByZero
| FatalError
| AssertFailed.

#[export] Instance fault_eq_dec : EqDecision fault.
Proof. solve_decision. Defined.

Inductive outcome (W A : Type) : Type :=
| Ok (a : A) (w : W)
| Fault (f : fault)
| OutOfFuel.
Arguments Ok {W A}.
Arguments Fault {W A}.
Arguments OutOfFuel {W A}.

Definition M (W A : Type) : Type := W -> outcome W A.

#[export] Instance M_ret {W} : MRet (M W) := fun A a w => Ok a w.
#[export] Instance M_bind {W} : MBind (M W) := fun A B k m w =>
  match m w with
  | Ok a w' => k a w'
  | Fault f => Fault f
  | OutOfFuel => OutOfFuel
  end.

Section Operations.
Context {W : Type}.

Definition gets {A} (f : W -> A) : M W A := fun w => Ok (f w) w.
Definition modify (f : W -> W) : M W unit := fun w => Ok tt (f w).
Definition raise {A} (f : fault) : M W A := fun _ => Fault f.
Definition nofuel {A} : M W A := fun _ => OutOfFuel.

(** The value of a pointer-like optional result, or the fault of using it. *)
Definition some_or {A} (f : fault) (o : option A) : M W A :=
  match o with Some a => mret a | None => raise f end.

Definition mwhen (b : bool) (m : M W unit) : M W unit := if b then m else mret tt.

(** A [for] loop over the elements of a list that is fixed at entry. *)
Fixpoint mfor {A} (l : list A) (f : A -> M W unit) : M W unit :=
  match l with
  | [] => mret tt
  | x :: r => mbind (fun _ => mfor r f) (f x)
  end.

(** The state a run leaves. *)
Definition after {A} (m : M W A) (w : W) : W := match m w with Ok _ w' => w' | _ => w end.
(** Whether a run ends with a result. *)
Definition returns {A} (m : M W A) (w : W) : bool := match m w with Ok _ _ => true | _ => false end.

(** Weakest precondition for total, fault-free execution. *)
Definition wp {A} (m : M W A) (Q : A -> W -> Prop) (w : W) : Prop :=
  match m w with Ok a w' => Q a w' | _ => False end.

Lemma wp_ret {A} (a : A) Q w : Q a w -> wp (mret a) Q w.
Proof. done. Qed.

Lemma wp_bind {A B} (m : M W A) (k : A -> M W B) Q w :
  wp m (fun a => wp (k a) Q) w -> wp (mbind k m) Q w.
Proof. unfold wp, mbind, M_bind. by destruct (m w). Qed.

(** The last step of [m] seen together with what came before it. *)
Lemma wp_assoc {A B C} (m : M W A) (g : A -> M W B) (k : B -> M W C) Q w :
  wp (mbind g m) (fun b => wp (k b) Q) w -> wp (mbind (fun a => mbind k (g a)) m) Q w.
Proof.
  unfold wp, mbind, M_bind. destruct (m w) as [a w'| |]; [| done | done]. by destruct (g a w').
Qed.

Lemma bind_ok {A B} (m : M W A) (k : A -> M W B) w a w' :
  m w = Ok a w' -> (mbind k m) w = k a w'.
Proof. unfold mbind, M_bind. by intros ->. Qed.

Lemma bind_fault {A B} (m : M W A) (k : A -> M W B) w f :
  m w = Fault f -> (mbind k m) w = Fault f.
Proof. unfold mbind, M_bind. by intros ->. Qed.

(** A total specification gives the result of the run. *)
Lemma wp_elim {A} (m : M W A) Q w : wp m Q w -> exists a w', m w = Ok a w' /\ Q a w'.
Proof. unfold wp. destruct (m w); [eauto | done | done]. Qed.

Lemma wp_run {A} (m : M W A) o w : wp m (fun a w' => Ok a w' = o) w -> m w = o.
Proof. unfold wp. by destruct (m w). Qed.

Lemma wp_gets {A} (f : W -> A) Q w : Q (f w) w -> wp (gets f) Q w.
Proof. done. Qed.

Lemma wp_modify f Q w : Q tt (f w) -> wp (modify f) Q w.
Proof. done. Qed.

Lemma wp_some_or {A} f (o : option A) a Q w :
  o = Some a -> Q a w -> wp (some_or f o) Q w.
Proof. by intros ->. Qed.

Lemma wp_mwhen b m Q w :
  (b = true -> wp m Q w) -> (b = false -> Q tt w) -> wp (mwhen b m) Q w.
Proof. destruct b; intros H1 H2; [by apply H1 | by apply H2]. Qed.

Lemma wp_mono {A} (m : M W A) (Q R : A -> W -> Prop) w :
  wp m Q w -> (forall a w', Q a w' -> R a w') -> wp m R w.
Proof. unfold wp. destruct (m w); naive_solver. Qed.

(** Loop rule: an invariant indexed by the elements still to do. *)
Lemma wp_mfor {A} (I : list A -> W -> Prop) (f : A -> M W unit) l w Q :
  I l w ->
  (forall x r w', I (x :: r) w' -> wp (f x) (fun _ => I r) w') ->
  (forall w', I [] w' -> Q tt w') ->
  wp (mfor l f) Q w.
Proof.
  intros HI Hstep HQ. revert w HI.
  induction l as [|x r IH]; intros w HI; [by apply HQ |].
  simpl. apply wp_bind. eapply wp_mono; [by apply Hstep |].
  intros [] w' HI'. by apply IH.
Qed.
End Operations.

(** ** Partial correctness

    [pwp m Q w]: if [m] returns, its result satisfies [Q].  Used for invariants
    of loops whose end is decided by callbacks or by the kernel. *)
Section Partial.
Context {W : Type}.

Definition pwp {A} (m : M W A) (Q : A -> W -> Prop) (w : W) : Prop :=
  match m w with Ok a w' => Q a w' | _ => True end.

Lemma pwp_ret {A} (a : A) Q w : Q a w -> pwp (mret a) Q w.
Proof. done. Qed.
Lemma pwp_bind {A B} (m : M W A) (k : A -> M W B) Q w :
  pwp m (fun a => pwp (k a) Q) w -> pwp (mbind k m) Q w.
Proof. unfold pwp, mbind, M_bind. by destruct (m w). Qed.
Lemma pwp_gets {A} (f : W -> A) Q w : Q (f w) w -> pwp (gets f) Q w.
Proof. done. Qed.
Lemma pwp_modify f (Q : unit -> W -> Prop) w : Q tt (f w) -> pwp (modify f) Q w.
Proof. done. Qed.
Lemma pwp_raise {A} f (Q : A -> W -> Prop) w : pwp (raise f) Q w.
Proof. done. Qed.
Lemma pwp_nofuel {A} (Q : A -> W -> Prop) w : pwp nofuel Q w.
Proof. done. Qed.
Lemma pwp_some_or {A} f (o : option A) (Q : A -> W -> Prop) w :
  (forall a, o = Some a -> Q a w) -> pwp (some_or f o) Q w.
Proof. destruct o; intros H; [by apply H | done]. Qed.
Lemma pwp_mono {A} (m : M W A) (Q R : A -> W -> Prop) w :
  pwp m Q w -> (forall a w', Q a w' -> R a w') -> pwp m R w.
Proof. unfold pwp. destruct (m w); auto. Qed.
Lemma pwp_and {A} (m : M W A) (Q R : A -> W -> Prop) w :
  pwp m Q w -> pwp m R w -> pwp m (fun a w' => Q a w' /\ R a w') w.
Proof. unfold pwp. by destruct (m w). Qed.
Lemma pwp_mwhen b m (Q : unit -> W -> Prop) w :
  (b = true -> pwp m Q w) -> (b = false -> Q tt w) -> pwp (mwhen b m) Q w.
Proof. destruct b; intros H1 H2; [by apply H1 | by apply H2]. Qed.
Lemma pwp_mfor {A} (I : W -> Prop) (f : A -> M W unit) l w :
  I w -> (forall x w', I w' -> pwp (f x) (fun _ => I) w') -> pwp (mfor l f) (fun _ => I) w.
Proof.
  intros HI Hstep. revert w HI. induction l as [|x r IH]; intros w HI; [done |].
  simpl. apply pwp_bind. eapply pwp_mono; [by apply Hstep |]. intros [] w' HI'. by apply IH.
Qed.
Lemma wp_pwp {A} (m : M W A) (Q : A -> W -> Prop) w : wp m Q w -> pwp m Q w.
Proof. unfold wp, pwp. by destruct (m w). Qed.
Lemma pwp_any {A} (m : M W A) w : pwp m (fun _ _ => True) w.
Proof. unfold pwp. by destruct (m w). Qed.
End Partial.

(** Symbolic execution: peel one monadic operation off a [wp] goal. *)
Ltac wp_step :=
  lazymatch goal with
  | |- wp (mbind _ _) _ _ => apply wp_bind
  | |- wp (mret _) _ _ => apply wp_ret
  | |- wp (gets _) _ _ => apply wp_gets
  | |- wp (modify _) _ _ => apply wp_modify
  | |- wp (mwhen _ _) _ _ => apply wp_mwhen; intros ?
  | |- wp (if ?b then _ else _) _ _ => destruct b eqn:?
  end.
Ltac wp_go := repeat (wp_step; cbn beta).

(** ** Sums over finite maps

    [msum f m] adds [f] over the entries of [m]: the reference counting
    invariants count pointers with it. *)
Section Msum.
Context {K A : Type} `{Countable K}.
Implicit Types (m : gmap K A) (f : A -> Z).

Definition msum (f : A -> Z) (m : gmap K A) : Z := map_fold (fun _ a n => f a + n) 0 m.

Lemma msum_empty f : msum f ∅ = 0.
Proof. apply map_fold_empty. Qed.

Lemma msum_insert_fresh f m k a : m !! k = None -> msum f (<[k := a]> m) = f a + msum f m.
Proof. intros Hk. unfold msum. apply (map_fold_insert_L (fun _ a n => f a + n)); [intros; lia | done]. Qed.

Lemma msum_delete f m k a : m !! k = Some a -> msum f m = f a + msum f (delete k m).
Proof.
  intros Hk. rewrite <- (insert_delete_id m k a Hk) at 1.
  by rewrite msum_insert_fresh by apply lookup_delete_eq.
Qed.

Lemma msum_insert f m k a a' :
  m !! k = Some a -> msum f (<[k := a']> m) = msum f m - f a + f a'.
Proof.
  intros Hk. rewrite (msum_delete f m k a Hk), <- insert_delete_eq.
  rewrite msum_insert_fresh by apply lookup_delete_eq. lia.
Qed.

Lemma msum_singleton f k a : msum f {[k := a]} = f a.
Proof. rewrite <- insert_empty, msum_insert_fresh, msum_empty by apply lookup_empty. lia. Qed.

Lemma msum_nonneg f m : (forall k a, m !! k = Some a -> 0 <= f a) -> 0 <= msum f m.
Proof.
  induction m as [|k a m Hk IH] using map_ind; intros Hf; [by rewrite msum_empty |].
  rewrite msum_insert_fresh by done. pose proof (Hf k a (lookup_insert_eq _ _ _)).
  assert (0 <= msum f m); [| lia]. apply IH. intros k' a' Hk'. apply (Hf k').
  rewrite lookup_insert_ne; congruence.
Qed.

Lemma msum_pos f m k a :
  (forall k a, m !! k = Some a -> 0 <= f a) -> m !! k = Some a -> f a <= msum f m.
Proof.
  intros Hf Hk. rewrite (msum_delete f m k a Hk).
  assert (0 <= msum f (delete k m)); [| lia]. apply msum_nonneg.
  intros k' a' Hk'. apply lookup_delete_Some in Hk' as [_ ?]. by eapply Hf.
Qed.

Lemma msum_zero f m : (forall k a, m !! k = Some a -> f a = 0) -> msum f m = 0.
Proof.
  induction m as [|k a m Hk IH] using map_ind; intros Hf; [by rewrite msum_empty |].
  rewrite msum_insert_fresh, (Hf k a) by (done || apply lookup_insert_eq).
  rewrite IH; [done |]. intros k' a' Hk'. apply (Hf k'). rewrite lookup_insert_ne; congruence.
Qed.
End Msum.

Lemma list_filter_all {A} (P : A -> Prop) `{!forall x, Decision (P x)} l : Forall P l -> filter P l = l.
Proof. induction 1 as [|x l Hx _ IH]; [done |]. by rewrite filter_cons_True, IH. Qed.
Lemma list_filter_none {A} (P : A -> Prop) `{!forall x, Decision (P x)} l : Forall (fun x => ~ P x) l -> filter P l = [].
Proof. induction 1 as [|x l Hx _ IH]; [done |]. by rewrite filter_cons_False, IH. Qed.

Lemma NoDup_perm {A} (l k : list A) : l ≡ₚ k -> NoDup l -> NoDup k.
Proof. by intros ->. Qed.

Lemma Forall_perm {A} (P : A -> Prop) (l k : list A) : l ≡ₚ k -> Forall P l -> Forall P k.
Proof. by intros ->. Qed.

Lemma Forall_filter_sub {A} (P Q : A -> Prop) `{!forall x, Decision (Q x)} (l : list A) :
  Forall P l -> Forall P (filter Q l).
Proof.
  rewrite !Forall_forall. intros Hl x Hx. apply list_elem_of_filter in Hx as [_ Hx]. auto.
Qed.

Lemma filter_perm_split {A} (P : A -> Prop) `{!forall x, Decision (P x)} (l : list A) :
  l ≡ₚ filter P l ++ filter (fun x => ~ P x) l.
Proof.
  induction l as [|x l IH]; [done |]. destruct (decide (P x)) as [Hx|Hx].
  - rewrite filter_cons_True, filter_cons_False by (done || tauto). cbn. by f_equiv.
  - rewrite filter_cons_False, (filter_cons_True (fun x => ~ P x)) by done.
    by rewrite <- Permutation_middle, <- IH.
Qed.

(** Sum over a list. *)
Definition lsum {A} (f : A -> Z) (l : list A) : Z := foldr (fun a n => f a + n) 0 l.

Lemma lsum_insert {A} (f : A -> Z) (l : list A) i a a' :
  l !! i = Some a -> lsum f (<[i := a']> l) = lsum f l - f a + f a'.
Proof.
  revert i. induction l as [|b l IH]; intros [|i] Hi; try done.
  - injection Hi as ->. cbn. lia.
  - change (f b + lsum f (<[i := a']> l) = f b + lsum f l - f a + f a').
    rewrite (IH i Hi). lia.
Qed.

Lemma lsum_nonneg {A} (f : A -> Z) (l : list A) : (forall a, 0 <= f a) -> 0 <= lsum f l.
Proof. intros Hf. induction l as [|a l IH]; [done |].
  change (0 <= f a + lsum f l). specialize (Hf a). lia.
Qed.

Lemma lsum_replicate {A} (f : A -> Z) n a : f a = 0 -> lsum f (replicate n a) = 0.
Proof.
  intros Ha. induction n as [|n IH]; [done |].
  change (f a + lsum f (replicate n a) = 0). lia.
Qed.

(** One if the pointer is [l], zero otherwise. *)
Definition points {A} `{EqDecision A} (l : A) (o : option A) : Z := Z.b2z (bool_decide (o = Some l)).

Lemma points_range {A} `{EqDecision A} (l : A) o : 0 <= points l o <= 1.
Proof. unfold points. by case_bool_decide. Qed.
Lemma points_None {A} `{EqDecision A} (l : A) : points l None = 0.
Proof. unfold points. by case_bool_decide. Qed.
Lemma points_self {A} `{EqDecision A} (l : A) : points l (Some l) = 1.
Proof. unfold points. by case_bool_decide. Qed.
Lemma points_other {A} `{EqDecision A} (l l' : A) : l <> l' -> points l (Some l') = 0.
Proof. unfold points. case_bool_decide; [congruence | done]. Qed.

(** ** Reference counts

    [counted rc m n]: the objects of [m] are exactly the ones with references,
    and their count field [rc] is the number [n] of references. *)
Section Counted.
Context {K A : Type} `{Countable K} (rc : A -> Z).
Implicit Types (m : gmap K A) (n : K -> Z).

Definition counted (m : gmap K A) (n : K -> Z) : Prop :=
  forall l, match m !! l with Some a => rc a = n l /\ 0 < rc a | None => n l = 0 end.

Lemma counted_ext m n n' : (forall l, n l = n' l) -> counted m n -> counted m n'.
Proof. intros Hn Hc l. specialize (Hc l). by rewrite <- Hn. Qed.

Lemma counted_live m n k : counted m n -> 0 < n k -> exists a, m !! k = Some a /\ rc a = n k.
Proof. intros Hc Hk. specialize (Hc k). destruct (m !! k); [naive_solver | lia]. Qed.

Lemma counted_pos m n k a : counted m n -> m !! k = Some a -> rc a = n k /\ 0 < n k.
Proof. intros Hc Hk. specialize (Hc k). rewrite Hk in Hc. lia. Qed.

(** The object at [k] replaced by one whose count says [d] more. *)
Lemma counted_insert m n k a d :
  counted m n -> 0 < rc a -> rc a = n k + d ->
  counted (<[k := a]> m) (fun l => n l + d * points l (Some k)).
Proof.
  intros Hc Ha Hn l. destruct (decide (l = k)) as [->|Hne].
  - rewrite lookup_insert_eq, points_self. lia.
  - rewrite lookup_insert_ne, points_other by done. specialize (Hc l).
    destruct (m !! l); lia.
Qed.

(** The object at [k] freed with its last reference. *)
Lemma counted_delete m n k :
  counted m n -> n k = 1 -> counted (delete k m) (fun l => n l - points l (Some k)).
Proof.
  intros Hc Hn l. destruct (decide (l = k)) as [->|Hne].
  - rewrite lookup_delete_eq, points_self. lia.
  - rewrite lookup_delete_ne, points_other by done. specialize (Hc l).
    destruct (m !! l); lia.
Qed.
End Counted.

(** Equal sums after an update that does not change what is summed. *)
Lemma msum_alter_same {K A} `{Countable K} (f : A -> Z) (g : A -> A) (m : gmap K A) k :
  (forall a, f (g a) = f a) -> msum f (alter g k m) = msum f m.
Proof.
  intros Hg. destruct (m !! k) as [a|] eqn:Hk.
  - replace (alter g k m) with (<[k := g a]> m).
    + rewrite (msum_insert f m k a (g a) Hk), Hg. lia.
    + apply map_eq. intros i. destruct (decide (i = k)) as [->|Hne].
      * by rewrite lookup_insert_eq, lookup_alter_eq, Hk.
      * by rewrite lookup_insert_ne, lookup_alter_ne.
  - replace (alter g k m) with m; [done |]. apply map_eq. intros i.
    destruct (decide (i = k)) as [->|Hne].
    + by rewrite lookup_alter_eq, Hk.
    + by rewrite lookup_alter_ne.
Qed.

#[global] Arguments msum : simpl never.
#[global] Arguments lsum : simpl never.
#[global] Arguments points : simpl never.
