(* ===== verification/Modes.v ===== *)
(** * Display modes: drmModeModeInfo and DisplayModeRec

    The two representations of a video timing and the conversions
    [drmmode_ConvertFromKMode] / [drmmode_ConvertToKMode] of
    src/src/drmmode_display.c. *)
From stdpp Require Import strings.
From S2P Require Import Prelude.

(** The kernel's [drmModeModeInfo]: [uint32_t clock], sixteen-bit timings,
    [uint32_t] refresh, flags and type, and [char name[32]]. *)
Record drmModeModeInfo := KMode {
  clock : Z;
  hdisplay : Z; hsync_start : Z; hsync_end : Z; htotal : Z; hskew : Z;
  vdisplay : Z; vsync_start : Z; vsync_end : Z; vtotal : Z; vscan : Z;
  vrefresh : Z;
  kflags : Z;
  ktype : Z;
  kname : string
}.

(** The X server's [DisplayModeRec], all [int]s, as far as the driver uses it;
    [CrtcHDisplay] stands for the block of fields [xf86SetModeCrtc] derives. *)
Record DisplayModeRec := DMode {
  Clock : Z;
  HDisplay : Z; HSyncStart : Z; HSyncEnd : Z; HTotal : Z; HSkew : Z;
  VDisplay : Z; VSyncStart : Z; VSyncEnd : Z; VTotal : Z; VScan : Z;
  Flags : Z;
  mname : option string;
  mtype : Z;
  CrtcHDisplay : Z
}.

#[export] Instance eta_kmode : Eta drmModeModeInfo := fun r =>
  KMode (clock r) (hdisplay r) (hsync_start r) (hsync_end r) (htotal r) (hskew r)
        (vdisplay r) (vsync_start r) (vsync_end r) (vtotal r) (vscan r)
        (vrefresh r) (kflags r) (ktype r) (kname r).
#[export] Instance eta_dmode : Eta DisplayModeRec := fun r =>
  DMode (Clock r) (HDisplay r) (HSyncStart r) (HSyncEnd r) (HTotal r) (HSkew r)
        (VDisplay r) (VSyncStart r) (VSyncEnd r) (VTotal r) (VScan r)
        (Flags r) (mname r) (mtype r) (CrtcHDisplay r).
#[export] Instance kmode_eq_dec : EqDecision drmModeModeInfo.
Proof. solve_decision. Defined.
#[export] Instance dmode_eq_dec : EqDecision DisplayModeRec.
Proof. solve_decision. Defined.

Definition DRM_MODE_TYPE_PREFERRED : Z := 2 ^ 3.
Definition DRM_MODE_TYPE_DRIVER : Z := 2 ^ 6.
Definition M_T_PREFERRED : Z := 8.
Definition M_T_DRIVER : Z := 64.
Definition DRM_DISPLAY_MODE_LEN : nat := 32.

(** [memset(mode, 0, sizeof(DisplayModeRec))]. *)
Definition zero_mode : DisplayModeRec :=
  DMode 0 0 0 0 0 0 0 0 0 0 0 0 None 0 0.

(** [strncpy(dst, s, n); dst[n - 1] = 0]: at most [n - 1] characters remain. *)
Definition strncpy_trunc (n : nat) (s : string) : string := String.substring 0 (n - 1) s.

Section Convert.
(** [strdup] may fail; [xf86SetModeCrtc] is X server code. *)
Variable strdup : string -> option string.
Variable xf86SetModeCrtc : DisplayModeRec -> Z -> DisplayModeRec.

Definition drmmode_ConvertFromKMode (adjustFlags : Z) (kmode : drmModeModeInfo)
  : DisplayModeRec :=
  let mode := zero_mode
    <| Clock := s32 (clock kmode) |>
    <| HDisplay := hdisplay kmode |> <| HSyncStart := hsync_start kmode |>
    <| HSyncEnd := hsync_end kmode |> <| HTotal := htotal kmode |>
    <| HSkew := hskew kmode |>
    <| VDisplay := vdisplay kmode |> <| VSyncStart := vsync_start kmode |>
    <| VSyncEnd := vsync_end kmode |> <| VTotal := vtotal kmode |>
    <| VScan := vscan kmode |>
    <| Flags := s32 (kflags kmode) |>
    <| mname := strdup (kname kmode) |> in
  let mode := if negb (Z.land (ktype kmode) DRM_MODE_TYPE_DRIVER =? 0)
              then mode <| mtype := M_T_DRIVER |> else mode in
  let mode := if negb (Z.land (ktype kmode) DRM_MODE_TYPE_PREFERRED =? 0)
              then mode <| mtype := Z.lor (mtype mode) M_T_PREFERRED |> else mode in
  xf86SetModeCrtc mode adjustFlags.

Definition drmmode_ConvertToKMode (mode : DisplayModeRec) : drmModeModeInfo :=
  {| clock := u32 (Clock mode);
     hdisplay := u16 (HDisplay mode); hsync_start := u16 (HSyncStart mode);
     hsync_end := u16 (HSyncEnd mode); htotal := u16 (HTotal mode);
     hskew := u16 (HSkew mode);
     vdisplay := u16 (VDisplay mode); vsync_start := u16 (VSyncStart mode);
     vsync_end := u16 (VSyncEnd mode); vtotal := u16 (VTotal mode);
     vscan := u16 (VScan mode);
     vrefresh := 0;
     kflags := u32 (Flags mode);
     ktype := 0;
     kname := match mname mode with
              | Some n => strncpy_trunc DRM_DISPLAY_MODE_LEN n
              | None => EmptyString
              end |}.

(** ** Round trip *)

(** What the kernel hands out: every field at its width and a terminated
    name. *)
Definition kmode_wf (k : drmModeModeInfo) : Prop :=
  in_u32 (clock k) /\
  Forall in_u16 [hdisplay k; hsync_start k; hsync_end k; htotal k; hskew k;
                 vdisplay k; vsync_start k; vsync_end k; vtotal k; vscan k] /\
  in_u32 (kflags k) /\ (String.length (kname k) <= 31)%nat.

(** The fields of a mode that the X server's derivation of the CRTC timings
    leaves alone. *)
Definition same_timing (a b : DisplayModeRec) : Prop :=
  a <| CrtcHDisplay := 0 |> = b <| CrtcHDisplay := 0 |>.

Hypothesis strdup_copies : forall s, strdup s = Some s.
Hypothesis SetModeCrtc_timing : forall m f, same_timing (xf86SetModeCrtc m f) m.

Lemma substring_id s n : (String.length s <= n)%nat -> String.substring 0 n s = s.
Proof.
  revert n. induction s as [|c s IH]; intros [|n]; simpl; try done; intros; [lia |].
  f_equal. apply IH. lia.
Qed.

Lemma u32_s32 x : in_u32 x -> u32 (s32 x) = x.
Proof.
  unfold in_u32, u32, s32. intros H.
  rewrite Zminus_mod, Zmod_mod, <- Zminus_mod.
  replace (x + 2 ^ 31 - 2 ^ 31) with x by lia. by apply Z.mod_small.
Qed.

Lemma ConvertToKMode_timing a b :
  same_timing a b -> drmmode_ConvertToKMode a = drmmode_ConvertToKMode b.
Proof.
  destruct a, b. unfold same_timing. cbn. intros [= -> -> -> -> -> -> -> -> -> -> -> -> -> ->].
  reflexivity.
Qed.

(** C39. Whatever the kernel reports is what the driver programs back, except for
    the refresh rate and the type bits, which it clears. *)
Theorem kmode_roundtrip k f :
  kmode_wf k ->
  drmmode_ConvertToKMode (drmmode_ConvertFromKMode f k)
  = k <| vrefresh := 0 |> <| ktype := 0 |>.
Proof.
  intros (Hc & Hf & Hfl & Hn). repeat (apply Forall_cons in Hf as [? Hf]).
  unfold drmmode_ConvertFromKMode. cbv zeta.
  rewrite (ConvertToKMode_timing _ _ (SetModeCrtc_timing _ _)), strdup_copies.
  destruct k; cbn in *. unfold drmmode_ConvertToKMode, strncpy_trunc, DRM_DISPLAY_MODE_LEN.
  do 2 destruct (negb _); cbn;
    rewrite ?u32_s32, ?u16_id, ?substring_id by assumption; reflexivity.
Qed.
End Convert.

Definition sample_kmode : drmModeModeInfo :=
  KMode 148500 1920 2008 2052 2200 0 1080 1084 1089 1125 0 60 5 72 "1920x1080".

Lemma kmode_roundtrip_witness :
  kmode_wf sample_kmode /\
  drmmode_ConvertToKMode (drmmode_ConvertFromKMode Some (fun m _ => m <| CrtcHDisplay := HDisplay m |>) 0 sample_kmode)
  = sample_kmode <| vrefresh := 0 |> <| ktype := 0 |>.
Proof.
  assert (Hwf : kmode_wf sample_kmode).
  { unfold kmode_wf, in_u32. split_and!; cbn; try lia.
    repeat (apply Forall_cons; split; [unfold in_u16; lia |]). constructor. }
  split; [done |]. by apply (kmode_roundtrip Some (fun m _ => m <| CrtcHDisplay := HDisplay m |>)).
Defined.
