(* ===== verification/Region.v ===== *)
(** * Boxes and regions of the X server

    [BoxRec] with its 16-bit corners, and regions as sets of pixels with the
    operations of the server's region library that the driver calls. *)
From S2P Require Import Prelude.

(** [BoxRec]: four [short]s. *)
Record BoxRec := Box { x1 : Z; y1 : Z; x2 : Z; y2 : Z }.
#[export] Instance eta_BoxRec : Eta BoxRec := fun r => Box (x1 r) (y1 r) (x2 r) (y2 r).

Abbreviation pixel := (Z * Z)%type.
Abbreviation region := (gset pixel).

Definition in_box (b : BoxRec) (p : pixel) : Prop := x1 b <= p.1 < x2 b /\ y1 b <= p.2 < y2 b.
#[export] Instance in_box_dec b p : Decision (in_box b p).
Proof. unfold in_box. apply _. Defined.

(** The corners are values of type [short]. *)
Definition box_s16 (b : BoxRec) : Prop :=
  in_s16 (x1 b) /\ in_s16 (y1 b) /\ in_s16 (x2 b) /\ in_s16 (y2 b).

(** The region of a box. *)
Definition box_region (b : BoxRec) : region :=
  list_to_set (x ← seqZ (x1 b) (x2 b - x1 b); y ← seqZ (y1 b) (y2 b - y1 b); [(x, y)]).

Lemma elem_of_box_region b p : p ∈ box_region b <-> in_box b p.
Proof.
  unfold box_region. rewrite elem_of_list_to_set, list_elem_of_bind. unfold in_box. split.
  - intros (x & Hp & Hx). apply list_elem_of_bind in Hp as (y & Hp & Hy).
    apply list_elem_of_singleton in Hp as ->. apply elem_of_seqZ in Hx, Hy. cbn. lia.
  - destruct p as [x y]. cbn. intros H. exists x. rewrite elem_of_seqZ. split; [| lia].
    apply list_elem_of_bind. exists y. rewrite list_elem_of_singleton, elem_of_seqZ. split; [done | lia].
Qed.

(** The smallest box around two boxes, and [RegionExtents]. *)
Definition box_union (a b : BoxRec) : BoxRec :=
  Box (x1 a `min` x1 b) (y1 a `min` y1 b) (x2 a `max` x2 b) (y2 a `max` y2 b).
Definition box_pixel (p : pixel) : BoxRec := Box p.1 p.2 (p.1 + 1) (p.2 + 1).
Definition pixels_extents (l : list pixel) : BoxRec :=
  match l with
  | [] => Box 0 0 0 0
  | p :: r => foldr (fun q b => box_union (box_pixel q) b) (box_pixel p) r
  end.
Definition RegionExtents (r : region) : BoxRec := pixels_extents (elements r).

Definition RegionNil (r : region) : bool := bool_decide (r = ∅).
Definition RegionTranslate (dx dy : Z) (r : region) : region :=
  set_map (fun p => (p.1 + dx, p.2 + dy)) r.

Lemma extents_fold p l q :
  q ∈ p :: l -> in_box (foldr (fun q b => box_union (box_pixel q) b) (box_pixel p) l) q.
Proof.
  revert q. induction l as [|r l IH]; intros q Hq.
  - apply list_elem_of_singleton in Hq as ->. cbn [foldr]. unfold in_box, box_pixel. cbn [x1 y1 x2 y2]. lia.
  - cbn [foldr]. revert IH. generalize (foldr (fun q b => box_union (box_pixel q) b) (box_pixel p) l).
    intros b IH. unfold in_box, box_union, box_pixel in *. cbn [x1 y1 x2 y2].
    rewrite !elem_of_cons in Hq. destruct Hq as [-> | [-> | Hq]].
    + pose proof (IH p (list_elem_of_here p l)). lia.
    + lia.
    + pose proof (IH q (list_elem_of_further q p l Hq)). lia.
Qed.

(** Every pixel of a region lies in its extents. *)
Lemma region_extents r p : p ∈ r -> in_box (RegionExtents r) p.
Proof.
  intros Hp. unfold RegionExtents, pixels_extents. apply elem_of_elements in Hp.
  destruct (elements r) as [|q l]; [by apply not_elem_of_nil in Hp |]. by apply extents_fold.
Qed.

Lemma elem_of_translate dx dy r p : p ∈ RegionTranslate dx dy r <-> (p.1 - dx, p.2 - dy) ∈ r.
Proof.
  unfold RegionTranslate. rewrite elem_of_map. split.
  - intros ([a b] & -> & H). cbn. by replace (a + dx - dx, b + dy - dy) with (a, b) by (f_equal; lia).
  - intros H. exists (p.1 - dx, p.2 - dy). split; [| done]. destruct p. cbn. f_equal; lia.
Qed.

(** The code of the server and its libraries that the driver only calls for a
    value: [pixman_f_transform_bounds], which replaces a box by the bounds of its
    image, the list of boxes a region is stored as, and the bits per pixel of the
    server's pixmap format for a depth. *)
Class XServer := {
  pixman_f_transform_bounds : Z -> BoxRec -> BoxRec;
  RegionRects : region -> list BoxRec;
  pixmap_format_bpp : Z -> option Z
}.
