(* ===== verification/World.v ===== *)
(** * The driver's data and its interaction with the outside

    The structures of amdgpu_drv.h, amdgpu_pixmap.h, drmmode_display.h,
    amdgpu_probe.h and amdgpu_drm_queue.c as records, the heap that holds them,
    and the calls the driver makes to the kernel, to libdrm, gbm and
    libdrm_amdgpu and to the X server. *)
From stdpp Require Import strings.
From S2P Require Import Prelude Modes Region.

(** Addresses of heap objects; C's [NULL] is [None] of an [option loc]. *)
Abbreviation loc := positive.

(** ** DPMS and rotation constants *)
Definition DPMSModeOn : Z := 0.
Definition DPMSModeOff : Z := 3.
Definition RR_Rotate_0 : Z := 1.
Definition RR_Rotate_90 : Z := 2.
Definition RR_Rotate_180 : Z := 4.
Definition RR_Rotate_270 : Z := 8.
Definition RR_Reflect_X : Z := 16.
Definition RR_Reflect_Y : Z := 32.

(** ** Buffers, framebuffers and pixmaps *)

Definition AMDGPU_BO_FLAGS_GBM : Z := 1.

(** [struct amdgpu_buffer]; [bo_handle] names the object of the union
    [bo.gbm] / [bo.amdgpu], of which [flags] says which one it is. *)
Record amdgpu_buffer := Buffer {
  bo_handle : Z;
  cpu_ptr : Z;
  ref_count : Z;
  bo_flags : Z
}.

Record drmmode_fb := Fb {
  refcnt : Z;
  fb_handle : Z
}.

(** [struct amdgpu_pixmap], the driver's private data of a pixmap. *)
Record amdgpu_pixmap := Priv {
  gpu_read : Z;
  gpu_write : Z;
  tiling_info : Z;
  priv_bo : option loc;
  priv_fb : option loc;
  fb_failed : bool;
  handle_valid : bool;
  priv_handle : Z
}.

(** The part of the X server's pixmap the driver reads or writes. *)
Record pixmap := Pixmap {
  pix_scrn : loc;
  pix_width : Z;
  pix_height : Z;
  pix_depth : Z;
  pix_bpp : Z;
  devKind : Z;
  pix_refcnt : Z;
  pix_priv : option amdgpu_pixmap;
  devPrivate_ptr : Z;
  usage_hint : Z
}.

(** ** Callbacks of queue entries

    Function pointers become names; the data pointer passed with them says
    which kind of object it addresses; [CrtcData] is the driver's part of a CRTC. *)
Inductive handler_proc : Type :=
| drmmode_flip_handler_proc
| amdgpu_scanout_flip_handler_proc
| amdgpu_scanout_update_handler_proc
| amdgpu_prime_scanout_update_handler_proc
| amdgpu_present_vblank_handler_proc
| amdgpu_present_flip_event_proc
| amdgpu_dri2_frame_event_handler_proc
| amdgpu_dri2_flip_event_handler_proc.

Inductive abort_proc : Type :=
| drmmode_flip_abort_proc
| amdgpu_scanout_flip_abort_proc
| amdgpu_scanout_update_abort_proc
| amdgpu_prime_scanout_update_abort_proc
| amdgpu_present_vblank_abort_proc
| amdgpu_present_flip_abort_proc
| amdgpu_dri2_frame_event_abort_proc
| amdgpu_dri2_flip_event_abort_proc.

Inductive cookie : Type :=
| NoData
| FlipData (l : loc)
| FbData (l : loc)
| EventData (l : loc)
| CrtcData (l : loc)
| FrameData (l : loc)
| FlipEventData (l : loc).

#[export] Instance handler_proc_eq_dec : EqDecision handler_proc.
Proof. solve_decision. Defined.
#[export] Instance abort_proc_eq_dec : EqDecision abort_proc.
Proof. solve_decision. Defined.
#[export] Instance cookie_eq_dec : EqDecision cookie.
Proof. solve_decision. Defined.

(** [struct amdgpu_drm_queue_entry]; [q_addr] is its address, by which the
    list operations find it. *)
Record queue_entry := Entry {
  q_addr : loc;
  q_usec : Z;
  q_id : Z;
  q_seq : Z;
  q_data : cookie;
  q_client : Z;
  q_crtc : loc;
  q_handler : option handler_proc;
  q_abort : abort_proc;
  q_is_flip : bool;
  q_frame : Z
}.

(** The file-scope variables of amdgpu_drm_queue.c. *)
Record drm_queue := Queue {
  amdgpu_drm_queue_refcnt : Z;
  amdgpu_drm_queue : list queue_entry;
  amdgpu_drm_flip_signalled : list queue_entry;
  amdgpu_drm_vblank_signalled : list queue_entry;
  amdgpu_drm_vblank_deferred : list queue_entry;
  amdgpu_drm_queue_seq : Z
}.

(** [drmmode_flipdata_rec]; [fd_fb] is the trailing array, indexed by the
    hardware CRTC number. *)
Record drmmode_flipdata := Flipdata {
  fd_event_data : cookie;
  flip_count : Z;
  fe_frame : Z;
  fe_usec : Z;
  fe_crtc : option loc;
  fd_handler : handler_proc;
  fd_abort : abort_proc;
  fd_fb : list (option loc)
}.

(** [struct amdgpu_present_vblank_event]. *)
Record present_event := PEvent {
  pe_event_id : Z;
  pe_unflip : bool
}.

(** ** DRI2 *)

Inductive DRI2FrameEventType : Type :=
| DRI2_SWAP
| DRI2_FLIP
| DRI2_WAITMSC.

(** [DRI2FrameEventRec]; clients, timers and the server's callback and its data
    are opaque. *)
Record DRI2FrameEvent := FrameEvent {
  fv_drawable_id : Z;
  fv_client : Z;
  fv_type : DRI2FrameEventType;
  fv_frame : Z;
  fv_crtc : option loc;
  fv_timer : option loc;
  fv_drm_queue_seq : Z;
  event_complete : Z;
  fv_event_data : Z;
  fv_front : option loc;
  fv_back : option loc
}.

(** [DRI2BufferRec] with the driver's [struct dri2_buffer_priv] inlined. *)
Record dri2_buffer := Dri2Buffer {
  buf_attachment : Z;
  buf_name : Z;
  buf_pitch : Z;
  buf_cpp : Z;
  buf_format : Z;
  bp_pixmap : option loc;
  bp_attachment : Z;
  bp_refcnt : Z
}.

(** A drawable of the X server, known by its XID, with the driver's [struct
    dri2_window_priv], which only windows have; [draw_pixmap] is what
    [get_drawable_pixmap] returns. *)
Record drawable := DrawableRec {
  draw_is_window : bool;
  draw_scrn : loc;
  draw_x : Z;
  draw_y : Z;
  draw_width : Z;
  draw_height : Z;
  draw_depth : Z;
  draw_bpp : Z;
  draw_pixmap : loc;
  wp_crtc : option loc;
  vblank_delta : Z;
  last_flip_ust : Z;
  wp_flip_count : Z
}.

(** What a [DrawablePtr] may point to: a drawable of a client or a pixmap of the
    driver. *)
Inductive drawable_ref : Type :=
| DrawRef (id : Z)
| PixmapRef (l : loc).
#[export] Instance drawable_ref_eq_dec : EqDecision drawable_ref.
Proof. solve_decision. Defined.

(** [struct amdgpu_dri3_syncobj] *)
Record syncobj := Syncobj { syncobj_handle : Z; owns_handle : bool }.

(** ** Color management *)
Record drm_color_lut := Lut { red : Z; green : Z; blue : Z; reserved : Z }.

Inductive drmmode_cm_prop : Type :=
| CM_DEGAMMA_LUT
| CM_CTM
| CM_GAMMA_LUT
| CM_DEGAMMA_LUT_SIZE
| CM_GAMMA_LUT_SIZE
| CM_INVALID_PROP.
#[export] Instance cm_prop_eq_dec : EqDecision drmmode_cm_prop.
Proof. solve_decision. Defined.

(** ** CRTCs, outputs, screens *)

(** [drmmode_crtc_private_rec]: what [crtc->driver_private] points to.
    [mode_crtc_id] and [buffer_id] are the two members of [*mode_crtc] the
    driver uses. *)
Record drmmode_crtc := DCrtc {
  mode_crtc_id : Z;
  buffer_id : Z;
  hw_id : Z;
  cursor : option loc;
  cursor_x : Z;
  cursor_y : Z;
  cursor_xhot : Z;
  cursor_yhot : Z;
  cursor_id : Z;
  cursor_buffer : option loc * option loc;
  rotate : option loc;
  scanout : option loc * option loc;
  scanout_damage : option region;
  scanout_last_region : region;
  ignore_damage : bool;
  scanout_id : Z;
  scanout_update_pending : Z;
  tear_free : bool;
  scanout_status : Z;
  vrr_enabled : bool;
  prime_scanout_pixmap : option loc;
  dpms_mode : Z;
  dpms_last_ust : Z;
  dpms_last_seq : Z;
  dpms_last_fps : Z;
  interpolated_vblanks : Z;
  need_modeset : bool;
  wait_flip_nesting_level : Z;
  flip_pending : option loc;
  crtc_fb : option loc;
  degamma_lut : option (list drm_color_lut);
  ctm : option (list Z);
  gamma_lut : option (list drm_color_lut)
}.

(** What the server wants a CRTC to show: [desiredMode], [desiredRotation],
    [desiredX] and [desiredY]. *)
Record desired_config := Desired {
  desiredMode : DisplayModeRec;
  desiredRotation : Z;
  desiredX : Z;
  desiredY : Z
}.

(** The part of the X server's [xf86CrtcRec] the driver reads or writes, with
    the driver's own part inlined.  [f_framebuffer_to_crtc] stands for the
    transform matrix. *)
Record xf86Crtc := Crtc {
  crtc_scrn : loc;
  enabled : bool;
  active : bool;
  crtc_x : Z;
  crtc_y : Z;
  rotation : Z;
  crtc_mode : DisplayModeRec;
  transformPresent : bool;
  transform_in_use : bool;
  driverIsPerformingTransform : bool;
  filter_width : Z;
  filter_height : Z;
  f_framebuffer_to_crtc : Z;
  gamma_size : Z;
  gamma_red : list Z;
  gamma_green : list Z;
  gamma_blue : list Z;
  has_gamma_set : bool;
  desired : desired_config;
  driver_private : drmmode_crtc
}.

(** What libdrm reports of the kernel's properties, connectors and encoders; the
    properties of a connector are pairs of identifier and value. *)
Record drmModeProperty := KProp {
  prop_id : Z;
  prop_flags : Z;
  prop_name : string;
  prop_values : list Z;
  prop_enums : list (Z * string)
}.
Record drmModeConnector := Connector {
  conn_id : Z;
  connector_type : Z;
  connector_type_id : Z;
  connection : Z;
  subpixel : Z;
  conn_props : list (Z * Z);
  conn_encoders : list Z;
  conn_modes : list drmModeModeInfo
}.
Record drmModeEncoder := Encoder {
  encoder_id : Z;
  enc_possible_crtcs : Z;
  enc_possible_clones : Z
}.

(** [drmmode_prop_rec]; [atoms] is [None] where its allocation failed, and an atom
    is the string it stands for, [None] for the atom 0. *)
Record drmmode_prop := OutProp {
  mode_prop : drmModeProperty;
  out_value : Z;
  num_atoms : Z;
  atoms : option (list (option string))
}.

(** [xf86OutputRec] with the driver's [drmmode_output_private_rec]. *)
Record xf86Output := Output {
  out_crtc : option loc;
  out_name : string;
  output_id : Z;
  mode_output : option drmModeConnector;
  mode_encoders : list drmModeEncoder;
  dpms_enum_id : Z;
  out_props : list drmmode_prop;
  enc_mask : Z;
  enc_clone_mask : Z;
  out_tear_free : Z;
  possible_clones : Z;
  possible_crtcs : Z;
  non_desktop : bool
}.
Definition connector_id (o : xf86Output) : option Z := conn_id <$> mode_output o.

(** [PixmapDirtyUpdateRec] of the server: changes of [dirty_src] are to be copied
    to [secondary_dst]. *)
Record dirty_update := Dirty {
  dirty_src : loc;
  secondary_dst : loc;
  dirty_damage : region;
  dirty_rotation : Z;
  dirty_x : Z;
  dirty_y : Z;
  dirty_f_inverse : Z
}.

(** What a screen was configured with: the limits of the CRTC configuration, the
    output the server's mode functions are about, the bits of a color channel,
    whether there is a shadow framebuffer, the event of the damage extension, an
    option, the leases of the screen and whether [drmmode_init] ran. *)
Record scrn_config := Config {
  maxWidth : Z;
  maxHeight : Z;
  compat_output : Z;
  rgbBits : Z;
  fb_shadow : bool;
  callback_event_type : Z;
  delete_dp_12_displays : bool;
  cf_leases : list loc;
  drmmode_inited : bool
}.

(** A lease of the server, with the driver's [drmmode_lease_private_rec]. *)
Record lease := Lease {
  lease_crtcs : list loc;
  lease_outputs : list loc;
  lessee_id : option Z
}.

(** ** Hooks

    The function pointers of a screen and of its picture extension that the driver
    replaces.  A function is known by its name; [None] is [NULL].  [saved_info] and
    [saved_glamor] are the pointers the driver keeps in [AMDGPUInfoRec] and in its
    [glamor] part; [has_picture] says that there is a picture screen. *)
Inductive slot : Type :=
| CloseScreenProc | CreateGCProc | GetImageProc | GetSpansProc | CopyWindowProc | ChangeWindowAttributesProc
| BitmapToRegionProc | CreatePixmapProc | DestroyPixmapProc | SharePixmapBackingProc | SetSharedPixmapBackingProc
| BlockHandlerProc | CreateScreenResourcesProc | WindowExposuresProc | CreateWindowProc | SaveScreenProc
| StartPixmapTrackingProc | StopPixmapTrackingProc | SyncSharedPixmapProc
| SpriteFuncs | CreateFenceProc | CompositeProc | GlyphsProc | UnrealizeGlyphProc | TrianglesProc | TrapezoidsProc | AddTrapsProc.
#[export] Instance slot_eq_dec : EqDecision slot.
Proof. solve_decision. Defined.

Definition proc : Type := option string.
Record screen_hooks := Hooks {
  procs : slot -> proc;
  saved_info : slot -> proc;
  saved_glamor : slot -> proc;
  has_picture : bool
}.

(** A fence of the SYNC extension, with the driver's private data. *)
Record sync_fence := Fence {
  fence_scrn : loc;
  fence_set_triggered : proc;
  private_set_triggered : proc
}.

(** The request vectors of the server, by address, and the array of clients with
    the address of each client's vector; then the static variables of
    src/src/amdgpu_kms.c.  A vector is given by its entries for [X_ChangeProperty]
    and [X_DeleteProperty]; several clients may have the same one. *)
Record request_vectors := Vectors {
  vectors : gmap Z (proc * proc);
  client_vectors : list (option Z);
  vectors_wrapped : bool;
  restore_property_vector : bool;
  saved_change_property : proc;
  saved_delete_property : proc
}.

(** What the screens of a device share: [AMDGPUEntRec], the static variable of
    [drmmode_show_cursor], the server's generation, the [needs_flush] of the clients
    for a screen, the leases, the hooks of the screens, the fences and the request
    vectors.  [server_fd]: the server owns the file descriptor. *)
Record entity := Entity {
  server_fd : bool;
  use_set_cursor2 : bool;
  assigned_crtcs : Z;
  serverGeneration : Z;
  fd_wakeup_registered : Z;
  fd_wakeup_ref : Z;
  ent_scrns : list loc;
  needs_flush : gmap (loc * Z) Z;
  leases : gmap loc lease;
  ent_hooks : gmap loc screen_hooks;
  fences : gmap loc sync_fence;
  request_vecs : request_vectors
}.

(** A framebuffer of the kernel, as [drmModeGetFB] reports it. *)
Record drmModeFB := KFb { kfb_width : Z; kfb_height : Z; kfb_depth : Z; kfb_pitch : Z; kfb_handle : Z }.

(** What the kernel reports of the device. *)
Record drmModeRes := Resources {
  res_crtcs : list Z;
  res_connectors : list Z;
  res_encoders : list Z;
  max_width : Z;
  max_height : Z
}.

(** A screen: the fields of [ScrnInfoRec], of [AMDGPUInfoRec] with its
    [drmmode_rec], and of the CRTC configuration that the modelled code uses.
    [exposures_oneshot]: the [WindowExposures] hook is still
    [AMDGPUWindowExposures_oneshot]. *)
Record scrn_info := Scrn {
  vtSema : bool;
  is_gpu : bool;
  depth : Z;
  bitsPerPixel : Z;
  virtualX : Z;
  virtualY : Z;
  displayWidth : Z;
  screen_pixmap : loc;
  root_pixmap : loc;
  pixmap_dirty_list : list dirty_update;
  exposures_oneshot : bool;
  gpu_flushed : Z;
  gpu_synced : Z;
  force_accel : bool;
  family : Z;
  dri2_available : bool;
  dri2_enabled : bool;
  crtcs : list loc;
  outputs : list loc;
  use_glamor : bool;
  has_gbm : bool;
  shadow_fb : bool;
  shadow_primary : bool;
  vrr_support : bool;
  info_tear_free : Z;
  front_buffer : option loc;
  pixel_bytes : Z;
  have_tiling_info : bool;
  group_bytes : Z;
  allowPageFlip : bool;
  can_async_flip : bool;
  async_flip_secondaries : bool;
  sprites_visible : Z;
  hwcursor_disabled : Z;
  cursor_w : Z;
  cursor_h : Z;
  drm_version_minor : Z;
  count_crtcs : Z;
  dri2_flipping : bool;
  present_flipping : bool;
  flip_window : option loc;
  vrr_prop_id : Z;
  cm_prop_ids : drmmode_cm_prop -> Z;
  degamma_lut_size : Z;
  gamma_lut_size : Z;
  conf : scrn_config
}.

(** ** Field update for these records *)
#[export] Instance eta_amdgpu_buffer : Eta amdgpu_buffer := fun r =>
  Buffer (bo_handle r) (cpu_ptr r) (ref_count r) (bo_flags r).
#[export] Instance eta_drmmode_fb : Eta drmmode_fb := fun r =>
  Fb (refcnt r) (fb_handle r).
#[export] Instance eta_amdgpu_pixmap : Eta amdgpu_pixmap := fun r =>
  Priv (gpu_read r) (gpu_write r) (tiling_info r) (priv_bo r) (priv_fb r) (fb_failed r) (handle_valid r)
  (priv_handle r).
#[export] Instance eta_pixmap : Eta pixmap := fun r =>
  Pixmap (pix_scrn r) (pix_width r) (pix_height r) (pix_depth r) (pix_bpp r) (devKind r)
  (pix_refcnt r) (pix_priv r) (devPrivate_ptr r) (usage_hint r).
#[export] Instance eta_queue_entry : Eta queue_entry := fun r =>
  Entry (q_addr r) (q_usec r) (q_id r) (q_seq r) (q_data r) (q_client r) (q_crtc r) (q_handler r)
  (q_abort r) (q_is_flip r) (q_frame r).
#[export] Instance eta_drm_queue : Eta drm_queue := fun r =>
  Queue (amdgpu_drm_queue_refcnt r) (amdgpu_drm_queue r) (amdgpu_drm_flip_signalled r)
  (amdgpu_drm_vblank_signalled r) (amdgpu_drm_vblank_deferred r) (amdgpu_drm_queue_seq r).
#[export] Instance eta_drmmode_flipdata : Eta drmmode_flipdata := fun r =>
  Flipdata (fd_event_data r) (flip_count r) (fe_frame r) (fe_usec r) (fe_crtc r) (fd_handler
  r) (fd_abort r) (fd_fb r).
#[export] Instance eta_present_event : Eta present_event := fun r =>
  PEvent (pe_event_id r) (pe_unflip r).
#[export] Instance eta_DRI2FrameEvent : Eta DRI2FrameEvent := fun r =>
  FrameEvent (fv_drawable_id r) (fv_client r) (fv_type r) (fv_frame r) (fv_crtc r) (fv_timer r)
  (fv_drm_queue_seq r) (event_complete r) (fv_event_data r) (fv_front r) (fv_back r).
#[export] Instance eta_dri2_buffer : Eta dri2_buffer := fun r =>
  Dri2Buffer (buf_attachment r) (buf_name r) (buf_pitch r) (buf_cpp r) (buf_format r) (bp_pixmap r)
  (bp_attachment r) (bp_refcnt r).
#[export] Instance eta_drawable : Eta drawable := fun r =>
  DrawableRec (draw_is_window r) (draw_scrn r) (draw_x r) (draw_y r) (draw_width r) (draw_height r)
  (draw_depth r) (draw_bpp r) (draw_pixmap r) (wp_crtc r) (vblank_delta r) (last_flip_ust r)
  (wp_flip_count r).
#[export] Instance eta_drm_color_lut : Eta drm_color_lut := fun r =>
  Lut (red r) (green r) (blue r) (reserved r).
#[export] Instance eta_drmmode_crtc : Eta drmmode_crtc := fun r =>
  DCrtc (mode_crtc_id r) (buffer_id r) (hw_id r) (cursor r) (cursor_x r) (cursor_y r)
  (cursor_xhot r) (cursor_yhot r) (cursor_id r) (cursor_buffer r) (rotate r) (scanout r)
  (scanout_damage r) (scanout_last_region r) (ignore_damage r) (scanout_id r) (scanout_update_pending r) (tear_free
  r) (scanout_status r) (vrr_enabled r) (prime_scanout_pixmap r) (dpms_mode r)
  (dpms_last_ust r) (dpms_last_seq r) (dpms_last_fps r) (interpolated_vblanks r)
  (need_modeset r) (wait_flip_nesting_level r) (flip_pending r) (crtc_fb r) (degamma_lut r)
  (ctm r) (gamma_lut r).
#[export] Instance eta_xf86Crtc : Eta xf86Crtc := fun r =>
  Crtc (crtc_scrn r) (enabled r) (active r) (crtc_x r) (crtc_y r) (rotation r) (crtc_mode r)
  (transformPresent r) (transform_in_use r) (driverIsPerformingTransform r)
  (filter_width r) (filter_height r) (f_framebuffer_to_crtc r) (gamma_size r)
  (gamma_red r) (gamma_green r) (gamma_blue r) (has_gamma_set r) (desired r) (driver_private r).
#[export] Instance eta_desired_config : Eta desired_config := fun r =>
  Desired (desiredMode r) (desiredRotation r) (desiredX r) (desiredY r).
#[export] Instance eta_scrn_config : Eta scrn_config := fun r =>
  Config (maxWidth r) (maxHeight r) (compat_output r) (rgbBits r) (fb_shadow r) (callback_event_type r)
  (delete_dp_12_displays r) (cf_leases r) (drmmode_inited r).
#[export] Instance eta_entity : Eta entity := fun r =>
  Entity (server_fd r) (use_set_cursor2 r) (assigned_crtcs r) (serverGeneration r) (fd_wakeup_registered r)
  (fd_wakeup_ref r) (ent_scrns r) (needs_flush r) (leases r) (ent_hooks r) (fences r) (request_vecs r).
#[export] Instance eta_screen_hooks : Eta screen_hooks := fun r => Hooks (procs r) (saved_info r) (saved_glamor r) (has_picture r).
#[export] Instance eta_sync_fence : Eta sync_fence := fun r => Fence (fence_scrn r) (fence_set_triggered r) (private_set_triggered r).
#[export] Instance eta_request_vectors : Eta request_vectors := fun r =>
  Vectors (vectors r) (client_vectors r) (vectors_wrapped r) (restore_property_vector r) (saved_change_property r)
  (saved_delete_property r).
#[export] Instance eta_lease : Eta lease := fun r => Lease (lease_crtcs r) (lease_outputs r) (lessee_id r).
#[export] Instance eta_xf86Output : Eta xf86Output := fun r =>
  Output (out_crtc r) (out_name r) (output_id r) (mode_output r) (mode_encoders r) (dpms_enum_id r) (out_props r)
  (enc_mask r) (enc_clone_mask r) (out_tear_free r) (possible_clones r) (possible_crtcs r) (non_desktop r).
#[export] Instance eta_drmmode_prop : Eta drmmode_prop := fun r =>
  OutProp (mode_prop r) (out_value r) (num_atoms r) (atoms r).
#[export] Instance eta_dirty_update : Eta dirty_update := fun r =>
  Dirty (dirty_src r) (secondary_dst r) (dirty_damage r) (dirty_rotation r) (dirty_x r) (dirty_y r)
  (dirty_f_inverse r).
#[export] Instance eta_scrn_info : Eta scrn_info := fun r =>
  Scrn (vtSema r) (is_gpu r) (depth r) (bitsPerPixel r) (virtualX r) (virtualY r)
  (displayWidth r) (screen_pixmap r) (root_pixmap r) (pixmap_dirty_list r)
  (exposures_oneshot r) (gpu_flushed r) (gpu_synced r) (force_accel r) (family r)
  (dri2_available r) (dri2_enabled r) (crtcs r) (outputs r) (use_glamor r) (has_gbm r)
  (shadow_fb r) (shadow_primary r) (vrr_support r) (info_tear_free r) (front_buffer r)
  (pixel_bytes r) (have_tiling_info r) (group_bytes r) (allowPageFlip r) (can_async_flip r)
  (async_flip_secondaries r) (sprites_visible r) (hwcursor_disabled r) (cursor_w r)
  (cursor_h r) (drm_version_minor r) (count_crtcs r) (dri2_flipping r) (present_flipping r)
  (flip_window r) (vrr_prop_id r) (cm_prop_ids r) (degamma_lut_size r) (gamma_lut_size r) (conf r).

(** ** Calls out of the driver

    Everything the driver asks of the kernel, of libdrm, libdrm_amdgpu and gbm,
    of the C library and of the X server is one [ext]; [answer] is the type of
    what comes back.  Calls of the server that only succeed or fail are [Ask], those
    that give a number or fail are [Query]; [HookCall] is one that may also install
    hooks (those it answers), [FenceCall] triggers a fence and answers the fence's
    [SetTriggered] after it. *)

(** The values of a RandR property: numbers, or atoms. *)
Inductive prop_data : Type :=
| Ints (l : list Z)
| Atoms (l : list (option string)).

Inductive ext : Type :=
(* C library *)
| Calloc (what : string)
| Mmap (size offset : Z)
| Munmap (ptr size : Z)
| ClockGettime (clk : Z)
| CloseFd (fd : Z)
| PollFd
(* libdrm, kernel mode setting *)
| DrmModeAddFB (width height dep bpp pitch handle : Z)
| DrmModeRmFB (handle : Z)
| DrmModeSetCrtc (crtc_id fb_id x y : Z) (connectors : list Z) (mode : option drmModeModeInfo)
| DrmModePageFlip (crtc_id fb_id flags user_data : Z)
| DrmModePageFlipTarget (crtc_id fb_id flags user_data target : Z)
| DrmModeConnectorSetProperty (conn prop value : Z)
| DrmModeObjectSetProperty (crtc_id prop value : Z)
| DrmModeCreatePropertyBlob (data : list Z)
| DrmModeDestroyPropertyBlob (id : Z)
| DrmModeCrtcSetGamma (crtc_id size : Z) (r g b : list Z)
| DrmModeGetCrtc (id : Z)
| DrmModeGetFB (id : Z)
| DrmModeGetConnector (id : Z)
| DrmModeGetEncoder (id : Z)
| DrmModeGetProperty (id : Z)
| DrmModeGetPropertyBlob (id : Z)
| AmdgpuQueryCrtcFromId (crtc_id : Z)
| DrmModeGetResources
| DrmModeObjectGetProperties (crtc_id : Z)
| DrmModeMoveCursor (crtc_id x y : Z)
| DrmModeSetCursor (crtc_id handle width height : Z)
| DrmIoctlCursor2 (flags crtc_id x y width height handle hot_x hot_y : Z)
| DrmIoctlCursor (flags crtc_id x y width height handle : Z)
| DrmSetMaster
| DrmDropMaster
| DrmModeListLessees
| DrmModeCreateLease (objects : list Z)
| DrmModeRevokeLease (lessee : Z)
| DrmWaitVBlank (vtype sequence signal : Z)
| DrmHandleEvent
| DrmGetCap (cap : Z)
(* libdrm, buffer sharing; libdrm_amdgpu; gbm *)
| DrmPrimeFDToHandle (fd : Z)
| DrmAmdgpuGemMetadata (handle : Z)
| DrmAmdgpuGemMmap (handle : Z)
| AmdgpuBoAlloc (alloc_size phys_alignment preferred_heap : Z)
| AmdgpuBoImport (fd : Z)
| AmdgpuBoExport (bo : Z)
| AmdgpuBoExportFlink (bo : Z)
| AmdgpuBoExportDmaBuf (bo : Z)
| AmdgpuBoQueryInfo (bo : Z)
| DrmGemFlink (handle : Z)
| GbmBoImportModifier (width height format : Z) (fds strides offsets : list Z) (modifier : Z)
| GbmBoGetModifier (bo : Z)
| OpenNode (render : bool)
| DrmGetMagic (fd : Z)
| DrmAuthMagic (magic : Z)
| DrmSyncobjCreate
| DrmSyncobjDestroy (handle : Z)
| DrmSyncobjHandleToFd (handle : Z)
| DrmSyncobjFdToHandle (handle fd : Z)
| DrmSyncobjWait (handle : Z)
| DrmSyncobjReset (handle : Z)
| DrmSyncobjSignal (handle : Z)
| AmdgpuBoCpuMap (bo : Z)
| AmdgpuBoCpuUnmap (bo : Z)
| AmdgpuBoFree (bo : Z)
| GbmBoCreate (width height format use : Z)
| GbmBoImport (fd width height stride format use : Z)
| GbmBoDestroy (bo : Z)
| GbmBoGetStride (bo : Z)
| GbmBoGetHeight (bo : Z)
| GbmBoGetHandle (bo : Z)
(* X server and glamor *)
| GlamorFdFromPixmap (pix : loc)
| GlamorFdStride (pix : loc)
| GlamorTexturedFromGbm (pix : loc) (bo : Z)
| GlamorTexturedFromHandle (pix : loc) (handle stride : Z)
| GlamorCreatePixmap (width height dep usage : Z)
| GlamorDestroyPixmap (pix : loc)
| FbCreatePixmap (width height dep usage : Z)
| FbDestroyPixmap (pix : loc)
| ModifyPixmapHeader (pix : loc) (width height dep bpp kind ptr : Z)
| PresentEventNotify (event_id ust msc : Z)
| Xf86CrtcRotate (crtc : loc)
| GetScratchGC (dep : Z)
| CreatePicture (pix : loc)
| SetPictureTransform
| CopyArea (src dst : loc) (clip : option region) (sx sy width height dx dy : Z)
| CompositePicture (src dst : loc) (x y width height : Z)
| CopyRegion (src dst : drawable_ref) (clip : region) (width height dx dy : Z)
| TimerSet (delay : Z)
| GetTimeInMillis
| DRI2CanFlip (draw : Z)
| DRI2CanExchange (draw : Z)
| DRI2UpdatePrime (draw : Z) (buffer : loc)
| DRI2SwapComplete (client draw frame sec usec type func data : Z)
| DRI2WaitMSCComplete (client draw frame sec usec : Z)
| DRI2BlockClient (client draw : Z)
| DRI2ScreenInit (scheduling_works : bool)
| DixRegisterPrivateKey
| MakeAtom (name : string)
| RRConfigureOutputProperty (output : loc) (name : option string) (range immutable : bool) (values : prop_data)
| RRChangeOutputProperty (output : loc) (name : option string) (format : Z) (values : prop_data)
| Xf86OutputCreate (name : string)
| ConfigCursor (scrn : loc)
| Clients
| RotatedCrtcs (scrn : loc)
| ShownCursors (scrn : loc)
| FindClosestMode (output : loc)
| CreateDefColormap
| HandleColormaps (maxcolors : Z)
| UdevSelect
| UdevReceive
| CpuWrite (ptr : Z) (data : list Z)
| GlamorPixmapFromFd (fd width height stride dep bpp : Z)
| GlamorEglGetGbmDevice
| FbDraw (what : string) (dst : loc) (reads : list loc)
| GlamorDraw (what : string) (dst : loc) (reads : list loc)
| FbRead (what : string) (pix : loc)
| SavedGetImage (pix : loc)
| Ask (what : string) (args : list Z)
| Query (what : string) (args : list Z)
| HookCall (what : string) (scrn : loc)
| FenceCall (fence : loc)
| Notify (what : string) (args : list Z).

(** One event read from the DRM file descriptor: frame, seconds, microseconds
    and the user pointer the request was made with. *)
Record drm_event := Event {
  ev_frame : Z;
  ev_sec : Z;
  ev_usec : Z;
  ev_user_ptr : Z
}.

(** What the X server chooses for a fresh pixmap, and the header of a pixmap
    after [ModifyPixmapHeader]. *)
Record new_pixmap := NewPixmap { np_bpp : Z; np_devKind : Z; np_ptr : Z }.
Record new_header := NewHeader {
  nh_width : Z;
  nh_height : Z;
  nh_depth : Z;
  nh_bpp : Z;
  nh_devKind : Z;
  nh_ptr : Z;
  nh_ok : bool
}.

Definition answer (e : ext) : Type :=
  match e with
  | Calloc _ => bool
  | Mmap _ _ => Z
  | ClockGettime _ => option (Z * Z)
  | PollFd => Z * Z
  | DrmModeAddFB _ _ _ _ _ _ => option Z
  | DrmModeSetCrtc _ _ _ _ _ _ => Z
  | DrmModePageFlip _ _ _ _ => Z
  | DrmModePageFlipTarget _ _ _ _ _ => Z
  | DrmModeObjectSetProperty _ _ _ => Z
  | DrmModeCreatePropertyBlob _ => option Z
  | DrmModeGetCrtc _ => option Z
  | DrmModeGetFB _ => option drmModeFB
  | Ask _ _ => bool
  | Query _ _ => option Z
  | HookCall _ _ => option (list (slot * proc))
  | FenceCall _ => proc
  | DrmModeGetConnector _ => option drmModeConnector
  | DrmModeGetEncoder _ => option drmModeEncoder
  | DrmModeGetProperty _ => option drmModeProperty
  | DrmModeGetPropertyBlob _ => option string
  | AmdgpuQueryCrtcFromId _ => option Z
  | MakeAtom _ => bool
  | RRConfigureOutputProperty _ _ _ _ _ => Z
  | RRChangeOutputProperty _ _ _ _ => Z
  | Xf86OutputCreate _ => bool
  | DrmModeGetResources => option drmModeRes
  | DrmModeObjectGetProperties _ => option (list (Z * Z))
  | DrmIoctlCursor2 _ _ _ _ _ _ _ _ _ => Z * Z
  | DrmSetMaster => Z
  | DrmModeListLessees => option (list Z)
  | DrmModeCreateLease _ => option (Z * Z)
  | DrmModeRevokeLease _ => Z
  | ConfigCursor _ => option (loc * Z * Z)
  | Clients => list (option (bool * list loc))
  | RotatedCrtcs _ => list loc
  | ShownCursors _ => list loc
  | FindClosestMode _ => option DisplayModeRec
  | CreateDefColormap => bool
  | HandleColormaps _ => bool
  | UdevSelect => bool
  | UdevReceive => bool
  | DrmWaitVBlank _ _ _ => Z + (Z * Z * Z)
  | DrmHandleEvent => Z * Z * list drm_event
  | DrmGetCap _ => option Z
  | DrmPrimeFDToHandle _ => option Z
  | DrmAmdgpuGemMetadata _ => option Z
  | DrmAmdgpuGemMmap _ => Z * Z
  | AmdgpuBoAlloc _ _ _ => option Z
  | AmdgpuBoImport _ => option Z
  | AmdgpuBoExport _ => option Z
  | AmdgpuBoCpuMap _ => Z * Z
  | GbmBoCreate _ _ _ _ => option Z
  | GbmBoImport _ _ _ _ _ _ => option Z
  | GbmBoGetStride _ => Z
  | GbmBoGetHeight _ => Z
  | GbmBoGetHandle _ => Z
  | GlamorFdFromPixmap _ => Z
  | GlamorFdStride _ => Z * Z * Z
  | GlamorTexturedFromGbm _ _ => bool
  | GlamorTexturedFromHandle _ _ _ => bool
  | GlamorCreatePixmap _ _ _ _ => option new_pixmap
  | GlamorDestroyPixmap _ => bool
  | FbCreatePixmap _ _ _ _ => option new_pixmap
  | FbDestroyPixmap _ => bool
  | ModifyPixmapHeader _ _ _ _ _ _ _ => new_header
  | Xf86CrtcRotate _ => bool
  | GetScratchGC _ => bool
  | CreatePicture _ => bool
  | SetPictureTransform => Z
  | TimerSet _ => bool
  | GetTimeInMillis => Z
  | DRI2CanFlip _ => bool
  | DRI2CanExchange _ => bool
  | DRI2UpdatePrime _ _ => option drawable_ref
  | DRI2ScreenInit _ => bool
  | DixRegisterPrivateKey => bool
  | GlamorPixmapFromFd _ _ _ _ _ _ => option new_pixmap
  | GlamorEglGetGbmDevice => bool
  | AmdgpuBoExportFlink _ => option Z
  | AmdgpuBoExportDmaBuf _ => option Z
  | AmdgpuBoQueryInfo _ => option (Z * Z)
  | DrmGemFlink _ => option Z
  | GbmBoImportModifier _ _ _ _ _ _ _ => option Z
  | GbmBoGetModifier _ => Z
  | OpenNode _ => Z
  | DrmGetMagic _ => Z + Z
  | DrmAuthMagic _ => Z
  | DrmSyncobjCreate => option Z
  | DrmSyncobjHandleToFd _ => option Z
  | DrmSyncobjFdToHandle _ _ => Z
  | DrmSyncobjWait _ => Z * Z
  | _ => unit
  end.

(** ** The state of the driver

    [w_vrr_windows] are the windows with the variable refresh property;
    [w_present_async] is the async bit of the capabilities in
    [amdgpu_present_screen_info].  The state of the DRI extensions is a record of
    its own: [dri_frame_events] are the events that wait for a vblank,
    [dri_flip_events] those of flips, which are of the same C type but owned by the
    flip; [dri_timers] are the timers that exist, with the frame event each is
    for, and [render_node] says whether the device has a render node. *)
Record dri_state := Dri {
  dri_drawables : gmap Z drawable;
  dri_buffers : gmap loc dri2_buffer;
  dri_frame_events : gmap loc DRI2FrameEvent;
  dri_flip_events : gmap loc DRI2FrameEvent;
  dri_timers : gmap loc loc;
  DRI2InfoCnt : Z;
  render_node : bool;
  dri_syncobjs : gmap loc syncobj
}.
#[export] Instance eta_dri_state : Eta dri_state := fun r =>
  Dri (dri_drawables r) (dri_buffers r) (dri_frame_events r) (dri_flip_events r) (dri_timers r) (DRI2InfoCnt r)
  (render_node r) (dri_syncobjs r).

Record world := World {
  w_bos : gmap loc amdgpu_buffer;
  w_fbs : gmap loc drmmode_fb;
  w_pixmaps : gmap loc pixmap;
  w_crtcs : gmap loc xf86Crtc;
  w_outputs : gmap loc xf86Output;
  w_scrns : gmap loc scrn_info;
  w_flipdata : gmap loc drmmode_flipdata;
  w_events : gmap loc present_event;
  w_dri : dri_state;
  w_queue : drm_queue;
  w_has_page_flip_target : bool;
  w_vrr_windows : gset loc;
  w_present_async : bool;
  w_entity : entity;
  w_next : loc;
  w_trace : list ext
}.
#[export] Instance eta_world : Eta world := fun r =>
  World (w_bos r) (w_fbs r) (w_pixmaps r) (w_crtcs r) (w_outputs r) (w_scrns r) (w_flipdata
  r) (w_events r) (w_dri r) (w_queue r) (w_has_page_flip_target r) (w_vrr_windows r)
  (w_present_async r) (w_entity r) (w_next r) (w_trace r).

(** The heaps of the DRI extensions as parts of the world. *)
Definition w_dri2_buffers (w : world) : gmap loc dri2_buffer := dri_buffers (w_dri w).
Definition w_frame_events (w : world) : gmap loc DRI2FrameEvent := dri_frame_events (w_dri w).
Definition w_flip_events (w : world) : gmap loc DRI2FrameEvent := dri_flip_events (w_dri w).
Definition w_timers (w : world) : gmap loc loc := dri_timers (w_dri w).
Definition w_syncobjs (w : world) : gmap loc syncobj := dri_syncobjs (w_dri w).
#[export] Instance set_dri2_buffers : Setter w_dri2_buffers := fun f => setf w_dri (setf dri_buffers f).
#[export] Instance set_frame_events : Setter w_frame_events := fun f => setf w_dri (setf dri_frame_events f).
#[export] Instance set_flip_events : Setter w_flip_events := fun f => setf w_dri (setf dri_flip_events f).
#[export] Instance set_timers : Setter w_timers := fun f => setf w_dri (setf dri_timers f).
#[export] Instance set_syncobjs : Setter w_syncobjs := fun f => setf w_dri (setf dri_syncobjs f).

Abbreviation D := (M world).

(** How the outside reacts: the answer to a call may depend on all the calls
    made before it, newest first. *)
Class Env := reply : forall (history : list ext) (e : ext), answer e.

Section Primitives.
Context `{env : Env}.

Definition call (e : ext) : D (answer e) := fun w =>
  Ok (reply (w_trace w) e) (w <| w_trace ::= cons e |>).

(** Use of a pointer that may be [NULL]. *)
Definition deref (o : option loc) : D loc := some_or NullDeref o.

(** Access to one of the heaps of [world]. *)
Definition load {A} (heap : world -> gmap loc A) (l : loc) : D A :=
  o ← gets (fun w => heap w !! l); some_or UseAfterFree o.

Definition store {A} (heap : world -> gmap loc A) `{!Setter heap} (l : loc) (a : A) : D unit :=
  modify (setf heap <[l := a]>).

Definition update {A} (heap : world -> gmap loc A) `{!Setter heap} (l : loc) (f : A -> A)
  : D unit :=
  a ← load heap l; store heap l (f a).

Definition free {A} (heap : world -> gmap loc A) `{!Setter heap} (l : loc) : D unit :=
  _ ← load heap l; modify (setf heap (delete l)).

(** A new object at a fresh address. *)
Definition new {A} (heap : world -> gmap loc A) `{!Setter heap} (a : A) : D loc :=
  l ← gets w_next;
  _ ← modify (fun w => setf heap <[l := a]> (w <| w_next ::= Pos.succ |>));
  mret l.

(** ** Rules *)
Context {A : Type} (heap : world -> gmap loc A).
Implicit Types (l : loc) (a : A).

Lemma wp_call e (Q : answer e -> world -> Prop) w :
  Q (reply (w_trace w) e) (w <| w_trace ::= cons e |>) -> wp (call e) Q w.
Proof. done. Qed.

Lemma wp_deref o l (Q : loc -> world -> Prop) w : o = Some l -> Q l w -> wp (deref o) Q w.
Proof. by intros ->. Qed.

Lemma wp_load l a (Q : A -> world -> Prop) w :
  heap w !! l = Some a -> Q a w -> wp (load heap l) Q w.
Proof. intros H HQ. unfold load. apply wp_bind, wp_gets. by rewrite H. Qed.

Lemma load_ok l a w : heap w !! l = Some a -> load heap l w = Ok a w.
Proof. intros H. unfold load, mbind, M_bind, gets. by rewrite H. Qed.

Context `{!Setter heap}.

Lemma wp_store l a (Q : unit -> world -> Prop) w :
  Q tt (setf heap <[l := a]> w) -> wp (store heap l a) Q w.
Proof. done. Qed.

Lemma wp_update l a (f : A -> A) (Q : unit -> world -> Prop) w :
  heap w !! l = Some a -> Q tt (setf heap <[l := f a]> w) -> wp (update heap l f) Q w.
Proof. intros H HQ. unfold update. by apply wp_bind, (wp_load l a). Qed.

Lemma wp_free l a (Q : unit -> world -> Prop) w :
  heap w !! l = Some a -> Q tt (setf heap (delete l) w) -> wp (free heap l) Q w.
Proof. intros H HQ. unfold free. by apply wp_bind, (wp_load l a). Qed.

Lemma wp_new a (Q : loc -> world -> Prop) w :
  Q (w_next w) (setf heap <[w_next w := a]> (w <| w_next ::= Pos.succ |>)) ->
  wp (new heap a) Q w.
Proof. done. Qed.

Lemma pwp_load l (Q : A -> world -> Prop) w :
  (forall a, heap w !! l = Some a -> Q a w) -> pwp (load heap l) Q w.
Proof. intros H. unfold load. apply pwp_bind, pwp_gets, pwp_some_or, H. Qed.

Lemma pwp_update l (f : A -> A) (Q : unit -> world -> Prop) w :
  (forall a, heap w !! l = Some a -> Q tt (setf heap <[l := f a]> w)) ->
  pwp (update heap l f) Q w.
Proof. intros H. unfold update. apply pwp_bind, pwp_load. intros a Ha. by apply H. Qed.
End Primitives.

(** Symbolic execution of a call out of the driver. *)
Ltac wp_ext :=
  lazymatch goal with
  | |- wp (call ?e) ?Q ?w => apply (wp_call e Q w)
  | |- pwp (call ?e) ?Q ?w =>
      change (pwp (call e) Q w) with (Q (reply (w_trace w) e) (w <| w_trace ::= cons e |>));
      cbv beta
  end.

(** Close a goal [Q r w'] from [forall t, Q r (w <| w_trace := t |>)], where [w']
    is [w] with more calls in its trace. *)
Ltac by_trace H :=
  lazymatch goal with
  | |- _ ?r ?w' =>
      tryif (lazymatch type of r with unit => destruct r | answer _ => destruct r end)
      then idtac else idtac;
      lazymatch goal with |- _ _ ?w' => exact (H (w_trace w')) end
  end.

(** ** A small concrete machine

    One screen with one CRTC, one pixmap and the front buffer, and an outside
    where every call succeeds.  The witnesses evaluate the model on it. *)
Module Sample.
Definition env : Env := fun history e =>
  match e with
  | Calloc _ => true
  | Mmap _ _ => 0x7f0000000000
  | ClockGettime _ => Some (1, 0)
  | PollFd => (1, 0)
  | DrmModeAddFB _ _ _ _ _ _ => Some 77
  | DrmModeSetCrtc _ _ _ _ _ _ => 0
  | DrmModePageFlip _ _ _ _ => 0
  | DrmModePageFlipTarget _ _ _ _ _ => 0
  | DrmModeObjectSetProperty _ _ _ => 0
  | DrmModeCreatePropertyBlob _ => Some 5
  | DrmModeGetCrtc _ => Some 0
  | DrmModeGetFB _ => Some (KFb 64 64 24 256 9)
  | Ask _ _ => true
  | Query _ _ => Some 0
  | HookCall _ _ => Some []
  | FenceCall _ => None
  | DrmModeGetConnector _ => None
  | DrmModeGetEncoder _ => None
  | DrmModeGetProperty _ => None
  | DrmModeGetPropertyBlob _ => None
  | AmdgpuQueryCrtcFromId _ => Some 0
  | MakeAtom _ => true
  | RRConfigureOutputProperty _ _ _ _ _ => 0
  | RRChangeOutputProperty _ _ _ _ => 0
  | Xf86OutputCreate _ => true
  | DrmModeGetResources => Some (Resources [40] [] [] 16384 16384)
  | DrmModeObjectGetProperties _ => None
  | DrmIoctlCursor2 _ _ _ _ _ _ _ _ _ => (0, 0)
  | DrmSetMaster => 0
  | DrmModeListLessees => None
  | DrmModeCreateLease _ => Some (14, 6)
  | DrmModeRevokeLease _ => 0
  | ConfigCursor _ => None
  | Clients => []
  | RotatedCrtcs _ => []
  | ShownCursors _ => []
  | FindClosestMode _ => None
  | CreateDefColormap => true
  | HandleColormaps _ => true
  | UdevSelect => false
  | UdevReceive => false
  | DrmWaitVBlank _ _ _ => inr (1, 0, 0)
  | DrmHandleEvent => (0, 0, [])
  | DrmGetCap _ => Some 1
  | DrmPrimeFDToHandle _ => Some 9
  | DrmAmdgpuGemMetadata _ => Some 0
  | DrmAmdgpuGemMmap _ => (0, 4096)
  | AmdgpuBoAlloc _ _ _ => Some 21
  | AmdgpuBoImport _ => Some 22
  | AmdgpuBoExport _ => Some 23
  | AmdgpuBoCpuMap _ => (0, 8192)
  | GbmBoCreate _ _ _ _ => Some 24
  | GbmBoImport _ _ _ _ _ _ => Some 25
  | GbmBoGetStride _ => 256
  | GbmBoGetHeight _ => 64
  | GbmBoGetHandle _ => 26
  | GlamorFdFromPixmap _ => 11
  | GlamorFdStride _ => (11, 256, 16384)
  | GlamorTexturedFromGbm _ _ => true
  | GlamorTexturedFromHandle _ _ _ => true
  | GlamorCreatePixmap _ _ _ _ => Some (NewPixmap 32 256 0)
  | GlamorDestroyPixmap _ => true
  | FbCreatePixmap _ _ _ _ => Some (NewPixmap 32 256 0)
  | FbDestroyPixmap _ => true
  | ModifyPixmapHeader _ w h d b k p => NewHeader w h 24 32 k p true
  | Xf86CrtcRotate _ => true
  | GetScratchGC _ => true
  | CreatePicture _ => true
  | SetPictureTransform => 0
  | TimerSet _ => true
  | GetTimeInMillis => 1000
  | DRI2CanFlip _ => true
  | DRI2CanExchange _ => true
  | DRI2UpdatePrime _ _ => None
  | DRI2ScreenInit _ => true
  | DixRegisterPrivateKey => true
  | GlamorPixmapFromFd _ _ _ _ _ _ => Some (NewPixmap 32 256 0)
  | GlamorEglGetGbmDevice => true
  | AmdgpuBoExportFlink _ => Some 31
  | AmdgpuBoExportDmaBuf _ => Some 32
  | AmdgpuBoQueryInfo _ => Some (16384, 0)
  | DrmGemFlink _ => Some 33
  | GbmBoImportModifier _ _ _ _ _ _ _ => Some 34
  | GbmBoGetModifier _ => 0
  | OpenNode _ => 12
  | DrmGetMagic _ => inr 1
  | DrmAuthMagic _ => 0
  | DrmSyncobjCreate => Some 35
  | DrmSyncobjHandleToFd _ => Some 13
  | DrmSyncobjFdToHandle _ _ => 0
  | DrmSyncobjWait _ => (0, 0)
  | _ => tt
  end.

Definition scrn : scrn_info :=
  Scrn true false 24 32 64 64 64 2 2 [] false 0 0 false 141 true true [3%positive] [] true true false false false 0 (Some 4%positive)
       4 false 0 true true false 0 0 128 128 5 1 false false None 0 (fun _ => 0) 0 0
       (Config 16384 16384 0 8 false (-1) false [] true).
Definition pix : pixmap := Pixmap 1 64 64 24 32 256 1 None 0 0.
Definition mode : DisplayModeRec :=
  DMode 148500 64 70 80 100 0 64 66 70 80 0 0 (Some "64x64"%string) 0 64.
Definition dcrtc : drmmode_crtc :=
  DCrtc 40 0 0 None 0 0 0 0 0 (None, None) None (None, None) None ∅ false 0 0 false 0 false None
        DPMSModeOn 0 0 60 0 false 0 None None None None None.
Definition crtc : xf86Crtc :=
  Crtc 1 true true 0 0 RR_Rotate_0 mode false false false 0 0 0 4 [0; 1; 2; 3] [0; 1; 2; 3] [0; 1; 2; 3]
       true (Desired mode RR_Rotate_0 0 0) dcrtc.
Definition queue : drm_queue := Queue 1 [] [] [] [] 1.

(** The front buffer (4) has one reference, that of the screen. *)
Definition w : world :=
  World {[4%positive := Buffer 21 0 1 0]} ∅ {[2%positive := pix]} {[3%positive := crtc]} ∅
        {[1%positive := scrn]} ∅ ∅ (Dri ∅ ∅ ∅ ∅ ∅ 0 true ∅) queue true ∅ false
        (Entity false true 0 1 0 0 [1%positive] ∅ ∅ ∅ ∅ (Vectors ∅ [] false false None None)) 10 [].
End Sample.
