(* ===== verification/Video.v ===== *)
(** * Which CRTC shows a drawable: src/src/amdgpu_video.c

    Boxes, the box a CRTC scans out, and the choice of the CRTC that covers
    most of a drawable, on the screen itself and on its secondary screens. *)
From S2P Require Import Prelude Modes Region World.

(** RandR's view of a CRTC: position, mode size if it has a mode, rotation,
    and the xf86 CRTC behind it, with its address. [rr_id] is the RandR CRTC's own
    address. *)
Record RRCrtc := RR {
  rr_id : loc;
  rr_x : Z;
  rr_y : Z;
  rr_mode : option (Z * Z);
  rr_rotation : Z;
  rr_devPrivate : option (loc * xf86Crtc)
}.

(** A screen as the covering search sees it: RandR's private data (absent when
    RandR did not initialise the screen) with its CRTC array, the CRTC of the
    first output, and the secondary screens. *)
Inductive Screen : Type :=
| mkScreen (isGPU is_output_secondary : bool)
    (rrScrPriv : option (list (option RRCrtc))) (secondary_list : list Screen).

Definition isGPU (s : Screen) : bool := let 'mkScreen g _ _ _ := s in g.
Definition is_output_secondary (s : Screen) : bool := let 'mkScreen _ o _ _ := s in o.
Definition rrGetScrPriv (s : Screen) := let 'mkScreen _ _ p _ := s in p.
Definition secondary_list (s : Screen) := let 'mkScreen _ _ _ l := s in l.

Definition empty_box : BoxRec := Box 0 0 0 0.

Definition amdgpu_box_intersect (a b : BoxRec) : BoxRec :=
  let dx1 := if x1 a >? x1 b then x1 a else x1 b in
  let dx2 := if x2 a <? x2 b then x2 a else x2 b in
  if dx1 >=? dx2 then empty_box
  else
    let dy1 := if y1 a >? y1 b then y1 a else y1 b in
    let dy2 := if y2 a <? y2 b then y2 a else y2 b in
    if dy1 >=? dy2 then empty_box else Box dx1 dy1 dx2 dy2.

(** [int] arithmetic: the product wraps where it leaves 32 bits. *)
Definition amdgpu_box_area (box : BoxRec) : Z :=
  s32 ((x2 box - x1 box) * (y2 box - y1 box)).

Definition amdgpu_crtc_is_enabled (crtc : xf86Crtc) : bool :=
  enabled crtc && (dpms_mode (driver_private crtc) =? DPMSModeOn).

(** Assigning [int] sums to the [short] fields truncates them. *)
Definition amdgpu_crtc_box (crtc : RRCrtc) : BoxRec :=
  match rr_mode crtc with
  | Some (width, height) =>
      let bx := s16 (rr_x crtc) in
      let by_ := s16 (rr_y crtc) in
      if (rr_rotation crtc =? RR_Rotate_90) || (rr_rotation crtc =? RR_Rotate_270)
      then Box bx by_ (s16 (rr_x crtc + height)) (s16 (rr_y crtc + width))
      else Box bx by_ (s16 (rr_x crtc + width)) (s16 (rr_y crtc + height))
  | None => empty_box
  end.

Definition amdgpu_crtc_on (crtc : option RRCrtc) (crtc_is_xf86_hint : bool) : bool :=
  match crtc with
  | None => false
  | Some c =>
      match crtc_is_xf86_hint, rr_devPrivate c with
      | true, Some (_, xc) => amdgpu_crtc_is_enabled xc
      | _, _ => match rr_mode c with Some _ => true | None => false end
      end
  end.

(** X server state and functions: whether RandR is initialised, and the first
    output of a screen with the CRTC it is on; [rr_screen] is a screen of the
    driver as RandR has it. *)
Class RandR := {
  rrPrivKey_registered : bool;
  RRFirstOutput : Screen -> option (option loc);
  rr_screen : world -> loc -> Screen
}.

Section Covering.
Context `{randr : RandR}.

(** One iteration of the search loop. *)
Definition covering_step (primary_crtc : option loc) (box : BoxRec) (hint : bool)
    (best : option RRCrtc * Z) (crtc : option RRCrtc) : option RRCrtc * Z :=
  if negb (amdgpu_crtc_on crtc hint) then best
  else
    match crtc with
    | None => best
    | Some c =>
        let coverage := amdgpu_box_area (amdgpu_box_intersect (amdgpu_crtc_box c) box) in
        if (coverage >? snd best)
           || (bool_decide (Some (rr_id c) = primary_crtc) && (coverage =? snd best))
        then (Some c, coverage) else best
    end.

Definition amdgpu_crtc_covering_box (pScreen : Screen) (box : BoxRec)
    (screen_is_xf86_hint : bool) : option RRCrtc :=
  if negb rrPrivKey_registered then None
  else
    match rrGetScrPriv pScreen with
    | None => None
    | Some crtcs =>
        let primary_crtc := match RRFirstOutput pScreen with
                            | Some (Some c) => Some c
                            | _ => None
                            end in
        fst (foldl (covering_step primary_crtc box screen_is_xf86_hint) (None, 0) crtcs)
    end.

Fixpoint first_covering (l : list Screen) (box : BoxRec) : option RRCrtc :=
  match l with
  | [] => None
  | s :: r =>
      if negb (is_output_secondary s) then first_covering r box
      else match amdgpu_crtc_covering_box s box false with
           | Some c => Some c
           | None => first_covering r box
           end
  end.

Definition amdgpu_crtc_covering_box_on_secondary (pScreen : Screen) (box : BoxRec)
  : option RRCrtc :=
  if negb (isGPU pScreen) then first_covering (secondary_list pScreen) box else None.

Definition amdgpu_randr_crtc_covering_drawable (pScreen : Screen) (pDraw : drawable)
  : option RRCrtc :=
  let bx1 := s16 (draw_x pDraw) in
  let by1 := s16 (draw_y pDraw) in
  let box := Box bx1 by1 (s16 (bx1 + draw_width pDraw)) (s16 (by1 + draw_height pDraw)) in
  match amdgpu_crtc_covering_box pScreen box true with
  | Some c => Some c
  | None => amdgpu_crtc_covering_box_on_secondary pScreen box
  end.

Definition amdgpu_pick_best_crtc (vtSema : bool) (pScreen : Screen) (bx1 bx2 by1 by2 : Z)
  : option loc :=
  if negb vtSema then None
  else
    match amdgpu_crtc_covering_box pScreen (Box (s16 bx1) (s16 by1) (s16 bx2) (s16 by2)) true with
    | Some c => fst <$> rr_devPrivate c
    | None => None
    end.
End Covering.

(** ** Boxes as sets of pixels *)

Definition inside (b : BoxRec) (x y : Z) : Prop := x1 b <= x < x2 b /\ y1 b <= y < y2 b.

(** The intersection holds exactly the common pixels. *)
Theorem box_intersect_inside a b x y :
  inside (amdgpu_box_intersect a b) x y <-> inside a x y /\ inside b x y.
Proof.
  unfold amdgpu_box_intersect, inside, empty_box.
  rewrite !if_gtb_max, !if_ltb_min. case_ifs; cbn; lia.
Qed.

Lemma box_intersect_ordered a b :
  let r := amdgpu_box_intersect a b in x1 r <= x2 r /\ y1 r <= y2 r.
Proof.
  unfold amdgpu_box_intersect, empty_box.
  rewrite !if_gtb_max, !if_ltb_min. case_ifs; cbn; lia.
Qed.

Definition wf_box (b : BoxRec) : Prop :=
  in_s16 (x1 b) /\ in_s16 (y1 b) /\ in_s16 (x2 b) /\ in_s16 (y2 b).

Lemma crtc_box_wf c : wf_box (amdgpu_crtc_box c).
Proof.
  unfold amdgpu_crtc_box, empty_box, wf_box.
  destruct (rr_mode c) as [[w h]|]; [destruct (_ || _); cbn; auto 6 with machint |].
  cbn. unfold in_s16. lia.
Qed.

(** A box at any position, at most 2{^15} pixels wide: what a drawable of an X screen
    gives.  (The area of a wider one need not fit in 32 bits.) *)
Definition drawable_box (b : BoxRec) : Prop := wf_box b /\ x2 b - x1 b <= 2 ^ 15.

Lemma coverage_bounds a b :
  wf_box a -> drawable_box b -> 
  let r := amdgpu_box_intersect a b in
  0 <= (x2 r - x1 r) * (y2 r - y1 r) < 2 ^ 31 /\
  amdgpu_box_area r = (x2 r - x1 r) * (y2 r - y1 r).
Proof.
  intros Ha Hb. cbv zeta. set (r := amdgpu_box_intersect a b).
  assert (0 <= x2 r - x1 r <= 2 ^ 15 /\ 0 <= y2 r - y1 r < 2 ^ 16).
  { subst r. unfold drawable_box, wf_box, in_s16 in *. unfold amdgpu_box_intersect, empty_box.
    rewrite !if_gtb_max, !if_ltb_min. case_ifs; cbn; lia. }
  assert (0 <= (x2 r - x1 r) * (y2 r - y1 r) < 2 ^ 31)
    by (change (2 ^ 31) with (2 ^ 15 * 2 ^ 16); change (2 ^ 15) with 32768 in *; change (2 ^ 16) with 65536 in *; nia).
  split; [done |]. unfold amdgpu_box_area. apply s32_id. unfold in_s32. lia.
Qed.

(** ** The search finds the CRTC with the largest coverage *)

Section Search.
Context (primary : option loc) (box : BoxRec) (hint : bool).

Definition coverage_of (c : RRCrtc) : Z :=
  amdgpu_box_area (amdgpu_box_intersect (amdgpu_crtc_box c) box).

(** [c] is an entry of the CRTC array that counts as showing something. *)
Definition lit (l : list (option RRCrtc)) (c : RRCrtc) : Prop :=
  Some c ∈ l /\ amdgpu_crtc_on (Some c) hint = true.

Definition is_primary (c : RRCrtc) : Prop := Some (rr_id c) = primary.

(** What the search promises about its result on the array [l]: it is lit,
    nothing lit covers more, a lit primary CRTC wins ties, and without it the
    first of the array does; nothing is found only if no lit CRTC shows a pixel
    of the box and the primary one is not lit. *)
Definition best_spec (l : list (option RRCrtc)) (r : option RRCrtc) : Prop :=
  match r with
  | Some c =>
      lit l c /\ (forall c', lit l c' -> coverage_of c' <= coverage_of c) /\
      (0 < coverage_of c \/ is_primary c) /\
      (forall c', lit l c' -> is_primary c' -> coverage_of c' = coverage_of c -> is_primary c) /\
      (is_primary c \/
       exists pre post, l = pre ++ Some c :: post /\
         forall c', lit pre c' -> coverage_of c' < coverage_of c)
  | None => forall c', lit l c' -> coverage_of c' = 0 /\ ~ is_primary c'
  end.

Definition search_inv (l : list (option RRCrtc)) (b : option RRCrtc * Z) : Prop :=
  best_spec l (fst b) /\ snd b = match fst b with Some c => coverage_of c | None => 0 end.

Hypothesis on_screen : drawable_box box.

Lemma coverage_nonneg c : 0 <= coverage_of c.
Proof.
  unfold coverage_of. destruct (coverage_bounds _ _ (crtc_box_wf c) on_screen) as [? ->]. lia.
Qed.

Lemma lit_snoc l o c :
  lit (l ++ [o]) c <-> lit l c \/ (o = Some c /\ amdgpu_crtc_on (Some c) hint = true).
Proof. unfold lit. rewrite elem_of_app, list_elem_of_singleton. split; [intros [[?| <-] ?]; auto |].
  intros [[? ?]|[-> ?]]; auto. Qed.

Lemma best_spec_skip l o b :
  (forall c, o = Some c -> amdgpu_crtc_on (Some c) hint = true ->
    match b with
    | Some c0 => coverage_of c <= coverage_of c0 /\ (is_primary c -> coverage_of c < coverage_of c0)
    | None => coverage_of c = 0 /\ ~ is_primary c
    end) ->
  best_spec l b -> best_spec (l ++ [o]) b.
Proof.
  intros Ho. destruct b as [c0|]; simpl; setoid_rewrite lit_snoc.
  - intros (Hl & Hmax & Hpos & Htie & Hfirst). repeat split.
    + left. apply Hl.
    + intros c' [?|[-> ?]]; [auto | by apply Ho].
    + done.
    + intros c' [?|[-> ?]]; [eauto |]. intros Hp Heq. destruct (Ho c' eq_refl) as [_ Hlt]; auto.
      specialize (Hlt Hp). lia.
    + destruct Hfirst as [?|(pre & post & -> & Hpre)]; [by left | right].
      exists pre, (post ++ [o]). by rewrite <- app_assoc.
  - intros Hnone c' [?|[-> ?]]; auto.
Qed.

Lemma best_spec_take l c b :
  amdgpu_crtc_on (Some c) hint = true ->
  best_spec l b ->
  (match b with Some c0 => coverage_of c0 | None => 0 end < coverage_of c \/
   is_primary c /\ coverage_of c = match b with Some c0 => coverage_of c0 | None => 0 end) ->
  best_spec (l ++ [Some c]) (Some c).
Proof.
  intros Hon Hb Hc. pose proof (coverage_nonneg c) as Hnn.
  assert (Hold : forall c', lit l c' ->
    coverage_of c' <= match b with Some c0 => coverage_of c0 | None => 0 end).
  { destruct b as [c0|]; simpl in Hb; intros c' H; [by apply Hb | destruct (Hb _ H); lia]. }
  assert (Hnn' : 0 <= match b with Some c0 => coverage_of c0 | None => 0 end)
    by (destruct b; [apply coverage_nonneg | lia]).
  simpl. setoid_rewrite lit_snoc. repeat split.
  - right. done.
  - intros c' [H|[[= ->] ?]]; [specialize (Hold _ H); lia | lia].
  - destruct Hc as [?|[? ?]]; [left; lia | by right].
  - intros c' [H|[[= ->] ?]] Hp Heq; [| done]. specialize (Hold _ H).
    destruct Hc as [?|[? ?]]; [lia | done].
  - destruct Hc as [?|[? ?]]; [right | by left].
    exists l, []. split; [done |]. intros c' H'. specialize (Hold _ H'). lia.
Qed.

Lemma covering_step_inv l b o :
  search_inv l b -> search_inv (l ++ [o]) (covering_step primary box hint b o).
Proof.
  destruct b as [b cov]. intros [Hb Hcov]. simpl in Hb, Hcov. subst cov.
  unfold covering_step. destruct (amdgpu_crtc_on o hint) eqn:Hon; simpl.
  - destruct o as [c|]; [| done]. fold (coverage_of c).
    destruct ((coverage_of c >? _) || _) eqn:E.
    + split; [| done]. apply (best_spec_take l c b); [done | done |].
      unfold is_primary. apply orb_true_iff in E as [E|[?%bool_decide_eq_true E]%andb_true_iff];
        [left; lia | right; split; [done | lia]].
    + split; [| done]. apply best_spec_skip; [| done]. intros c' [= <-] _.
      apply orb_false_iff in E as [E1 E2]. pose proof (coverage_nonneg c).
      unfold is_primary. rewrite andb_false_iff, bool_decide_eq_false in E2.
      destruct b; [split; [lia | intros Hp; destruct E2; [done | lia]] |].
      split; [lia |]. destruct E2; [done | lia].
  - split; [| done]. apply best_spec_skip; [| done]. intros c -> ?. congruence.
Qed.

Lemma search_correct l :
  best_spec l (fst (foldl (covering_step primary box hint) (None, 0) l)).
Proof.
  enough (search_inv l (foldl (covering_step primary box hint) (None, 0) l)) as [H _]; [done |].
  induction l as [|o l IH] using rev_ind.
  - split; [| done]. intros c [H _]. by apply elem_of_nil in H.
  - rewrite foldl_snoc. by apply covering_step_inv.
Qed.
End Search.

(** The primary CRTC of a screen, as the search computes it. *)
Definition primary_of `{RandR} (s : Screen) : option loc := mjoin (RRFirstOutput s).

(** C29. On a screen with RandR, for a box at any position that is at most 2{^15}
    pixels wide, the search returns a lit CRTC of the largest coverage, which is
    computed without overflow; the primary CRTC wins ties, then array order.  What it
    returns covers a pixel of the box or is the primary CRTC: a lit primary CRTC is
    returned even where no lit CRTC covers a pixel.  It returns nothing only if no lit
    CRTC covers a pixel and the primary CRTC is off. *)
Theorem crtc_covering_box_best `{RandR} s l box hint :
  rrPrivKey_registered = true -> rrGetScrPriv s = Some l -> drawable_box box ->
  best_spec (primary_of s) box hint l (amdgpu_crtc_covering_box s box hint) /\
  forall c, let r := amdgpu_box_intersect (amdgpu_crtc_box c) box in coverage_of box c = (x2 r - x1 r) * (y2 r - y1 r).
Proof.
  intros Hk Hs Hv. split; [| intros c r; exact (proj2 (coverage_bounds _ _ (crtc_box_wf c) Hv))].
  unfold amdgpu_crtc_covering_box, primary_of. rewrite Hk, Hs. simpl.
  destruct (RRFirstOutput s) as [[p|]|]; by apply search_correct.
Qed.

(** ** Two CRTCs side by side *)

Definition sample_left : RRCrtc := RR 1 0 0 (Some (1920, 1080)) RR_Rotate_0 None.
Definition sample_right : RRCrtc := RR 2 1920 0 (Some (1920, 1080)) RR_Rotate_0 None.
Definition sample_screen : Screen := mkScreen false false (Some [Some sample_left; Some sample_right]) [].
Definition sample_two : RandR := {|
  rrPrivKey_registered := true; RRFirstOutput _ := None; rr_screen _ _ := sample_screen |}.

Lemma crtc_covering_box_best_witness :
  best_spec (@primary_of sample_two sample_screen) (Box (-100) (-20) 2400 500) true
    [Some sample_left; Some sample_right]
    (@amdgpu_crtc_covering_box sample_two sample_screen (Box (-100) (-20) 2400 500) true) /\
  coverage_of (Box (-100) (-20) 2400 500) sample_left = 960000 /\
  @amdgpu_crtc_covering_box sample_two sample_screen (Box (-100) (-20) 2400 500) true = Some sample_left.
Proof.
  assert (Hv : drawable_box (Box (-100) (-20) 2400 500)) by (unfold drawable_box, wf_box, in_s16; cbn; lia).
  destruct (@crtc_covering_box_best sample_two sample_screen [Some sample_left; Some sample_right] _ true eq_refl eq_refl Hv) as [H1 H2].
  split_and!; [exact H1 | rewrite (H2 sample_left); reflexivity | vm_compute; reflexivity].
Defined.
