(* ===== verification/Lut.v ===== *)
(** * Gamma lookup tables: drmmode_lut_compose and drmmode_lut_interpolate

    The resampling of the X server's legacy gamma ramp to the size of the
    kernel's gamma table, and its composition with a table set by a client
    (src/src/drmmode_display.c).  All index and value arithmetic is the C code's
    unsigned 32-bit arithmetic; [None] is a division by zero or a read outside
    an array. *)
From S2P Require Import Prelude Modes World.

(** ** The code *)

Definition max_lut : Z := 2 ^ 16 - 1.

(** [a[i]] of a C array. *)
Definition aref (a : list Z) (i : Z) : option Z :=
  if i <? 0 then None else a !! Z.to_nat i.

(** The body shared by both loops: the sample point [i] of the target table
    interpolated in [a], multiplied by [i_bmax]. *)
Definition lut_sample (a : list Z) (i_amax i_bmax i : Z) : option Z :=
  if i_bmax =? 0 then None
  else
    let i_l := u32 (i * i_amax) / i_bmax in
    let i_r := u32 (i_l + (if u32 (i_amax - i_l) =? 0 then 0 else 1)) in
    let coeff_ibmax := u32 (u32 (i * i_amax) - u32 (i_l * i_bmax)) in
    al ← aref a i_l;
    ar ← aref a i_r;
    Some (u32 (u32 (i_bmax * al) + u32 (coeff_ibmax * u32 (ar - al)))).

(** One color of [drmmode_lut_compose]. *)
Definition compose_channel (a b : list Z) (i_amax i_bmax i : Z) : option Z :=
  a_out_ibmax ← lut_sample a i_amax i_bmax i;
  aref b (u32 (a_out_ibmax / max_lut)).

(** One color of [drmmode_lut_interpolate]. *)
Definition interpolate_channel (a : list Z) (i_amax i_bmax i : Z) : option Z :=
  out_ibmax ← lut_sample a i_amax i_bmax i;
  Some (u16 (out_ibmax / i_bmax)).

(** [for (i = 0; i < len; i++)] *)
Definition indices (len : Z) : list Z := Z.of_nat <$> seq 0 (Z.to_nat len).

(** The three color loops write one member each of every entry; the last loop
    clears [reserved]. *)
Definition fill_lut (r g b : Z -> option Z) (len : Z) : option (list drm_color_lut) :=
  rs ← mapM r (indices len);
  gs ← mapM g (indices len);
  bs ← mapM b (indices len);
  Some (zip_with (fun rg b => Lut rg.1 rg.2 b 0) (zip rs gs) bs).

Definition drmmode_lut_compose (a_red a_green a_blue : list Z) (b_lut : list drm_color_lut)
    (len_a len_b : Z) : option (list drm_color_lut) :=
  let i_amax := u32 (len_a - 1) in
  let i_bmax := u32 (len_b - 1) in
  fill_lut (compose_channel a_red (red <$> b_lut) i_amax i_bmax)
           (compose_channel a_green (green <$> b_lut) i_amax i_bmax)
           (compose_channel a_blue (blue <$> b_lut) i_amax i_bmax) len_b.

Definition drmmode_lut_interpolate (in_red in_green in_blue : list Z) (len_in len_out : Z)
  : option (list drm_color_lut) :=
  let i_amax := u32 (len_in - 1) in
  let i_bmax := u32 (len_out - 1) in
  fill_lut (interpolate_channel in_red i_amax i_bmax)
           (interpolate_channel in_green i_amax i_bmax)
           (interpolate_channel in_blue i_amax i_bmax) len_out.

(** ** Reference: exact linear interpolation over the integers *)

(** Left neighbour, weight of the right neighbour, and the interpolated value
    scaled by [nb]: sample [i] of [nb + 1] points laid over [na + 1] points. *)
Definition left_of (na nb i : Z) : Z := i * na / nb.
Definition weight_of (na nb i : Z) : Z := i * na mod nb.
Definition lin (f : Z -> Z) (na nb i : Z) : Z :=
  let l := left_of na nb i in
  let c := weight_of na nb i in
  f l * (nb - c) + f (Z.min (l + 1) na) * c.

(** A ramp of 16-bit values of a given length. *)
Definition ramp (a : list Z) (len : Z) : Prop :=
  Z.of_nat (length a) = len /\ Forall in_u16 a.

Definition val (a : list Z) (i : Z) : Z := nth (Z.to_nat i) a 0.

(** Sizes for which no intermediate value leaves 32 bits: the scaled sample is
    at most [i_bmax * 65535] and the scaled index [i_bmax * i_amax]. *)
Definition sizes_ok (len_a len_b : Z) : Prop :=
  1 <= len_a /\ 2 <= len_b <= 65537 /\ (len_a - 1) * (len_b - 1) < 2 ^ 32.

(** ** Index arithmetic *)

Section Sample.
Context (na nb i : Z) (Hna : 0 <= na) (Hnb : 1 <= nb) (Hi : 0 <= i <= nb).

Lemma left_bounds : 0 <= left_of na nb i <= na.
Proof.
  unfold left_of. split; [apply Z.div_pos; nia |].
  apply Z.div_le_upper_bound; nia.
Qed.

Lemma weight_bounds : 0 <= weight_of na nb i < nb.
Proof. apply Z.mod_pos_bound. lia. Qed.

Lemma left_weight : i * na = nb * left_of na nb i + weight_of na nb i.
Proof. apply Z.div_mod. lia. Qed.

(** The interpolated value lies between its two neighbours. *)
Lemma lin_between f lo hi :
  (forall j, 0 <= j <= na -> lo <= f j <= hi) -> nb * lo <= lin f na nb i <= nb * hi.
Proof.
  intros Hf. unfold lin. pose proof left_bounds. pose proof weight_bounds.
  set (l := left_of na nb i) in *. set (c := weight_of na nb i) in *.
  pose proof (Hf l ltac:(lia)). pose proof (Hf (Z.min (l + 1) na) ltac:(lia)). nia.
Qed.
End Sample.

Lemma aref_val a len i :
  ramp a len -> 0 <= i < len -> aref a i = Some (val a i) /\ in_u16 (val a i).
Proof.
  intros [Hlen Ha] Hi. unfold aref, val. destruct (Z.ltb_spec i 0); [lia |].
  destruct (lookup_lt_is_Some_2 a (Z.to_nat i)) as [v Hv]; [lia |].
  rewrite Hv, nth_lookup, Hv. split; [done |]. simpl.
  by eapply Forall_lookup_1 in Ha.
Qed.

Lemma u32_mul_u32_r x y : u32 (x * u32 y) = u32 (x * y).
Proof. unfold u32. by rewrite Zmult_mod_idemp_r. Qed.
Lemma u32_add_u32 x y : u32 (u32 x + u32 y) = u32 (x + y).
Proof. unfold u32. by rewrite <- Zplus_mod. Qed.

(** The unsigned 32-bit sample is the exact one: the wrapped difference of a
    falling ramp and the wrapped products cancel out. *)
Lemma lut_sample_exact a len_a len_b i :
  sizes_ok len_a len_b -> ramp a len_a -> 0 <= i < len_b ->
  lut_sample a (len_a - 1) (len_b - 1) i = Some (lin (val a) (len_a - 1) (len_b - 1) i) /\
  0 <= lin (val a) (len_a - 1) (len_b - 1) i <= (len_b - 1) * 65535.
Proof.
  intros (Ha & Hb & Hprod) Hr Hi. set (na := len_a - 1) in *. set (nb := len_b - 1) in *.
  assert (Hlin : 0 <= lin (val a) na nb i <= nb * 65535).
  { pose proof (lin_between na nb i ltac:(lia) ltac:(lia) ltac:(lia) (val a) 0 65535) as H.
    destruct H; [| lia]. intros j Hj.
    destruct (aref_val a len_a j Hr ltac:(lia)) as [_ H]. unfold in_u16 in H. lia. }
  split; [| done]. pose proof (left_bounds na nb i ltac:(lia) ltac:(lia) ltac:(lia)) as Hl.
  pose proof (weight_bounds na nb i ltac:(lia)) as Hc.
  pose proof (left_weight na nb i ltac:(lia)) as Heq.
  unfold lut_sample. destruct (Z.eqb_spec nb 0); [lia |].
  rewrite (u32_id (i * na)) by (unfold in_u32; nia). fold (left_of na nb i).
  unfold lin in *. set (l := left_of na nb i) in *. set (c := weight_of na nb i) in *.
  rewrite (u32_id (na - l)) by (unfold in_u32; nia).
  replace (l + (if na - l =? 0 then 0 else 1)) with (Z.min (l + 1) na)
    by (destruct (Z.eqb_spec (na - l) 0); lia).
  rewrite (u32_id (Z.min (l + 1) na)) by (unfold in_u32; nia).
  rewrite (u32_id (l * nb)) by (unfold in_u32; nia).
  rewrite (u32_id (i * na - l * nb)) by (unfold in_u32; nia).
  destruct (aref_val a len_a l Hr ltac:(lia)) as [-> _]. cbn.
  destruct (aref_val a len_a (Z.min (l + 1) na) Hr ltac:(lia)) as [-> _]. cbn.
  rewrite u32_mul_u32_r, u32_add_u32. f_equal.
  replace (i * na - l * nb) with c by lia.
  rewrite u32_id; [lia | unfold in_u32; nia].
Qed.

(** ** Whole tables *)

Lemma elem_of_indices len i : i ∈ indices len <-> 0 <= i < len.
Proof.
  unfold indices. rewrite list_elem_of_fmap. setoid_rewrite elem_of_seq.
  split; [intros (n & -> & ?); lia | intros; exists (Z.to_nat i); lia].
Qed.

Lemma mapM_total {A B} (f : A -> option B) (g : A -> B) l :
  (forall x, x ∈ l -> f x = Some (g x)) -> mapM f l = Some (g <$> l).
Proof.
  intros H. apply mapM_Some. induction l as [|x l IH]; constructor.
  - apply H. left.
  - apply IH. intros. apply H. by right.
Qed.

Lemma fill_lut_total r g b fr fg fb len :
  (forall i, 0 <= i < len -> r i = Some (fr i) /\ g i = Some (fg i) /\ b i = Some (fb i)) ->
  fill_lut r g b len = Some ((fun i => Lut (fr i) (fg i) (fb i) 0) <$> indices len).
Proof.
  intros H. unfold fill_lut.
  rewrite (mapM_total r fr), (mapM_total g fg), (mapM_total b fb)
    by (intros; by apply H, elem_of_indices). cbn.
  f_equal. induction (indices len) as [|i l IH]; [done |]. cbn. by f_equal.
Qed.

(** The value [drmmode_lut_interpolate] stores: the interpolated sample rounded
    down. *)
Definition resampled (a : list Z) (len_in len_out i : Z) : Z :=
  lin (val a) (len_in - 1) (len_out - 1) i / (len_out - 1).

(** The value [drmmode_lut_compose] stores: the entry of [b] at the
    interpolated sample, scaled from the value range to the index range. *)
Definition composed (a b : list Z) (len_a len_b i : Z) : Z :=
  val b (lin (val a) (len_a - 1) (len_b - 1) i / 65535).

Lemma resampled_bounds a len_in len_out i :
  sizes_ok len_in len_out -> ramp a len_in -> 0 <= i < len_out ->
  in_u16 (resampled a len_in len_out i).
Proof.
  intros Hs Ha Hi. destruct (lut_sample_exact a _ _ i Hs Ha Hi) as [_ Hlin].
  destruct Hs as (? & ? & ?). unfold resampled, in_u16. split.
  - apply Z.div_pos; lia.
  - apply Z.div_lt_upper_bound; lia.
Qed.

Lemma interpolate_channel_exact a len_in len_out i :
  sizes_ok len_in len_out -> ramp a len_in -> 0 <= i < len_out ->
  interpolate_channel a (len_in - 1) (len_out - 1) i = Some (resampled a len_in len_out i).
Proof.
  intros Hs Ha Hi. unfold interpolate_channel.
  destruct (lut_sample_exact a _ _ i Hs Ha Hi) as [-> _]. cbn.
  f_equal. apply u16_id. by apply resampled_bounds.
Qed.

Lemma compose_channel_exact a b len_a len_b i :
  sizes_ok len_a len_b -> ramp a len_a -> ramp b len_b -> 0 <= i < len_b ->
  compose_channel a b (len_a - 1) (len_b - 1) i = Some (composed a b len_a len_b i).
Proof.
  intros Hs Ha Hb Hi. unfold compose_channel, composed.
  destruct (lut_sample_exact a _ _ i Hs Ha Hi) as [-> Hlin]. cbn [mbind option_bind].
  destruct Hs as (? & ? & ?). change max_lut with 65535.
  set (v := lin _ _ _ _) in *.
  assert (0 <= v / 65535 <= len_b - 1)
    by (split; [apply Z.div_pos; lia | apply Z.div_le_upper_bound; lia]).
  rewrite u32_id by (unfold in_u32; lia). by apply (aref_val b len_b); [| lia].
Qed.

Lemma u32_pred len : 1 <= len <= 2 ^ 32 -> u32 (len - 1) = len - 1.
Proof. intros. apply u32_id. unfold in_u32. lia. Qed.

Lemma interpolate_exact r g b len_in len_out :
  sizes_ok len_in len_out -> len_in <= 2 ^ 32 ->
  ramp r len_in -> ramp g len_in -> ramp b len_in ->
  drmmode_lut_interpolate r g b len_in len_out =
  Some ((fun i => Lut (resampled r len_in len_out i) (resampled g len_in len_out i)
                      (resampled b len_in len_out i) 0) <$> indices len_out).
Proof.
  intros Hs Hin Hr Hg Hb. unfold drmmode_lut_interpolate. pose proof Hs as (? & ? & ?).
  rewrite !u32_pred by lia. apply fill_lut_total. intros i Hi.
  by rewrite !interpolate_channel_exact.
Qed.

(** C30. Resampling a legacy gamma ramp never divides by zero, reads outside a
    table or loses a carry, for every table size the interpolation fits in 32
    bits: each entry is the exact linear interpolation rounded down, and
    [reserved] is cleared. *)
Theorem lut_interpolate_exact r g b len_in len_out :
  sizes_ok len_in len_out -> len_in <= 2 ^ 32 ->
  ramp r len_in -> ramp g len_in -> ramp b len_in ->
  drmmode_lut_interpolate r g b len_in len_out =
  Some ((fun i => Lut (resampled r len_in len_out i) (resampled g len_in len_out i)
                      (resampled b len_in len_out i) 0) <$> indices len_out).
Proof. apply interpolate_exact. Qed.

Lemma ramp_channel (f : drm_color_lut -> Z) (b_lut : list drm_color_lut) len :
  Z.of_nat (length b_lut) = len -> Forall (fun e => in_u16 (f e)) b_lut ->
  ramp (f <$> b_lut) len.
Proof. intros <- H. split; [by rewrite length_fmap | by apply Forall_fmap]. Qed.

(** C31. Composing the legacy ramp with a client's table is safe for the same
    sizes and computes b(a(x)): entry [i] is the entry of the client's table
    that the interpolated legacy value selects. *)
Theorem lut_compose_exact r g b b_lut len_a len_b :
  sizes_ok len_a len_b -> len_a <= 2 ^ 32 ->
  ramp r len_a -> ramp g len_a -> ramp b len_a ->
  Z.of_nat (length b_lut) = len_b ->
  Forall (fun e => in_u16 (red e) /\ in_u16 (green e) /\ in_u16 (blue e)) b_lut ->
  drmmode_lut_compose r g b b_lut len_a len_b =
  Some ((fun i => Lut (composed r (red <$> b_lut) len_a len_b i)
                      (composed g (green <$> b_lut) len_a len_b i)
                      (composed b (blue <$> b_lut) len_a len_b i) 0) <$> indices len_b).
Proof.
  intros Hs Hin Hr Hg Hb Hlen Hlut. unfold drmmode_lut_compose. pose proof Hs as (? & ? & ?).
  rewrite !u32_pred by lia. apply fill_lut_total. intros i Hi.
  rewrite !compose_channel_exact; try done; apply ramp_channel; try done;
    (eapply Forall_impl; [exact Hlut |]); by intros e (? & ? & ?).
Qed.

(** ** Shape of the resampled table *)

Lemma lin_mono f na nb i i' :
  0 <= na -> 1 <= nb -> 0 <= i <= i' -> i' <= nb ->
  (forall j j', 0 <= j <= j' -> j' <= na -> f j <= f j') ->
  lin f na nb i <= lin f na nb i'.
Proof.
  intros Hna Hnb Hi Hi' Hf. unfold lin.
  pose proof (left_bounds na nb i Hna Hnb ltac:(lia)) as Hl.
  pose proof (left_bounds na nb i' Hna Hnb ltac:(lia)) as Hl'.
  pose proof (weight_bounds na nb i Hnb) as Hw. pose proof (weight_bounds na nb i' Hnb) as Hw'.
  pose proof (left_weight na nb i Hnb) as He. pose proof (left_weight na nb i' Hnb) as He'.
  set (l := left_of na nb i) in *. set (l' := left_of na nb i') in *.
  set (c := weight_of na nb i) in *. set (c' := weight_of na nb i') in *.
  assert (i * na <= i' * na) by nia.
  assert (l <= l') by nia.
  pose proof (Hf l (Z.min (l + 1) na) ltac:(lia) ltac:(lia)).
  pose proof (Hf l' (Z.min (l' + 1) na) ltac:(lia) ltac:(lia)).
  destruct (Z.eq_dec l l') as [<-|Hne].
  - assert (c <= c') by nia. nia.
  - pose proof (Hf (Z.min (l + 1) na) l' ltac:(lia) ltac:(lia)). nia.
Qed.

Lemma resampled_first a len_in len_out :
  sizes_ok len_in len_out -> resampled a len_in len_out 0 = val a 0.
Proof.
  intros (? & ? & ?). unfold resampled, lin, left_of, weight_of.
  rewrite Z.mul_0_l, Z.div_0_l, Z.mod_0_l by lia.
  rewrite Z.mul_0_r, Z.add_0_r, Z.sub_0_r. apply Z.div_mul. lia.
Qed.

Lemma resampled_last a len_in len_out :
  sizes_ok len_in len_out -> resampled a len_in len_out (len_out - 1) = val a (len_in - 1).
Proof.
  intros (? & ? & ?). unfold resampled, lin, left_of, weight_of.
  rewrite (Z.mul_comm (len_out - 1) (len_in - 1)), Z.div_mul, Z.mod_mul by lia.
  rewrite Z.mul_0_r, Z.add_0_r, Z.sub_0_r. apply Z.div_mul. lia.
Qed.

Definition rising (a : list Z) : Prop :=
  forall i j x y, (i <= j)%nat -> a !! i = Some x -> a !! j = Some y -> x <= y.

Lemma val_lookup a (i : nat) x : a !! i = Some x -> val a (Z.of_nat i) = x.
Proof. intros H. unfold val. by rewrite Nat2Z.id, nth_lookup, H. Qed.

Lemma rising_val a len j j' :
  ramp a len -> rising a -> 0 <= j <= j' -> j' < len -> val a j <= val a j'.
Proof.
  intros [Hlen _] Ha Hj Hj'.
  destruct (lookup_lt_is_Some_2 a (Z.to_nat j)) as [x Hx]; [lia |].
  destruct (lookup_lt_is_Some_2 a (Z.to_nat j')) as [y Hy]; [lia |].
  unfold val. rewrite !nth_lookup, Hx, Hy. eapply Ha; [| done..]. lia.
Qed.

Lemma lookup_indices len i x :
  indices len !! i = Some x -> x = Z.of_nat i /\ 0 <= x < len.
Proof.
  intros Hx. pose proof Hx as Hin. apply list_elem_of_lookup_2, elem_of_indices in Hin.
  unfold indices in Hx. rewrite list_lookup_fmap in Hx. apply fmap_Some in Hx as (n & Hn & ->).
  apply lookup_seq in Hn as [-> ?]. done.
Qed.

(** A resampled channel keeps the shape of the ramp it comes from. *)
Definition keeps_shape (a out : list Z) : Prop :=
  rising out /\ head out = head a /\ last out = last a.

Lemma resampled_rising a len_in len_out :
  sizes_ok len_in len_out -> ramp a len_in -> rising a ->
  rising (resampled a len_in len_out <$> indices len_out).
Proof.
  intros Hs Ha Hr i j x y Hij Hx Hy. pose proof Hs as (? & ? & ?).
  rewrite list_lookup_fmap, fmap_Some in Hx, Hy.
  destruct Hx as (xi & [-> ?]%lookup_indices & ->), Hy as (yi & [-> ?]%lookup_indices & ->).
  apply Z.div_le_mono; [lia |]. apply lin_mono; try lia.
  intros. apply (rising_val a len_in); done || lia.
Qed.

Lemma head_ramp a len : ramp a len -> 1 <= len -> head a = Some (val a 0).
Proof. destruct a; intros [? _] ?; simpl in *; [lia | done]. Qed.

Lemma last_ramp a len : ramp a len -> 1 <= len -> last a = Some (val a (len - 1)).
Proof.
  intros [Hlen _] ?. rewrite last_lookup.
  destruct (lookup_lt_is_Some_2 a (pred (length a))) as [x Hx]; [lia |].
  rewrite Hx. f_equal. symmetry. replace (len - 1) with (Z.of_nat (pred (length a))) by lia.
  by apply val_lookup.
Qed.

Lemma resampled_keeps_shape a len_in len_out :
  sizes_ok len_in len_out -> ramp a len_in -> rising a ->
  keeps_shape a (resampled a len_in len_out <$> indices len_out).
Proof.
  intros Hs Ha Hr. pose proof Hs as (? & ? & ?). split; [by apply resampled_rising |].
  assert (Hramp : ramp (resampled a len_in len_out <$> indices len_out) len_out).
  { split; [rewrite length_fmap; unfold indices; rewrite length_fmap, length_seq; lia |].
    apply Forall_fmap, Forall_forall. intros i Hi%elem_of_indices. by apply resampled_bounds. }
  assert (Hval : forall i, 0 <= i < len_out ->
    val (resampled a len_in len_out <$> indices len_out) i = resampled a len_in len_out i).
  { intros i Hi. rewrite <- (Z2Nat.id i) at 1 by lia. apply val_lookup.
    rewrite list_lookup_fmap. unfold indices. rewrite list_lookup_fmap, lookup_seq_lt by lia.
    simpl. by rewrite Z2Nat.id by lia. }
  rewrite (head_ramp _ _ Hramp), (last_ramp _ _ Hramp), (head_ramp _ _ Ha), (last_ramp _ _ Ha) by lia.
  rewrite !Hval, resampled_first, resampled_last by (done || lia). done.
Qed.

(** Rising legacy ramps give a rising table whose first and last entries
    are the first and last entries of the ramps: black and full intensity are
    programmed exactly, and no step of the ramp is inverted. *)
Theorem lut_interpolate_monotone r g b len_in len_out :
  sizes_ok len_in len_out -> len_in <= 2 ^ 32 ->
  ramp r len_in -> ramp g len_in -> ramp b len_in ->
  rising r -> rising g -> rising b ->
  exists out, drmmode_lut_interpolate r g b len_in len_out = Some out /\
    keeps_shape r (red <$> out) /\ keeps_shape g (green <$> out) /\ keeps_shape b (blue <$> out).
Proof.
  intros. eexists. split; [by apply interpolate_exact |].
  rewrite <- !list_fmap_compose. unfold compose. cbn.
  by split_and!; apply resampled_keeps_shape.
Qed.

(** Tables of equal size are copied. *)
Lemma resampled_same_size a len i :
  2 <= len -> 0 <= i < len -> resampled a len len i = val a i.
Proof.
  intros Hlen Hi. unfold resampled, lin, left_of, weight_of.
  rewrite Z.div_mul, Z.mod_mul by lia.
  rewrite Z.mul_0_r, Z.add_0_r, Z.sub_0_r. apply Z.div_mul. lia.
Qed.

(** ** The theorems on small tables *)

Definition sample_ramp : list Z := [0; 20000; 65535].

Lemma sample_ramp_ok : ramp sample_ramp 3 /\ rising sample_ramp /\ sizes_ok 3 5.
Proof.
  split; [| split].
  - split; [done |]. repeat constructor; unfold in_u16; lia.
  - intros i j x y Hij Hi Hj.
    destruct i as [|[|[|]]], j as [|[|[|]]]; cbn in *; simplify_eq; lia.
  - unfold sizes_ok. lia.
Qed.

Lemma lut_interpolate_exact_witness :
  sizes_ok 3 5 /\ drmmode_lut_interpolate sample_ramp sample_ramp sample_ramp 3 5
  = Some ((fun x => Lut x x x 0) <$> [0; 10000; 20000; 42767; 65535]).
Proof.
  destruct sample_ramp_ok as (Hr & _ & Hs). split; [done |].
  rewrite (lut_interpolate_exact sample_ramp sample_ramp sample_ramp 3 5 Hs ltac:(lia) Hr Hr Hr).
  vm_compute. reflexivity.
Defined.

Lemma lut_compose_exact_witness :
  sizes_ok 3 3 /\
  drmmode_lut_compose sample_ramp sample_ramp sample_ramp [Lut 0 0 0 0; Lut 1 2 3 0; Lut 9 8 7 0] 3 3
  = Some [Lut 0 0 0 0; Lut 0 0 0 0; Lut 9 8 7 0].
Proof.
  destruct sample_ramp_ok as (Hr & _ & _). assert (Hs : sizes_ok 3 3) by (unfold sizes_ok; lia).
  split; [done |].
  rewrite (lut_compose_exact sample_ramp sample_ramp sample_ramp
             [Lut 0 0 0 0; Lut 1 2 3 0; Lut 9 8 7 0] 3 3 Hs ltac:(lia) Hr Hr Hr eq_refl).
  - vm_compute. reflexivity.
  - repeat constructor; cbn; lia.
Defined.

Lemma lut_interpolate_monotone_witness :
  exists out, drmmode_lut_interpolate sample_ramp sample_ramp sample_ramp 3 5 = Some out /\
    keeps_shape sample_ramp (red <$> out) /\ keeps_shape sample_ramp (green <$> out) /\
    keeps_shape sample_ramp (blue <$> out).
Proof.
  destruct sample_ramp_ok as (Hr & Hm & Hs). by apply (lut_interpolate_monotone _ _ _ 3 5).
Defined.
