(* ===== verification/Cursor.v ===== *)
(** * Cursors: src/src/drmmode_display.c

    The gamma correction of cursor images ([drmmode_cursor_pixel] and the copy
    loop of [drmmode_load_cursor_argb]), the hot spot of a rotated cursor
    ([drmmode_show_cursor]) and the count of visible software cursors
    ([drmmode_sprite_do_set_cursor] and its callers). *)
From Stdlib Require Import Btauto.
From S2P Require Import Prelude Modes World Lut.

(** ** One pixel *)

(** The three gamma tables of a CRTC. *)
Record gamma := Gamma { g_red : list Z; g_green : list Z; g_blue : list Z }.

Definition channel (argb i : Z) : Z := Z.land (Z.shiftr argb (i * 8)) 255.

(** [alpha | alpha << 8 | alpha << 16 | alpha << 24] in 32 bits. *)
Definition alpha4 (alpha : Z) : Z :=
  Z.lor (Z.lor (Z.lor alpha (u32 (Z.shiftl alpha 8))) (u32 (Z.shiftl alpha 16)))
        (u32 (Z.shiftl alpha 24)).

(** The result of [drmmode_cursor_pixel]: its return value and the values left
    in [*argb] and [*apply_gamma]; [None] is a read outside a gamma table. *)
Definition drmmode_cursor_pixel (gm : gamma) (argb : Z) (premultiplied apply_gamma : bool)
  : option (bool * Z * bool) :=
  let alpha := Z.shiftr argb 24 in
  if premultiplied && negb apply_gamma then Some (true, argb, apply_gamma)
  else if premultiplied && (argb >? alpha4 alpha) then Some (false, argb, false)
  else if alpha =? 0 then Some (true, 0, apply_gamma)
  else
    (* Extract RGB *)
    let rgb i := channel argb i in
    (* Un-premultiply alpha *)
    let rgb i := if premultiplied then u32 (rgb i * 255) / alpha else rgb i in
    b ← (if apply_gamma then (fun v => Z.shiftr v 8) <$> aref (g_blue gm) (rgb 0) else Some (rgb 0));
    g ← (if apply_gamma then (fun v => Z.shiftr v 8) <$> aref (g_green gm) (rgb 1) else Some (rgb 1));
    r ← (if apply_gamma then (fun v => Z.shiftr v 8) <$> aref (g_red gm) (rgb 2) else Some (rgb 2));
    (* Premultiply alpha *)
    let pre c := u32 (c * alpha) / 255 in
    Some (true,
          Z.lor (Z.lor (Z.lor (u32 (Z.shiftl alpha 24)) (u32 (Z.shiftl (pre r) 16)))
                       (u32 (Z.shiftl (pre g) 8))) (pre b),
          apply_gamma).

(** ** The image *)

(** Little-endian hosts: [cpu_to_le32(x)] is [x]. *)
Definition cpu_to_le32 (x : Z) : Z := x.

(** [ptr[i] = v] of the mapped cursor buffer. *)
Definition aset (a : list Z) (i v : Z) : option (list Z) :=
  if (0 <=? i) && (i <? Z.of_nat (length a)) then Some (<[Z.to_nat i := v]> a) else None.

(** The copy loop from index [i] on, [n] iterations left; [inl] is the jump to
    [retry] with gamma correction switched off. *)
Fixpoint copy_loop (gm : gamma) (image : list Z) (apply_gamma : bool) (i : Z) (n : nat)
    (ptr : list Z) : option (list Z + list Z) :=
  match n with
  | O => Some (inr ptr)
  | S n' =>
      argb ← aref image i;
      r ← drmmode_cursor_pixel gm argb true apply_gamma;
      let '(ok, argb', apply_gamma') := r in
      if negb ok then Some (inl ptr)
      else
        ptr' ← aset ptr i (cpu_to_le32 argb');
        copy_loop gm image apply_gamma' (i + 1) n' ptr'
  end.

(** [retry:] runs the loop again from the start; [None] also when the fuel is
    spent. *)
Fixpoint load_loop (fuel : nat) (gm : gamma) (image : list Z) (apply_gamma : bool)
    (cursor_size : Z) (ptr : list Z) : option (list Z) :=
  match fuel with
  | O => None
  | S fuel' =>
      r ← copy_loop gm image apply_gamma 0 (Z.to_nat cursor_size) ptr;
      match r with
      | inr ptr' => Some ptr'
      | inl ptr' => load_loop fuel' gm image false cursor_size ptr'
      end
  end.

(** Enough for the one retry there can be. *)
Definition load_cursor_pixels := load_loop 2.

(** ** Hot spot of a rotated cursor *)

Definition cursor_hotspot (rotation cursor_w cursor_h xhot yhot : Z) : Z * Z :=
  if negb (rotation =? RR_Rotate_0)
     && negb (rotation =? Z.lor RR_Rotate_180 (Z.lor RR_Reflect_X RR_Reflect_Y))
  then
    let xhot := if negb (Z.land rotation RR_Reflect_X =? 0) then cursor_w - xhot - 1 else xhot in
    let yhot := if negb (Z.land rotation RR_Reflect_Y =? 0) then cursor_h - yhot - 1 else yhot in
    let r := Z.land rotation 15 in
    if r =? RR_Rotate_90 then (yhot, cursor_w - xhot - 1)
    else if r =? RR_Rotate_180 then (cursor_w - xhot - 1, cursor_h - yhot - 1)
    else if r =? RR_Rotate_270 then (cursor_h - yhot - 1, xhot)
    else (xhot, yhot)
  else (xhot, yhot).

(** ** Software cursors *)

Record cursor_bits := Bits { xhot : Z; yhot : Z; bits_width : Z; bits_height : Z }.

(** [struct amdgpu_device_priv]: one per input device. *)
Record amdgpu_device_priv := Dev { dev_cursor : option cursor_bits; sprite_visible : bool }.

Definition drmmode_sprite_do_set_cursor (virtualX virtualY : Z) (x y : Z)
    (device_priv : amdgpu_device_priv) (sprites_visible : Z) : amdgpu_device_priv * Z :=
  let was := sprite_visible device_priv in
  let vis :=
    match dev_cursor device_priv with
    | Some c =>
        let x := x - xhot c in
        let y := y - yhot c in
        (x <? virtualX) && (y <? virtualY) && (x + bits_width c >? 0) && (y + bits_height c >? 0)
    | None => false
    end in
  (Dev (dev_cursor device_priv) vis, sprites_visible + Z.b2z vis - Z.b2z was).

(** The screen's devices and its counter of visible sprites; the screen's size
    is fixed between the steps. *)
Record sprites := Sprites { devices : gmap loc amdgpu_device_priv; visible_count : Z }.

Definition sprite_op (virtualX virtualY x y : Z) (dev : loc)
    (f : amdgpu_device_priv -> amdgpu_device_priv) (s : sprites) : option sprites :=
  d ← devices s !! dev;
  let '(d', n) := drmmode_sprite_do_set_cursor virtualX virtualY x y (f d) (visible_count s) in
  Some (Sprites (<[dev := d']> (devices s)) n).

Definition drmmode_sprite_set_cursor (virtualX virtualY : Z) (dev : loc)
    (pCursor : option cursor_bits) (x y : Z) : sprites -> option sprites :=
  sprite_op virtualX virtualY x y dev (fun d => Dev pCursor (sprite_visible d)).

Definition drmmode_sprite_move_cursor (virtualX virtualY : Z) (dev : loc) (x y : Z)
  : sprites -> option sprites :=
  sprite_op virtualX virtualY x y dev (fun d => d).

(** ** Pixels as four bytes *)

Definition byte (x : Z) : Prop := 0 <= x < 256.

Definition pixel (a r g b : Z) : Z := a * 2 ^ 24 + r * 2 ^ 16 + g * 2 ^ 8 + b.

Lemma lor_shiftl_add a b k : 0 <= k -> 0 <= a < 2 ^ k -> Z.lor (Z.shiftl b k) a = b * 2 ^ k + a.
Proof.
  intros Hk Ha. rewrite <- Z.shiftl_mul_pow2 by done.
  pose proof (Z.add_lor_land (Z.shiftl b k) a) as Hs.
  replace (Z.land (Z.shiftl b k) a) with 0 in Hs; [lia |].
  symmetry. apply Z.bits_inj'. intros n Hn. rewrite Z.land_spec, Z.bits_0.
  destruct (Z.lt_ge_cases n k).
  - by rewrite Z.shiftl_spec_low.
  - rewrite <- (Z.mod_small a (2 ^ k)) by done.
    rewrite Z.mod_pow2_bits_high by lia. apply andb_false_r.
Qed.

Section Bytes.
Context (a r g b : Z) (Ha : byte a) (Hr : byte r) (Hg : byte g) (Hb : byte b).

Lemma pixel_alpha : Z.shiftr (pixel a r g b) 24 = a.
Proof.
  rewrite Z.shiftr_div_pow2 by lia. unfold pixel, byte in *.
  replace (a * 2 ^ 24 + r * 2 ^ 16 + g * 2 ^ 8 + b)
    with (r * 2 ^ 16 + g * 2 ^ 8 + b + a * 2 ^ 24) by lia.
  rewrite Z.div_add, Z.div_small; lia.
Qed.

Lemma channel_div_mod argb i : 0 <= i -> channel argb i = argb / 2 ^ (i * 8) mod 256.
Proof.
  intros. unfold channel. rewrite Z.shiftr_div_pow2 by lia.
  by rewrite (Z.land_ones _ 8).
Qed.

Lemma pixel_channels :
  channel (pixel a r g b) 0 = b /\ channel (pixel a r g b) 1 = g /\ channel (pixel a r g b) 2 = r.
Proof.
  rewrite !channel_div_mod by lia. unfold pixel, byte in *. cbn [Z.mul Pos.mul].
  change (2 ^ 0) with 1. change (2 ^ 8) with 256. change (2 ^ 16) with 65536.
  change (2 ^ 24) with 16777216. rewrite Z.div_1_r.
  repeat split; Z.div_mod_to_equations; lia.
Qed.

Lemma pixel_lor :
  Z.lor (Z.lor (Z.lor (u32 (Z.shiftl a 24)) (u32 (Z.shiftl r 16))) (u32 (Z.shiftl g 8))) b
  = pixel a r g b.
Proof.
  unfold byte in *.
  rewrite !u32_id by (unfold in_u32; rewrite Z.shiftl_mul_pow2; lia).
  rewrite <- !Z.lor_assoc, (lor_shiftl_add b), (lor_shiftl_add _ r), (lor_shiftl_add _ a) by lia.
  unfold pixel. lia.
Qed.
End Bytes.

Lemma lor_rev4 a x y z : Z.lor (Z.lor (Z.lor a x) y) z = Z.lor (Z.lor (Z.lor z y) x) a.
Proof. apply Z.bits_inj. intros n. rewrite !Z.lor_spec. btauto. Qed.

Lemma alpha4_pixel a : byte a -> alpha4 a = pixel a a a a.
Proof. intros Ha. unfold alpha4. rewrite lor_rev4. by apply pixel_lor. Qed.

(** ** Gamma correction of premultiplied pixels *)

(** A table the size the X server allocates for a CRTC. *)
Definition gamma_table (t : list Z) : Prop := ramp t 256.
Definition gamma_ok (gm : gamma) : Prop :=
  gamma_table (g_red gm) /\ gamma_table (g_green gm) /\ gamma_table (g_blue gm).

(** Reference: a color value of a pixel with opacity [a], corrected by the
    table [t]: divided by the opacity, looked up, multiplied again. *)
Definition corrected (t : list Z) (a c : Z) : Z := val t (c * 255 / a) / 256 * a / 255.

Section Premultiplied.
Context (t : list Z) (Ht : gamma_table t) (a c : Z) (Hc : 0 <= c <= a) (Ha : 0 < a < 256).

Lemma unpremultiplied_bounds : 0 <= c * 255 / a < 256.
Proof. split; [apply Z.div_pos; lia | apply Z.div_lt_upper_bound; lia]. Qed.

Lemma corrected_lookup :
  (fun v => Z.shiftr v 8) <$> aref t (u32 (c * 255) / a) = Some (val t (c * 255 / a) / 256) /\
  0 <= val t (c * 255 / a) / 256 < 256.
Proof.
  rewrite u32_id by (unfold in_u32; lia).
  destruct (aref_val t 256 _ Ht unpremultiplied_bounds) as [-> Hv]. unfold in_u16 in Hv.
  simpl. rewrite Z.shiftr_div_pow2 by lia. change (2 ^ 8) with 256.
  split; [done |]. split; [apply Z.div_pos; lia | apply Z.div_lt_upper_bound; lia].
Qed.

(** The corrected value is again premultiplied. *)
Lemma corrected_bounds : 0 <= corrected t a c <= a.
Proof.
  destruct corrected_lookup as [_ Hv]. unfold corrected.
  split; [apply Z.div_pos; nia | apply Z.div_le_upper_bound; nia].
Qed.

Lemma premultiply_corrected :
  u32 (val t (c * 255 / a) / 256 * a) / 255 = corrected t a c.
Proof.
  destruct corrected_lookup as [_ Hv]. unfold corrected.
  by rewrite u32_id by (unfold in_u32; nia).
Qed.
End Premultiplied.

Definition corrected_pixel (gm : gamma) (a r g b : Z) : Z :=
  if a =? 0 then 0
  else pixel a (corrected (g_red gm) a r) (corrected (g_green gm) a g) (corrected (g_blue gm) a b).

(** A pixel whose color values do not exceed its opacity. *)
Definition premultiplied_pixel (a r g b : Z) : Prop :=
  byte a /\ 0 <= r <= a /\ 0 <= g <= a /\ 0 <= b <= a.

Lemma cursor_pixel_gamma_ok gm a r g b :
  gamma_ok gm -> premultiplied_pixel a r g b ->
  drmmode_cursor_pixel gm (pixel a r g b) true true
  = Some (true, corrected_pixel gm a r g b, true).
Proof.
  intros (Hgr & Hgg & Hgb) (Ha & Hr & Hg & Hb).
  assert (Hbytes : byte r /\ byte g /\ byte b) by (unfold byte in *; lia).
  destruct Hbytes as (Hr' & Hg' & Hb'). unfold drmmode_cursor_pixel, corrected_pixel.
  rewrite (pixel_alpha a r g b), (alpha4_pixel a) by done. cbn [negb andb].
  destruct (Z.gtb_spec (pixel a r g b) (pixel a a a a)) as [Hgt|_]; [unfold pixel in Hgt; lia |].
  destruct (Z.eqb_spec a 0) as [|Hnz]; [done |]. unfold byte in Ha.
  destruct (pixel_channels a r g b) as (-> & -> & ->); try done.
  destruct (corrected_lookup (g_blue gm) Hgb a b) as [-> Hvb]; [lia.. |].
  destruct (corrected_lookup (g_green gm) Hgg a g) as [-> Hvg]; [lia.. |].
  destruct (corrected_lookup (g_red gm) Hgr a r) as [-> Hvr]; [lia.. |]. cbn.
  rewrite !premultiply_corrected by (done || lia).
  pose proof (corrected_bounds (g_red gm) Hgr a r ltac:(lia) ltac:(lia)).
  pose proof (corrected_bounds (g_green gm) Hgg a g ltac:(lia) ltac:(lia)).
  pose proof (corrected_bounds (g_blue gm) Hgb a b ltac:(lia) ltac:(lia)).
  by rewrite pixel_lor by (unfold byte; lia).
Qed.

(** An identity table changes a color value by at most one step. *)
Lemma corrected_identity t a c :
  (forall i, 0 <= i < 256 -> val t i / 256 = i) -> 0 <= c <= a -> 0 < a < 256 ->
  c - 1 <= corrected t a c <= c.
Proof.
  intros Ht Hc Ha. unfold corrected.
  rewrite Ht by (split; [apply Z.div_pos; lia | apply Z.div_lt_upper_bound; lia]).
  pose proof (Z.div_mod (c * 255) a ltac:(lia)). pose proof (Z.mod_pos_bound (c * 255) a ltac:(lia)).
  split; [apply Z.div_le_lower_bound; nia | apply Z.div_le_upper_bound; nia].
Qed.

(** ** The copy loop *)

Definition overflows (argb : Z) : bool := argb >? alpha4 (Z.shiftr argb 24).

Definition pixel_value (gm : gamma) (argb : Z) : Z :=
  match drmmode_cursor_pixel gm argb true true with Some (_, v, _) => v | None => argb end.

Lemma cursor_pixel_plain gm argb : drmmode_cursor_pixel gm argb true false = Some (true, argb, false).
Proof. done. Qed.

Lemma cursor_pixel_gamma gm argb :
  is_Some (drmmode_cursor_pixel gm argb true true) ->
  drmmode_cursor_pixel gm argb true true
  = if overflows argb then Some (false, argb, false) else Some (true, pixel_value gm argb, true).
Proof.
  unfold pixel_value, overflows. intros [r Hr]. rewrite Hr. revert Hr.
  unfold drmmode_cursor_pixel. cbn [negb andb].
  destruct (argb >? _); [by intros [= <-] |]. destruct (_ =? 0); [by intros [= <-] |].
  intros H. repeat (apply bind_Some in H as (? & _ & H)). by injection H as <-.
Qed.

Lemma aref_nat (a : list Z) (i : nat) : aref a (Z.of_nat i) = a !! i.
Proof. unfold aref. destruct (Z.ltb_spec (Z.of_nat i) 0); [lia | by rewrite Nat2Z.id]. Qed.

Lemma aset_nat (a : list Z) (i : nat) v :
  (i < length a)%nat -> aset a (Z.of_nat i) v = Some (<[i := v]> a).
Proof.
  intros. unfold aset. rewrite Nat2Z.id.
  by rewrite (proj2 (Z.leb_le 0 _)), (proj2 (Z.ltb_lt _ _)) by lia.
Qed.

(** [ptr] with the [n] entries from [i] on replaced by those of [v]. *)
Definition splice (i n : nat) (v ptr : list Z) : list Z :=
  take i ptr ++ take n (drop i v) ++ drop (i + n) ptr.

Lemma splice_step i n v ptr x :
  (i < length ptr)%nat -> v !! i = Some x ->
  splice (S i) n v (<[i := x]> ptr) = splice i (S n) v ptr.
Proof.
  intros Hi Hx. unfold splice. rewrite (drop_S v x i) by done. cbn [firstn].
  rewrite (take_S_r _ i x) by (apply list_lookup_insert_eq; done).
  rewrite take_insert_ge by lia. rewrite <- app_assoc. cbn. do 3 f_equal.
  rewrite drop_insert_lt by lia. f_equal. lia.
Qed.

(** A pass in which every pixel succeeds. *)
Lemma copy_loop_total gm image ag f n i ptr :
  (forall p, p ∈ image -> drmmode_cursor_pixel gm p true ag = Some (true, f p, ag)) ->
  (i + n <= length image)%nat -> (i + n <= length ptr)%nat ->
  copy_loop gm image ag (Z.of_nat i) n ptr = Some (inr (splice i n (f <$> image) ptr)).
Proof.
  intros Hf. revert i ptr. induction n as [|n IH]; intros i ptr Hi Hp.
  - cbn [copy_loop]. unfold splice. by rewrite take_0, Nat.add_0_r, app_nil_l, take_drop.
  - destruct (lookup_lt_is_Some_2 image i) as [p Hl]; [lia |].
    cbn [copy_loop]. rewrite aref_nat, Hl. cbn.
    rewrite (Hf p) by (by eapply list_elem_of_lookup_2). cbn.
    rewrite aset_nat by lia. cbn. replace (Z.of_nat i + 1) with (Z.of_nat (S i)) by lia.
    rewrite IH by (rewrite ?length_insert; lia). do 2 f_equal.
    apply splice_step; [lia |]. unfold cpu_to_le32. by rewrite list_lookup_fmap, Hl.
Qed.

(** A pass that meets a pixel that overflows stops there. *)
Lemma copy_loop_retry gm image n i ptr :
  (forall p, p ∈ image -> is_Some (drmmode_cursor_pixel gm p true true)) ->
  (i + n <= length image)%nat -> (i + n <= length ptr)%nat ->
  existsb overflows (take n (drop i image)) = true ->
  exists ptr', copy_loop gm image true (Z.of_nat i) n ptr = Some (inl ptr') /\
    length ptr' = length ptr.
Proof.
  intros Hf. revert i ptr. induction n as [|n IH]; intros i ptr Hi Hp He; [done |].
  destruct (lookup_lt_is_Some_2 image i) as [p Hl]; [lia |].
  rewrite (drop_S _ p) in He by done. cbn in He.
  cbn [copy_loop]. rewrite aref_nat, Hl. cbn [mbind option_bind].
  rewrite cursor_pixel_gamma by (by eapply Hf, list_elem_of_lookup_2).
  destruct (overflows p) eqn:Ho; cbn; [eauto |].
  rewrite aset_nat by lia. cbn. replace (Z.of_nat i + 1) with (Z.of_nat (S i)) by lia.
  destruct (IH (S i) (<[i := cpu_to_le32 (pixel_value gm p)]> ptr)) as (ptr' & -> & Hlen);
    rewrite ?length_insert in *; try lia; eauto.
Qed.

Lemma splice_all (v ptr : list Z) : length ptr = length v -> splice 0 (length v) v ptr = v.
Proof.
  intros H. unfold splice. cbn. rewrite drop_0, firstn_all, drop_ge by lia. apply app_nil_r.
Qed.

Lemma load_loop_S fuel gm image ag size ptr :
  load_loop (S fuel) gm image ag size ptr =
  (r ← copy_loop gm image ag 0 (Z.to_nat size) ptr;
   match r with
   | inr ptr' => Some ptr'
   | inl ptr' => load_loop fuel gm image false size ptr'
   end).
Proof. done. Qed.

(** Without gamma correction the image is copied unchanged. *)
Lemma load_plain fuel gm image ptr :
  length ptr = length image ->
  load_loop (S fuel) gm image false (Z.of_nat (length image)) ptr = Some image.
Proof.
  intros H. rewrite load_loop_S, Nat2Z.id.
  rewrite (copy_loop_total gm image false (fun p => p) _ 0) by (done || lia).
  cbn. by rewrite list_fmap_id, splice_all.
Qed.

Lemma load_cursor_all_or_nothing_aux gm image ptr :
  (forall p, p ∈ image -> is_Some (drmmode_cursor_pixel gm p true true)) ->
  length ptr = length image ->
  load_cursor_pixels gm image true (Z.of_nat (length image)) ptr
  = Some (if existsb overflows image then image else pixel_value gm <$> image).
Proof.
  intros Hf Hlen. unfold load_cursor_pixels. rewrite load_loop_S, Nat2Z.id.
  destruct (existsb overflows image) eqn:He.
  - destruct (copy_loop_retry gm image (length image) 0 ptr) as (ptr' & Hc & Hl');
      [done | lia | lia | by rewrite drop_0, firstn_all |].
    change (Z.of_nat 0) with 0 in Hc. rewrite Hc. apply load_plain. lia.
  - rewrite (copy_loop_total gm image true (pixel_value gm) _ 0); [| | lia..].
    + cbn. rewrite <- (length_fmap (pixel_value gm) image) at 1.
      by rewrite splice_all by (by rewrite length_fmap).
    + intros p Hp. rewrite cursor_pixel_gamma by auto.
      destruct (overflows p) eqn:Ho; [| done]. exfalso.
      apply not_true_iff_false in He. apply He, existsb_exists. exists p.
      by rewrite <- list_elem_of_In.
Qed.

(** An image of premultiplied pixels. *)
Definition premultiplied_image (image : list Z) : Prop :=
  Forall (fun p => exists a r g b, p = pixel a r g b /\ premultiplied_pixel a r g b) image.

Lemma premultiplied_no_overflow a r g b :
  premultiplied_pixel a r g b -> overflows (pixel a r g b) = false.
Proof.
  intros (Ha & Hr & Hg & Hb). unfold overflows.
  rewrite pixel_alpha, alpha4_pixel by (done || (unfold byte in *; lia)).
  rewrite Z.gtb_ltb. apply Z.ltb_ge. unfold pixel. lia.
Qed.

(** A premultiplied cursor image, with gamma tables of the size the server
    allocates, is loaded with every pixel corrected and no read outside the
    tables; and an image is always loaded as it is when gamma correction does
    not apply. *)
Theorem load_cursor_premultiplied gm image ptr :
  gamma_ok gm -> premultiplied_image image -> length ptr = length image ->
  load_cursor_pixels gm image true (Z.of_nat (length image)) ptr
  = Some (pixel_value gm <$> image) /\
  Forall (fun p => forall a r g b, p = pixel a r g b -> premultiplied_pixel a r g b ->
            pixel_value gm p = corrected_pixel gm a r g b) image /\
  load_cursor_pixels gm image false (Z.of_nat (length image)) ptr = Some image.
Proof.
  intros Hg Him Hlen. split_and!; [| | by apply load_plain].
  - rewrite load_cursor_all_or_nothing_aux; [| | done].
    + replace (existsb overflows image) with false; [done |]. symmetry.
      apply not_true_iff_false. rewrite existsb_exists. intros (p & Hin & Ho).
      apply list_elem_of_In in Hin.
      destruct (proj1 (Forall_forall _ _) Him p Hin) as (a & r & g & b & -> & Hp).
      by rewrite premultiplied_no_overflow in Ho.
    + intros p Hin. destruct (proj1 (Forall_forall _ _) Him p Hin) as (a & r & g & b & -> & Hp).
      rewrite cursor_pixel_gamma_ok by done. eauto.
  - apply Forall_forall. intros p _ a r g b -> Hp. unfold pixel_value.
    by rewrite cursor_pixel_gamma_ok.
Qed.

(** The copy loop restarts at most once: two passes are enough.  An image
    with a pixel that fails the overflow test is copied unchanged as a whole;
    otherwise every pixel is corrected. *)
Theorem load_cursor_all_or_nothing gm image ptr :
  (forall p, p ∈ image -> is_Some (drmmode_cursor_pixel gm p true true)) ->
  length ptr = length image ->
  load_cursor_pixels gm image true (Z.of_nat (length image)) ptr
  = Some (if existsb overflows image then image else pixel_value gm <$> image).
Proof. apply load_cursor_all_or_nothing_aux. Qed.

(** On a premultiplied pixel [drmmode_cursor_pixel] stays inside the
    gamma tables, keeps the opacity and stores the corrected color values,
    which are again premultiplied; identity tables change each of them by at
    most one step. *)
Theorem cursor_pixel_premultiplied gm a r g b :
  gamma_ok gm -> premultiplied_pixel a r g b -> 0 < a ->
  exists r' g' b',
    drmmode_cursor_pixel gm (pixel a r g b) true true = Some (true, pixel a r' g' b', true) /\
    premultiplied_pixel a r' g' b' /\
    ((forall i, 0 <= i < 256 -> val (g_red gm) i / 256 = i /\ val (g_green gm) i / 256 = i /\
                                val (g_blue gm) i / 256 = i) ->
     r - 1 <= r' <= r /\ g - 1 <= g' <= g /\ b - 1 <= b' <= b).
Proof.
  intros Hg Hp Ha. rewrite cursor_pixel_gamma_ok by done. unfold corrected_pixel.
  destruct (Z.eqb_spec a 0); [lia |]. do 3 eexists. split; [done |].
  destruct Hg as (Hgr & Hgg & Hgb), Hp as (Hba & Hr & Hgn & Hb). unfold byte in Hba.
  split; [split_and!; [done | apply corrected_bounds; (done || lia)..] |].
  intros Hid. split_and!; apply corrected_identity; try lia; intros i Hi; by apply Hid.
Qed.

(** The overflow test compares the four bytes as one number, so it does not
    bound the green and blue values: this pixel passes it, and its green value
    divided by its opacity lies outside a table of 256 entries. *)
Theorem cursor_pixel_overflow_missed gm :
  gamma_ok gm ->
  overflows (pixel 128 127 255 0) = false /\
  drmmode_cursor_pixel gm (pixel 128 127 255 0) true true = None.
Proof.
  intros (_ & [Hlen _] & [Hlen' Hb]). split; [done |].
  unfold drmmode_cursor_pixel. rewrite pixel_alpha by (unfold byte; lia). cbn -[aref u32].
  change (u32 (channel (pixel 128 127 255 0) 0 * 255) / 128) with 0.
  change (u32 (channel (pixel 128 127 255 0) 1 * 255) / 128) with 508.
  destruct (aref (g_blue gm) 0); [| done]. cbn.
  rewrite lookup_ge_None_2; [done | lia].
Qed.

(** ** The hot spot *)

(** Reference: reflect, then rotate a point of a [w] by [h] image. *)
Definition reflect (rx ry : bool) (w h : Z) (p : Z * Z) : Z * Z :=
  (if rx then w - 1 - p.1 else p.1, if ry then h - 1 - p.2 else p.2).
Definition rotate_point (quarter_turns : nat) (w h : Z) (p : Z * Z) : Z * Z :=
  match quarter_turns with
  | 1%nat => (p.2, w - 1 - p.1)
  | 2%nat => (w - 1 - p.1, h - 1 - p.2)
  | 3%nat => (h - 1 - p.2, p.1)
  | _ => p
  end.

(** The rotation values RandR allows: one rotation bit, optional reflections. *)
Definition rr_rotation_value (quarter_turns : nat) (rx ry : bool) : Z :=
  Z.shiftl 1 (Z.of_nat quarter_turns) + (if rx then 16 else 0) + (if ry then 32 else 0).

(** For every rotation RandR allows, the hot spot the driver programs is
    the cursor's hot spot reflected and rotated as a point of the image; the
    combination it skips (rotation by 180 degrees with both reflections) is
    indeed the identity, and for square cursors the hot spot stays inside. *)
Theorem cursor_hotspot_correct q rx ry w h x y :
  (q < 4)%nat ->
  cursor_hotspot (rr_rotation_value q rx ry) w h x y
  = rotate_point q w h (reflect rx ry w h (x, y)) /\
  (w = h -> 0 <= x < w -> 0 <= y < h ->
   let p := cursor_hotspot (rr_rotation_value q rx ry) w h x y in
   0 <= p.1 < w /\ 0 <= p.2 < h).
Proof.
  intros Hq.
  assert (Heq : cursor_hotspot (rr_rotation_value q rx ry) w h x y
                = rotate_point q w h (reflect rx ry w h (x, y))).
  { destruct q as [|[|[|[|]]]]; [.. | lia]; destruct rx, ry;
      match goal with |- context [rr_rotation_value ?n ?a ?b] =>
        let v := eval vm_compute in (rr_rotation_value n a b) in
        change (rr_rotation_value n a b) with v end;
      unfold cursor_hotspot, RR_Reflect_X, RR_Reflect_Y; eval_land; cbn;
      apply pair_equal_spec; cbn; lia. }
  split; [done |]. intros -> Hx Hy. cbv zeta. rewrite Heq.
  destruct q as [|[|[|[|]]]]; [.. | lia]; destruct rx, ry; cbn; split; cbn; lia.
Qed.

(** ** Counting visible sprites *)

Definition shown (m : gmap loc amdgpu_device_priv) : gmap loc amdgpu_device_priv :=
  filter (fun kd => sprite_visible kd.2 = true) m.
Definition visible_devices (s : sprites) : gmap loc amdgpu_device_priv := shown (devices s).

(** The two hooks that change a sprite, with any arguments, on a screen of any
    size at that moment. *)
Inductive sprite_step : sprites -> sprites -> Prop :=
| step_set vx vy dev c x y s s' :
    drmmode_sprite_set_cursor vx vy dev c x y s = Some s' -> sprite_step s s'
| step_move vx vy dev x y s s' :
    drmmode_sprite_move_cursor vx vy dev x y s = Some s' -> sprite_step s s'.

Definition sprites_inv (s : sprites) : Prop :=
  visible_count s = Z.of_nat (size (visible_devices s)).

Lemma shown_insert m k e :
  m !! k = None -> Z.of_nat (size (shown (<[k := e]> m)))
  = Z.of_nat (size (shown m)) + Z.b2z (sprite_visible e).
Proof.
  intros Hk. unfold shown. destruct (sprite_visible e) eqn:He.
  - rewrite map_filter_insert_True, map_size_insert_None; [simpl; lia | | done].
    apply map_lookup_filter_None. by left.
  - rewrite map_filter_insert_False by (simpl; congruence).
    rewrite delete_id by done. simpl. lia.
Qed.

Lemma visible_insert m k d d' :
  m !! k = Some d ->
  Z.of_nat (size (shown (<[k := d']> m)))
  = Z.of_nat (size (shown m)) + Z.b2z (sprite_visible d') - Z.b2z (sprite_visible d).
Proof.
  intros Hk. rewrite <- (insert_delete_id m k d Hk) at 2. rewrite <- insert_delete_eq.
  rewrite !shown_insert by apply lookup_delete_eq. lia.
Qed.

Lemma sprite_op_inv vx vy x y dev f s s' :
  (forall d, sprite_visible (f d) = sprite_visible d) ->
  sprites_inv s -> sprite_op vx vy x y dev f s = Some s' -> sprites_inv s'.
Proof.
  intros Hf Hinv. unfold sprite_op. destruct (devices s !! dev) as [d|] eqn:Hd; [| done].
  cbn. intros [= <-]. unfold sprites_inv, visible_devices in *. cbn.
  rewrite (visible_insert _ _ _ _ Hd). cbn. rewrite Hf. lia.
Qed.

(** Whatever sequence of cursor changes and movements happens, on whatever
    devices, the screen's counter equals the number of devices whose software
    cursor is visible: it is never negative, and it is zero exactly when page
    flipping need not avoid a cursor. *)
Theorem sprites_visible_exact s s' :
  sprites_inv s -> rtc sprite_step s s' ->
  visible_count s' = Z.of_nat (size (visible_devices s')) /\
  (visible_count s' > 0 <-> exists k d, devices s' !! k = Some d /\ sprite_visible d = true).
Proof.
  intros Hinv Hsteps. assert (Hinv' : sprites_inv s').
  { induction Hsteps as [|s1 s2 s3 Hstep _ IH]; [done |]. apply IH.
    destruct Hstep as [vx vy dev c x y s1 s2 H|vx vy dev x y s1 s2 H];
      by eapply sprite_op_inv in H. }
  split; [done |]. rewrite Hinv'. split.
  - intros Hpos. destruct (decide (visible_devices s' = ∅)) as [He|Hne].
    + rewrite He, map_size_empty in Hpos. lia.
    + apply map_choose in Hne as (k & d & Hk). apply map_lookup_filter_Some in Hk as [? ?]. eauto.
  - intros (k & d & Hk & Hv). enough (size (visible_devices s') <> 0%nat) by lia.
    rewrite map_size_ne_0_lookup. exists k, d. by apply map_lookup_filter_Some.
Qed.

(** ** The theorems on concrete cursors *)

(** The identity ramp of the X server: [i * 257]. *)
Definition sample_table : list Z := (fun i => i * 257) <$> indices 256.
Definition sample_gamma : gamma := Gamma sample_table sample_table sample_table.

Lemma sample_gamma_ok : gamma_ok sample_gamma.
Proof.
  assert (gamma_table sample_table); [| done]. split; [done |]. unfold sample_table, indices.
  rewrite !Forall_fmap. apply Forall_seq. intros i Hi. unfold compose, in_u16.
  change (Z.to_nat 256) with 256%nat in Hi. lia.
Qed.

Lemma load_cursor_premultiplied_witness :
  load_cursor_pixels sample_gamma [pixel 255 10 20 30; pixel 128 128 0 1; 0] true 3 [7; 7; 7]
  = Some [pixel 255 10 20 30; pixel 128 128 0 0; 0].
Proof.
  destruct (load_cursor_premultiplied sample_gamma [pixel 255 10 20 30; pixel 128 128 0 1; pixel 0 0 0 0]
    [7; 7; 7] sample_gamma_ok) as (Hl & _ & _).
  - repeat (apply Forall_cons; split; [do 4 eexists; split; [reflexivity |];
      unfold premultiplied_pixel, byte; lia |]). constructor.
  - reflexivity.
  - etrans; [exact Hl |]. vm_compute. reflexivity.
Defined.

Lemma load_cursor_all_or_nothing_witness :
  load_cursor_pixels sample_gamma [pixel 255 10 20 30; pixel 128 255 0 1] true 2 [7; 7]
  = Some [pixel 255 10 20 30; pixel 128 255 0 1].
Proof.
  etrans; [apply (load_cursor_all_or_nothing sample_gamma [pixel 255 10 20 30; pixel 128 255 0 1] [7; 7]) |].
  - intros p Hp. repeat (apply elem_of_cons in Hp as [->|Hp]; [vm_compute; by eexists |]).
    by apply not_elem_of_nil in Hp.
  - reflexivity.
  - vm_compute. reflexivity.
Defined.

Lemma cursor_pixel_premultiplied_witness :
  exists r' g' b',
    drmmode_cursor_pixel sample_gamma (pixel 200 100 50 25) true true = Some (true, pixel 200 r' g' b', true) /\
    premultiplied_pixel 200 r' g' b'.
Proof.
  destruct (cursor_pixel_premultiplied sample_gamma 200 100 50 25 sample_gamma_ok) as (r' & g' & b' & H1 & H2 & _).
  - unfold premultiplied_pixel, byte. lia.
  - lia.
  - eauto.
Defined.

Lemma cursor_pixel_overflow_missed_witness :
  overflows (pixel 128 127 255 0) = false /\
  drmmode_cursor_pixel sample_gamma (pixel 128 127 255 0) true true = None.
Proof. exact (cursor_pixel_overflow_missed sample_gamma sample_gamma_ok). Defined.

Lemma cursor_hotspot_correct_witness :
  cursor_hotspot (rr_rotation_value 1 true false) 64 64 3 5
  = rotate_point 1 64 64 (reflect true false 64 64 (3, 5)).
Proof. apply (cursor_hotspot_correct 1 true false 64 64 3 5). lia. Defined.

Lemma sprites_visible_exact_witness :
  let s := Sprites {[1%positive := Dev None false]} 0 in
  let s' := Sprites {[1%positive := Dev (Some (Bits 0 0 8 8)) true]} 1 in
  rtc sprite_step s s' /\ visible_count s' = Z.of_nat (size (visible_devices s')).
Proof.
  intros s s'. assert (Hst : rtc sprite_step s s').
  { apply rtc_once, (step_set 100 100 1 (Some (Bits 0 0 8 8)) 5 5). vm_compute. reflexivity. }
  split; [done |]. by apply (sprites_visible_exact s s').
Defined.
