(* ===== verification/Fb.v ===== *)
(** * Framebuffer objects: reference counting

    [drmmode_fb_reference_loc] (src/src/drmmode_display.h) and
    [amdgpu_fb_create] (src/src/amdgpu_pixmap.h).  Every place of the driver
    that holds a reference to a framebuffer is a slot; the invariant says that
    the reference count of a framebuffer is the number of slots that point to
    it. *)
From stdpp Require Import strings.
From S2P Require Import Prelude Modes World.

(** ** Slots: the variables of type [struct drmmode_fb *] that own a reference *)
Inductive fb_slot : Type :=
| SPriv (pix : loc)
| SCrtcFb (crtc : loc)
| SFlipPending (crtc : loc)
| SFlipdata (fd : loc) (idx : Z).

Section Code.
Context `{env : Env}.

(** [*slot] *)
Definition read_slot (s : fb_slot) : D (option loc) :=
  match s with
  | SPriv pix =>
      p ← load w_pixmaps pix;
      pr ← some_or NullDeref (pix_priv p);
      mret (priv_fb pr)
  | SCrtcFb c =>
      cr ← load w_crtcs c; mret (crtc_fb (driver_private cr))
  | SFlipPending c =>
      cr ← load w_crtcs c; mret (flip_pending (driver_private cr))
  | SFlipdata fd idx =>
      f ← load w_flipdata fd;
      if idx <? 0 then raise OutOfBounds
      else some_or OutOfBounds (fd_fb f !! Z.to_nat idx)
  end.

(** [*slot = v] *)
Definition write_slot (s : fb_slot) (v : option loc) : D unit :=
  match s with
  | SPriv pix =>
      p ← load w_pixmaps pix;
      pr ← some_or NullDeref (pix_priv p);
      store w_pixmaps pix (p <| pix_priv := Some (pr <| priv_fb := v |>) |>)
  | SCrtcFb c =>
      update w_crtcs c (fun cr => cr <| driver_private ::= setf crtc_fb (fun _ => v) |>)
  | SFlipPending c =>
      update w_crtcs c (fun cr => cr <| driver_private ::= setf flip_pending (fun _ => v) |>)
  | SFlipdata fd idx =>
      f ← load w_flipdata fd;
      if (idx <? 0) || (Z.of_nat (length (fd_fb f)) <=? idx) then raise OutOfBounds
      else store w_flipdata fd (f <| fd_fb ::= <[Z.to_nat idx := v]> |>)
  end.

Definition drmmode_fb_reference (old : fb_slot) (new : option loc) : D unit :=
  _ ← match new with
      | Some n =>
          fb ← load w_fbs n;
          if refcnt fb <=? 0 then raise FatalError
          else store w_fbs n (fb <| refcnt := refcnt fb + 1 |>)
      | None => mret tt
      end;
  o ← read_slot old;
  _ ← match o with
      | Some ol =>
          fb ← load w_fbs ol;
          if refcnt fb <=? 0 then raise FatalError
          else
            let r := refcnt fb - 1 in
            _ ← store w_fbs ol (fb <| refcnt := r |>);
            if r =? 0 then
              _ ← call (DrmModeRmFB (fb_handle fb));
              free w_fbs ol
            else mret tt
      | None => mret tt
      end;
  write_slot old new.

Definition amdgpu_fb_create (scrn : scrn_info) (width height pitch handle : Z) : D (option loc) :=
  ok ← call (Calloc "drmmode_fb");
  if negb ok then mret None
  else
    l ← new w_fbs (Fb 1 0);
    r ← call (DrmModeAddFB width height (depth scrn) (bitsPerPixel scrn) pitch handle);
    match r with
    | Some h => _ ← update w_fbs l (setf fb_handle (fun _ => h)); mret (Some l)
    | None => _ ← free w_fbs l; mret None
    end.
End Code.

(** ** The reference count is the number of references *)

Definition priv_refs (l : loc) (p : pixmap) : Z :=
  match pix_priv p with Some pr => points l (priv_fb pr) | None => 0 end.
Definition crtc_refs (l : loc) (c : xf86Crtc) : Z :=
  points l (crtc_fb (driver_private c)) + points l (flip_pending (driver_private c)).
Definition flip_refs (l : loc) (f : drmmode_flipdata) : Z := lsum (points l) (fd_fb f).

Definition fb_refs (w : world) (l : loc) : Z :=
  msum (priv_refs l) (w_pixmaps w) + msum (crtc_refs l) (w_crtcs w)
  + msum (flip_refs l) (w_flipdata w).

(** A framebuffer is live exactly as long as some slot points to it, and its
    count is their number.  [extra] counts references held in local variables
    of a function that is running. *)
Definition fb_inv_with (extra : loc -> Z) (w : world) : Prop :=
  (forall l, match w_fbs w !! l with
             | Some fb => refcnt fb = fb_refs w l + extra l /\ 0 < refcnt fb
             | None => fb_refs w l + extra l = 0
             end) /\
  (forall l, is_Some (w_fbs w !! l) -> (l < w_next w)%positive).

Definition fb_inv : world -> Prop := fb_inv_with (fun _ => 0).

(** The value of a slot of the state, [None] where the slot does not exist. *)
Definition slot_get (w : world) (s : fb_slot) : option (option loc) :=
  match s with
  | SPriv pix => p ← w_pixmaps w !! pix; pr ← pix_priv p; Some (priv_fb pr)
  | SCrtcFb c => cr ← w_crtcs w !! c; Some (crtc_fb (driver_private cr))
  | SFlipPending c => cr ← w_crtcs w !! c; Some (flip_pending (driver_private cr))
  | SFlipdata fd idx =>
      f ← w_flipdata w !! fd; if idx <? 0 then None else fd_fb f !! Z.to_nat idx
  end.

(** The state with a slot overwritten. *)
Definition slot_set (s : fb_slot) (v : option loc) (w : world) : world :=
  match s with
  | SPriv pix =>
      w <| w_pixmaps ::= alter (setf pix_priv (fmap (setf priv_fb (fun _ => v)))) pix |>
  | SCrtcFb c =>
      w <| w_crtcs ::= alter (setf driver_private (setf crtc_fb (fun _ => v))) c |>
  | SFlipPending c =>
      w <| w_crtcs ::= alter (setf driver_private (setf flip_pending (fun _ => v))) c |>
  | SFlipdata fd idx =>
      w <| w_flipdata ::= alter (setf fd_fb <[Z.to_nat idx := v]>) fd |>
  end.

Section Slots.
Context `{env : Env}.

Lemma wp_read_slot s v (Q : option loc -> world -> Prop) w :
  slot_get w s = Some v -> Q v w -> wp (read_slot s) Q w.
Proof.
  destruct s; cbn; intros Hs HQ.
  - destruct (w_pixmaps w !! pix) as [p|] eqn:Hp; [| done]. cbn in Hs.
    destruct (pix_priv p) as [pr|] eqn:Hpr; [| done]. injection Hs as <-.
    apply wp_bind, (wp_load _ _ p); [done |]. apply wp_bind, (wp_some_or _ _ pr); done.
  - destruct (w_crtcs w !! crtc) as [c|] eqn:Hc; [| done]. injection Hs as <-.
    by apply wp_bind, (wp_load _ _ c).
  - destruct (w_crtcs w !! crtc) as [c|] eqn:Hc; [| done]. injection Hs as <-.
    by apply wp_bind, (wp_load _ _ c).
  - destruct (w_flipdata w !! fd) as [f|] eqn:Hf; [| done]. cbn in Hs.
    apply wp_bind, (wp_load _ _ f); [done |]. destruct (idx <? 0); [done |].
    by apply (wp_some_or _ _ v).
Qed.

Lemma alter_insert_id {A} (f : A -> A) (m : gmap loc A) k a :
  m !! k = Some a -> <[k := f a]> m = alter f k m.
Proof.
  intros Hk. apply map_eq. intros i. destruct (decide (i = k)) as [->|Hne].
  - by rewrite lookup_insert_eq, lookup_alter_eq, Hk.
  - by rewrite lookup_insert_ne, lookup_alter_ne.
Qed.

Lemma wp_write_slot s v v' (Q : unit -> world -> Prop) w :
  slot_get w s = Some v -> Q tt (slot_set s v' w) -> wp (write_slot s v') Q w.
Proof.
  destruct s; cbn [slot_get slot_set write_slot]; intros Hs HQ.
  - destruct (w_pixmaps w !! pix) as [p|] eqn:Hp; [| done]. cbn in Hs.
    destruct (pix_priv p) as [pr|] eqn:Hpr; [| done].
    apply wp_bind, (wp_load _ _ p); [done |]. apply wp_bind, (wp_some_or _ _ pr); [done |].
    apply wp_store. revert HQ. unfold setf. rewrite <- (alter_insert_id _ _ _ _ Hp). cbn.
    by rewrite Hpr.
  - destruct (w_crtcs w !! crtc) as [c|] eqn:Hc; [| done]. apply (wp_update _ _ c); [done |].
    revert HQ. unfold setf. by rewrite <- (alter_insert_id _ _ _ _ Hc).
  - destruct (w_crtcs w !! crtc) as [c|] eqn:Hc; [| done]. apply (wp_update _ _ c); [done |].
    revert HQ. unfold setf. by rewrite <- (alter_insert_id _ _ _ _ Hc).
  - destruct (w_flipdata w !! fd) as [f|] eqn:Hf; [| done]. cbn in Hs.
    apply wp_bind, (wp_load _ _ f); [done |]. destruct (idx <? 0) eqn:Hi; [done |].
    apply lookup_lt_Some in Hs. cbn. destruct (Z.leb_spec (Z.of_nat (length (fd_fb f))) idx); [lia |].
    apply wp_store. revert HQ. unfold setf. by rewrite <- (alter_insert_id _ _ _ _ Hf).
Qed.
End Slots.

Lemma msum_alter {A} (f : A -> Z) (g : A -> A) (m : gmap loc A) k a :
  m !! k = Some a -> msum f (alter g k m) = msum f m - f a + f (g a).
Proof. intros Hk. by rewrite <- (alter_insert_id g m k a), (msum_insert f m k a). Qed.

(** Overwriting a slot moves one reference. *)
Lemma fb_refs_slot_set w s v v' l :
  slot_get w s = Some v -> fb_refs (slot_set s v' w) l = fb_refs w l - points l v + points l v'.
Proof.
  destruct s; cbn [slot_get slot_set]; unfold fb_refs, setf; cbn; intros Hs.
  - destruct (w_pixmaps w !! pix) as [p|] eqn:Hp; [| done]. cbn in Hs.
    destruct (pix_priv p) as [pr|] eqn:Hpr; [| done]. injection Hs as <-.
    rewrite (msum_alter _ _ _ _ _ Hp). unfold priv_refs. cbn. rewrite Hpr. cbn. lia.
  - destruct (w_crtcs w !! crtc) as [c|] eqn:Hc; [| done]. injection Hs as <-.
    rewrite (msum_alter _ _ _ _ _ Hc). unfold crtc_refs. cbn. lia.
  - destruct (w_crtcs w !! crtc) as [c|] eqn:Hc; [| done]. injection Hs as <-.
    rewrite (msum_alter _ _ _ _ _ Hc). unfold crtc_refs. cbn. lia.
  - destruct (w_flipdata w !! fd) as [f|] eqn:Hf; [| done]. cbn in Hs.
    destruct (idx <? 0); [done |]. rewrite (msum_alter _ _ _ _ _ Hf). unfold flip_refs. cbn.
    rewrite (lsum_insert _ _ _ _ _ Hs). lia.
Qed.

Lemma slot_set_frame s v w :
  w_fbs (slot_set s v w) = w_fbs w /\ w_next (slot_set s v w) = w_next w /\
  w_queue (slot_set s v w) = w_queue w /\ w_trace (slot_set s v w) = w_trace w.
Proof. by destruct s. Qed.

Lemma slot_get_set s v v' w : slot_get w s = Some v -> slot_get (slot_set s v' w) s = Some v'.
Proof.
  destruct s; cbn [slot_get slot_set]; unfold setf; cbn; rewrite lookup_alter_eq.
  - destruct (w_pixmaps w !! pix) as [p|]; [| done]. cbn. by destruct (pix_priv p).
  - by destruct (w_crtcs w !! crtc).
  - by destruct (w_crtcs w !! crtc).
  - destruct (w_flipdata w !! fd) as [f|]; [| done]. cbn. destruct (idx <? 0); [done |].
    intros Hs. apply list_lookup_insert_eq. by eapply lookup_lt_Some.
Qed.

Lemma slot_refs_le w s l : slot_get w s = Some (Some l) -> 1 <= fb_refs w l.
Proof.
  intros Hs. pose proof (fb_refs_slot_set w s _ None l Hs) as Hset.
  rewrite points_self, points_None in Hset.
  enough (0 <= fb_refs (slot_set s None w) l) by lia. unfold fb_refs, priv_refs, crtc_refs, flip_refs.
  assert (forall o, 0 <= points l o) as Hp by (intros; apply points_range).
  assert (0 <= msum (priv_refs l) (w_pixmaps (slot_set s None w))).
  { apply msum_nonneg. intros k a _. unfold priv_refs. destruct (pix_priv a); [apply Hp | done]. }
  assert (0 <= msum (crtc_refs l) (w_crtcs (slot_set s None w))).
  { apply msum_nonneg. intros k a _. unfold crtc_refs. apply Z.add_nonneg_nonneg; apply Hp. }
  assert (0 <= msum (flip_refs l) (w_flipdata (slot_set s None w))).
  { apply msum_nonneg. intros k a _. by apply lsum_nonneg. }
  unfold priv_refs, crtc_refs, flip_refs in *. lia.
Qed.

(** The invariant only looks at the heaps that hold framebuffers and slots. *)
Lemma fb_inv_frame ex w w' :
  w_fbs w' = w_fbs w -> w_pixmaps w' = w_pixmaps w -> w_crtcs w' = w_crtcs w ->
  w_flipdata w' = w_flipdata w -> (w_next w <= w_next w')%positive ->
  fb_inv_with ex w -> fb_inv_with ex w'.
Proof.
  intros Hf Hp Hc Hd Hn [Hi Hb]. split; intros l.
  - unfold fb_refs. rewrite Hf, Hp, Hc, Hd. apply Hi.
  - rewrite Hf. intros Hl. specialize (Hb l Hl). lia.
Qed.

Lemma fb_inv_none w : fb_inv w -> fb_inv_with (fun l => points l None) w.
Proof.
  intros [Hi Hb]. split; [| done]. intros l. rewrite points_None. apply Hi.
Qed.

(** A slot never points to a dead framebuffer. *)
Lemma fb_inv_slot_live ex w s l :
  fb_inv_with ex w -> (forall l, 0 <= ex l) -> slot_get w s = Some (Some l) ->
  exists fb, w_fbs w !! l = Some fb /\ refcnt fb = fb_refs w l + ex l /\ 0 < refcnt fb.
Proof.
  intros [Hi _] Hex Hs. specialize (Hi l). pose proof (slot_refs_le w s l Hs).
  specialize (Hex l). destruct (w_fbs w !! l) as [fb|]; [eauto | lia].
Qed.

Section Reference.
Context `{env : Env}.

(** The three effects of [drmmode_fb_reference] on the heap of framebuffers. *)
Definition fb_acquire (new : option loc) (fbs : gmap loc drmmode_fb) : gmap loc drmmode_fb :=
  match new with Some n => alter (setf refcnt (fun r => r + 1)) n fbs | None => fbs end.
Definition fb_release (old : option loc) (fbs : gmap loc drmmode_fb) : gmap loc drmmode_fb :=
  match old with
  | Some o =>
      match fbs !! o with
      | Some fb => if refcnt fb - 1 =? 0 then delete o fbs
                   else <[o := fb <| refcnt := refcnt fb - 1 |>]> fbs
      | None => fbs
      end
  | None => fbs
  end.
Definition fb_removed (old : option loc) (fbs : gmap loc drmmode_fb) : list ext :=
  match old with
  | Some o =>
      match fbs !! o with
      | Some fb => if refcnt fb - 1 =? 0 then [DrmModeRmFB (fb_handle fb)] else []
      | None => []
      end
  | None => []
  end.

Definition fb_reference_effect (s : fb_slot) (old new : option loc) (w : world) : world :=
  let fbs := fb_acquire new (w_fbs w) in
  slot_set s new (w <| w_fbs := fb_release old fbs |> <| w_trace ::= app (fb_removed old fbs) |>).

Lemma slot_get_frame w w' s :
  w_pixmaps w' = w_pixmaps w -> w_crtcs w' = w_crtcs w -> w_flipdata w' = w_flipdata w ->
  slot_get w' s = slot_get w s.
Proof. intros Hp Hc Hf. destruct s; cbn; by rewrite ?Hp, ?Hc, ?Hf. Qed.

(** What [drmmode_fb_reference] does when nothing is wrong. *)
Lemma wp_fb_reference s old new (Q : unit -> world -> Prop) w :
  slot_get w s = Some old ->
  (forall n, new = Some n -> exists fb, w_fbs w !! n = Some fb /\ 0 < refcnt fb) ->
  (forall o, old = Some o -> exists fb, fb_acquire new (w_fbs w) !! o = Some fb /\ 0 < refcnt fb) ->
  Q tt (fb_reference_effect s old new w) ->
  wp (drmmode_fb_reference s new) Q w.
Proof.
  intros Hs Hnew Hold HQ. unfold drmmode_fb_reference. apply wp_bind.
  set (w1 := w <| w_fbs := fb_acquire new (w_fbs w) |>).
  assert (Hacq : wp (match new with
      | Some n => fb ← load w_fbs n;
          if refcnt fb <=? 0 then raise FatalError
          else store w_fbs n (fb <| refcnt := refcnt fb + 1 |>)
      | None => mret tt end) (fun _ w' => w' = w1) w).
  { destruct new as [n|]; [| by destruct w]. destruct (Hnew n eq_refl) as (fb & Hn & Hpos).
    apply wp_bind, (wp_load _ _ fb); [done |].
    destruct (Z.leb_spec (refcnt fb) 0); [lia |]. apply wp_store. subst w1.
    unfold fb_acquire. rewrite <- (alter_insert_id _ _ _ _ Hn). done. }
  eapply wp_mono; [exact Hacq |]. intros [] w' ->. clear Hacq.
  assert (Hs1 : slot_get w1 s = Some old) by (rewrite (slot_get_frame w); done).
  apply wp_bind, (wp_read_slot _ old); [done |]. apply wp_bind.
  revert HQ. unfold fb_reference_effect. cbv zeta.
  set (fbs := fb_acquire new (w_fbs w)) in *.
  destruct old as [o|]; intros HQ.
  - destruct (Hold o eq_refl) as (fb & Ho & Hpos). unfold fb_release, fb_removed in HQ.
    rewrite Ho in HQ. apply wp_bind, (wp_load _ _ fb); [done |].
    destruct (Z.leb_spec (refcnt fb) 0); [lia |]. apply wp_bind, wp_store.
    destruct (refcnt fb - 1 =? 0).
    + apply wp_bind, wp_call, (wp_free _ _ (fb <| refcnt := refcnt fb - 1 |>));
        [apply lookup_insert_eq |].
      eapply wp_write_slot; [rewrite (slot_get_frame w); done |].
      revert HQ. unfold setf. cbn. by rewrite delete_insert_eq.
    + apply wp_ret. eapply wp_write_slot; [rewrite (slot_get_frame w); done |]. exact HQ.
  - apply wp_ret. eapply wp_write_slot; [exact Hs1 |]. exact HQ.
Qed.

Lemma fb_acquire_lookup new fbs l :
  fb_acquire new fbs !! l = setf refcnt (fun r => r + points l new) <$> fbs !! l.
Proof.
  destruct new as [n|]; cbn.
  - destruct (decide (l = n)) as [->|Hne].
    + rewrite lookup_alter_eq, points_self. done.
    + rewrite lookup_alter_ne, points_other by done. destruct (fbs !! l) as [[r h]|]; [| done].
      unfold setf. cbn. by rewrite Z.add_0_r.
  - rewrite points_None. destruct (fbs !! l) as [[r h]|]; [| done].
    unfold setf. cbn. by rewrite Z.add_0_r.
Qed.

(** The counts after a release, where the released framebuffer is live. *)
Lemma fb_release_lookup old fbs l (n : Z) :
  (forall o, old = Some o -> exists fb, fbs !! o = Some fb) ->
  (match fbs !! l with
   | Some fb => refcnt fb = n /\ 0 < refcnt fb
   | None => n = 0
   end) ->
  match fb_release old fbs !! l with
  | Some fb => refcnt fb = n - points l old /\ 0 < refcnt fb
  | None => n - points l old = 0
  end.
Proof.
  intros Hold Hl. destruct old as [o|]; cbn.
  - destruct (Hold o eq_refl) as [fb Ho]. rewrite Ho. destruct (decide (l = o)) as [->|Hne].
    + rewrite points_self. rewrite Ho in Hl. destruct (Z.eqb_spec (refcnt fb - 1) 0).
      * rewrite lookup_delete_eq. lia.
      * rewrite lookup_insert_eq. cbn. lia.
    + rewrite points_other, Z.sub_0_r by done.
      destruct (refcnt fb - 1 =? 0); [rewrite lookup_delete_ne | rewrite lookup_insert_ne]; done.
  - by rewrite points_None, Z.sub_0_r.
Qed.

Lemma fb_release_dom old fbs l : is_Some (fb_release old fbs !! l) -> is_Some (fbs !! l).
Proof.
  destruct old as [o|]; cbn; [| done]. destruct (fbs !! o) as [fb|] eqn:Ho; [| done].
  destruct (_ =? 0).
  - intros [x Hx]. apply lookup_delete_Some in Hx as [_ ?]. eauto.
  - destruct (decide (l = o)) as [->|?]; [by rewrite Ho | by rewrite lookup_insert_ne].
Qed.

Lemma fb_reference_effect_inv ex s old new w :
  fb_inv_with ex w -> (forall l, 0 <= ex l) -> slot_get w s = Some old ->
  (forall n, new = Some n -> is_Some (w_fbs w !! n)) ->
  fb_inv_with ex (fb_reference_effect s old new w).
Proof.
  intros Hinv Hex Hs Hnew. pose proof Hinv as [Hi Hb]. unfold fb_reference_effect. cbv zeta.
  set (w2 := w <| w_fbs := _ |> <| w_trace ::= _ |>).
  destruct (slot_set_frame s new w2) as (Hf & Hn & _ & _). split; intros l.
  - rewrite Hf, (fb_refs_slot_set w2 s old) by (rewrite (slot_get_frame w); done).
    change (fb_refs w2 l) with (fb_refs w l).
    replace (fb_refs w l - points l old + points l new + ex l)
      with (fb_refs w l + points l new + ex l - points l old) by lia.
    change (w_fbs w2) with (fb_release old (fb_acquire new (w_fbs w))).
    apply fb_release_lookup.
    + intros o ->. destruct (fb_inv_slot_live ex w s o Hinv Hex Hs) as (fb & Hfb & _).
      rewrite fb_acquire_lookup, Hfb. eauto.
    + rewrite fb_acquire_lookup. specialize (Hi l). pose proof (points_range l new).
      destruct (w_fbs w !! l) as [fb|] eqn:Hl; cbn; [lia |].
      destruct (decide (new = Some l)) as [->|Hne].
      * destruct (Hnew l eq_refl) as [? ?]. congruence.
      * unfold points. rewrite bool_decide_eq_false_2 by done. cbn. lia.
  - rewrite Hf, Hn. intros Hl. apply Hb. apply fb_release_dom in Hl.
    rewrite fb_acquire_lookup, fmap_is_Some in Hl. done.
Qed.

(** [drmmode_fb_reference] in a state where the counts are right: it does not
    fault, keeps the counts right, and the slot holds the new pointer. *)
Lemma wp_fb_reference_inv ex s old new (Q : unit -> world -> Prop) w :
  fb_inv_with ex w -> (forall l, 0 <= ex l) -> slot_get w s = Some old ->
  (forall n, new = Some n -> is_Some (w_fbs w !! n)) ->
  (fb_inv_with ex (fb_reference_effect s old new w) ->
   Q tt (fb_reference_effect s old new w)) ->
  wp (drmmode_fb_reference s new) Q w.
Proof.
  intros Hinv Hex Hs Hnew HQ. apply (wp_fb_reference s old).
  - done.
  - intros n ->. destruct (Hnew n eq_refl) as [fb Hfb]. exists fb. split; [done |].
    destruct Hinv as [Hi _]. specialize (Hi n). rewrite Hfb in Hi. lia.
  - intros o ->. destruct (fb_inv_slot_live ex w s o Hinv Hex Hs) as (fb & Hfb & _ & Hpos).
    rewrite fb_acquire_lookup, Hfb. cbn. eexists. split; [done |]. cbn.
    pose proof (points_range o new). lia.
  - apply HQ. by apply fb_reference_effect_inv.
Qed.

(** C4. While the counts are right, [drmmode_fb_reference] never reaches a
    [FatalError], never touches a freed framebuffer and keeps the counts right:
    afterwards the slot holds the new pointer, and the kernel is told to remove
    the old framebuffer exactly when no other slot points to it. *)
Theorem fb_reference_safe s old new w :
  fb_inv w -> slot_get w s = Some old ->
  (forall n, new = Some n -> is_Some (w_fbs w !! n)) ->
  wp (drmmode_fb_reference s new)
     (fun _ w' => fb_inv w' /\ slot_get w' s = Some new /\
        forall o fb, old = Some o -> w_fbs w !! o = Some fb ->
          if decide (fb_refs w' o = 0)
          then w_trace w' = DrmModeRmFB (fb_handle fb) :: w_trace w /\ w_fbs w' !! o = None
          else w_trace w' = w_trace w /\ is_Some (w_fbs w' !! o)) w.
Proof.
  intros Hinv Hs Hnew. eapply wp_fb_reference_inv; [exact Hinv | done | exact Hs | done |].
  intros Hinv'. split_and!; [exact Hinv' | |].
  - eapply slot_get_set. by rewrite (slot_get_frame w).
  - intros o fb -> Ho. destruct Hinv as [Hi _], Hinv' as [Hi' _].
    specialize (Hi o). specialize (Hi' o). rewrite Ho in Hi. revert Hi'.
    set (w' := fb_reference_effect s (Some o) new w).
    assert (Hrefs : fb_refs w' o = fb_refs w o - 1 + points o new).
    { unfold w', fb_reference_effect. cbv zeta.
      rewrite (fb_refs_slot_set _ s (Some o)) by (by rewrite (slot_get_frame w)).
      by rewrite points_self. }
    assert (Htr : w_trace w' = fb_removed (Some o) (fb_acquire new (w_fbs w)) ++ w_trace w)
      by (unfold w', fb_reference_effect; by destruct (slot_set_frame s new
            (w <| w_fbs := fb_release (Some o) (fb_acquire new (w_fbs w)) |>
               <| w_trace ::= app (fb_removed (Some o) (fb_acquire new (w_fbs w))) |>)) as (_ & _ & _ & ->)).
    rewrite Htr. unfold fb_removed. rewrite fb_acquire_lookup, Ho. cbn.
    destruct (decide (fb_refs w' o = 0)), (Z.eqb_spec (refcnt fb + points o new - 1) 0);
      destruct (w_fbs w' !! o); intros ?; try lia; eauto.
Qed.

Lemma fb_refs_frame w w' l :
  w_pixmaps w' = w_pixmaps w -> w_crtcs w' = w_crtcs w -> w_flipdata w' = w_flipdata w ->
  fb_refs w' l = fb_refs w l.
Proof. intros Hp Hc Hd. unfold fb_refs. by rewrite Hp, Hc, Hd. Qed.

(** Only framebuffers have changed. *)
Record fb_frame (w w' : world) : Prop := {
  ff_bos : w_bos w' = w_bos w;
  ff_pixmaps : w_pixmaps w' = w_pixmaps w;
  ff_crtcs : w_crtcs w' = w_crtcs w;
  ff_scrns : w_scrns w' = w_scrns w;
  ff_flipdata : w_flipdata w' = w_flipdata w;
  ff_events : w_events w' = w_events w;
  ff_queue : w_queue w' = w_queue w;
  ff_next : (w_next w <= w_next w')%positive
}.

Lemma wp_fb_create scrn width height pitch handle (Q : option loc -> world -> Prop) w :
  fb_inv w ->
  (forall r w', fb_frame w w' -> fb_inv_with (fun l => points l r) w' ->
     match r with
     | Some l => w_fbs w !! l = None /\ exists h, w_fbs w' = <[l := Fb 1 h]> (w_fbs w)
     | None => w_fbs w' = w_fbs w
     end -> Q r w') ->
  wp (amdgpu_fb_create scrn width height pitch handle) Q w.
Proof.
  intros Hinv HQ. unfold amdgpu_fb_create. apply wp_bind. wp_ext.
  destruct (reply _ _); cbn [negb].
  - apply wp_bind, wp_new, wp_bind. wp_ext. set (l := w_next _).
    assert (Hfresh : w_fbs w !! l = None).
    { destruct (w_fbs w !! l) eqn:Hl; [| done]. exfalso. destruct Hinv as [_ Hb].
      specialize (Hb l (mk_is_Some _ _ Hl)). unfold l in Hb. cbn in Hb. lia. }
    destruct (reply _ _) as [h|].
    + apply wp_bind, (wp_update _ _ (Fb 1 0)); [apply lookup_insert_eq |]. apply wp_ret.
      apply HQ; [split; try done; cbn; lia | | split; [done |]; exists h; unfold setf; cbn;
        by rewrite insert_insert_eq].
      destruct Hinv as [Hi Hb]. split; intros k; unfold setf; cbn; rewrite insert_insert_eq.
      * rewrite (fb_refs_frame w) by done. specialize (Hi k).
        destruct (decide (k = l)) as [->|Hne].
        -- rewrite lookup_insert_eq, points_self. cbn. rewrite Hfresh in Hi. cbn in Hi. lia.
        -- rewrite lookup_insert_ne, points_other by done. apply Hi.
      * destruct (decide (k = l)) as [->|Hne]; [unfold l; cbn; lia |].
        rewrite lookup_insert_ne by done. intros Hk. specialize (Hb k Hk). lia.
    + apply wp_bind, (wp_free _ _ (Fb 1 0)); [apply lookup_insert_eq |]. apply wp_ret.
      assert (Hd : delete l (<[l := Fb 1 0]> (w_fbs w)) = w_fbs w)
        by (by rewrite delete_insert_eq, delete_id).
      apply HQ; [split; try done; cbn; lia | | exact Hd].
      apply fb_inv_none, (fb_inv_frame _ w); [exact Hd | done.. | cbn; lia | done].
  - apply wp_ret.
    apply HQ; [by split | | done].
    by apply fb_inv_none, (fb_inv_frame _ w).
Qed.

(** [amdgpu_fb_create] returns a framebuffer whose single reference is
    owned by the caller, or, when memory or the kernel call fails, nothing,
    and leaves no framebuffer behind. *)
Theorem fb_create_owned scrn width height pitch handle w :
  fb_inv w ->
  wp (amdgpu_fb_create scrn width height pitch handle)
     (fun r w' => fb_inv_with (fun l => points l r) w' /\
        match r with
        | Some l => w_fbs w !! l = None /\ exists h, w_fbs w' = <[l := Fb 1 h]> (w_fbs w)
        | None => w_fbs w' = w_fbs w
        end) w.
Proof.
  intros Hinv. apply wp_fb_create; [done |]. intros r w' Hfr Hinv' Hr.
  split; [done |]. by destruct r.
Qed.
End Reference.

(** ** A pixmap gives its framebuffer to a CRTC *)

Definition sample_fb_w : world :=
  Sample.w <| w_fbs := {[5%positive := Fb 1 77]} |>
    <| w_pixmaps := {[2%positive := Sample.pix <| pix_priv := Some (Priv 0 0 0 None (Some 5%positive) false true 9) |>]} |>.

Lemma sample_fb_inv : fb_inv sample_fb_w.
Proof.
  split.
  - intros l. change (w_fbs sample_fb_w) with ({[5%positive := Fb 1 77]} : gmap loc drmmode_fb).
    unfold fb_refs. cbn. rewrite !msum_singleton, msum_empty. unfold priv_refs, crtc_refs. cbn.
    rewrite !points_None. destruct (decide (l = 5%positive)) as [->|Hne].
    + by rewrite lookup_singleton_eq, points_self.
    + by rewrite lookup_singleton_ne, points_other by congruence.
  - intros l [x Hx]. change (w_fbs sample_fb_w) with ({[5%positive := Fb 1 77]} : gmap loc drmmode_fb) in Hx.
    by apply lookup_singleton_Some in Hx as [<- _].
Qed.

Lemma fb_reference_safe_witness :
  fb_inv sample_fb_w /\
  @wp _ _ (@drmmode_fb_reference Sample.env (SCrtcFb 3) (Some 5%positive))
     (fun _ w' => fb_inv w' /\ slot_get w' (SCrtcFb 3) = Some (Some 5%positive)) sample_fb_w.
Proof.
  split; [exact sample_fb_inv |].
  eapply wp_mono; [apply (@fb_reference_safe Sample.env (SCrtcFb 3) None (Some 5%positive));
    [exact sample_fb_inv | reflexivity |] |].
  - intros n [= <-]. by eexists.
  - by intros _ w' (H1 & H2 & _).
Defined.

Lemma fb_create_owned_witness :
  fb_inv sample_fb_w /\
  @wp _ _ (@amdgpu_fb_create Sample.env Sample.scrn 64 64 256 9)
     (fun r w' => fb_inv_with (fun l => points l r) w' /\
        match r with
        | Some l => w_fbs sample_fb_w !! l = None /\ exists h, w_fbs w' = <[l := Fb 1 h]> (w_fbs sample_fb_w)
        | None => w_fbs w' = w_fbs sample_fb_w
        end) sample_fb_w.
Proof.
  split; [exact sample_fb_inv |]. apply (@fb_create_owned Sample.env). exact sample_fb_inv.
Defined.
