(* ===== verification/DriState.v ===== *)
(** * The state of the DRI2 extension: who owns what

    Frame events hold references to the buffers of a swap; a timer belongs to the
    frame event it was set for.  [dri_inv] says that the reference count of every
    buffer is the number of its owners, so that a buffer is neither leaked nor
    freed under an event that still needs it, and that timers and events point to
    each other, so that a timer never fires for an event that is gone. *)
From S2P Require Import Prelude Modes Region World.

(** References an event holds to the buffer [b]. *)
Definition event_refs (b : loc) (e : DRI2FrameEvent) : Z := points b (fv_front e) + points b (fv_back e).

Definition frame_refs (w : world) (b : loc) : Z := msum (event_refs b) (w_frame_events w).

(** [own b] are the references held outside of frame events: that of the server,
    and those of local variables. *)
Record dri_inv (own : loc -> Z) (w : world) : Prop := {
  di_refs : counted bp_refcnt (w_dri2_buffers w) (fun b => own b + frame_refs w b);
  di_own : forall b, 0 <= own b;
  di_timer : forall t l, w_timers w !! t = Some l ->
    exists e, w_frame_events w !! l = Some e /\ fv_timer e = Some t;
  di_event_timer : forall l e t, w_frame_events w !! l = Some e -> fv_timer e = Some t ->
    w_timers w !! t = Some l;
  di_events_below : forall l, is_Some (w_frame_events w !! l) -> (l < w_next w)%positive;
  di_buffers_below : forall l, is_Some (w_dri2_buffers w !! l) -> (l < w_next w)%positive;
  di_timers_below : forall l, is_Some (w_timers w !! l) -> (l < w_next w)%positive
}.

(** The 32-bit counts cannot wrap: there are fewer events than addresses were
    handed out. *)
Definition room (own : loc -> Z) (w : world) : Prop :=
  forall b, own b + 2 * Zpos (w_next w) + 2 < 2 ^ 32.

(** What every function of the driver does to this state. *)
Definition grows (w w' : world) : Prop :=
  (w_next w <= w_next w')%positive /\
  forall own, dri_inv own w -> room own w' -> dri_inv own w'.

Lemma grows_refl w : grows w w.
Proof. split; [lia | auto]. Qed.

Lemma room_mono own w w' : (w_next w <= w_next w')%positive -> room own w' -> room own w.
Proof. intros Hn Hr b. specialize (Hr b). lia. Qed.

Lemma grows_trans w1 w2 w3 : grows w1 w2 -> grows w2 w3 -> grows w1 w3.
Proof.
  intros [Hn1 H1] [Hn2 H2]. split; [lia |]. intros own Hi Hr. apply H2; [| done].
  apply H1; [done |]. exact (room_mono _ _ _ Hn2 Hr).
Qed.

Lemma dri_inv_frame own w w' :
  w_dri w' = w_dri w -> (w_next w <= w_next w')%positive -> dri_inv own w -> dri_inv own w'.
Proof.
  intros Hd Hn [H1 H2 H3 H4 H5 H6 H7].
  assert (He : w_frame_events w' = w_frame_events w) by (unfold w_frame_events; by rewrite Hd).
  assert (Hb : w_dri2_buffers w' = w_dri2_buffers w) by (unfold w_dri2_buffers; by rewrite Hd).
  assert (Ht : w_timers w' = w_timers w) by (unfold w_timers; by rewrite Hd).
  split; unfold frame_refs; rewrite ?He, ?Hb, ?Ht; try done.
  - intros l Hl. specialize (H5 l Hl). lia.
  - intros l Hl. specialize (H6 l Hl). lia.
  - intros l Hl. specialize (H7 l Hl). lia.
Qed.

Lemma grows_frame w w' : w_dri w' = w_dri w -> (w_next w <= w_next w')%positive -> grows w w'.
Proof. intros Hd Hn. split; [done |]. intros own Hi _. exact (dri_inv_frame _ _ _ Hd Hn Hi). Qed.

Lemma event_refs_range b e : 0 <= event_refs b e <= 2.
Proof.
  unfold event_refs. pose proof (points_range b (fv_front e)). pose proof (points_range b (fv_back e)). lia.
Qed.

(** A sum over a map whose keys are below [n]. *)
Lemma msum_below {A} (f : A -> Z) k (n : loc) (m : gmap loc A) :
  0 <= k -> (forall a, f a <= k) -> (forall l, is_Some (m !! l) -> (l < n)%positive) ->
  msum f m <= k * (Zpos n - 1).
Proof.
  intros Hk Hf. revert m. induction n as [|n IH] using Pos.peano_ind; intros m Hm.
  - rewrite msum_zero; [lia |]. intros l a Hl. specialize (Hm l (mk_is_Some _ _ Hl)). lia.
  - destruct (m !! n) as [a|] eqn:Hn.
    + rewrite (msum_delete f m n a Hn). specialize (IH (delete n m)). specialize (Hf a).
      assert (msum f (delete n m) <= k * (Zpos n - 1)); [| nia]. apply IH. intros l [b Hl].
      apply lookup_delete_Some in Hl as [Hne Hl]. specialize (Hm l (mk_is_Some _ _ Hl)). lia.
    + assert (msum f m <= k * (Zpos n - 1)); [| nia]. apply IH. intros l [b Hl].
      specialize (Hm l (mk_is_Some _ _ Hl)). assert (l <> n) by congruence. lia.
Qed.

Lemma frame_refs_bound own w b : dri_inv own w -> 0 <= frame_refs w b <= 2 * (Zpos (w_next w) - 1).
Proof.
  intros Hi. split.
  - apply msum_nonneg. intros l e _. apply event_refs_range.
  - apply msum_below; [lia | intros e; apply event_refs_range | apply (di_events_below _ _ Hi)].
Qed.
