(* ===== verification/Queue.v ===== *)
(** * The DRM event queue: src/src/amdgpu_drm_queue.c

    Requests the driver has made to the kernel (page flips, vblank events) wait
    in [amdgpu_drm_queue]; when the kernel's event arrives they move to one of
    the signalled lists, and their handler or abort function runs from there.
    Vblank events of a CRTC that waits for a page flip are deferred.

    The callbacks are a parameter of the component: [Callbacks] is the
    interface to the code that owns them, and they may themselves use the
    queue. *)
From stdpp Require Import strings.
From S2P Require Import Prelude Modes World DriState.

(** The functions behind the handler and abort pointers of the entries; a page
    flip that fails early calls its abort function without a CRTC. *)
Class Callbacks := {
  call_handler : handler_proc -> loc -> Z -> Z -> cookie -> D unit;
  call_abort : abort_proc -> option loc -> cookie -> D unit
}.

Definition AMDGPU_DRM_QUEUE_ERROR : Z := 0.
Definition EINTR : Z := 4.
Definition EAGAIN : Z := 11.

(** [xorg_list_del(&e->list)]: the entry leaves the list it is in. *)
Definition list_del (a : loc) (l : list queue_entry) : list queue_entry :=
  filter (fun e => q_addr e <> a) l.
Definition queue_del (a : loc) (q : drm_queue) : drm_queue :=
  q <| amdgpu_drm_queue ::= list_del a |>
    <| amdgpu_drm_flip_signalled ::= list_del a |>
    <| amdgpu_drm_vblank_signalled ::= list_del a |>
    <| amdgpu_drm_vblank_deferred ::= list_del a |>.

(** The first entry of a list with a property, as the search loops find it. *)
Definition list_find_entry (P : queue_entry -> bool) (l : list queue_entry)
  : option queue_entry := snd <$> list_find (fun e => P e = true) l.

Section Queue.
Context `{env : Env} `{callbacks : Callbacks}.

Definition amdgpu_drm_queue_handle_one (e : queue_entry) : D unit :=
  _ ← modify (setf w_queue (queue_del (q_addr e)));
  match q_handler e with
  | Some h => call_handler h (q_crtc e) (q_frame e) (q_usec e) (q_data e)
  | None => call_abort (q_abort e) (Some (q_crtc e)) (q_data e)
  end.

Definition amdgpu_drm_abort_one (e : queue_entry) : D unit :=
  _ ← modify (setf w_queue (queue_del (q_addr e)));
  call_abort (q_abort e) (Some (q_crtc e)) (q_data e).

(** The event handler libdrm calls; [user_ptr] is the sequence number. *)
Definition amdgpu_drm_queue_handler (frame sec usec user_ptr : Z) : D unit :=
  q ← gets w_queue;
  match list_find_entry (fun e => q_seq e =? user_ptr) (amdgpu_drm_queue q) with
  | None => mret tt
  | Some e =>
      match q_handler e with
      | None => amdgpu_drm_abort_one e
      | Some _ =>
          let e' := e <| q_usec := u64 (sec * 1000000 + usec) |> <| q_frame := frame |> in
          _ ← modify (setf w_queue (queue_del (q_addr e)));
          if q_is_flip e
          then modify (setf w_queue (setf amdgpu_drm_flip_signalled (fun l => l ++ [e'])))
          else modify (setf w_queue (setf amdgpu_drm_vblank_signalled (fun l => l ++ [e'])))
      end
  end.

Definition nesting_level (crtc : loc) : D Z :=
  c ← load w_crtcs crtc; mret (wait_flip_nesting_level (driver_private c)).

Definition set_nesting_level (crtc : loc) (n : Z) : D unit :=
  update w_crtcs crtc (setf driver_private (setf wait_flip_nesting_level (fun _ => n))).

(** [while (!xorg_list_is_empty(&amdgpu_drm_vblank_signalled))] *)
Fixpoint amdgpu_drm_handle_vblank_signalled (fuel : nat) : D unit :=
  match fuel with
  | O => nofuel
  | S fuel' =>
      q ← gets w_queue;
      match amdgpu_drm_vblank_signalled q with
      | [] => mret tt
      | e :: _ =>
          n ← nesting_level (q_crtc e);
          _ ← (if n =? 0 then amdgpu_drm_queue_handle_one e
               else
                 _ ← modify (setf w_queue (queue_del (q_addr e)));
                 modify (setf w_queue (setf amdgpu_drm_vblank_deferred (fun l => l ++ [e]))));
          amdgpu_drm_handle_vblank_signalled fuel'
      end
  end.

(** The loop that puts the deferred events of a CRTC back. *)
Definition undefer (crtc : loc) (q : drm_queue) : drm_queue :=
  foldl (fun q e =>
           if bool_decide (q_crtc e = crtc)
           then queue_del (q_addr e) q <| amdgpu_drm_vblank_signalled ::= fun l => l ++ [e] |>
           else q)
        q (amdgpu_drm_vblank_deferred q).

Definition amdgpu_drm_queue_handle_deferred (fuel : nat) (crtc : loc) : D unit :=
  n ← nesting_level crtc;
  if n =? 0 then mret tt
  else
    _ ← set_nesting_level crtc (n - 1);
    if n - 1 >? 0 then mret tt
    else
      _ ← modify (setf w_queue (undefer crtc));
      amdgpu_drm_handle_vblank_signalled fuel.

Definition amdgpu_drm_queue_alloc (crtc : loc) (client id : Z) (data : cookie)
    (handler : handler_proc) (abort : abort_proc) (is_flip : bool) : D Z :=
  ok ← call (Calloc "amdgpu_drm_queue_entry");
  if negb ok then mret AMDGPU_DRM_QUEUE_ERROR
  else
    addr ← gets w_next;
    _ ← modify (setf w_next Pos.succ);
    q ← gets w_queue;
    let s := if amdgpu_drm_queue_seq q =? AMDGPU_DRM_QUEUE_ERROR
             then u64 (amdgpu_drm_queue_seq q + 1) else amdgpu_drm_queue_seq q in
    let e := Entry addr 0 id s data client crtc (Some handler) abort is_flip 0 in
    _ ← modify (setf w_queue (fun q =>
          q <| amdgpu_drm_queue_seq := u64 (s + 1) |>
            <| amdgpu_drm_queue ::= fun l => l ++ [e] |>));
    mret s.

Definition amdgpu_drm_abort_client (client : Z) : D unit :=
  modify (setf w_queue (setf amdgpu_drm_queue
    (fmap (fun e => if q_client e =? client then e <| q_handler := None |> else e)))).

Definition amdgpu_drm_abort_entry (seq : Z) : D unit :=
  if seq =? AMDGPU_DRM_QUEUE_ERROR then mret tt
  else
    q ← gets w_queue;
    let P e := q_seq e =? seq in
    match list_find_entry P (amdgpu_drm_vblank_signalled q) with
    | Some e => amdgpu_drm_abort_one e
    | None =>
        match list_find_entry P (amdgpu_drm_vblank_deferred q) with
        | Some e => amdgpu_drm_abort_one e
        | None =>
            match list_find_entry P (amdgpu_drm_queue q) with
            | Some e => amdgpu_drm_abort_one e
            | None => mret tt
            end
        end
    end.

Definition amdgpu_drm_abort_id (id : Z) : D unit :=
  q ← gets w_queue;
  match list_find_entry (fun e => q_id e =? id) (amdgpu_drm_queue q) with
  | Some e => amdgpu_drm_abort_one e
  | None => mret tt
  end.

(** [do { r = drmHandleEvent(...) } while (r < 0 && (errno == EINTR || errno == EAGAIN))];
    libdrm calls the event handler for every event it has read. *)
Fixpoint read_events (fuel : nat) : D Z :=
  match fuel with
  | O => nofuel
  | S fuel' =>
      r ← call DrmHandleEvent;
      let '(ret, errno, events) := r in
      _ ← mfor events (fun ev =>
            amdgpu_drm_queue_handler (ev_frame ev) (ev_sec ev) (ev_usec ev) (ev_user_ptr ev));
      if (ret <? 0) && ((errno =? EINTR) || (errno =? EAGAIN)) then read_events fuel'
      else mret ret
  end.

(** [while (!xorg_list_is_empty(&amdgpu_drm_flip_signalled))], guarded by [go]. *)
Fixpoint handle_flip_signalled (go : D bool) (fuel : nat) : D unit :=
  match fuel with
  | O => nofuel
  | S fuel' =>
      b ← go;
      q ← gets w_queue;
      match b, amdgpu_drm_flip_signalled q with
      | true, e :: _ =>
          _ ← amdgpu_drm_queue_handle_one e;
          handle_flip_signalled go fuel'
      | _, _ => mret tt
      end
  end.

Definition amdgpu_drm_handle_event (fuel : nat) : D Z :=
  r ← read_events fuel;
  _ ← handle_flip_signalled (mret true) fuel;
  _ ← amdgpu_drm_handle_vblank_signalled fuel;
  mret r.

Definition has_flip_pending (crtc : loc) : D bool :=
  c ← load w_crtcs crtc;
  mret (match flip_pending (driver_private c) with Some _ => true | None => false end).

(** [while (drmmode_crtc->flip_pending && amdgpu_drm_handle_event(...) >= 0);] *)
Fixpoint wait_flip_loop (crtc : loc) (fuel : nat) : D unit :=
  match fuel with
  | O => nofuel
  | S fuel' =>
      p ← has_flip_pending crtc;
      if negb p then mret tt
      else
        r ← amdgpu_drm_handle_event fuel';
        if 0 <=? r then wait_flip_loop crtc fuel' else mret tt
  end.

Definition amdgpu_drm_wait_pending_flip (fuel : nat) (crtc : loc) : D unit :=
  n ← nesting_level crtc;
  _ ← set_nesting_level crtc (n + 1);
  _ ← handle_flip_signalled (has_flip_pending crtc) fuel;
  wait_flip_loop crtc fuel.

Definition amdgpu_drm_queue_init : D unit :=
  q ← gets w_queue;
  let n := amdgpu_drm_queue_refcnt q in
  _ ← modify (setf w_queue (setf amdgpu_drm_queue_refcnt (fun _ => n + 1)));
  if negb (n =? 0) then mret tt
  else
    modify (setf w_queue (fun q =>
      q <| amdgpu_drm_queue := [] |> <| amdgpu_drm_flip_signalled := [] |>
        <| amdgpu_drm_vblank_signalled := [] |> <| amdgpu_drm_vblank_deferred := [] |>)).

(** The address after [a] in a list. *)
Fixpoint next_addr (a : loc) (l : list queue_entry) : option loc :=
  match l with
  | [] => None
  | e :: r => if bool_decide (q_addr e = a) then q_addr <$> head r else next_addr a r
  end.

(** [xorg_list_for_each_entry_safe(e, tmp, &amdgpu_drm_queue, list)] at the entry
    [pos]; [None] is the head of the list.  The next entry is remembered before a
    callback runs: one that a callback took off the list in the meantime would be
    used after it was freed. *)
Fixpoint close_loop (fuel : nat) (scrn : loc) (pos : option loc) : D unit :=
  match fuel with
  | O => nofuel
  | S fuel' =>
      match pos with
      | None => mret tt
      | Some a =>
          q ← gets w_queue;
          match list_find_entry (fun e => bool_decide (q_addr e = a)) (amdgpu_drm_queue q) with
          | None => raise UseAfterFree
          | Some e =>
              c ← load w_crtcs (q_crtc e);
              _ ← mwhen (bool_decide (crtc_scrn c = scrn)) (amdgpu_drm_abort_one e);
              close_loop fuel' scrn (next_addr a (amdgpu_drm_queue q))
          end
      end
  end.

Definition amdgpu_drm_queue_close (fuel : nat) (scrn : loc) : D unit :=
  q ← gets w_queue;
  _ ← close_loop fuel scrn (q_addr <$> head (amdgpu_drm_queue q));
  modify (setf w_queue (setf amdgpu_drm_queue_refcnt (fun n => n - 1))).
End Queue.

(** ** Well-formedness *)

Definition entries (q : drm_queue) : list queue_entry :=
  amdgpu_drm_queue q ++ amdgpu_drm_flip_signalled q ++
  amdgpu_drm_vblank_signalled q ++ amdgpu_drm_vblank_deferred q.

Definition nest_of (w : world) (crtc : loc) : option Z :=
  (wait_flip_nesting_level ∘ driver_private) <$> (w_crtcs w !! crtc).

(** Somebody waits for a page flip of the CRTC. *)
Definition waiting (w : world) (crtc : loc) : Prop :=
  exists n, nest_of w crtc = Some n /\ 0 < n.

Definition signalled_ok (flip : bool) (e : queue_entry) : Prop :=
  q_is_flip e = flip /\ is_Some (q_handler e).

(** Every screen has its CRTCs once; every entry is in one place; sequence numbers are never the error value;
    nesting levels are not negative; signalled entries still have their handler
    and are in the list of their kind; and an event is only deferred while
    somebody waits for a flip of its CRTC. *)
Record queue_wf (w : world) : Prop := {
  qw_addr : NoDup (q_addr <$> entries (w_queue w));
  qw_bound : Forall (fun e => q_addr e < w_next w)%positive (entries (w_queue w));
  qw_seq : Forall (fun e => 0 < q_seq e < 2 ^ 64) (entries (w_queue w));
  qw_counter : 0 <= amdgpu_drm_queue_seq (w_queue w) < 2 ^ 64;
  qw_nesting : forall c n, nest_of w c = Some n -> 0 <= n;
  qw_flip : Forall (signalled_ok true) (amdgpu_drm_flip_signalled (w_queue w));
  qw_vblank : Forall (signalled_ok false) (amdgpu_drm_vblank_signalled (w_queue w));
  qw_deferred : Forall (signalled_ok false) (amdgpu_drm_vblank_deferred (w_queue w));
  qw_waiting : Forall (fun e => waiting w (q_crtc e)) (amdgpu_drm_vblank_deferred (w_queue w));
  qw_config : forall s info, w_scrns w !! s = Some info -> NoDup (crtcs info)
}.

#[global] Arguments list_del : simpl never.

Lemma entries_del a q : entries (queue_del a q) = list_del a (entries q).
Proof. unfold entries, queue_del, list_del. cbn. by rewrite !filter_app. Qed.

Lemma list_del_not_in a l : a ∉ (q_addr <$> list_del a l).
Proof.
  rewrite list_elem_of_fmap. intros (e & -> & He). by apply list_elem_of_filter in He as [? _].
Qed.

Lemma Forall_list_del P a l : Forall P l -> Forall P (list_del a l).
Proof.
  rewrite !Forall_forall. intros H e He. apply list_elem_of_filter in He as [_ He]. auto.
Qed.

Lemma queue_wf_del a w : queue_wf w -> queue_wf (w <| w_queue ::= queue_del a |>).
Proof.
  intros []. split; unfold setf; cbn [w_queue w_next]; rewrite ?entries_del;
    try (by apply Forall_list_del); try done.
  eapply sublist_NoDup; [exact qw_addr0 |]. apply fmap_sublist, sublist_filter.
Qed.

(** The four lists an entry can be appended to. *)
Definition push_queue (e : queue_entry) := setf amdgpu_drm_queue (fun l => l ++ [e]).
Definition push_flip (e : queue_entry) := setf amdgpu_drm_flip_signalled (fun l => l ++ [e]).
Definition push_vblank (e : queue_entry) := setf amdgpu_drm_vblank_signalled (fun l => l ++ [e]).
Definition push_deferred (e : queue_entry) := setf amdgpu_drm_vblank_deferred (fun l => l ++ [e]).

(** An entry that is in no list, with an address and a number that are in
    range. *)
Definition loose (w : world) (e : queue_entry) : Prop :=
  (q_addr e ∉ (q_addr <$> entries (w_queue w))) /\ (q_addr e < w_next w)%positive /\
  0 < q_seq e < 2 ^ 64.

Lemma queue_wf_push (push : queue_entry -> drm_queue -> drm_queue) w e :
  queue_wf w -> loose w e ->
  (forall q, entries (push e q) ≡ₚ e :: entries q) ->
  amdgpu_drm_queue_seq (push e (w_queue w)) = amdgpu_drm_queue_seq (w_queue w) ->
  Forall (signalled_ok true) (amdgpu_drm_flip_signalled (push e (w_queue w))) ->
  Forall (signalled_ok false) (amdgpu_drm_vblank_signalled (push e (w_queue w))) ->
  Forall (signalled_ok false) (amdgpu_drm_vblank_deferred (push e (w_queue w))) ->
  Forall (fun e => waiting w (q_crtc e)) (amdgpu_drm_vblank_deferred (push e (w_queue w))) ->
  queue_wf (w <| w_queue ::= push e |>).
Proof.
  intros [] (Ha & Hb & Hs) Hp Hc Hf Hv Hd Hw.
  split; unfold setf; cbn [w_queue w_next]; try done.
  - rewrite Hp. cbn. by constructor.
  - rewrite Hp. by constructor.
  - rewrite Hp. by constructor.
  - by rewrite Hc.
Qed.

Lemma entries_push e q :
  entries (push_queue e q) ≡ₚ e :: entries q /\ entries (push_flip e q) ≡ₚ e :: entries q /\
  entries (push_vblank e q) ≡ₚ e :: entries q /\ entries (push_deferred e q) ≡ₚ e :: entries q.
Proof.
  unfold entries, push_queue, push_flip, push_vblank, push_deferred, setf. cbn.
  split_and!; solve_Permutation.
Qed.

(** Taking an entry off its list leaves it loose. *)
Lemma loose_del w e e' :
  queue_wf w -> e ∈ entries (w_queue w) -> q_addr e' = q_addr e -> q_seq e' = q_seq e ->
  loose (w <| w_queue ::= queue_del (q_addr e) |>) e'.
Proof.
  intros [] He Ha Hs. unfold loose, setf. cbn [w_queue w_next]. rewrite entries_del, Ha, Hs.
  rewrite Forall_forall in qw_bound0, qw_seq0. split_and!; [apply list_del_not_in | by apply qw_bound0 | |];
    by apply qw_seq0.
Qed.

Lemma queue_wf_push_flip w e :
  queue_wf w -> loose w e -> signalled_ok true e -> queue_wf (w <| w_queue ::= push_flip e |>).
Proof.
  intros Hw Hl He. apply queue_wf_push; try done; try apply Hw; [intros; apply entries_push |].
  cbn. apply Forall_app. split; [apply Hw | by constructor].
Qed.

Lemma queue_wf_push_vblank w e :
  queue_wf w -> loose w e -> signalled_ok false e -> queue_wf (w <| w_queue ::= push_vblank e |>).
Proof.
  intros Hw Hl He. apply queue_wf_push; try done; try apply Hw; [intros; apply entries_push |].
  cbn. apply Forall_app. split; [apply Hw | by constructor].
Qed.

Lemma queue_wf_push_deferred w e :
  queue_wf w -> loose w e -> signalled_ok false e -> waiting w (q_crtc e) ->
  queue_wf (w <| w_queue ::= push_deferred e |>).
Proof.
  intros Hw Hl He Hwait. apply queue_wf_push; try done; try apply Hw;
    [intros; apply entries_push | |]; cbn; apply Forall_app; (split; [apply Hw | by constructor]).
Qed.

Lemma queue_wf_push_queue w e :
  queue_wf w -> loose w e -> queue_wf (w <| w_queue ::= push_queue e |>).
Proof.
  intros Hw Hl. apply queue_wf_push; try done; try apply Hw. intros; apply entries_push.
Qed.

(** The CRTCs of a screen. *)
Definition crtcs_of (w : world) (s : loc) : option (list loc) := crtcs <$> (w_scrns w !! s).

(** The invariant reads the queue, the allocator, the nesting levels and the CRTC
    lists. *)
Lemma queue_wf_frame w w' :
  w_queue w' = w_queue w -> (w_next w <= w_next w')%positive ->
  (forall c, nest_of w' c = nest_of w c) -> (forall s, crtcs_of w' s = crtcs_of w s) ->
  queue_wf w -> queue_wf w'.
Proof.
  intros Hq Hn Hnest Hcfg []. split; rewrite ?Hq; try done; cycle 3.
  { intros s info Hs. specialize (Hcfg s). unfold crtcs_of in Hcfg. rewrite Hs in Hcfg.
    destruct (w_scrns w !! s) as [i|] eqn:Hi; [| done]. injection Hcfg as ->. by eapply qw_config0. }
  - eapply Forall_impl; [exact qw_bound0 |]. cbn. lia.
  - intros c n. rewrite Hnest. apply qw_nesting0.
  - eapply Forall_impl; [exact qw_waiting0 |]. intros e. cbn. unfold waiting. by rewrite Hnest.
Qed.

Lemma find_entry_in P l e : list_find_entry P l = Some e -> e ∈ l /\ P e = true.
Proof.
  unfold list_find_entry. intros ([i e'] & H & ->)%fmap_Some.
  apply list_find_Some in H as (H & ? & _). split; [| done]. by eapply list_elem_of_lookup_2.
Qed.

Lemma in_entries e q :
  e ∈ amdgpu_drm_queue q \/ e ∈ amdgpu_drm_flip_signalled q \/
  e ∈ amdgpu_drm_vblank_signalled q \/ e ∈ amdgpu_drm_vblank_deferred q <-> e ∈ entries q.
Proof. unfold entries. by rewrite !elem_of_app. Qed.

(** ** Putting deferred events back *)

Lemma list_del_id a l : a ∉ (q_addr <$> l) -> list_del a l = l.
Proof.
  induction l as [|e l IH]; [done |]. rewrite fmap_cons, not_elem_of_cons. intros [Hne Hl].
  unfold list_del. rewrite filter_cons_True by done. f_equal. by apply IH.
Qed.

Lemma list_del_mid e pre l :
  q_addr e ∉ (q_addr <$> pre) -> q_addr e ∉ (q_addr <$> l) ->
  list_del (q_addr e) (pre ++ e :: l) = pre ++ l.
Proof.
  intros Hp Hl. unfold list_del. rewrite filter_app, filter_cons_False by (intros H; by apply H).
  fold (list_del (q_addr e) pre) (list_del (q_addr e) l). by rewrite !list_del_id.
Qed.

Lemma undefer_loop crtc l pre q :
  amdgpu_drm_vblank_deferred q = pre ++ l -> NoDup (q_addr <$> entries q) ->
  foldl (fun q e =>
           if bool_decide (q_crtc e = crtc)
           then queue_del (q_addr e) q <| amdgpu_drm_vblank_signalled ::= fun l => l ++ [e] |>
           else q) q l
  = q <| amdgpu_drm_vblank_deferred := pre ++ filter (fun e => q_crtc e <> crtc) l |>
      <| amdgpu_drm_vblank_signalled ::= fun v => v ++ filter (fun e => q_crtc e = crtc) l |>.
Proof.
  revert pre q. induction l as [|e l IH]; intros pre q Hd Hnd.
  { destruct q. unfold setf. cbn in *. by rewrite <- Hd, app_nil_r. }
  cbn [foldl]. case_bool_decide as Hc.
  - rewrite (filter_cons_False (fun e => q_crtc e <> crtc)) by (intros H; by apply H).
    rewrite (filter_cons_True (fun e => q_crtc e = crtc)) by done.
    assert (Hq : queue_del (q_addr e) q <| amdgpu_drm_vblank_signalled ::= fun l => l ++ [e] |>
      = q <| amdgpu_drm_vblank_deferred := pre ++ l |>
          <| amdgpu_drm_vblank_signalled ::= fun l => l ++ [e] |>).
    { unfold entries in Hnd. rewrite Hd in Hnd. rewrite !fmap_app in Hnd. cbn in Hnd.
      assert (Hperm : NoDup (q_addr e :: (q_addr <$> amdgpu_drm_queue q) ++
        (q_addr <$> amdgpu_drm_flip_signalled q) ++ (q_addr <$> amdgpu_drm_vblank_signalled q) ++
        (q_addr <$> pre) ++ (q_addr <$> l)))
        by (eapply NoDup_perm; [| exact Hnd]; solve_Permutation).
      apply NoDup_cons in Hperm as [Hni _]. rewrite !not_elem_of_app in Hni.
      destruct Hni as (H1 & H2 & H3 & H4 & H5).
      unfold queue_del, setf. cbn. rewrite Hd. by rewrite list_del_mid, !list_del_id. }
    rewrite Hq, (IH pre); [| done |].
    + unfold setf. cbn. by rewrite <- app_assoc.
    + eapply NoDup_perm; [| exact Hnd].
      unfold entries, setf. cbn. rewrite Hd, !fmap_app. cbn. solve_Permutation.
  - rewrite (filter_cons_True (fun e => q_crtc e <> crtc)) by done.
    rewrite (filter_cons_False (fun e => q_crtc e = crtc)) by done.
    rewrite (IH (pre ++ [e])); [by rewrite <- app_assoc | | done]. by rewrite <- app_assoc.
Qed.

(** The events of the CRTC go to the end of the signalled list in their order;
    the others stay deferred in theirs. *)
Lemma undefer_eq crtc q :
  NoDup (q_addr <$> entries q) ->
  undefer crtc q
  = q <| amdgpu_drm_vblank_deferred ::= filter (fun e => q_crtc e <> crtc) |>
      <| amdgpu_drm_vblank_signalled ::= fun v =>
           v ++ filter (fun e => q_crtc e = crtc) (amdgpu_drm_vblank_deferred q) |>.
Proof. intros Hnd. unfold undefer. by rewrite (undefer_loop crtc _ [] q). Qed.

(** No nesting level is higher than it was. *)
Definition nest_le (w w' : world) : Prop :=
  forall c n', nest_of w' c = Some n' -> exists n, nest_of w c = Some n /\ n' <= n.

Lemma nest_le_eq w w' : (forall c, nest_of w' c = nest_of w c) -> nest_le w w'.
Proof. intros H c n' Hn'. exists n'. rewrite <- H. split; [done | lia]. Qed.
Lemma nest_le_trans w1 w2 w3 : nest_le w1 w2 -> nest_le w2 w3 -> nest_le w1 w3.
Proof.
  intros H1 H2 c n3 Hn3. destruct (H2 c n3 Hn3) as (n2 & Hn2 & ?). destruct (H1 c n2 Hn2) as (n1 & ? & ?).
  exists n1. split; [done | lia].
Qed.

(** ** Every operation keeps the queue well-formed

    The callbacks may use the queue; what is asked of them is that they keep it
    well-formed too, that every wait for a flip they begin they also end, and that
    they respect the ownership of DRI2 buffers and events.  The driver's own
    callbacks are shown to do so in Dispatch.v. *)
Definition kept (w w' : world) : Prop := queue_wf w' /\ nest_le w w' /\ grows w w'.

Lemma kept_refl w : queue_wf w -> kept w w.
Proof. intros Hw. split_and!; [done | by apply nest_le_eq | apply grows_refl]. Qed.
Lemma kept_trans w1 w2 w3 : kept w1 w2 -> kept w2 w3 -> kept w1 w3.
Proof.
  intros (_ & H1 & G1) (Hw & H2 & G2). split_and!; [done | |].
  - exact (nest_le_trans _ _ _ H1 H2).
  - exact (grows_trans _ _ _ G1 G2).
Qed.

(** The computation keeps the queue well-formed and the nesting levels. *)
Definition keeps {A} (m : D A) : Prop := forall w, queue_wf w -> pwp m (fun _ => kept w) w.

Create HintDb keeps.

Section Keeps.
Context `{env : Env}.

Lemma keeps_ret {A} (a : A) : keeps (mret a).
Proof. intros w Hw. by apply pwp_ret, kept_refl. Qed.
Lemma keeps_bind {A B} (m : D A) (k : A -> D B) : keeps m -> (forall a, keeps (k a)) -> keeps (mbind k m).
Proof.
  intros Hm Hk w Hw. apply pwp_bind. eapply pwp_mono; [by apply Hm |]. intros a w1 H1.
  eapply pwp_mono; [apply Hk, H1 |]. intros b w2 H2. exact (kept_trans _ _ _ H1 H2).
Qed.
Lemma keeps_gets {A} (f : world -> A) : keeps (gets f).
Proof. intros w Hw. by apply pwp_gets, kept_refl. Qed.
Lemma keeps_raise {A} f : keeps (raise (A := A) f).
Proof. done. Qed.
Lemma keeps_nofuel {A} : keeps (nofuel (A := A)).
Proof. done. Qed.
Lemma keeps_some_or {A} f (o : option A) : keeps (some_or f o).
Proof. destruct o; [apply keeps_ret | apply keeps_raise]. Qed.
Lemma keeps_mwhen b m : keeps m -> keeps (mwhen b m).
Proof. intros Hm. destruct b; [done | apply keeps_ret]. Qed.
Lemma keeps_mfor {A} (l : list A) (f : A -> D unit) : (forall x, keeps (f x)) -> keeps (mfor l f).
Proof.
  intros Hf. induction l as [|x l IH]; [apply keeps_ret |]. by apply keeps_bind.
Qed.
Lemma keeps_modify f : (forall w, queue_wf w -> kept w (f w)) -> keeps (modify f).
Proof. intros Hf w Hw. by apply pwp_modify, Hf. Qed.

(** The queue, the allocator, the nesting levels, the screens' CRTCs and the DRI
    state are not touched. *)
Lemma kept_frame w w' :
  w_queue w' = w_queue w -> (w_next w <= w_next w')%positive ->
  (forall c, nest_of w' c = nest_of w c) -> (forall s, crtcs_of w' s = crtcs_of w s) ->
  w_dri w' = w_dri w -> queue_wf w -> kept w w'.
Proof.
  intros Hq Hn Hnest Hcfg Hd Hw. split_and!; [by apply (queue_wf_frame w) | by apply nest_le_eq |].
  by apply grows_frame.
Qed.

(** Only the queue changes, and stays well-formed. *)
Lemma kept_queue w w' :
  queue_wf w' -> w_crtcs w' = w_crtcs w -> w_dri w' = w_dri w -> (w_next w <= w_next w')%positive -> kept w w'.
Proof.
  intros Hw Hc Hd Hn. split_and!; [done | | by apply grows_frame].
  apply nest_le_eq. intros c. unfold nest_of. by rewrite Hc.
Qed.

Lemma keeps_call e : keeps (call e).
Proof. intros w Hw. wp_ext. by apply kept_frame. Qed.
Lemma keeps_load {A} (heap : world -> gmap loc A) l : keeps (load heap l).
Proof. intros w Hw. apply pwp_load. intros a _. by apply kept_refl. Qed.
Lemma keeps_deref o : keeps (deref o).
Proof. apply keeps_some_or. Qed.

(** A heap the invariants do not read. *)
Definition plain_heap {A} (heap : world -> gmap loc A) `{!Setter heap} : Prop :=
  forall f w, w_queue (setf heap f w) = w_queue w /\ w_next (setf heap f w) = w_next w /\
    w_crtcs (setf heap f w) = w_crtcs w /\ w_scrns (setf heap f w) = w_scrns w /\
    w_dri (setf heap f w) = w_dri w.

Lemma kept_heap {A} (heap : world -> gmap loc A) `{!Setter heap} f w w' :
  plain_heap heap -> kept w w' -> kept w (setf heap f w').
Proof.
  intros Hp Hk. destruct (Hp f w') as (Hq & Hn & Hc & Hs & Hd). eapply kept_trans; [exact Hk |].
  apply kept_frame; [done | by rewrite Hn | | | done | apply Hk].
  - intros c. unfold nest_of. by rewrite Hc.
  - intros s. unfold crtcs_of. by rewrite Hs.
Qed.
Lemma keeps_store {A} (heap : world -> gmap loc A) `{!Setter heap} l a :
  plain_heap heap -> keeps (store heap l a).
Proof. intros Hf. apply keeps_modify. intros w Hw. by apply kept_heap, kept_refl. Qed.
Lemma keeps_update {A} (heap : world -> gmap loc A) `{!Setter heap} l (g : A -> A) :
  plain_heap heap -> keeps (update heap l g).
Proof. intros Hf. apply keeps_bind; [apply keeps_load |]. intros a. by apply keeps_store. Qed.
Lemma keeps_free {A} (heap : world -> gmap loc A) `{!Setter heap} l : plain_heap heap -> keeps (free heap l).
Proof.
  intros Hf. apply keeps_bind; [apply keeps_load |]. intros _. apply keeps_modify. intros w Hw.
  by apply kept_heap, kept_refl.
Qed.
Lemma kept_next w : queue_wf w -> kept w (w <| w_next ::= Pos.succ |>).
Proof. intros Hw. apply kept_frame; try done. unfold setf. cbn. lia. Qed.
Lemma keeps_new {A} (heap : world -> gmap loc A) `{!Setter heap} a : plain_heap heap -> keeps (new heap a).
Proof.
  intros Hf. apply keeps_bind; [apply keeps_gets |]. intros l.
  apply keeps_bind; [| intros; apply keeps_ret]. apply keeps_modify. intros w Hw.
  by apply kept_heap, kept_next.
Qed.

(** A change of a CRTC that leaves its nesting level alone. *)
Lemma keeps_update_crtc l (g : xf86Crtc -> xf86Crtc) :
  (forall c, wait_flip_nesting_level (driver_private (g c)) = wait_flip_nesting_level (driver_private c)) ->
  keeps (update w_crtcs l g).
Proof.
  intros Hg w Hw. apply pwp_update. intros c Hc. apply kept_frame; try done.
  intros c'. unfold nest_of, setf. cbn. destruct (decide (c' = l)) as [->|Hne].
  - by rewrite lookup_insert_eq, Hc; cbn; rewrite Hg.
  - by rewrite lookup_insert_ne.
Qed.

(** A change of a screen that leaves its CRTCs alone. *)
Lemma keeps_update_scrn l (g : scrn_info -> scrn_info) :
  (forall s, crtcs (g s) = crtcs s) -> keeps (update w_scrns l g).
Proof.
  intros Hg w Hw. apply pwp_update. intros i Hi. apply kept_frame; try done.
  intros s. unfold crtcs_of, setf. cbn. destruct (decide (s = l)) as [->|Hne].
  - rewrite lookup_insert_eq, Hi. cbn. by rewrite Hg.
  - by rewrite lookup_insert_ne.
Qed.
End Keeps.

#[export] Hint Resolve keeps_ret keeps_gets keeps_raise keeps_nofuel keeps_some_or keeps_load
  keeps_deref : keeps.
#[export] Hint Extern 0 (keeps (call _)) => exact (keeps_call _) : keeps.
#[export] Hint Extern 1 (keeps (update w_crtcs _ _)) => apply keeps_update_crtc; done : keeps.
#[export] Hint Extern 1 (keeps (update w_scrns _ _)) => apply keeps_update_scrn; done : keeps.
#[export] Hint Extern 2 (keeps (store _ _ _)) => apply keeps_store; done : keeps.
#[export] Hint Extern 2 (keeps (update _ _ _)) => apply keeps_update; done : keeps.
#[export] Hint Extern 2 (keeps (free _ _)) => apply keeps_free; done : keeps.
#[export] Hint Extern 2 (keeps (new _ _)) => apply keeps_new; done : keeps.

(** Walks through the code; what is left are the calls it has no rule for. *)
Ltac keeps_step :=
  lazymatch goal with
  | |- keeps (mbind _ _) => apply keeps_bind; [| intros]
  | |- keeps (mwhen _ _) => apply keeps_mwhen
  | |- keeps (mfor _ _) => apply keeps_mfor; intros
  | |- keeps (if ?b then _ else _) => destruct b
  | |- keeps (match ?x with _ => _ end) => destruct x
  | |- keeps (let '(_, _) := ?x in _) => destruct x
  | |- keeps (let _ := _ in _) => cbv zeta
  end.
Ltac keeps_auto := repeat first [solve [auto 2 with keeps nocore] | keeps_step].

Class CallbacksSafe `{Callbacks} := {
  handler_safe : forall h c f u d, keeps (call_handler h c f u d);
  abort_safe : forall a c d, keeps (call_abort a c d)
}.

Section Safe.
Context `{env : Env} `{safe : CallbacksSafe}.

Lemma kept_del a w : queue_wf w -> kept w (w <| w_queue ::= queue_del a |>).
Proof. intros Hw. apply kept_queue; [by apply queue_wf_del | done..]. Qed.

Lemma handle_one_keeps e : keeps (amdgpu_drm_queue_handle_one e).
Proof.
  apply keeps_bind; [apply keeps_modify; intros; by apply kept_del |]. intros _.
  destruct (q_handler e); [apply handler_safe | apply abort_safe].
Qed.

Lemma abort_one_keeps e : keeps (amdgpu_drm_abort_one e).
Proof.
  apply keeps_bind; [apply keeps_modify; intros; by apply kept_del |]. intros _. apply abort_safe.
Qed.

Lemma queue_handler_keeps frame sec usec ptr : keeps (amdgpu_drm_queue_handler frame sec usec ptr).
Proof.
  intros w Hw. apply pwp_bind, pwp_gets.
  destruct (list_find_entry _ _) as [e|] eqn:He; [| by apply pwp_ret, kept_refl].
  apply find_entry_in in He as [He _].
  assert (Hin : e ∈ entries (w_queue w)) by (apply in_entries; by left).
  destruct (q_handler e) as [h|] eqn:Hh; [| by apply abort_one_keeps].
  apply pwp_bind, pwp_modify. destruct (q_is_flip e) eqn:Hf; apply pwp_modify; (apply kept_queue; [| done..]).
  - apply queue_wf_push_flip; [by apply queue_wf_del | by apply loose_del |].
    split; [done | cbn; rewrite Hh; eauto].
  - apply queue_wf_push_vblank; [by apply queue_wf_del | by apply loose_del |].
    split; [done | cbn; rewrite Hh; eauto].
Qed.

Lemma handle_vblank_keeps fuel : keeps (amdgpu_drm_handle_vblank_signalled fuel).
Proof.
  induction fuel as [|fuel IH]; intros w Hw; [apply pwp_nofuel |].
  cbn [amdgpu_drm_handle_vblank_signalled]. apply pwp_bind, pwp_gets.
  destruct (amdgpu_drm_vblank_signalled (w_queue w)) as [|e l] eqn:Hl; [by apply pwp_ret, kept_refl |].
  apply pwp_bind, pwp_bind, pwp_load. intros c Hc. apply pwp_ret, pwp_bind.
  assert (Hin : e ∈ entries (w_queue w)) by (apply in_entries; rewrite Hl; do 2 right; left; left).
  eapply (pwp_mono _ (fun _ => kept w)); cycle 1.
  { intros [] w1 H1. eapply pwp_mono; [apply IH, H1 |]. intros [] w2 H2. exact (kept_trans _ _ _ H1 H2). }
  destruct (Z.eqb_spec (wait_flip_nesting_level (driver_private c)) 0); [by apply handle_one_keeps |].
  apply pwp_bind, pwp_modify, pwp_modify. apply kept_queue; [| done..].
  apply queue_wf_push_deferred; [by apply queue_wf_del | by apply loose_del | |].
  - pose proof (qw_vblank _ Hw) as Hv. rewrite Hl in Hv. by apply Forall_cons in Hv as [? _].
  - assert (Hn : nest_of w (q_crtc e) = Some (wait_flip_nesting_level (driver_private c)))
      by (unfold nest_of; by rewrite Hc).
    exists (wait_flip_nesting_level (driver_private c)). split; [done |].
    pose proof (qw_nesting _ Hw _ _ Hn). lia.
Qed.

Lemma nest_of_set w c cr n c' :
  w_crtcs w !! c = Some cr ->
  nest_of (w <| w_crtcs ::= <[c := setf driver_private (setf wait_flip_nesting_level (fun _ => n)) cr]> |>) c'
  = if decide (c' = c) then Some n else nest_of w c'.
Proof.
  intros Hc. unfold nest_of, setf. cbn. destruct (decide (c' = c)) as [->|Hne].
  - by rewrite lookup_insert_eq.
  - by rewrite lookup_insert_ne.
Qed.

Lemma set_nesting_wf w c cr n :
  queue_wf w -> w_crtcs w !! c = Some cr -> 0 <= n ->
  Forall (fun e => q_crtc e = c -> 0 < n) (amdgpu_drm_vblank_deferred (w_queue w)) ->
  queue_wf (w <| w_crtcs ::= <[c := setf driver_private (setf wait_flip_nesting_level (fun _ => n)) cr]> |>).
Proof.
  intros Hw Hc Hn Hd. split; try apply Hw.
  - intros c' m. rewrite (nest_of_set _ _ _ _ _ Hc). case_decide; [by intros [= <-] | apply Hw].
  - pose proof (qw_waiting _ Hw) as Hwt. unfold setf. cbn [w_queue].
    rewrite Forall_forall in Hwt, Hd |- *. intros e He. unfold waiting.
    rewrite (nest_of_set w c cr n _ Hc). case_decide; [eauto | by apply Hwt].
Qed.

Lemma undefer_wf w crtc :
  queue_wf w -> queue_wf (w <| w_queue ::= undefer crtc |>) /\
  Forall (fun e => q_crtc e <> crtc) (amdgpu_drm_vblank_deferred (undefer crtc (w_queue w))).
Proof.
  intros Hw. pose proof (undefer_eq crtc (w_queue w) (qw_addr _ Hw)) as Hu.
  set (d := amdgpu_drm_vblank_deferred (w_queue w)) in *.
  assert (Hp : entries (undefer crtc (w_queue w)) ≡ₚ entries (w_queue w)).
  { rewrite Hu. unfold entries, setf. cbn. fold d.
    assert (d ≡ₚ filter (fun e => q_crtc e = crtc) d ++ filter (fun e => q_crtc e <> crtc) d) as Hd
      by apply filter_perm_split.
    rewrite Hd at 3. solve_Permutation. }
  split.
  - split; unfold setf; cbn [w_queue w_next]; rewrite ?Hp, ?Hu; try apply Hw.
    + unfold setf. cbn. fold d. apply Forall_app. split; [apply Hw |].
      apply Forall_filter_sub, Hw.
    + apply Forall_filter_sub, Hw.
    + apply (Forall_filter_sub _ _ d), Hw.
  - rewrite Hu. unfold setf. cbn. apply Forall_forall. intros e He.
    by apply list_elem_of_filter in He as [? _].
Qed.

(** As [kept], with the nesting level of one CRTC changed by [k]. *)
Definition shifted (crtc : loc) (k : Z) (w w' : world) : Prop :=
  queue_wf w' /\
  (forall c n', nest_of w' c = Some n' ->
     exists n, nest_of w c = Some n /\ n' <= if decide (c = crtc) then Z.max 0 (n + k) else n) /\
  grows w w'.

Lemma shifted_wf crtc k w w' : shifted crtc k w w' -> queue_wf w'.
Proof. by intros [? _]. Qed.
Lemma kept_shifted crtc k w1 w2 w3 : kept w1 w2 -> shifted crtc k w2 w3 -> shifted crtc k w1 w3.
Proof.
  intros (_ & H1 & G1) (Hw & H2 & G2). split_and!; [done | | exact (grows_trans _ _ _ G1 G2)].
  intros c n3 Hn3. destruct (H2 c n3 Hn3) as (n2 & Hn2 & Hle). destruct (H1 c n2 Hn2) as (n1 & Hn1 & ?).
  exists n1. split; [done |]. case_decide; lia.
Qed.
Lemma shifted_kept crtc k w1 w2 w3 : shifted crtc k w1 w2 -> kept w2 w3 -> shifted crtc k w1 w3.
Proof.
  intros (_ & H1 & G1) (Hw & H2 & G2). split_and!; [done | | exact (grows_trans _ _ _ G1 G2)].
  intros c n3 Hn3. destruct (H2 c n3 Hn3) as (n2 & Hn2 & Hle). destruct (H1 c n2 Hn2) as (n1 & Hn1 & ?).
  exists n1. split; [done |]. lia.
Qed.
Lemma shifted_back crtc w1 w2 w3 :
  queue_wf w1 -> shifted crtc 1 w1 w2 -> shifted crtc (-1) w2 w3 -> kept w1 w3.
Proof.
  intros Hw1 (_ & H1 & G1) (Hw & H2 & G2). split_and!; [done | | exact (grows_trans _ _ _ G1 G2)].
  intros c n3 Hn3. destruct (H2 c n3 Hn3) as (n2 & Hn2 & Hle). destruct (H1 c n2 Hn2) as (n1 & Hn1 & ?).
  exists n1. split; [done |]. pose proof (qw_nesting _ Hw1 _ _ Hn1). case_decide; lia.
Qed.

(** The computation ends a wait for a flip of the CRTC. *)
Definition ends {A} (crtc : loc) (m : D A) : Prop :=
  forall w, queue_wf w -> pwp m (fun _ => shifted crtc (-1) w) w.

Lemma ends_bind {A B} crtc (m : D A) (k : A -> D B) :
  keeps m -> (forall a, ends crtc (k a)) -> ends crtc (mbind k m).
Proof.
  intros Hm Hk w Hw. apply pwp_bind. eapply pwp_mono; [by apply Hm |]. intros a w1 H1.
  eapply pwp_mono; [apply Hk, H1 |]. intros b w2 H2. exact (kept_shifted _ _ _ _ _ H1 H2).
Qed.
Lemma ends_then {A B} crtc (m : D A) (k : A -> D B) :
  ends crtc m -> (forall a, keeps (k a)) -> ends crtc (mbind k m).
Proof.
  intros Hm Hk w Hw. apply pwp_bind. eapply pwp_mono; [by apply Hm |]. intros a w1 H1.
  eapply pwp_mono; [apply Hk, H1 |]. intros b w2 H2. exact (shifted_kept _ _ _ _ _ H1 H2).
Qed.

(** Changing the level of one CRTC. *)
Lemma set_nesting_shifted w crtc c n k :
  queue_wf w -> w_crtcs w !! crtc = Some c -> wait_flip_nesting_level (driver_private c) + k = n -> 0 <= n ->
  Forall (fun e => q_crtc e = crtc -> 0 < n) (amdgpu_drm_vblank_deferred (w_queue w)) ->
  shifted crtc k w (w <| w_crtcs ::= <[crtc := setf driver_private (setf wait_flip_nesting_level (fun _ => n)) c]> |>).
Proof.
  intros Hw Hc Hk Hn Hd. split_and!; [by apply set_nesting_wf | | by apply grows_frame].
  intros c' n'. rewrite (nest_of_set _ _ _ _ _ Hc). case_decide as Hcc.
  - intros [= <-]. subst c'. exists (wait_flip_nesting_level (driver_private c)). unfold nest_of. rewrite Hc.
    split; [done | lia].
  - intros Hn'. exists n'. split; [done | lia].
Qed.

Lemma ends_deferred fuel crtc : ends crtc (amdgpu_drm_queue_handle_deferred fuel crtc).
Proof.
  intros w Hw. apply pwp_bind, pwp_bind, pwp_load. intros c Hc. apply pwp_ret.
  set (n := wait_flip_nesting_level (driver_private c)).
  assert (Hn : nest_of w crtc = Some n) by (unfold nest_of; by rewrite Hc).
  pose proof (qw_nesting _ Hw _ _ Hn).
  destruct (Z.eqb_spec n 0) as [Hz|Hz].
  { apply pwp_ret. split_and!; [done | | apply grows_refl]. intros c' n' Hn'. exists n'. split; [done |].
    case_decide; [subst; rewrite Hn in Hn'; injection Hn' as <-; lia | lia]. }
  apply pwp_bind, pwp_update. rewrite Hc. intros ? [= <-].
  destruct (Z.gtb_spec (n - 1) 0).
  - apply pwp_ret. apply set_nesting_shifted; [done | done | done | lia |]. apply Forall_forall. intros; lia.
  - apply pwp_bind, pwp_modify. destruct (undefer_wf w crtc Hw) as [Hw' Hd].
    pose proof (set_nesting_shifted _ crtc c (n - 1) (-1) Hw' Hc eq_refl ltac:(lia)
      ltac:(eapply Forall_impl; [exact Hd |]; cbn; done)) as Hs.
    assert (Hk : kept w (w <| w_queue ::= undefer crtc |>)) by (by apply kept_queue).
    eapply pwp_mono; [apply handle_vblank_keeps; exact (shifted_wf _ _ _ _ Hs) |]. intros [] w3 H3.
    exact (shifted_kept _ _ _ _ _ (kept_shifted _ _ _ _ _ Hk Hs) H3).
Qed.

Lemma ends_keeps {A} crtc (m : D A) : ends crtc m -> keeps m.
Proof.
  intros Hm w Hw. eapply pwp_mono; [by apply Hm |]. intros a w' (Hw' & Hs & Hg). split_and!; [done | | done].
  intros c n' Hn'. destruct (Hs c n' Hn') as (n & Hn & Hle). exists n. split; [done |].
  pose proof (qw_nesting _ Hw _ _ Hn). case_decide; lia.
Qed.
Lemma handle_deferred_keeps fuel crtc : keeps (amdgpu_drm_queue_handle_deferred fuel crtc).
Proof. exact (ends_keeps _ _ (ends_deferred fuel crtc)). Qed.

Lemma alloc_keeps crtc client id data handler abort is_flip :
  keeps (amdgpu_drm_queue_alloc crtc client id data handler abort is_flip).
Proof.
  intros w Hw. apply pwp_bind. wp_ext. set (w0 := w <| w_trace ::= _ |>).
  assert (Hw0 : queue_wf w0) by (by apply (queue_wf_frame w)).
  destruct (negb _); [by apply pwp_ret, kept_frame |].
  apply pwp_bind, pwp_gets, pwp_bind, pwp_modify, pwp_bind, pwp_gets, pwp_bind, pwp_modify, pwp_ret.
  set (s := if amdgpu_drm_queue_seq _ =? _ then _ else _).
  assert (Hs : 0 < s < 2 ^ 64).
  { pose proof (qw_counter _ Hw) as Hc. subst s. change (w_queue (w0 <| w_next ::= Pos.succ |>))
      with (w_queue w). unfold AMDGPU_DRM_QUEUE_ERROR.
    destruct (Z.eqb_spec (amdgpu_drm_queue_seq (w_queue w)) 0) as [->|?]; [| lia].
    unfold u64. rewrite Z.mod_small; lia. }
  set (w1 := w0 <| w_next ::= Pos.succ |>
                <| w_queue ::= setf amdgpu_drm_queue_seq (fun _ => u64 (s + 1)) |>).
  assert (Hw1 : queue_wf w1).
  { destruct Hw0. split; unfold w1, setf in *; cbn [w_queue w_next] in *; try done.
    - eapply Forall_impl; [exact qw_bound0 |]. cbn. lia.
    - apply (u64_range (s + 1)). }
  apply kept_queue; [| done | done | unfold setf; cbn; lia].
  apply (queue_wf_push_queue w1 _ Hw1). split_and!; [| unfold w1, w0, setf; cbn; lia | cbn; lia..].
  rewrite list_elem_of_fmap. intros (e & Ha & He). pose proof (qw_bound _ Hw) as Hb.
  rewrite Forall_forall in Hb. specialize (Hb e He). rewrite <- Ha in Hb. cbn in Hb. lia.
Qed.

Lemma abort_client_keeps client : keeps (amdgpu_drm_abort_client client).
Proof.
  apply keeps_modify. intros w Hw. apply kept_queue; [| done..].
  set (f := fun e => if q_client e =? client then e <| q_handler := None |> else e).
  assert (Hf : forall e, q_addr (f e) = q_addr e /\ q_seq (f e) = q_seq e)
    by (intros e; unfold f; by destruct (_ =? _)).
  assert (Haddr : q_addr <$> (f <$> amdgpu_drm_queue (w_queue w)) = q_addr <$> amdgpu_drm_queue (w_queue w))
    by (rewrite <- list_fmap_compose; apply list_fmap_ext; intros; apply Hf).
  destruct Hw. unfold entries in *. split; unfold setf; cbn [w_queue w_next entries]; try done;
    unfold entries; cbn.
  - by rewrite fmap_app, Haddr, <- fmap_app.
  - rewrite Forall_app in *. destruct qw_bound0. split; [| done]. apply Forall_fmap.
    eapply Forall_impl; [done |]. intros e. unfold compose. by destruct (Hf e) as [-> _].
  - rewrite Forall_app in *. destruct qw_seq0. split; [| done]. apply Forall_fmap.
    eapply Forall_impl; [done |]. intros e. unfold compose. by destruct (Hf e) as [_ ->].
Qed.

Lemma abort_entry_keeps seq : keeps (amdgpu_drm_abort_entry seq).
Proof.
  unfold amdgpu_drm_abort_entry. destruct (_ =? _); [apply keeps_ret |].
  apply keeps_bind; [apply keeps_gets |]. intros q.
  repeat (destruct (list_find_entry _ _); [apply abort_one_keeps |]). apply keeps_ret.
Qed.

Lemma abort_id_keeps id : keeps (amdgpu_drm_abort_id id).
Proof.
  apply keeps_bind; [apply keeps_gets |]. intros q.
  destruct (list_find_entry _ _); [apply abort_one_keeps | apply keeps_ret].
Qed.

Lemma read_events_keeps fuel : keeps (read_events fuel).
Proof.
  induction fuel as [|fuel IH]; [apply keeps_nofuel |]. cbn [read_events].
  apply keeps_bind; [apply keeps_call |]. intros [[ret errno] events].
  apply keeps_bind; [apply keeps_mfor; intros; apply queue_handler_keeps |]. intros _.
  destruct (_ && _); [done | apply keeps_ret].
Qed.

Lemma handle_flip_keeps go fuel : keeps go -> keeps (handle_flip_signalled go fuel).
Proof.
  intros Hgo. induction fuel as [|fuel IH]; [apply keeps_nofuel |]. cbn [handle_flip_signalled].
  apply keeps_bind; [done |]. intros b. apply keeps_bind; [apply keeps_gets |]. intros q.
  destruct b; [| apply keeps_ret]. destruct (amdgpu_drm_flip_signalled q); [apply keeps_ret |].
  apply keeps_bind; [apply handle_one_keeps | done].
Qed.

Lemma handle_event_keeps fuel : keeps (amdgpu_drm_handle_event fuel).
Proof.
  apply keeps_bind; [apply read_events_keeps |]. intros r.
  apply keeps_bind; [apply handle_flip_keeps, keeps_ret |]. intros _.
  apply keeps_bind; [apply handle_vblank_keeps | intros; apply keeps_ret].
Qed.

Lemma has_flip_pending_keeps crtc : keeps (has_flip_pending crtc).
Proof. apply keeps_bind; [apply keeps_load | intros; apply keeps_ret]. Qed.

Lemma wait_flip_loop_keeps crtc fuel : keeps (wait_flip_loop crtc fuel).
Proof.
  induction fuel as [|fuel IH]; [apply keeps_nofuel |]. cbn [wait_flip_loop].
  apply keeps_bind; [apply has_flip_pending_keeps |]. intros b. destruct (negb b); [apply keeps_ret |].
  apply keeps_bind; [apply handle_event_keeps |]. intros r. destruct (0 <=? r); [done | apply keeps_ret].
Qed.

(** Waiting for a flip raises the level by one, whatever happens meanwhile. *)
Lemma wait_pending_flip_shifts fuel crtc w :
  queue_wf w -> pwp (amdgpu_drm_wait_pending_flip fuel crtc) (fun _ => shifted crtc 1 w) w.
Proof.
  intros Hw. apply pwp_bind, pwp_bind, pwp_load. intros c Hc. apply pwp_ret.
  assert (Hn : nest_of w crtc = Some (wait_flip_nesting_level (driver_private c)))
    by (unfold nest_of; by rewrite Hc).
  pose proof (qw_nesting _ Hw _ _ Hn).
  apply pwp_bind, pwp_update. intros c' Hc'. rewrite Hc in Hc'. injection Hc' as <-.
  set (w1 := setf w_crtcs _ w).
  assert (Hs : shifted crtc 1 w w1)
    by (apply set_nesting_shifted; [done | done | done | lia | apply Forall_forall; intros; lia]).
  eapply pwp_mono; [apply (keeps_bind _ _ (handle_flip_keeps _ fuel (has_flip_pending_keeps crtc))
    (fun _ => wait_flip_loop_keeps crtc fuel)); exact (shifted_wf _ _ _ _ Hs) |].
  intros [] w2 H2. exact (shifted_kept _ _ _ _ _ Hs H2).
Qed.

Lemma pwp_keeps_bind {A B} (m : D A) (k : A -> D B) (Q : B -> world -> Prop) w :
  keeps m -> queue_wf w -> (forall a w1, kept w w1 -> pwp (k a) Q w1) -> pwp (mbind k m) Q w.
Proof.
  intros Hm Hw Hk. apply pwp_bind. eapply pwp_mono; [by apply Hm |]. intros a w1. apply Hk.
Qed.

(** A wait that is ended is balanced. *)
Lemma keeps_wait {B} fuel crtc (k : unit -> D B) :
  (forall u, ends crtc (k u)) -> keeps (mbind k (amdgpu_drm_wait_pending_flip fuel crtc)).
Proof.
  intros Hk w Hw. apply pwp_bind. eapply pwp_mono; [by apply wait_pending_flip_shifts |].
  intros u w1 H1. eapply pwp_mono; [apply Hk, H1 |].
  intros b w2 H2. exact (shifted_back _ _ _ _ Hw H1 H2).
Qed.

Lemma close_loop_keeps fuel scrn pos : keeps (close_loop fuel scrn pos).
Proof.
  revert pos. induction fuel as [|fuel IH]; intros pos; [apply keeps_nofuel |]. cbn [close_loop].
  destruct pos as [a|]; [| apply keeps_ret]. apply keeps_bind; [apply keeps_gets |]. intros q.
  destruct (list_find_entry _ _); [| apply keeps_raise]. apply keeps_bind; [apply keeps_load |]. intros c.
  apply keeps_bind; [apply keeps_mwhen, abort_one_keeps | done].
Qed.

Lemma queue_close_keeps fuel scrn : keeps (amdgpu_drm_queue_close fuel scrn).
Proof.
  apply keeps_bind; [apply keeps_gets |]. intros q. apply keeps_bind; [apply close_loop_keeps |].
  intros _. apply keeps_modify. intros w Hw. apply kept_queue; [by destruct Hw | done..].
Qed.

(** The operations the rest of the driver calls. *)
Inductive queue_op : Type :=
| OpAlloc (crtc : loc) (client id : Z) (data : cookie) (h : handler_proc) (a : abort_proc) (flip : bool)
| OpHandleEvent (fuel : nat)
| OpWaitPendingFlip (fuel : nat) (crtc : loc)
| OpHandleDeferred (fuel : nat) (crtc : loc)
| OpAbortClient (client : Z)
| OpAbortEntry (seq : Z)
| OpAbortId (id : Z)
| OpClose (fuel : nat) (scrn : loc).

Definition run_op (o : queue_op) : D unit :=
  match o with
  | OpAlloc c cl id d h a fl => _ ← amdgpu_drm_queue_alloc c cl id d h a fl; mret tt
  | OpHandleEvent fuel => _ ← amdgpu_drm_handle_event fuel; mret tt
  | OpWaitPendingFlip fuel c => amdgpu_drm_wait_pending_flip fuel c
  | OpHandleDeferred fuel c => amdgpu_drm_queue_handle_deferred fuel c
  | OpAbortClient c => amdgpu_drm_abort_client c
  | OpAbortEntry s => amdgpu_drm_abort_entry s
  | OpAbortId i => amdgpu_drm_abort_id i
  | OpClose fuel s => amdgpu_drm_queue_close fuel s
  end.

Lemma keeps_wf {A} (m : D A) w : keeps m -> queue_wf w -> pwp m (fun _ => queue_wf) w.
Proof. intros Hm Hw. eapply pwp_mono; [by apply Hm |]. by intros a w' [? _]. Qed.

Lemma run_op_wf o w : queue_wf w -> pwp (run_op o) (fun _ => queue_wf) w.
Proof.
  intros Hw. destruct o; cbn [run_op].
  - apply keeps_wf; [| done]. apply keeps_bind; [apply alloc_keeps | intros; apply keeps_ret].
  - apply keeps_wf; [| done]. apply keeps_bind; [apply handle_event_keeps | intros; apply keeps_ret].
  - eapply pwp_mono; [by apply wait_pending_flip_shifts |]. by intros [] w' [? _].
  - apply keeps_wf; [apply handle_deferred_keeps | done].
  - apply keeps_wf; [apply abort_client_keeps | done].
  - apply keeps_wf; [apply abort_entry_keeps | done].
  - apply keeps_wf; [apply abort_id_keeps | done].
  - apply keeps_wf; [apply queue_close_keeps | done].
Qed.
End Safe.

Ltac ends_auto :=
  repeat lazymatch goal with
         | |- ends _ (mbind _ _) => apply ends_bind; [solve [keeps_auto] | intros]
         end.

#[export] Hint Resolve alloc_keeps abort_client_keeps abort_entry_keeps abort_id_keeps handle_event_keeps
  handle_vblank_keeps queue_handler_keeps handle_deferred_keeps : keeps.

(** ** Reachable states *)

(** The states the queue can be in: after the first [amdgpu_drm_queue_init],
    after any of its operations, and after other code that leaves the queue and
    the nesting levels alone. *)
Section Reachable.
Context `{env : Env} `{safe : CallbacksSafe}.

Inductive reachable : world -> Prop :=
| reach_init w w' :
    amdgpu_drm_queue_refcnt (w_queue w) = 0 ->
    0 <= amdgpu_drm_queue_seq (w_queue w) < 2 ^ 64 ->
    (forall c n, nest_of w c = Some n -> 0 <= n) ->
    (forall s info, w_scrns w !! s = Some info -> NoDup (crtcs info)) ->
    amdgpu_drm_queue_init w = Ok tt w' -> reachable w'
| reach_init_again w w' :
    reachable w -> amdgpu_drm_queue_refcnt (w_queue w) <> 0 ->
    amdgpu_drm_queue_init w = Ok tt w' -> reachable w'
| reach_op o w w' : reachable w -> run_op o w = Ok tt w' -> reachable w'
| reach_other w w' :
    reachable w -> w_queue w' = w_queue w -> (w_next w <= w_next w')%positive ->
    (forall c, nest_of w' c = nest_of w c) -> (forall s, crtcs_of w' s = crtcs_of w s) -> reachable w'.

Lemma queue_init_wf w w' :
  amdgpu_drm_queue_refcnt (w_queue w) = 0 -> 0 <= amdgpu_drm_queue_seq (w_queue w) < 2 ^ 64 ->
  (forall c n, nest_of w c = Some n -> 0 <= n) ->
  (forall s info, w_scrns w !! s = Some info -> NoDup (crtcs info)) ->
  amdgpu_drm_queue_init w = Ok tt w' -> queue_wf w'.
Proof.
  intros Hr Hc Hn Hs. unfold amdgpu_drm_queue_init, mbind, M_bind, gets, modify. cbn. rewrite Hr. cbn.
  intros [= <-]. split; unfold setf, entries; cbn; try done; constructor.
Qed.

(** Whatever the order of requests, kernel events, waits, aborts and screen
    closures, the queue stays well-formed: no entry is in two lists or in one
    list twice, so none is completed twice; signalled entries keep their
    handler; and no event stays deferred once nobody waits for its CRTC. *)
Theorem queue_reachable_wf w : reachable w -> queue_wf w.
Proof.
  induction 1 as [w w' Hr Hc Hn Hs Hi | w w' _ IH Hr Hi | o w w' _ IH Hop | w w' _ IH Hq Hx Hn Hs].
  - by apply (queue_init_wf w).
  - revert Hi. unfold amdgpu_drm_queue_init, mbind, M_bind, gets, modify. cbn.
    apply Z.eqb_neq in Hr. rewrite Hr. cbn. intros [= <-]. by destruct IH.
  - pose proof (run_op_wf o w IH) as Hwf. unfold pwp in Hwf. by rewrite Hop in Hwf.
  - by apply (queue_wf_frame w).
Qed.
End Reachable.

(** ** Sequence numbers *)

(** All numbers in use lie below the counter. *)
Definition seqs_below (q : drm_queue) : Prop :=
  Forall (fun e => q_seq e < amdgpu_drm_queue_seq q) (entries q).

(** [amdgpu_drm_queue_alloc] returns the error value only if memory is
    exhausted; otherwise the new entry waits at the end of the queue under a
    number that, until the 64-bit counter has wrapped around, no other entry
    has. *)
Theorem queue_alloc_fresh `{env : Env} crtc client id data h a flip w :
  queue_wf w -> seqs_below (w_queue w) -> amdgpu_drm_queue_seq (w_queue w) < 2 ^ 64 - 2 ->
  wp (amdgpu_drm_queue_alloc crtc client id data h a flip)
     (fun s w' =>
        (s = AMDGPU_DRM_QUEUE_ERROR /\ w_queue w' = w_queue w /\
         reply (w_trace w) (Calloc "amdgpu_drm_queue_entry") = false) \/
        (s <> AMDGPU_DRM_QUEUE_ERROR /\ (s ∉ (q_seq <$> entries (w_queue w))) /\
         seqs_below (w_queue w') /\
         exists e, amdgpu_drm_queue (w_queue w') = amdgpu_drm_queue (w_queue w) ++ [e] /\
           q_seq e = s /\ q_crtc e = crtc /\ q_data e = data /\ q_handler e = Some h /\
           q_abort e = a /\ q_is_flip e = flip)) w.
Proof.
  intros Hw Hb Hc. apply wp_bind. wp_ext. cbn beta.
  destruct (reply (w_trace w) (Calloc "amdgpu_drm_queue_entry")) eqn:Hr; cbn [negb];
    [| apply wp_ret; by left].
  apply wp_bind, wp_gets, wp_bind, wp_modify, wp_bind, wp_gets, wp_bind, wp_modify, wp_ret. right.
  pose proof (qw_counter _ Hw) as Hcnt. unfold setf. cbn [w_queue w_next].
  unfold AMDGPU_DRM_QUEUE_ERROR.
  set (s := if amdgpu_drm_queue_seq (w_queue w) =? 0 then _ else _).
  assert (Hs : amdgpu_drm_queue_seq (w_queue w) <= s < 2 ^ 64 - 1 /\ s <> 0).
  { unfold s. destruct (Z.eqb_spec (amdgpu_drm_queue_seq (w_queue w)) 0) as [->|?]; [| lia].
    unfold u64. rewrite Z.mod_small; lia. }
  unfold seqs_below in Hb. rewrite Forall_forall in Hb.
  split_and!; [lia | | | by eexists].
  - rewrite list_elem_of_fmap. intros (e & -> & He). specialize (Hb e He). lia.
  - pose proof (proj1 (entries_push (Entry (w_next w) 0 id s data client crtc (Some h) a flip 0)
      (setf amdgpu_drm_queue_seq (fun _ => u64 (s + 1)) (w_queue w)))) as Hp.
    unfold seqs_below. eapply Forall_perm; [symmetry; exact Hp |].
    cbn. rewrite u64_id by (unfold in_u64; lia). constructor; [cbn; lia |].
    apply Forall_forall. intros e He. specialize (Hb e He). lia.
Qed.

(** ** The queue of the sample machine *)

(** Callbacks that only note that they were called. *)
#[export] Instance noting_callbacks : Callbacks := {|
  call_handler h c f u d := @call Sample.env (Notify "handler" [Zpos c; f; u]);
  call_abort a c d := @call Sample.env (Notify "abort" [match c with Some l => Zpos l | None => 0 end])
|}.

#[export] Instance noting_safe : CallbacksSafe.
Proof.
  split; intros; apply (@keeps_call Sample.env).
Qed.

Lemma sample_nesting c n : nest_of Sample.w c = Some n -> 0 <= n.
Proof.
  unfold nest_of. change (w_crtcs Sample.w) with ({[3%positive := Sample.crtc]} : gmap loc xf86Crtc).
  destruct (decide (c = 3%positive)) as [->|Hne].
  - rewrite lookup_singleton_eq. cbn. by intros [= <-].
  - by rewrite lookup_singleton_ne by congruence.
Qed.

Lemma sample_config s info : w_scrns Sample.w !! s = Some info -> NoDup (crtcs info).
Proof.
  change (w_scrns Sample.w) with ({[1%positive := Sample.scrn]} : gmap loc scrn_info).
  intros [_ <-]%lookup_singleton_Some. cbn. apply NoDup_singleton.
Qed.

Lemma sample_queue_wf : queue_wf Sample.w.
Proof. split; cbn; try done; try constructor; [apply sample_nesting | apply sample_config]. Qed.

(** The server starts the queue, then asks for a vblank event on CRTC 3. *)
Lemma queue_reachable_wf_witness :
  let w0 := Sample.w <| w_queue ::= setf amdgpu_drm_queue_refcnt (fun _ => 0) |> in
  let op := OpAlloc 3 7 1 NoData amdgpu_present_vblank_handler_proc amdgpu_present_vblank_abort_proc false in
  let w1 := after amdgpu_drm_queue_init w0 in
  let w2 := after (@run_op Sample.env _ op) w1 in
  queue_wf w2 /\ length (amdgpu_drm_queue (w_queue w2)) = 1%nat.
Proof.
  intros w0 op w1 w2. split; [| reflexivity].
  apply (@queue_reachable_wf Sample.env noting_callbacks noting_safe).
  apply (reach_op op w1 w2); [| reflexivity].
  apply (reach_init w0); [reflexivity | cbn; lia | exact sample_nesting | exact sample_config | reflexivity].
Defined.

Lemma queue_alloc_fresh_witness :
  queue_wf Sample.w /\
  @wp _ _ (@amdgpu_drm_queue_alloc Sample.env 3 7 1 NoData amdgpu_present_vblank_handler_proc
             amdgpu_present_vblank_abort_proc false)
     (fun s w' => s <> AMDGPU_DRM_QUEUE_ERROR /\ s ∉ (q_seq <$> entries (w_queue Sample.w))) Sample.w.
Proof.
  split; [exact sample_queue_wf |].
  eapply wp_mono; [apply (@queue_alloc_fresh Sample.env); [exact sample_queue_wf | constructor | cbn; lia] |].
  intros s w' [(-> & _ & H) | (Hs & Hn & _ & e & _ & He & _)]; [discriminate H | done].
Defined.
