(* ===== verification/QueueSpec.v ===== *)
(** * What the DRM event queue promises

    The lists of amdgpu_drm_queue.c implement a simple contract: every request is
    answered by exactly one callback, with the frame and the time the kernel
    reported, and a vblank event is not handed out while somebody waits for a page
    flip of its CRTC.  [aqueue] is that contract as a transition system; the queue
    refines it whatever the callbacks do with the queue, as long as they respect it
    themselves.  With callbacks that take no events off the lists and do not wait for
    flips themselves ([Calm]; they may ask for more events), the loops that hand out
    events terminate, in the order in which the events were signalled. *)
From stdpp Require Import strings.
From S2P Require Import Prelude Modes Region World DriState Queue.

(** ** The contract *)

(** A request whose event has not come, or one whose frame and time are known. *)
Inductive areq : Type :=
| Pending (e : queue_entry)
| Due (e : queue_entry).

Definition req_entry (r : areq) : queue_entry := match r with Pending e | Due e => e end.

(** The requests by their addresses, and how many wait for a flip of each CRTC. *)
Record aqueue := AQueue {
  requests : gmap loc areq;
  levels : gmap loc Z
}.

Inductive answer_call : Type :=
| Handled (h : handler_proc) (crtc : loc) (frame usec : Z) (data : cookie)
| Aborted (a : abort_proc) (crtc : option loc) (data : cookie).

Definition forget (client : Z) (r : areq) : areq :=
  match r with
  | Pending e => Pending (if q_client e =? client then e <| q_handler := None |> else e)
  | Due e => Due e
  end.

Inductive astep : aqueue -> list answer_call -> aqueue -> Prop :=
| st_request m lv e :
    m !! q_addr e = None -> astep (AQueue m lv) [] (AQueue (<[q_addr e := Pending e]> m) lv)
| st_signal m lv e frame usec :
    m !! q_addr e = Some (Pending e) -> is_Some (q_handler e) ->
    astep (AQueue m lv) [] (AQueue (<[q_addr e := Due (e <| q_usec := usec |> <| q_frame := frame |>)]> m) lv)
| st_deliver m lv e h :
    m !! q_addr e = Some (Due e) -> q_handler e = Some h ->
    q_is_flip e = true \/ lv !! q_crtc e = Some 0 ->
    astep (AQueue m lv) [Handled h (q_crtc e) (q_frame e) (q_usec e) (q_data e)] (AQueue (delete (q_addr e) m) lv)
| st_abort m lv r :
    m !! q_addr (req_entry r) = Some r ->
    astep (AQueue m lv) [Aborted (q_abort (req_entry r)) (Some (q_crtc (req_entry r))) (q_data (req_entry r))]
      (AQueue (delete (q_addr (req_entry r)) m) lv)
| st_forget m lv client : astep (AQueue m lv) [] (AQueue (forget client <$> m) lv)
| st_hold m lv crtc n : lv !! crtc = Some n -> astep (AQueue m lv) [] (AQueue m (<[crtc := n + 1]> lv))
| st_release m lv crtc n : lv !! crtc = Some n -> 0 < n -> astep (AQueue m lv) [] (AQueue m (<[crtc := n - 1]> lv)).

(** Any number of steps with the callbacks they make, in order. *)
Inductive asteps : aqueue -> list answer_call -> aqueue -> Prop :=
| as_refl s : asteps s [] s
| as_step s1 l1 s2 l2 s3 : astep s1 l1 s2 -> asteps s2 l2 s3 -> asteps s1 (l1 ++ l2) s3.

Lemma asteps_one s l s' : astep s l s' -> asteps s l s'.
Proof. intros H. rewrite <- (app_nil_r l). eapply as_step; [exact H | apply as_refl]. Qed.
Lemma asteps_trans s1 l1 s2 l2 s3 : asteps s1 l1 s2 -> asteps s2 l2 s3 -> asteps s1 (l1 ++ l2) s3.
Proof.
  induction 1 as [|s1 l s2 l' s2' Hs _ IH]; [done |]. intros H3. rewrite <- app_assoc. eapply as_step; eauto.
Qed.

(** ** The lists as an abstract queue *)

Definition due (q : drm_queue) : list queue_entry :=
  amdgpu_drm_flip_signalled q ++ amdgpu_drm_vblank_signalled q ++ amdgpu_drm_vblank_deferred q.

Definition abs_requests (q : drm_queue) : gmap loc areq :=
  list_to_map (((fun e => (q_addr e, Pending e)) <$> amdgpu_drm_queue q) ++
               ((fun e => (q_addr e, Due e)) <$> due q)).

Definition abs_levels (w : world) : gmap loc Z := (fun c => wait_flip_nesting_level (driver_private c)) <$> w_crtcs w.

Definition abs (w : world) : aqueue := AQueue (abs_requests (w_queue w)) (abs_levels w).

Lemma entries_due q : entries q = amdgpu_drm_queue q ++ due q.
Proof. done. Qed.

Definition in_list (q : drm_queue) (a : loc) (r : areq) : Prop :=
  q_addr (req_entry r) = a /\
  match r with Pending e => e ∈ amdgpu_drm_queue q | Due e => e ∈ due q end.

Lemma abs_lookup q a r : NoDup (q_addr <$> entries q) -> abs_requests q !! a = Some r <-> in_list q a r.
Proof.
  intros Hnd. unfold abs_requests. rewrite <- elem_of_list_to_map; cycle 1.
  { rewrite fmap_app, <- !list_fmap_compose. rewrite entries_due, fmap_app in Hnd. exact Hnd. }
  rewrite elem_of_app, !list_elem_of_fmap. unfold in_list. split.
  - intros [(e & [= -> ->] & He)|(e & [= -> ->] & He)]; done.
  - destruct r as [e|e]; intros [<- He]; [left | right]; by exists e.
Qed.

Lemma map_some_ext (m m' : gmap loc areq) : (forall a r, m !! a = Some r <-> m' !! a = Some r) -> m = m'.
Proof. intros H. apply map_eq. intros a. apply option_eq. intros r. apply H. Qed.

Lemma NoDup_del a q : NoDup (q_addr <$> entries q) -> NoDup (q_addr <$> entries (queue_del a q)).
Proof. intros Hnd. rewrite entries_del. eapply sublist_NoDup; [exact Hnd |]. apply fmap_sublist, sublist_filter. Qed.

Lemma due_del a q : due (queue_del a q) = list_del a (due q).
Proof. unfold due, queue_del, list_del. cbn. by rewrite !filter_app. Qed.

Lemma elem_of_list_del a e l : e ∈ list_del a l <-> q_addr e <> a /\ e ∈ l.
Proof. unfold list_del. by rewrite list_elem_of_filter. Qed.

Lemma abs_del a q : NoDup (q_addr <$> entries q) -> abs_requests (queue_del a q) = delete a (abs_requests q).
Proof.
  intros Hnd. apply map_some_ext. intros k r. rewrite lookup_delete_Some, !abs_lookup by (auto using NoDup_del).
  unfold in_list. destruct r as [e|e]; cbn [req_entry]; rewrite ?due_del.
  - change (amdgpu_drm_queue (queue_del a q)) with (list_del a (amdgpu_drm_queue q)). rewrite elem_of_list_del. naive_solver.
  - rewrite elem_of_list_del. naive_solver.
Qed.

Lemma abs_push_perm e q :
  due (push_flip e q) ≡ₚ e :: due q /\ due (push_vblank e q) ≡ₚ e :: due q /\ due (push_deferred e q) ≡ₚ e :: due q.
Proof. unfold due, push_flip, push_vblank, push_deferred, setf. cbn. split_and!; solve_Permutation. Qed.

(** Appending an entry that is in no list. *)
Lemma abs_push_due q q' e :
  NoDup (q_addr <$> entries q) -> q_addr e ∉ (q_addr <$> entries q) ->
  amdgpu_drm_queue q' = amdgpu_drm_queue q -> due q' ≡ₚ e :: due q ->
  abs_requests q' = <[q_addr e := Due e]> (abs_requests q).
Proof.
  intros Hnd Hni Hq Hd.
  assert (Hnd' : NoDup (q_addr <$> entries q')).
  { assert (Hp : entries q' ≡ₚ e :: entries q) by (rewrite !entries_due, Hq, Hd; apply Permutation_sym, Permutation_middle).
    rewrite Hp. cbn. by apply NoDup_cons. }
  apply map_some_ext. intros k r. rewrite lookup_insert_Some, !abs_lookup by done. unfold in_list.
  assert (Hne : forall x, x ∈ entries q -> q_addr e <> q_addr x).
  { intros x Hx He. apply Hni. rewrite He. by apply list_elem_of_fmap_2. }
  destruct r as [x|x]; cbn [req_entry]; rewrite ?Hq, ?Hd, ?elem_of_cons.
  - split; [| by intros [[_ ?]|(_ & <- & ?)]]. intros [<- Hx]. right. split; [| done]. apply Hne.
    rewrite entries_due. set_solver.
  - split; [| intros [[<- [= ->]]|(_ & <- & ?)]; auto]. intros [<- [->|Hx]]; [by left |]. right. split; [| done]. apply Hne.
    rewrite entries_due. set_solver.
Qed.

Lemma abs_push_pending q q' e :
  NoDup (q_addr <$> entries q) -> q_addr e ∉ (q_addr <$> entries q) ->
  amdgpu_drm_queue q' = amdgpu_drm_queue q ++ [e] -> due q' = due q ->
  abs_requests q' = <[q_addr e := Pending e]> (abs_requests q).
Proof.
  intros Hnd Hni Hq Hd.
  assert (Hnd' : NoDup (q_addr <$> entries q')).
  { rewrite entries_due, Hq, Hd, <- Permutation_cons_append. cbn. apply NoDup_cons. done. }
  apply map_some_ext. intros k r. rewrite lookup_insert_Some, !abs_lookup by done. unfold in_list.
  assert (Hne : forall x, x ∈ entries q -> q_addr e <> q_addr x).
  { intros x Hx He. apply Hni. rewrite He. by apply list_elem_of_fmap_2. }
  destruct r as [x|x]; cbn [req_entry]; rewrite ?Hq, ?Hd, ?elem_of_app, ?list_elem_of_singleton.
  - split; [| intros [[<- [= ->]]|(_ & <- & ?)]; auto]. intros [<- [Hx| ->]]; [| by left]. right. split; [| done]. apply Hne.
    rewrite entries_due. set_solver.
  - split; [| by intros [[_ ?]|(_ & <- & ?)]]. intros [<- Hx]. right. split; [| done]. apply Hne.
    rewrite entries_due. set_solver.
Qed.

(** Moving entries between the lists of signalled events. *)
Lemma abs_perm q q' :
  NoDup (q_addr <$> entries q) -> amdgpu_drm_queue q' = amdgpu_drm_queue q -> due q' ≡ₚ due q ->
  abs_requests q' = abs_requests q.
Proof.
  intros Hnd Hq Hd.
  assert (Hnd' : NoDup (q_addr <$> entries q')) by (by rewrite entries_due, Hq, Hd, <- entries_due).
  apply map_some_ext. intros k r. rewrite !abs_lookup by done. unfold in_list. by destruct r; rewrite ?Hq, ?Hd.
Qed.

Lemma abs_forget client q :
  NoDup (q_addr <$> entries q) ->
  abs_requests (q <| amdgpu_drm_queue ::=
    fmap (fun e => if q_client e =? client then e <| q_handler := None |> else e) |>) = forget client <$> abs_requests q.
Proof.
  intros Hnd. set (f := fun e => if q_client e =? client then e <| q_handler := None |> else e).
  assert (Hf : forall e, q_addr (f e) = q_addr e) by (intros e; unfold f; by destruct (_ =? _)).
  set (q' := setf amdgpu_drm_queue _ q).
  assert (Hnd' : NoDup (q_addr <$> entries q')).
  { rewrite entries_due. change (due q') with (due q). change (amdgpu_drm_queue q') with (f <$> amdgpu_drm_queue q).
    rewrite fmap_app, <- list_fmap_compose.
    rewrite (list_fmap_ext (q_addr ∘ f) q_addr) by (intros; apply Hf). by rewrite <- fmap_app. }
  apply map_some_ext. intros k r. rewrite lookup_fmap, fmap_Some, abs_lookup by done.
  setoid_rewrite abs_lookup; [| done]. unfold in_list. change (due q') with (due q).
  change (amdgpu_drm_queue q') with (f <$> amdgpu_drm_queue q). split.
  - destruct r as [e|e]; cbn [req_entry].
    + intros [<- (x & -> & Hx)%list_elem_of_fmap]. exists (Pending x). rewrite Hf. done.
    + intros [<- He]. by exists (Due e).
  - intros ([x|x] & [<- Hx] & ->); cbn [req_entry forget]; [| done]. fold (f x). split; [apply Hf |].
    by apply list_elem_of_fmap_2.
Qed.

Lemma abs_in q e :
  NoDup (q_addr <$> entries q) -> e ∈ entries q ->
  exists r, req_entry r = e /\ abs_requests q !! q_addr e = Some r.
Proof.
  intros Hnd. rewrite entries_due, elem_of_app. intros [He|He].
  - exists (Pending e). split; [done |]. by apply abs_lookup.
  - exists (Due e). split; [done |]. by apply abs_lookup.
Qed.

(** ** The queue refines the contract *)

(** How the callbacks that were made can be observed, and what is asked of them:
    a callback may use the queue, within the contract. *)
Class Observed `{Env} `{Callbacks} := {
  log : world -> list answer_call;
  log_frame : forall w w', w_trace w' = w_trace w -> log w' = log w;
  log_calloc : forall s w, log (w <| w_trace ::= cons (Calloc s) |>) = log w;
  log_drm_event : forall w, log (w <| w_trace ::= cons DrmHandleEvent |>) = log w;
  handler_observed : forall h c f u d w, queue_wf w ->
    pwp (call_handler h c f u d)
      (fun _ w' => exists l, asteps (abs w) l (abs w') /\ log w' = log w ++ Handled h c f u d :: l) w;
  abort_observed : forall a c d w, queue_wf w ->
    pwp (call_abort a c d)
      (fun _ w' => exists l, asteps (abs w) l (abs w') /\ log w' = log w ++ Aborted a c d :: l) w
}.

Section Refine.
Context `{env : Env} `{safe : CallbacksSafe} `{obs : !Observed}.

(** The abstract queue makes steps with the callbacks that were made. *)
Definition refines (w w' : world) : Prop :=
  queue_wf w' /\ exists l, asteps (abs w) l (abs w') /\ log w' = log w ++ l.

Lemma refines_refl w : queue_wf w -> refines w w.
Proof. intros Hw. split; [done |]. exists []. split; [apply as_refl | by rewrite app_nil_r]. Qed.
Lemma refines_trans w1 w2 w3 : refines w1 w2 -> refines w2 w3 -> refines w1 w3.
Proof.
  intros (_ & l1 & H1 & L1) (Hw & l2 & H2 & L2). split; [done |]. exists (l1 ++ l2).
  split; [by eapply asteps_trans | by rewrite L2, L1, app_assoc].
Qed.
(** A silent step. *)
Lemma refines_step w w' : queue_wf w' -> astep (abs w) [] (abs w') -> log w' = log w -> refines w w'.
Proof. intros Hw Hs Hl. split; [done |]. exists []. split; [by apply asteps_one | by rewrite Hl, app_nil_r]. Qed.
Lemma refines_same w w' : queue_wf w' -> abs w' = abs w -> log w' = log w -> refines w w'.
Proof. intros Hw Hs Hl. split; [done |]. exists []. rewrite Hs, Hl, app_nil_r. split; [apply as_refl | done]. Qed.

Definition sims {A} (m : D A) : Prop := forall w, queue_wf w -> pwp m (fun _ => refines w) w.

Lemma sims_ret {A} (a : A) : sims (mret a).
Proof. intros w Hw. by apply pwp_ret, refines_refl. Qed.
Lemma sims_gets {A} (f : world -> A) : sims (gets f).
Proof. intros w Hw. by apply pwp_gets, refines_refl. Qed.
Lemma sims_load {A} (heap : world -> gmap loc A) l : sims (load heap l).
Proof. intros w Hw. apply pwp_load. intros a _. by apply refines_refl. Qed.
Lemma sims_bind {A B} (m : D A) (k : A -> D B) : sims m -> (forall a, sims (k a)) -> sims (mbind k m).
Proof.
  intros Hm Hk w Hw. apply pwp_bind. eapply pwp_mono; [by apply Hm |]. intros a w1 H1.
  eapply pwp_mono; [apply Hk, H1 |]. intros b w2 H2. exact (refines_trans _ _ _ H1 H2).
Qed.
Lemma sims_mfor {A} (l : list A) f : (forall a, sims (f a)) -> sims (mfor l f).
Proof. intros Hf. induction l as [|a l IH]; [apply sims_ret | by apply sims_bind]. Qed.
Lemma sims_then {A B} (m : D A) (k : A -> D B) w w0 :
  refines w0 w -> pwp m (fun _ => refines w) w -> (forall a, sims (k a)) -> pwp (mbind k m) (fun _ => refines w0) w.
Proof.
  intros H0 Hm Hk. apply pwp_bind. eapply pwp_mono; [exact Hm |]. intros a w1 H1.
  eapply pwp_mono; [apply Hk, H1 |]. intros b w2 H2.
  exact (refines_trans _ _ _ H0 (refines_trans _ _ _ H1 H2)).
Qed.

(** Taking off an entry that is answered: the abstract step makes the callback. *)
Lemma answered w e c (m : D unit) :
  queue_wf w -> keeps m ->
  astep (abs w) [c] (abs (w <| w_queue ::= queue_del (q_addr e) |>)) ->
  (forall w1, queue_wf w1 -> pwp m (fun _ w' => exists l, asteps (abs w1) l (abs w') /\ log w' = log w1 ++ c :: l) w1) ->
  pwp (_ ← modify (setf w_queue (queue_del (q_addr e))); m) (fun _ => refines w) w.
Proof.
  intros Hw Hk Hs Hm. apply pwp_bind, pwp_modify. set (w1 := setf w_queue _ w).
  assert (Hw1 : queue_wf w1) by (by apply queue_wf_del).
  eapply pwp_mono; [apply pwp_and; [by apply Hk | by apply Hm] |]. intros [] w' [(Hw' & _) (l & Hl & Hlog)].
  split; [done |]. exists (c :: l). split; [exact (as_step _ [c] _ _ _ Hs Hl) |].
  rewrite Hlog. f_equal. by apply log_frame.
Qed.

Lemma abs_del_world w a : queue_wf w ->
  abs (w <| w_queue ::= queue_del a |>) = AQueue (delete a (abs_requests (w_queue w))) (abs_levels w).
Proof. intros Hw. unfold abs. f_equal. apply abs_del, Hw. Qed.

Lemma abort_one_refines e w :
  queue_wf w -> e ∈ entries (w_queue w) -> pwp (amdgpu_drm_abort_one e) (fun _ => refines w) w.
Proof.
  intros Hw He. destruct (abs_in _ _ (qw_addr _ Hw) He) as (r & <- & Hr). eapply answered; [done | apply abort_safe | |].
  - rewrite abs_del_world by done. by apply st_abort.
  - intros w1 Hw1. by apply abort_observed.
Qed.

Lemma handle_one_refines e w :
  queue_wf w -> e ∈ due (w_queue w) -> is_Some (q_handler e) ->
  q_is_flip e = true \/ abs_levels w !! q_crtc e = Some 0 ->
  pwp (amdgpu_drm_queue_handle_one e) (fun _ => refines w) w.
Proof.
  intros Hw He [h Hh] Hg. unfold amdgpu_drm_queue_handle_one. rewrite Hh.
  eapply answered; [done | apply handler_safe | | intros w1 Hw1; by apply handler_observed].
  rewrite abs_del_world by done. apply st_deliver; [| done | done]. by apply (abs_lookup _ _ (Due e)); [apply Hw |].
Qed.

(** [keeps] gives the invariant; what is left is the abstract step. *)
Lemma queue_handler_sims frame sec usec ptr : sims (amdgpu_drm_queue_handler frame sec usec ptr).
Proof.
  intros w Hw. apply pwp_bind, pwp_gets.
  destruct (list_find_entry _ _) as [e|] eqn:He; [| by apply pwp_ret, refines_refl].
  apply find_entry_in in He as [He _].
  assert (Hin : e ∈ entries (w_queue w)) by (apply in_entries; by left).
  destruct (q_handler e) as [h|] eqn:Hh; [| by apply abort_one_refines].
  pose proof (qw_addr _ Hw) as Hnd. set (q := w_queue w) in *.
  set (e' := setf q_frame _ _). set (us := u64 (sec * 1000000 + usec)) in *.
  assert (Hok : signalled_ok (q_is_flip e) e') by (split; [done | cbn; rewrite Hh; eauto]).
  assert (Hni : q_addr e' ∉ (q_addr <$> entries (queue_del (q_addr e) q)))
    by (rewrite entries_del; apply list_del_not_in).
  assert (Hgoal : forall push, queue_wf (w <| w_queue ::= queue_del (q_addr e) |> <| w_queue ::= push |>) ->
      amdgpu_drm_queue (push (queue_del (q_addr e) q)) = amdgpu_drm_queue (queue_del (q_addr e) q) ->
      due (push (queue_del (q_addr e) q)) ≡ₚ e' :: due (queue_del (q_addr e) q) ->
      refines w (w <| w_queue ::= queue_del (q_addr e) |> <| w_queue ::= push |>)).
  { intros push Hw' Hq Hd. apply refines_step; [done | | by apply log_frame].
    change (astep (AQueue (abs_requests q) (abs_levels w)) []
      (AQueue (abs_requests (push (queue_del (q_addr e) q))) (abs_levels w))).
    rewrite (abs_push_due _ _ e' (NoDup_del _ _ Hnd) Hni Hq Hd), abs_del by done.
    change (q_addr e') with (q_addr e). rewrite insert_delete_eq.
    apply (st_signal _ _ e frame us); [| by rewrite Hh]. by apply (abs_lookup _ _ (Pending e)). }
  apply pwp_bind, pwp_modify. destruct (q_is_flip e) eqn:Hf; apply pwp_modify.
  - apply (Hgoal (push_flip e')); [| done | by apply (abs_push_perm e')].
    apply queue_wf_push_flip; [by apply queue_wf_del | by apply loose_del | done].
  - apply (Hgoal (push_vblank e')); [| done | by apply (abs_push_perm e')].
    apply queue_wf_push_vblank; [by apply queue_wf_del | by apply loose_del | done].
Qed.

(** A vblank event that cannot be handed out now changes lists; the contract does
    not see it. *)
Lemma defer_refines e l w :
  queue_wf w -> amdgpu_drm_vblank_signalled (w_queue w) = e :: l -> waiting w (q_crtc e) ->
  refines w (w <| w_queue ::= queue_del (q_addr e) |> <| w_queue ::= push_deferred e |>).
Proof.
  intros Hw Hl Hwt. pose proof (qw_addr _ Hw) as Hnd. set (q := w_queue w) in *.
  assert (Hd : e ∈ due q) by (unfold due; rewrite Hl; set_solver).
  assert (Hin : e ∈ entries q) by (rewrite entries_due; set_solver).
  apply refines_same; [| | by apply log_frame].
  - apply queue_wf_push_deferred; [by apply queue_wf_del | by apply loose_del | | done].
    pose proof (qw_vblank _ Hw) as Hv. fold q in Hv. rewrite Hl in Hv. by apply Forall_cons in Hv as [? _].
  - change (AQueue (abs_requests (push_deferred e (queue_del (q_addr e) q))) (abs_levels w) =
            AQueue (abs_requests q) (abs_levels w)). f_equal.
    rewrite (abs_push_due (queue_del (q_addr e) q) _ e); [| by apply NoDup_del | | done | apply abs_push_perm].
    + rewrite abs_del, insert_delete_eq by done. apply insert_id. by apply (abs_lookup _ _ (Due e)).
    + rewrite entries_del. apply list_del_not_in.
Qed.

Lemma handle_vblank_sims fuel : sims (amdgpu_drm_handle_vblank_signalled fuel).
Proof.
  induction fuel as [|fuel IH]; intros w Hw; [apply pwp_nofuel |].
  cbn [amdgpu_drm_handle_vblank_signalled]. apply pwp_bind, pwp_gets.
  destruct (amdgpu_drm_vblank_signalled (w_queue w)) as [|e l] eqn:Hl; [by apply pwp_ret, refines_refl |].
  apply pwp_bind, pwp_bind, pwp_load. intros c Hc. apply pwp_ret.
  apply (sims_then _ _ w w); [by apply refines_refl | | intros _; apply IH].
  assert (Hin : e ∈ due (w_queue w)) by (unfold due; rewrite Hl; set_solver).
  pose proof (qw_vblank _ Hw) as Hv. rewrite Hl in Hv. apply Forall_cons in Hv as [[_ Hh] _].
  assert (Hlv : abs_levels w !! q_crtc e = Some (wait_flip_nesting_level (driver_private c)))
    by (unfold abs_levels; by rewrite lookup_fmap, Hc).
  destruct (Z.eqb_spec (wait_flip_nesting_level (driver_private c)) 0) as [Hz|Hz].
  - apply handle_one_refines; [done | done | done |]. right. by rewrite Hlv, Hz.
  - apply pwp_bind, pwp_modify, pwp_modify. apply (defer_refines e l); [done | done |].
    assert (Hn : nest_of w (q_crtc e) = Some (wait_flip_nesting_level (driver_private c)))
      by (unfold nest_of; by rewrite Hc).
    eexists. split; [exact Hn |]. pose proof (qw_nesting _ Hw _ _ Hn). lia.
Qed.

Lemma handle_flip_sims go fuel : sims go -> sims (handle_flip_signalled go fuel).
Proof.
  intros Hgo. induction fuel as [|fuel IH]; [intros w Hw; apply pwp_nofuel |]. cbn [handle_flip_signalled].
  apply sims_bind; [done |]. intros b w Hw. apply pwp_bind, pwp_gets.
  destruct b; [| by apply pwp_ret, refines_refl].
  destruct (amdgpu_drm_flip_signalled (w_queue w)) as [|e l] eqn:Hl; [by apply pwp_ret, refines_refl |].
  apply (sims_then _ _ w w); [by apply refines_refl | | done].
  pose proof (qw_flip _ Hw) as Hv. rewrite Hl in Hv. apply Forall_cons in Hv as [[Hf Hh] _].
  apply handle_one_refines; [done | unfold due; rewrite Hl; set_solver | done | by left].
Qed.

Lemma read_events_sims fuel : sims (read_events fuel).
Proof.
  induction fuel as [|fuel IH]; [intros w Hw; apply pwp_nofuel |]. cbn [read_events].
  apply sims_bind.
  - intros w Hw. wp_ext. apply refines_same; [by apply (queue_wf_frame w) | done | apply log_drm_event].
  - intros [[ret errno] events]. apply sims_bind; [apply sims_mfor; intros; apply queue_handler_sims |].
    intros _. destruct (_ && _); [done | apply sims_ret].
Qed.

Lemma handle_event_sims fuel : sims (amdgpu_drm_handle_event fuel).
Proof.
  apply sims_bind; [apply read_events_sims |]. intros r. apply sims_bind; [apply handle_flip_sims, sims_ret |].
  intros _. apply sims_bind; [apply handle_vblank_sims | intros; apply sims_ret].
Qed.

Lemma has_flip_pending_sims crtc : sims (has_flip_pending crtc).
Proof. apply sims_bind; [apply sims_load | intros; apply sims_ret]. Qed.

Lemma wait_flip_loop_sims crtc fuel : sims (wait_flip_loop crtc fuel).
Proof.
  induction fuel as [|fuel IH]; [intros w Hw; apply pwp_nofuel |]. cbn [wait_flip_loop].
  apply sims_bind; [apply has_flip_pending_sims |]. intros b. destruct (negb b); [apply sims_ret |].
  apply sims_bind; [apply handle_event_sims |]. intros r. destruct (0 <=? r); [done | apply sims_ret].
Qed.

(** A change of one level. *)
Lemma set_level_refines w crtc c n n' :
  queue_wf w -> w_crtcs w !! crtc = Some c -> wait_flip_nesting_level (driver_private c) = n ->
  n' = n + 1 \/ (n' = n - 1 /\ 0 < n) -> 0 <= n' ->
  Forall (fun e => q_crtc e = crtc -> 0 < n') (amdgpu_drm_vblank_deferred (w_queue w)) ->
  refines w (w <| w_crtcs ::= <[crtc := setf driver_private (setf wait_flip_nesting_level (fun _ => n')) c]> |>).
Proof.
  intros Hw Hc Hn Hn' Hp Hd. apply refines_step; [by apply set_nesting_wf | | by apply log_frame].
  set (w' := setf w_crtcs _ w).
  assert (Hlv : abs_levels w !! crtc = Some n) by (unfold abs_levels; by rewrite lookup_fmap, Hc, <- Hn).
  assert (Hlv' : abs_levels w' = <[crtc := n']> (abs_levels w)) by (unfold abs_levels; cbn; by rewrite fmap_insert).
  change (astep (AQueue (abs_requests (w_queue w)) (abs_levels w)) []
    (AQueue (abs_requests (w_queue w)) (abs_levels w'))). rewrite Hlv'.
  destruct Hn' as [->|[-> ?]]; [by apply st_hold | by apply st_release].
Qed.

Lemma wait_pending_flip_sims fuel crtc : sims (amdgpu_drm_wait_pending_flip fuel crtc).
Proof.
  intros w Hw. apply pwp_bind, pwp_bind, pwp_load. intros c Hc. apply pwp_ret.
  apply (sims_then _ _ w w); [by apply refines_refl | |].
  - apply pwp_update. intros c' Hc'. rewrite Hc in Hc'. injection Hc' as <-.
    assert (Hn : nest_of w crtc = Some (wait_flip_nesting_level (driver_private c))) by (unfold nest_of; by rewrite Hc).
    pose proof (qw_nesting _ Hw _ _ Hn).
    eapply set_level_refines; [done | done | done | by left | lia | apply Forall_forall; intros; lia].
  - intros _. apply sims_bind; [apply handle_flip_sims, has_flip_pending_sims | intros; apply wait_flip_loop_sims].
Qed.

Lemma undefer_refines w crtc : queue_wf w -> refines w (w <| w_queue ::= undefer crtc |>).
Proof.
  intros Hw. apply refines_same; [by apply undefer_wf | | by apply log_frame].
  change (AQueue (abs_requests (undefer crtc (w_queue w))) (abs_levels w) = abs w). unfold abs. f_equal.
  pose proof (undefer_eq crtc (w_queue w) (qw_addr _ Hw)) as Hu. apply abs_perm; [apply Hw | by rewrite Hu |].
  rewrite Hu. unfold due, setf. cbn. set (d := amdgpu_drm_vblank_deferred (w_queue w)).
  assert (d ≡ₚ filter (fun e => q_crtc e = crtc) d ++ filter (fun e => q_crtc e <> crtc) d) as Hd by apply filter_perm_split.
  rewrite Hd at 3. solve_Permutation.
Qed.

Lemma handle_deferred_sims fuel crtc : sims (amdgpu_drm_queue_handle_deferred fuel crtc).
Proof.
  intros w Hw. apply pwp_bind, pwp_bind, pwp_load. intros c Hc. apply pwp_ret.
  set (n := wait_flip_nesting_level (driver_private c)).
  assert (Hn : nest_of w crtc = Some n) by (unfold nest_of; by rewrite Hc).
  pose proof (qw_nesting _ Hw _ _ Hn).
  destruct (Z.eqb_spec n 0) as [Hz|Hz]; [by apply pwp_ret, refines_refl |].
  apply pwp_bind, pwp_update. rewrite Hc. intros ? [= <-].
  destruct (Z.gtb_spec (n - 1) 0).
  - apply pwp_ret. eapply set_level_refines; [done | done | done | right; fold n; lia | lia |].
    apply Forall_forall. intros; lia.
  - apply pwp_bind, pwp_modify. pose proof (undefer_refines w crtc Hw) as Hu.
    destruct (undefer_wf w crtc Hw) as [Hw' Hd].
    pose proof (set_level_refines (w <| w_queue ::= undefer crtc |>) crtc c n (n - 1) Hw' Hc eq_refl
      ltac:(right; lia) ltac:(lia) ltac:(eapply Forall_impl; [exact Hd |]; cbn; done)) as Hs.
    eapply pwp_mono; [apply handle_vblank_sims, Hs |]. intros [] w3 H3.
    exact (refines_trans _ _ _ (refines_trans _ _ _ Hu Hs) H3).
Qed.

Lemma alloc_sims crtc client id data h a flip : sims (amdgpu_drm_queue_alloc crtc client id data h a flip).
Proof.
  intros w Hw. eapply pwp_mono; [apply pwp_and; [by apply alloc_keeps |] | intros s w' [(Hw' & _) Hgo]; exact (Hgo Hw')].
  apply pwp_bind. wp_ext. destruct (negb _).
  { apply pwp_ret. intros Hw'. apply refines_same; [done | done | apply log_calloc]. }
  apply pwp_bind, pwp_gets, pwp_bind, pwp_modify, pwp_bind, pwp_gets, pwp_bind, pwp_modify, pwp_ret.
  intros Hw'. set (e := Entry _ _ _ _ _ _ _ _ _ _ _). apply refines_step; [done | |]; cycle 1.
  { rewrite (log_frame (w <| w_trace ::= cons (Calloc "amdgpu_drm_queue_entry") |>)) by done. apply log_calloc. }
  set (q' := fun q => setf amdgpu_drm_queue _ _).
  change (astep (AQueue (abs_requests (w_queue w)) (abs_levels w)) []
    (AQueue (abs_requests (q' (w_queue w))) (abs_levels w))).
  assert (Hni : q_addr e ∉ (q_addr <$> entries (w_queue w))).
  { rewrite list_elem_of_fmap. intros (x & Hx & Hin). pose proof (qw_bound _ Hw) as Hb.
    rewrite Forall_forall in Hb. specialize (Hb x Hin). rewrite <- Hx in Hb. cbn in Hb. lia. }
  rewrite (abs_push_pending (w_queue w) (q' (w_queue w)) e (qw_addr _ Hw) Hni) by done.
  apply st_request. destruct (abs_requests (w_queue w) !! q_addr e) as [r|] eqn:Hr; [| done].
  apply abs_lookup in Hr as [Ha Hr]; [| apply Hw]. destruct Hni. rewrite <- Ha. apply list_elem_of_fmap_2.
  rewrite entries_due. destruct r; cbn [req_entry] in *; set_solver.
Qed.

Lemma abort_client_sims client : sims (amdgpu_drm_abort_client client).
Proof.
  intros w Hw. eapply pwp_mono; [apply pwp_and; [by apply abort_client_keeps |] | intros s w' [(Hw' & _) Hgo]; exact (Hgo Hw')].
  apply pwp_modify. intros Hw'. apply refines_step; [done | | by apply log_frame].
  lazymatch goal with |- astep _ _ (abs (setf w_queue ?f w)) =>
    change (astep (abs w) [] (AQueue (abs_requests (f (w_queue w))) (abs_levels w))) end.
  rewrite abs_forget by apply Hw. apply st_forget.
Qed.

Lemma found_refines P l w e :
  queue_wf w -> list_find_entry P l = Some e -> (forall x, x ∈ l -> x ∈ entries (w_queue w)) ->
  pwp (amdgpu_drm_abort_one e) (fun _ => refines w) w.
Proof. intros Hw [He _]%find_entry_in Hl. apply abort_one_refines; auto. Qed.

Lemma abort_entry_sims seq : sims (amdgpu_drm_abort_entry seq).
Proof.
  intros w Hw. unfold amdgpu_drm_abort_entry. destruct (_ =? _); [by apply pwp_ret, refines_refl |].
  apply pwp_bind, pwp_gets.
  destruct (list_find_entry _ (amdgpu_drm_vblank_signalled _)) eqn:H1;
    [eapply found_refines; [done | exact H1 | intros x Hx; apply in_entries; auto] |].
  destruct (list_find_entry _ (amdgpu_drm_vblank_deferred _)) eqn:H2;
    [eapply found_refines; [done | exact H2 | intros x Hx; apply in_entries; auto] |].
  destruct (list_find_entry _ (amdgpu_drm_queue _)) eqn:H3;
    [eapply found_refines; [done | exact H3 | intros x Hx; apply in_entries; auto] |].
  by apply pwp_ret, refines_refl.
Qed.

Lemma abort_id_sims id : sims (amdgpu_drm_abort_id id).
Proof.
  intros w Hw. apply pwp_bind, pwp_gets.
  destruct (list_find_entry _ (amdgpu_drm_queue _)) eqn:H3;
    [eapply found_refines; [done | exact H3 | intros x Hx; apply in_entries; auto] |].
  by apply pwp_ret, refines_refl.
Qed.

Lemma close_loop_sims fuel scrn pos : sims (close_loop fuel scrn pos).
Proof.
  revert pos. induction fuel as [|fuel IH]; intros pos w Hw; [apply pwp_nofuel |]. cbn [close_loop].
  destruct pos as [a|]; [| by apply pwp_ret, refines_refl]. apply pwp_bind, pwp_gets.
  destruct (list_find_entry _ _) as [e|] eqn:He; [| done]. apply pwp_bind, pwp_load. intros c _.
  apply (sims_then _ _ w w); [by apply refines_refl | | intros _; apply IH].
  unfold mwhen. destruct (bool_decide _); [| by apply pwp_ret, refines_refl].
  eapply found_refines; [done | exact He | intros x Hx; apply in_entries; auto].
Qed.

Lemma queue_close_sims fuel scrn : sims (amdgpu_drm_queue_close fuel scrn).
Proof.
  apply sims_bind; [apply sims_gets |]. intros q. apply sims_bind; [apply close_loop_sims |]. intros _ w Hw.
  apply pwp_modify. apply refines_same; [by destruct Hw | done | by apply log_frame].
Qed.

End Refine.

(** ** Events are handed out, in order, and the loops end *)

Definition reply_to (e : queue_entry) : answer_call :=
  match q_handler e with
  | Some h => Handled h (q_crtc e) (q_frame e) (q_usec e) (q_data e)
  | None => Aborted (q_abort e) (Some (q_crtc e)) (q_data e)
  end.

(** Every entry is in one place, below the next free address. *)
Definition addr_ok (next : loc) (q : drm_queue) : Prop :=
  NoDup (q_addr <$> entries q) /\ Forall (fun e => q_addr e < next)%positive (entries q).

(** What a handler may do to the queue: ask for further events, behind the ones
    that are waiting.  It takes no event off a list and neither begins nor ends to
    wait for a flip; the rest of the state is its own. *)
Record grown (w w' : world) : Prop := {
  gr_new : amdgpu_drm_queue (w_queue w) `prefix_of` amdgpu_drm_queue (w_queue w');
  gr_flip : amdgpu_drm_flip_signalled (w_queue w') = amdgpu_drm_flip_signalled (w_queue w);
  gr_vblank : amdgpu_drm_vblank_signalled (w_queue w') = amdgpu_drm_vblank_signalled (w_queue w);
  gr_deferred : amdgpu_drm_vblank_deferred (w_queue w') = amdgpu_drm_vblank_deferred (w_queue w);
  gr_addr : addr_ok (w_next w) (w_queue w) -> addr_ok (w_next w') (w_queue w');
  gr_levels : forall c, nest_of w' c = nest_of w c
}.

(** What the loops themselves change. *)
Inductive bookkeeping (w : world) : world -> Prop :=
| bk_queue f : bookkeeping w (w <| w_queue ::= f |>)
| bk_event : bookkeeping w (w <| w_trace ::= cons DrmHandleEvent |>)
| bk_level crtc c n :
    w_crtcs w !! crtc = Some c ->
    bookkeeping w (w <| w_crtcs ::= <[crtc := setf driver_private (setf wait_flip_nesting_level (fun _ => n)) c]> |>).

(** What the loops ask of the callbacks.  [ready w l] says that the requests [l] can
    be answered from [w], in any order; it is the clients' invariant (that the data
    the requests point to exist, for example), and answering one request must leave
    the others ready.  A handler ends and may change everything but the events that
    are on the lists and the nesting levels of the CRTCs, and may ask for more events;
    an abort function leaves the queue alone.  [answered] are the callbacks made.
    A callback that itself waits for a flip, as switching a CRTC off from a flip
    handler does, is not calm. *)
Class Calm `{Env} `{Callbacks} := {
  answered_calls : world -> list answer_call;
  ready : world -> list queue_entry -> Prop;
  answered_frame : forall w w', w_trace w' = w_trace w -> answered_calls w' = answered_calls w;
  answered_event : forall w, answered_calls (w <| w_trace ::= cons DrmHandleEvent |>) = answered_calls w;
  ready_perm : forall w l l', l ≡ₚ l' -> ready w l -> ready w l';
  ready_drop : forall w e l, ready w (e :: l) -> ready w l;
  ready_stamp : forall w e l frame usec,
    ready w (e :: l) -> ready w (e <| q_usec := usec |> <| q_frame := frame |> :: l);
  ready_book : forall w w' l, bookkeeping w w' -> ready w l -> ready w' l;
  handler_calm : forall e h l w, q_handler e = Some h -> ready w (e :: l) ->
    wp (call_handler h (q_crtc e) (q_frame e) (q_usec e) (q_data e)) (fun _ w' =>
      grown w w' /\ ready w' l /\ answered_calls w' = answered_calls w ++ [reply_to e]) w;
  abort_calm : forall e l w, ready w (e :: l) ->
    wp (call_abort (q_abort e) (Some (q_crtc e)) (q_data e)) (fun _ w' =>
      w_queue w' = w_queue w /\ (w_next w <= w_next w')%positive /\ (forall c, nest_of w' c = nest_of w c) /\ ready w' l /\
      answered_calls w' = answered_calls w ++ [Aborted (q_abort e) (Some (q_crtc e)) (q_data e)]) w
}.

(** Somebody waits for a flip of the CRTC of this event. *)
Definition held (w : world) (e : queue_entry) : bool :=
  match nest_of w (q_crtc e) with
  | Some n => negb (n =? 0)
  | None => true
  end.

(** What one event of the kernel does to the lists, and the callback it causes. *)
Definition take_event (s : drm_queue * list answer_call) (ev : drm_event) : drm_queue * list answer_call :=
  let '(q, l) := s in
  match list_find_entry (fun e => q_seq e =? ev_user_ptr ev) (amdgpu_drm_queue q) with
  | None => (q, l)
  | Some e =>
      match q_handler e with
      | None => (queue_del (q_addr e) q, l ++ [Aborted (q_abort e) (Some (q_crtc e)) (q_data e)])
      | Some _ =>
          let e' := e <| q_usec := u64 (ev_sec ev * 1000000 + ev_usec ev) |> <| q_frame := ev_frame ev |> in
          (if q_is_flip e then push_flip e' (queue_del (q_addr e) q) else push_vblank e' (queue_del (q_addr e) q), l)
      end
  end.

Definition take_events (q : drm_queue) (evs : list drm_event) : drm_queue * list answer_call :=
  foldl take_event (q, []) evs.

Lemma list_del_head e l : q_addr e ∉ (q_addr <$> l) -> list_del (q_addr e) (e :: l) = l.
Proof. intros Hl. exact (list_del_mid e [] l (not_elem_of_nil _) Hl). Qed.

Lemma del_head_vblank e l q :
  NoDup (q_addr <$> entries q) -> amdgpu_drm_vblank_signalled q = e :: l ->
  queue_del (q_addr e) q = q <| amdgpu_drm_vblank_signalled := l |>.
Proof.
  intros Hnd Hl. unfold entries in Hnd. rewrite Hl, !fmap_app in Hnd. cbn in Hnd.
  assert (Hp : NoDup (q_addr e :: (q_addr <$> amdgpu_drm_queue q) ++ (q_addr <$> amdgpu_drm_flip_signalled q) ++
    (q_addr <$> l) ++ (q_addr <$> amdgpu_drm_vblank_deferred q)))
    by (eapply NoDup_perm; [| exact Hnd]; solve_Permutation).
  apply NoDup_cons in Hp as [Hni _]. rewrite !not_elem_of_app in Hni. destruct Hni as (H1 & H2 & H3 & H4).
  unfold queue_del, setf. cbn. rewrite Hl. by rewrite list_del_head, !list_del_id.
Qed.

Lemma del_head_flip e l q :
  NoDup (q_addr <$> entries q) -> amdgpu_drm_flip_signalled q = e :: l ->
  queue_del (q_addr e) q = q <| amdgpu_drm_flip_signalled := l |>.
Proof.
  intros Hnd Hl. unfold entries in Hnd. rewrite Hl, !fmap_app in Hnd. cbn in Hnd.
  assert (Hp : NoDup (q_addr e :: (q_addr <$> amdgpu_drm_queue q) ++ (q_addr <$> l) ++
    (q_addr <$> amdgpu_drm_vblank_signalled q) ++ (q_addr <$> amdgpu_drm_vblank_deferred q)))
    by (eapply NoDup_perm; [| exact Hnd]; solve_Permutation).
  apply NoDup_cons in Hp as [Hni _]. rewrite !not_elem_of_app in Hni. destruct Hni as (H1 & H2 & H3 & H4).
  unfold queue_del, setf. cbn. rewrite Hl. by rewrite list_del_head, !list_del_id.
Qed.

Lemma addr_ok_sublist next q q' :
  (q_addr <$> entries q') `sublist_of` (q_addr <$> entries q) -> addr_ok next q -> addr_ok next q'.
Proof.
  intros Hs [Hnd Hb]. split; [by eapply sublist_NoDup |]. apply Forall_forall. intros e He. rewrite Forall_forall in Hb.
  assert (Hin : q_addr e ∈ (q_addr <$> entries q)) by (eapply elem_of_sublist; [by apply list_elem_of_fmap_2 | done]).
  apply list_elem_of_fmap in Hin as (x & -> & Hx). auto.
Qed.
Lemma addr_ok_perm next q q' :
  (q_addr <$> entries q') ≡ₚ (q_addr <$> entries q) -> addr_ok next q -> addr_ok next q'.
Proof.
  intros Hp [Hnd Hb]. split; [by rewrite Hp |]. apply Forall_forall. intros e He. rewrite Forall_forall in Hb.
  assert (Hin : q_addr e ∈ (q_addr <$> entries q)) by (rewrite <- Hp; by apply list_elem_of_fmap_2).
  apply list_elem_of_fmap in Hin as (x & -> & Hx). auto.
Qed.
Lemma addr_ok_del next a q : addr_ok next q -> addr_ok next (queue_del a q).
Proof. apply addr_ok_sublist. rewrite entries_del. apply fmap_sublist, sublist_filter. Qed.
Lemma addr_ok_mono next next' q : (next <= next')%positive -> addr_ok next q -> addr_ok next' q.
Proof. intros Hle [Hnd Hb]. split; [done |]. eapply Forall_impl; [exact Hb |]. cbn. intros; lia. Qed.
Lemma queue_wf_addr w : queue_wf w -> addr_ok (w_next w) (w_queue w).
Proof. intros []. by split. Qed.

Lemma grown_trans w1 w2 w3 : grown w1 w2 -> grown w2 w3 -> grown w1 w3.
Proof.
  intros [N1 F1 V1 D1 A1 L1] [N2 F2 V2 D2 A2 L2]. split; [by etrans | congruence.. | auto | intros c; by rewrite L2, L1].
Qed.
Lemma grown_held w w' e : grown w w' -> held w' e = held w e.
Proof. intros G. unfold held. by rewrite (gr_levels _ _ G). Qed.
Lemma del_perm e l : NoDup (q_addr <$> l) -> e ∈ l -> l ≡ₚ e :: list_del (q_addr e) l.
Proof.
  intros Hnd [l1 [l2 ->]]%list_elem_of_split. rewrite fmap_app, fmap_cons in Hnd. apply NoDup_app in Hnd as (_ & H1 & H2).
  apply NoDup_cons in H2 as [H2 _]. rewrite list_del_mid by (try done; intros Hin; apply (H1 _ Hin); by left).
  by rewrite Permutation_middle.
Qed.

Section Drain.
Context `{env : Env} `{callbacks : Callbacks} `{calm : !Calm}.

Lemma wp_handle_one e l w (Q : unit -> world -> Prop) :
  ready w (e :: l) ->
  (forall w', grown (w <| w_queue ::= queue_del (q_addr e) |>) w' -> ready w' l ->
     answered_calls w' = answered_calls w ++ [reply_to e] -> Q tt w') ->
  wp (amdgpu_drm_queue_handle_one e) Q w.
Proof.
  intros Hr HQ. apply wp_bind, wp_modify. set (w1 := setf w_queue _ w) in *.
  assert (Hl : answered_calls w1 = answered_calls w) by (by apply answered_frame).
  assert (Hr1 : ready w1 (e :: l)) by (eapply ready_book; [apply bk_queue | exact Hr]).
  destruct (q_handler e) as [h|] eqn:Hh.
  - eapply wp_mono; [by apply (handler_calm e h l) |]. intros [] w' (Hg & Hr' & Hlog). apply HQ; [done | done |].
    by rewrite Hlog, Hl.
  - eapply wp_mono; [by apply (abort_calm e l) |]. intros [] w' (Hq & Hnx & Hn & Hr' & Hlog). apply HQ; [| done |].
    + split; try (by rewrite Hq); [| done]. rewrite Hq. by apply addr_ok_mono.
    + unfold reply_to. by rewrite Hh, Hlog, Hl.
Qed.

Lemma ready_drops w l l' : ready w (l ++ l') -> ready w l'.
Proof. induction l as [|e l IH]; [done |]. intros H. by eapply IH, ready_drop. Qed.

(** The vblank events are handed out or deferred, in order. *)
Lemma handle_vblank_drain fuel w :
  addr_ok (w_next w) (w_queue w) ->
  (forall e, e ∈ amdgpu_drm_vblank_signalled (w_queue w) -> is_Some (nest_of w (q_crtc e))) ->
  ready w (amdgpu_drm_vblank_signalled (w_queue w)) ->
  (length (amdgpu_drm_vblank_signalled (w_queue w)) < fuel)%nat ->
  wp (amdgpu_drm_handle_vblank_signalled fuel) (fun _ w' =>
    amdgpu_drm_queue (w_queue w) `prefix_of` amdgpu_drm_queue (w_queue w') /\
    amdgpu_drm_flip_signalled (w_queue w') = amdgpu_drm_flip_signalled (w_queue w) /\
    amdgpu_drm_vblank_signalled (w_queue w') = [] /\
    amdgpu_drm_vblank_deferred (w_queue w') = amdgpu_drm_vblank_deferred (w_queue w) ++
      filter (fun e => held w e = true) (amdgpu_drm_vblank_signalled (w_queue w)) /\
    answered_calls w' = answered_calls w ++
      (reply_to <$> filter (fun e => held w e = false) (amdgpu_drm_vblank_signalled (w_queue w)))) w.
Proof.
  remember (amdgpu_drm_vblank_signalled (w_queue w)) as l eqn:Hl. revert l w Hl.
  induction fuel as [|fuel IH]; intros l w Hl Hnd Hc Hr Hf; [lia |].
  cbn [amdgpu_drm_handle_vblank_signalled]. apply wp_bind, wp_gets. rewrite <- Hl.
  destruct l as [|e l].
  { apply wp_ret. rewrite <- Hl. by rewrite !app_nil_r. }
  destruct (Hc e (list_elem_of_here e l)) as [n Hce]. unfold nest_of in Hce.
  apply fmap_Some in Hce as (c & Hcrtc & ->). apply wp_bind, wp_bind. eapply wp_load; [exact Hcrtc |]. apply wp_ret.
  assert (Hh : held w e = negb (wait_flip_nesting_level (driver_private c) =? 0))
    by (unfold held, nest_of; by rewrite Hcrtc).
  pose proof (del_head_vblank e l _ (proj1 Hnd) (eq_sym Hl)) as Hdel.
  assert (Hnd1 : addr_ok (w_next w) (queue_del (q_addr e) (w_queue w))) by (by apply addr_ok_del).
  apply wp_bind. destruct (wait_flip_nesting_level (driver_private c) =? 0); cbn [negb] in Hh.
  - apply (wp_handle_one e l); [done |]. intros w' Hg Hr' Hlog. pose proof Hg as [Hn Hfl Hv Hd Ha Hlv].
    unfold setf in Hn, Hfl, Hv, Hd, Ha. cbn [w_queue] in Hn, Hfl, Hv, Hd, Ha. rewrite Hdel in Hn, Hfl, Hv, Hd.
    assert (Hheld : forall x, held w' x = held w x) by (intros x; by rewrite (grown_held _ _ _ Hg)).
    eapply wp_mono; [apply (IH l w'); [by rewrite Hv | by apply Ha | | done | cbn in Hf; lia] |].
    { intros x Hx. rewrite Hlv. apply Hc. by right. }
    intros [] w2 (Hn2 & Hf2 & Hv2 & Hd2 & Hl2). split_and!; [by etrans | by rewrite Hf2 | done | |].
    + rewrite Hd2, Hd, (filter_cons_False (fun e => held w e = true)) by congruence.
      by rewrite (list_filter_iff _ (fun e => held w e = true)) by (intros; by rewrite Hheld).
    + rewrite Hl2, Hlog, (filter_cons_True (fun e => held w e = false)) by done.
      rewrite (list_filter_iff _ (fun e => held w e = false)) by (intros; by rewrite Hheld).
      by rewrite <- app_assoc.
  - apply wp_bind, wp_modify, wp_modify.
    set (w1 := setf w_queue _ (setf w_queue _ w)).
    assert (Hq : w_queue w1 = w_queue w <| amdgpu_drm_vblank_signalled := l |> <| amdgpu_drm_vblank_deferred ::= fun d => d ++ [e] |>)
      by (change (w_queue w1) with (push_deferred e (queue_del (q_addr e) (w_queue w))); by rewrite Hdel).
    assert (Hlog : answered_calls w1 = answered_calls w) by (by apply answered_frame).
    eapply wp_mono; [apply (IH l w1); [by rewrite Hq | | | | cbn in Hf; lia] |].
    + rewrite Hq. eapply addr_ok_perm; [| exact Hnd]. unfold entries, setf. cbn. rewrite <- Hl. cbn. rewrite !fmap_app. cbn. rewrite !fmap_app.
      solve_Permutation.
    + intros x Hx. apply Hc. by right.
    + eapply ready_book; [apply bk_queue |]. eapply ready_book; [apply bk_queue |]. by eapply ready_drop.
    + intros [] w2 (Hn2 & Hf2 & Hv2 & Hd2 & Hl2). rewrite Hq in Hn2, Hf2, Hd2. split_and!; [done | done | done | |].
      * rewrite Hd2, (filter_cons_True (fun e => held w e = true)) by done.
        unfold setf. cbn. by rewrite <- app_assoc.
      * rewrite Hl2, Hlog, (filter_cons_False (fun e => held w e = false)) by congruence. done.
Qed.

Lemma handle_flip_drain fuel rest w :
  addr_ok (w_next w) (w_queue w) -> ready w (amdgpu_drm_flip_signalled (w_queue w) ++ rest) ->
  (length (amdgpu_drm_flip_signalled (w_queue w)) < fuel)%nat ->
  wp (handle_flip_signalled (mret true) fuel) (fun _ w' =>
    grown (w <| w_queue ::= setf amdgpu_drm_flip_signalled (fun _ => []) |>) w' /\ ready w' rest /\
    answered_calls w' = answered_calls w ++ (reply_to <$> amdgpu_drm_flip_signalled (w_queue w))) w.
Proof.
  remember (amdgpu_drm_flip_signalled (w_queue w)) as l eqn:Hl. revert l w Hl.
  induction fuel as [|fuel IH]; intros l w Hl Hnd Hr Hf; [lia |].
  cbn [handle_flip_signalled]. apply wp_bind, wp_ret, wp_bind, wp_gets. rewrite <- Hl. destruct l as [|e l].
  { apply wp_ret. split_and!; [by split | done | by rewrite app_nil_r]. }
  pose proof (del_head_flip e l _ (proj1 Hnd) (eq_sym Hl)) as Hdel.
  apply wp_bind, (wp_handle_one e (l ++ rest)); [done |]. intros w' Hg Hr' Hlog.
  assert (Hnd1 : addr_ok (w_next w) (queue_del (q_addr e) (w_queue w))) by (by apply addr_ok_del).
  pose proof Hg as [Hn Hfl Hv Hd Ha Hlv]. unfold setf in Hn, Hfl, Hv, Hd, Ha. cbn [w_queue] in Hn, Hfl, Hv, Hd, Ha.
  rewrite Hdel in Hn, Hfl, Hv, Hd.
  eapply wp_mono; [apply (IH l w'); [by rewrite Hfl | by apply Ha | done | cbn in Hf; lia] |].
  intros [] w2 (Hg2 & Hr2 & Hl2). split_and!; [| done | by rewrite Hl2, Hlog, <- app_assoc].
  eapply grown_trans; [| exact Hg2]. split; try done.
  - intros _. eapply addr_ok_sublist; [| exact (Ha Hnd1)]. apply fmap_sublist. unfold entries, setf. cbn.
    apply sublist_app; [done |]. by apply sublist_inserts_l.
Qed.

(** One event.  [l] are the requests that can be answered. *)
Lemma wp_queue_handler ev w (Q : unit -> world -> Prop) :
  NoDup (q_addr <$> entries (w_queue w)) -> ready w (entries (w_queue w)) ->
  (forall w', w_queue w' = (take_event (w_queue w, []) ev).1 -> (w_next w <= w_next w')%positive -> (forall c, nest_of w' c = nest_of w c) ->
     ready w' (entries (w_queue w')) -> answered_calls w' = answered_calls w ++ (take_event (w_queue w, []) ev).2 -> Q tt w') ->
  wp (amdgpu_drm_queue_handler (ev_frame ev) (ev_sec ev) (ev_usec ev) (ev_user_ptr ev)) Q w.
Proof.
  intros Hnd Hr HQ. apply wp_bind, wp_gets. unfold take_event in HQ.
  destruct (list_find_entry _ _) as [e|] eqn:He; [| apply wp_ret, HQ; [done | done | done | done | by rewrite app_nil_r]].
  apply find_entry_in in He as [He _]. assert (Hin : e ∈ entries (w_queue w)) by (apply in_entries; by left).
  assert (Hr1 : ready w (e :: entries (queue_del (q_addr e) (w_queue w)))).
  { eapply ready_perm; [| exact Hr]. rewrite entries_del. by apply del_perm. }
  destruct (q_handler e) as [h|] eqn:Hh.
  - apply wp_bind, wp_modify. set (e' := setf q_frame _ _) in *.
    assert (Hr2 : forall push f, entries (push (queue_del (q_addr e) (w_queue w))) ≡ₚ e' :: entries (queue_del (q_addr e) (w_queue w)) ->
      f = push -> ready (w <| w_queue ::= queue_del (q_addr e) |> <| w_queue ::= f |>) (entries (push (queue_del (q_addr e) (w_queue w))))).
    { intros push f Hp ->. eapply ready_book; [apply bk_queue |]. eapply ready_book; [apply bk_queue |].
      eapply ready_perm; [symmetry; exact Hp |]. by apply ready_stamp. }
    destruct (q_is_flip e); apply wp_modify, HQ; try done; try (rewrite app_nil_r; by apply answered_frame).
    + by apply (Hr2 (push_flip e')); [apply entries_push |].
    + by apply (Hr2 (push_vblank e')); [apply entries_push |].
  - apply wp_bind, wp_modify. eapply wp_mono.
    { apply (abort_calm e (entries (queue_del (q_addr e) (w_queue w)))). eapply ready_book; [apply bk_queue | done]. }
    intros [] w' (Hq & Hnx & Hn & Hr' & Hl).
    apply HQ; [done | done | done | by rewrite Hq |]. rewrite Hl. f_equal. by apply answered_frame.
Qed.

Lemma take_event_acc q l ev : take_event (q, l) ev = ((take_event (q, []) ev).1, l ++ (take_event (q, []) ev).2).
Proof.
  unfold take_event. destruct (list_find_entry _ _) as [e|]; cbn; [| by rewrite app_nil_r].
  destruct (q_handler e); cbn; by rewrite ?app_nil_r.
Qed.

Lemma take_events_acc q l evs :
  foldl take_event (q, l) evs = ((take_events q evs).1, l ++ (take_events q evs).2).
Proof.
  unfold take_events. revert q l. induction evs as [|ev evs IH]; intros q l; cbn [foldl]; [by rewrite app_nil_r |].
  rewrite take_event_acc, (take_event_acc q []), IH, (IH _ ([] ++ _)). cbn. by rewrite app_assoc.
Qed.

(** The events keep what the loops need. *)
Definition well_placed (w : world) (q : drm_queue) : Prop :=
  addr_ok (w_next w) q /\ forall e, e ∈ entries q -> is_Some (nest_of w (q_crtc e)).

Lemma take_event_placed w q ev :
  well_placed w q -> well_placed w (take_event (q, []) ev).1 /\
  (length (entries (take_event (q, []) ev).1) <= length (entries q))%nat.
Proof.
  intros [Hnd Hc]. unfold take_event. destruct (list_find_entry _ _) as [e|] eqn:He; [| done].
  apply find_entry_in in He as [He _]. assert (Hin : e ∈ entries q) by (apply in_entries; by left).
  assert (Hdel : well_placed w (queue_del (q_addr e) q)).
  { split; [by apply addr_ok_del |]. intros x. rewrite entries_del, elem_of_list_del. intros [_ Hx]. auto. }
  assert (Hlen : (length (entries (queue_del (q_addr e) q)) < length (entries q))%nat)
    by (rewrite entries_del; pose proof (Permutation_length (del_perm e (entries q) (proj1 Hnd) Hin)) as Hp; cbn in Hp; lia).
  destruct (q_handler e); cbn [fst]; [| split; [done | lia]].
  set (e' := setf q_frame _ _).
  assert (Hpush : forall q', entries q' ≡ₚ e' :: entries (queue_del (q_addr e) q) ->
    well_placed w q' /\ (length (entries q') <= length (entries q))%nat).
  { intros q' Hp. split; [split |].
    - eapply addr_ok_perm; [| exact Hnd]. by rewrite Hp, (del_perm e (entries q) (proj1 Hnd) Hin), entries_del.
    - intros x. rewrite Hp, elem_of_cons. intros [->|Hx]; [by apply (Hc e) | by apply Hdel].
    - rewrite Hp, length_cons. lia. }
  destruct (q_is_flip e); apply Hpush, entries_push.
Qed.

Lemma take_events_placed w q evs :
  well_placed w q -> well_placed w (take_events q evs).1 /\
  (length (entries (take_events q evs).1) <= length (entries q))%nat.
Proof.
  revert q. induction evs as [|ev evs IH]; intros q Hp; [done |]. unfold take_events. cbn [foldl].
  rewrite take_event_acc, take_events_acc. cbn [fst]. destruct (take_event_placed w q ev Hp) as [H1 L1].
  destruct (IH _ H1) as [H2 L2]. split; [done | lia].
Qed.

Lemma wp_read_all evs w (Q : unit -> world -> Prop) :
  well_placed w (w_queue w) -> ready w (entries (w_queue w)) ->
  (forall w', w_queue w' = (take_events (w_queue w) evs).1 -> (w_next w <= w_next w')%positive -> (forall c, nest_of w' c = nest_of w c) ->
     ready w' (entries (w_queue w')) -> answered_calls w' = answered_calls w ++ (take_events (w_queue w) evs).2 -> Q tt w') ->
  wp (mfor evs (fun ev => amdgpu_drm_queue_handler (ev_frame ev) (ev_sec ev) (ev_usec ev) (ev_user_ptr ev))) Q w.
Proof.
  revert w. induction evs as [|ev evs IH]; intros w Hp Hr HQ.
  - apply wp_ret, HQ; [done | done | done | done | by rewrite app_nil_r].
  - cbn [mfor]. apply wp_bind, wp_queue_handler; [apply (proj1 Hp) | done |]. intros w1 Hq1 Hx1 Hc1 Hr1 Hl1.
    destruct (take_event_placed w (w_queue w) ev Hp) as [Hp1 _]. apply IH; [| done |].
    { rewrite Hq1. split; [eapply addr_ok_mono; [exact Hx1 | apply Hp1] |]. intros e He. rewrite Hc1. by apply Hp1. }
    intros w' Hq Hx Hc Hr' Hl.
    unfold take_events in HQ. cbn [foldl] in HQ. rewrite take_event_acc, take_events_acc in HQ. cbn [fst snd] in HQ.
    rewrite <- Hq1 in HQ. apply HQ; [done | lia | intros c; by rewrite Hc | done |]. by rewrite Hl, Hl1, <- app_assoc.
Qed.

(** A reply of drmHandleEvent after which it is not called again. *)
Definition final_read (ret errno : Z) : Prop := 0 <= ret \/ (errno <> EINTR /\ errno <> EAGAIN).

Lemma final_read_spec ret errno : final_read ret errno -> (ret <? 0) && ((errno =? EINTR) || (errno =? EAGAIN)) = false.
Proof. unfold final_read. lia. Qed.

(** C5. [amdgpu_drm_handle_event] ends, and answers every request whose event it
    has read: first the ones whose client is gone are aborted, then all flips are
    handed out and then the vblank events, each in the order of the events, except
    that the events of a CRTC somebody waits for are kept for later.  No other
    callback is called; the requests without an event stay, followed by the ones the
    handlers make.  The state is well-formed, every request is for a CRTC that
    exists, the kernel is not interrupted (after EINTR or EAGAIN it is asked again),
    and the fuel exceeds the number of requests.  The callbacks are calm: a handler
    may change the state and ask for more events, but it takes no event off the lists
    and does not itself wait for a flip; answering one request leaves the others
    ready to be answered ([ready]). *)
Theorem handle_event_delivers fuel w ret errno evs :
  queue_wf w -> (forall e, e ∈ entries (w_queue w) -> is_Some (w_crtcs w !! q_crtc e)) ->
  ready w (entries (w_queue w)) ->
  reply (w_trace w) DrmHandleEvent = (ret, errno, evs) -> final_read ret errno ->
  (length (entries (w_queue w)) < fuel)%nat ->
  let q := (take_events (w_queue w) evs).1 in
  let vblanks := amdgpu_drm_vblank_signalled q in
  wp (amdgpu_drm_handle_event fuel) (fun r w' =>
    r = ret /\
    amdgpu_drm_queue q `prefix_of` amdgpu_drm_queue (w_queue w') /\
    amdgpu_drm_flip_signalled (w_queue w') = [] /\ amdgpu_drm_vblank_signalled (w_queue w') = [] /\
    amdgpu_drm_vblank_deferred (w_queue w') =
      amdgpu_drm_vblank_deferred q ++ filter (fun e => held w e = true) vblanks /\
    answered_calls w' = answered_calls w ++ (take_events (w_queue w) evs).2 ++
      (reply_to <$> amdgpu_drm_flip_signalled q) ++ (reply_to <$> filter (fun e => held w e = false) vblanks)) w.
Proof.
  intros Hw Hc Hr0 Hr Hret Hf q vblanks. destruct fuel as [|fuel]; [lia |].
  assert (Hp : well_placed w (w_queue w)).
  { split; [by apply queue_wf_addr |]. intros e He. destruct (Hc e He) as [c Hce]. unfold nest_of. rewrite Hce. eauto. }
  destruct (take_events_placed w (w_queue w) evs Hp) as [[Hnd Hc'] Hlen].
  fold q in Hnd, Hc', Hlen. assert (Hlq : (length (amdgpu_drm_flip_signalled q) + length vblanks <= length (entries q))%nat)
    by (unfold entries; rewrite !length_app; unfold vblanks; lia).
  unfold amdgpu_drm_handle_event. apply wp_bind. cbn [read_events]. apply wp_bind. wp_ext. rewrite Hr.
  set (w0 := setf w_trace _ w). apply wp_bind, wp_read_all; [exact Hp | by eapply ready_book; [apply bk_event |] |].
  intros w1 Hq1 Hx1 Hc1 Hr1 Hl1. change (w_queue w0) with (w_queue w) in Hq1, Hl1.
  assert (Hl0 : answered_calls w0 = answered_calls w) by apply answered_event. rewrite Hl0 in Hl1. fold q in Hq1. rewrite final_read_spec by done.
  assert (Hr2 : ready w1 (amdgpu_drm_flip_signalled (w_queue w1) ++ vblanks)).
  { eapply (ready_drops _ (amdgpu_drm_queue q ++ amdgpu_drm_vblank_deferred q)), ready_perm; [| exact Hr1].
    rewrite Hq1. unfold entries, vblanks. solve_Permutation. }
  apply wp_ret, wp_bind.
  eapply wp_mono; [apply (handle_flip_drain (S fuel) vblanks w1); [rewrite Hq1; by eapply addr_ok_mono | done | rewrite Hq1; lia] |].
  rewrite Hq1. intros [] w2 ([Hn2 Hf2 Hv2 Hd2 Ha2 Hlv2] & Hr3 & Hl2). apply wp_bind.
  unfold setf in Hn2, Hf2, Hv2, Hd2, Ha2. cbn in Hn2, Hf2, Hv2, Hd2, Ha2. rewrite Hq1 in Hn2, Hv2, Hd2, Ha2.
  assert (Hnd2 : addr_ok (w_next w2) (w_queue w2)).
  { apply Ha2. eapply addr_ok_sublist; [| exact (addr_ok_mono _ _ _ Hx1 Hnd)]. apply fmap_sublist. unfold entries, setf. cbn.
    apply sublist_app; [done |]. by apply sublist_inserts_l. }
  fold vblanks in Hv2. assert (Hheld : forall x, held w2 x = held w x).
  { intros x. unfold held. rewrite Hlv2. change (nest_of (w1 <| w_queue ::= setf amdgpu_drm_flip_signalled (fun _ => []) |>) (q_crtc x))
      with (nest_of w1 (q_crtc x)). by rewrite Hc1. }
  eapply wp_mono; [apply (handle_vblank_drain (S fuel) w2 Hnd2); rewrite Hv2; [| done | lia] |].
  { intros e He. rewrite Hlv2. change (is_Some (nest_of w1 (q_crtc e))). rewrite Hc1. apply Hc', in_entries. by do 2 right; left. }
  rewrite Hv2. intros [] w3 (Hn3 & Hf3 & Hv3 & Hd3 & Hl3). apply wp_ret.
  split_and!; [done | by etrans | by rewrite Hf3 | done | |].
  - rewrite Hd3, Hd2. by rewrite (list_filter_iff _ (fun e => held w e = true)) by (intros; by rewrite Hheld).
  - rewrite Hl3, Hl2, Hl1. rewrite (list_filter_iff _ (fun e => held w e = false)) by (intros; by rewrite Hheld).
    by rewrite <- !app_assoc.
Qed.

(** Somebody waits for a flip of the CRTC of this event, when nobody waits any more
    for a flip of [crtc]. *)
Definition still_held (w : world) (crtc : loc) (e : queue_entry) : bool :=
  if decide (q_crtc e = crtc) then false else held w e.

(** C18. When the last wait for a flip of a CRTC ends (its nesting level was 1), its
    deferred events are handed out by their handlers, in order, behind the vblank
    events that were due already; of those, the ones of other CRTCs somebody waits
    for are deferred.  Nothing deferred for this CRTC is left behind, and the requests
    whose event has not come stay, followed by the ones the handlers make.  The state
    is well-formed, the events due are for CRTCs that exist, and the fuel exceeds
    their number.  The callbacks are calm: a handler may change the state and ask for
    more events, but it takes no event off the lists and does not itself wait for a
    flip; answering one request leaves the others ready to be answered ([ready]). *)
Theorem deferred_delivered fuel w crtc c :
  let q := w_queue w in
  let events := amdgpu_drm_vblank_signalled q ++ filter (fun e => q_crtc e = crtc) (amdgpu_drm_vblank_deferred q) in
  queue_wf w -> w_crtcs w !! crtc = Some c -> wait_flip_nesting_level (driver_private c) = 1 ->
  (forall e, e ∈ amdgpu_drm_vblank_signalled q -> is_Some (w_crtcs w !! q_crtc e)) ->
  ready w events -> (length events < fuel)%nat ->
  wp (amdgpu_drm_queue_handle_deferred fuel crtc) (fun _ w' =>
    amdgpu_drm_queue q `prefix_of` amdgpu_drm_queue (w_queue w') /\
    amdgpu_drm_vblank_signalled (w_queue w') = [] /\
    amdgpu_drm_vblank_deferred (w_queue w') =
      filter (fun e => q_crtc e <> crtc) (amdgpu_drm_vblank_deferred q) ++
      filter (fun e => still_held w crtc e = true) events /\
    answered_calls w' = answered_calls w ++ (reply_to <$> filter (fun e => still_held w crtc e = false) events) /\
    Forall (fun e => q_crtc e <> crtc) (amdgpu_drm_vblank_deferred (w_queue w'))) w.
Proof.
  intros q events Hw Hc Hn Hs Hr Hf. apply wp_bind, wp_bind. eapply wp_load; [exact Hc |]. apply wp_ret. rewrite Hn. cbn [Z.eqb].
  apply wp_bind. eapply wp_update; [exact Hc |]. cbn [Z.sub Z.add Z.opp Z.pos_sub Z.gtb Z.compare].
  apply wp_bind, wp_modify. set (d := amdgpu_drm_vblank_deferred q) in *.
  set (c' := setf driver_private _ c). set (w1 := setf w_queue _ _).
  pose proof (undefer_eq crtc (w_queue w) (qw_addr _ Hw)) as Hu. fold q in Hu. fold d in Hu.
  assert (Hq1 : w_queue w1 = undefer crtc q) by done.
  assert (Hv1 : amdgpu_drm_vblank_signalled (w_queue w1) = events) by (by rewrite Hq1, Hu).
  assert (Hd1 : amdgpu_drm_vblank_deferred (w_queue w1) = filter (fun e => q_crtc e <> crtc) d)
    by (by rewrite Hq1, Hu).
  assert (Hnest : forall a, nest_of w1 a = if decide (a = crtc) then Some 0 else nest_of w a).
  { intros a. unfold nest_of. change (w_crtcs w1) with (<[crtc := c']> (w_crtcs w)).
    destruct (decide (a = crtc)) as [->|Hne]; [by rewrite lookup_insert_eq | by rewrite lookup_insert_ne by congruence]. }
  assert (Hheld : forall e, held w1 e = still_held w crtc e).
  { intros e. unfold still_held, held. rewrite Hnest. by destruct (decide _). }
  eapply wp_mono; [apply (handle_vblank_drain fuel w1); rewrite ?Hv1; [| | | done] |].
  - rewrite Hq1. apply (queue_wf_addr _ (proj1 (undefer_wf w crtc Hw))).
  - intros e He. rewrite Hnest. destruct (decide _) as [?|Hne]; [eauto |].
    apply elem_of_app in He as [He|[? _]%list_elem_of_filter]; [| done]. unfold nest_of. destruct (Hs e He) as [x ->]. eauto.
  - eapply ready_book; [apply bk_queue |]. eapply ready_book; [| exact Hr]. by apply bk_level.
  - intros [] w' (Hn' & _ & Hv' & Hd' & Hl). rewrite Hv1, Hd1 in Hd'. rewrite Hv1 in Hl.
    rewrite (list_filter_iff (fun e => held w1 e = true) (fun e => still_held w crtc e = true)) in Hd' by (intros; by rewrite Hheld).
    rewrite (list_filter_iff (fun e => held w1 e = false) (fun e => still_held w crtc e = false)) in Hl by (intros; by rewrite Hheld).
    split_and!; [by rewrite Hq1, Hu in Hn' | done | done | rewrite Hl; f_equal; by apply answered_frame |].
    rewrite Hd', Forall_app, !Forall_forall. split; [by intros e [? _]%list_elem_of_filter |].
    intros e [He _]%list_elem_of_filter. unfold still_held in He. by destruct (decide _).
Qed.
End Drain.

(** ** Callbacks that only write a log *)
Module Logging.
Definition handlers : list handler_proc :=
  [drmmode_flip_handler_proc; amdgpu_scanout_flip_handler_proc; amdgpu_scanout_update_handler_proc;
   amdgpu_prime_scanout_update_handler_proc; amdgpu_present_vblank_handler_proc; amdgpu_present_flip_event_proc;
   amdgpu_dri2_frame_event_handler_proc; amdgpu_dri2_flip_event_handler_proc].
Definition aborts : list abort_proc :=
  [drmmode_flip_abort_proc; amdgpu_scanout_flip_abort_proc; amdgpu_scanout_update_abort_proc;
   amdgpu_prime_scanout_update_abort_proc; amdgpu_present_vblank_abort_proc; amdgpu_present_flip_abort_proc;
   amdgpu_dri2_frame_event_abort_proc; amdgpu_dri2_flip_event_abort_proc].

(** The place in a list, and back. *)
Definition index {A} `{EqDecision A} (l : list A) (a : A) : Z :=
  match list_find (fun x => x = a) l with Some (i, _) => Z.of_nat i | None => -1 end.
Definition at_index {A} (l : list A) (i : Z) : option A := if i <? 0 then None else l !! Z.to_nat i.

Definition write_cookie (d : cookie) : list Z :=
  match d with
  | NoData => [0; 1]
  | FlipData l => [1; Zpos l] | FbData l => [2; Zpos l] | EventData l => [3; Zpos l]
  | CrtcData l => [4; Zpos l] | FrameData l => [5; Zpos l] | FlipEventData l => [6; Zpos l]
  end.
Definition read_cookie (t l : Z) : cookie :=
  let p := Z.to_pos l in
  if t =? 1 then FlipData p else if t =? 2 then FbData p else if t =? 3 then EventData p
  else if t =? 4 then CrtcData p else if t =? 5 then FrameData p else if t =? 6 then FlipEventData p else NoData.

Definition read_note (e : ext) : option answer_call :=
  match e with
  | Notify s l =>
      match l with
      | [h; c; f; u; t; p] =>
          if String.eqb s "handler" then h ← at_index handlers h; Some (Handled h (Z.to_pos c) f u (read_cookie t p))
          else None
      | [a; c; t; p] =>
          if String.eqb s "abort" then
            a ← at_index aborts a; Some (Aborted a (if c =? 0 then None else Some (Z.to_pos c)) (read_cookie t p))
          else None
      | _ => None
      end
  | _ => None
  end.

Definition note_handler (h : handler_proc) (c : loc) (f u : Z) (d : cookie) : ext :=
  Notify "handler" ([index handlers h; Zpos c; f; u] ++ write_cookie d).
Definition note_abort (a : abort_proc) (c : option loc) (d : cookie) : ext :=
  Notify "abort" ([index aborts a; match c with Some l => Zpos l | None => 0 end] ++ write_cookie d).

Section Callbacks.
Context (env : Env).

Definition callbacks : Callbacks := {|
  call_handler h c f u d := @call env (note_handler h c f u d);
  call_abort a c d := @call env (note_abort a c d)
|}.

Lemma read_handler h c f u d : read_note (note_handler h c f u d) = Some (Handled h c f u d).
Proof. by destruct h, d. Qed.
Lemma read_abort a c d : read_note (note_abort a c d) = Some (Aborted a c d).
Proof. by destruct a, d, c. Qed.

Definition log (w : world) : list answer_call := omap read_note (rev (w_trace w)).

Lemma log_cons e w :
  log (w <| w_trace ::= cons e |>) = log w ++ match read_note e with Some c => [c] | None => [] end.
Proof.
  unfold log. change (w_trace (w <| w_trace ::= cons e |>)) with (e :: w_trace w). cbn [rev].
  by rewrite omap_app.
Qed.

Lemma safe : @CallbacksSafe callbacks.
Proof. split; intros; apply (@keeps_call env). Qed.

Lemma abs_trace t w : abs (w <| w_trace ::= t |>) = abs w.
Proof. done. Qed.

Definition observed : @Observed env callbacks.
Proof.
  refine (@Build_Observed env callbacks log _ _ _ _ _).
  - intros w w' Ht. unfold log. by rewrite Ht.
  - intros s w. by rewrite log_cons, app_nil_r.
  - intros w. by rewrite log_cons, app_nil_r.
  - intros h c f u d w _. unfold pwp, call_handler, callbacks, call. exists [].
    rewrite abs_trace, log_cons, read_handler. split; [apply as_refl | done].
  - intros a c d w _. unfold pwp, call_abort, callbacks, call. exists [].
    rewrite abs_trace, log_cons, read_abort. split; [apply as_refl | done].
Defined.

(** Callbacks as the driver's own: one for a vblank asks for the next vblank, one for
    a flip clears the pending flip of its CRTC. *)
Definition busy : Callbacks := {|
  call_handler h c f u d :=
    _ ← @call env (note_handler h c f u d);
    match h with
    | amdgpu_present_vblank_handler_proc =>
        _ ← @amdgpu_drm_queue_alloc env c 7 1 d h amdgpu_present_vblank_abort_proc false; mret tt
    | _ => update w_crtcs c (setf driver_private (setf flip_pending (fun _ => None)))
    end;
  call_abort a c d := @call env (note_abort a c d)
|}.

Definition crtcs_exist (w : world) (l : list queue_entry) : Prop :=
  Forall (fun e => is_Some (w_crtcs w !! q_crtc e)) l.

Lemma wp_alloc_grown c cl id d h a fl w (Q : Z -> world -> Prop) :
  (forall s w', grown w w' -> w_crtcs w' = w_crtcs w -> log w' = log w -> Q s w') ->
  wp (@amdgpu_drm_queue_alloc env c cl id d h a fl) Q w.
Proof.
  intros HQ. apply wp_bind. wp_ext.
  assert (Hlog : log (w <| w_trace ::= cons (Calloc "amdgpu_drm_queue_entry") |>) = log w) by (by rewrite log_cons, app_nil_r).
  destruct (negb _); [by apply wp_ret, HQ |].
  apply wp_bind, wp_gets, wp_bind, wp_modify, wp_bind, wp_gets, wp_bind, wp_modify, wp_ret, HQ; [| done | done].
  split; try done; [by apply prefix_app_r |]. intros [Hnd Hb]. unfold setf. cbn [w_queue w_next]. set (s := if _ =? _ then _ else _).
  pose proof (proj1 (entries_push (Entry (w_next w) 0 id s d cl c (Some h) a fl 0)
    (setf amdgpu_drm_queue_seq (fun _ => u64 (s + 1)) (w_queue w)))) as Hp.
  assert (Hni : w_next w ∉ (q_addr <$> entries (w_queue w))).
  { intros (x & Hx & Hin)%list_elem_of_fmap. rewrite Forall_forall in Hb. specialize (Hb x Hin). lia. }
  split.
  - eapply NoDup_perm; [apply fmap_Permutation; symmetry; exact Hp |]. cbn. by apply NoDup_cons.
  - eapply Forall_perm; [symmetry; exact Hp |]. constructor; [cbn; lia |].
    eapply Forall_impl; [exact Hb |]. cbn. intros; lia.
Qed.

Lemma book_crtcs w w' l : bookkeeping w w' -> crtcs_exist w l -> crtcs_exist w' l.
Proof.
  intros [f| |crtc c n Hc]; [done | done |]. intros Hl. eapply Forall_impl; [exact Hl |]. intros e He. cbn.
  destruct (decide (q_crtc e = crtc)) as [->|Hne]; [rewrite lookup_insert_eq; eauto | by rewrite lookup_insert_ne].
Qed.

Lemma busy_handler e h l w :
  q_handler e = Some h -> crtcs_exist w (e :: l) ->
  wp (@call_handler busy h (q_crtc e) (q_frame e) (q_usec e) (q_data e)) (fun _ w' =>
    grown w w' /\ crtcs_exist w' l /\ log w' = log w ++ [reply_to e]) w.
Proof.
  intros Hh [[c Hc] Hl]%Forall_cons. cbn [call_handler busy]. apply wp_bind. wp_ext.
  set (w1 := setf w_trace _ w).
  assert (Hlog : log w1 = log w ++ [reply_to e]) by (unfold w1, reply_to; by rewrite log_cons, read_handler, Hh).
  assert (Hflip : wp (update w_crtcs (q_crtc e) (setf driver_private (setf flip_pending (fun _ => None)))) (fun _ w' =>
    grown w w' /\ crtcs_exist w' l /\ log w' = log w ++ [reply_to e]) w1).
  { eapply wp_update; [exact Hc |]. split_and!; [split; try done | | exact Hlog].
    - intros a. unfold nest_of, setf. cbn. destruct (decide (a = q_crtc e)) as [->|Hne];
        [by rewrite lookup_insert_eq, Hc | by rewrite lookup_insert_ne].
    - eapply Forall_impl; [exact Hl |]. intros x Hx. cbn.
      destruct (decide (q_crtc x = q_crtc e)) as [->|Hne]; [rewrite lookup_insert_eq; eauto | by rewrite lookup_insert_ne]. }
  destruct h; try exact Hflip. apply wp_bind, wp_alloc_grown. intros s w' Hg Hcr Hl'. apply wp_ret.
  split_and!; [by destruct Hg | unfold crtcs_exist; by rewrite Hcr | by rewrite Hl'].
Qed.

#[export] Instance busy_calm : @Calm env busy.
Proof.
  refine (@Build_Calm env busy log crtcs_exist _ _ _ _ _ book_crtcs busy_handler _).
  - intros w w' Ht. unfold log. by rewrite Ht.
  - intros w. by rewrite log_cons, app_nil_r.
  - intros w l l' Hp. unfold crtcs_exist. by rewrite Hp.
  - intros w e l. by intros [_ ?]%Forall_cons.
  - intros w e l frame usec [? ?]%Forall_cons. by constructor.
  - intros e l w [_ Hl]%Forall_cons. cbn [call_abort busy]. unfold wp, call. split_and!; try done.
    change (log (w <| w_trace ::= cons (note_abort (q_abort e) (Some (q_crtc e)) (q_data e)) |>) = log w ++ [Aborted (q_abort e) (Some (q_crtc e)) (q_data e)]).
    by rewrite log_cons, read_abort.
Defined.
End Callbacks.

(** A flip (seq 2) and a vblank (seq 1) of CRTC 3 have been asked for. *)
Definition vblank_entry : queue_entry :=
  Entry 20 0 5 1 (EventData 8) 7 3 (Some amdgpu_present_vblank_handler_proc) amdgpu_present_vblank_abort_proc false 0.
Definition flip_entry : queue_entry :=
  Entry 21 0 6 2 (FlipData 9) 7 3 (Some drmmode_flip_handler_proc) drmmode_flip_abort_proc true 0.
Definition w : world :=
  Sample.w <| w_next := 30%positive |> <| w_queue := Queue 1 [vblank_entry; flip_entry] [] [] [] 3 |>.

Lemma w_wf : queue_wf w.
Proof.
  split; try exact sample_nesting; try exact sample_config; try (repeat constructor; cbn; lia || set_solver).
Qed.
End Logging.


(** The kernel reports the vblank first; the flip is handed out before it. *)
Definition events_env : Env := fun history e =>
  match e as e return answer e with
  | DrmHandleEvent => (16, 0, [Event 100 1 5 1; Event 101 1 9 2])
  | e => Sample.env history e
  end.

Lemma handle_event_delivers_witness :
  @wp _ _ (@amdgpu_drm_handle_event events_env (Logging.busy events_env) 3) (fun r w' =>
    Logging.log w' = [Handled drmmode_flip_handler_proc 3 101 1000009 (FlipData 9);
                      Handled amdgpu_present_vblank_handler_proc 3 100 1000005 (EventData 8)]) Logging.w.
Proof.
  eapply wp_mono; [apply (@handle_event_delivers events_env (Logging.busy events_env)
    (Logging.busy_calm events_env) 3 Logging.w 16 0 [Event 100 1 5 1; Event 101 1 9 2]);
    [exact Logging.w_wf | | | reflexivity | left; lia | cbn; lia] |].
  - intros e. cbn. rewrite !elem_of_cons. intros [->|[->|?%not_elem_of_nil]]; [vm_compute; eauto.. | done].
  - repeat constructor; vm_compute; eauto.
  - intros r w' (_ & _ & _ & _ & _ & Hl). exact Hl.
Defined.

(** The vblank came while somebody waited for a flip of CRTC 3. *)
Definition deferred_w : world :=
  Sample.w <| w_next := 30%positive |>
    <| w_crtcs := {[3%positive := Sample.crtc <| driver_private ::= setf wait_flip_nesting_level (fun _ => 1) |>]} |>
    <| w_queue := Queue 1 [] [] [] [Logging.vblank_entry] 3 |>.

Lemma deferred_w_wf : queue_wf deferred_w.
Proof.
  assert (Hn : nest_of deferred_w 3 = Some 1) by reflexivity.
  split; try exact sample_config; try (repeat constructor; cbn; lia || set_solver).
  - intros c n. unfold nest_of, deferred_w. cbn. intros ([i x] & [_ <-]%lookup_singleton_Some & ->)%fmap_Some. done.
  - constructor; [| done]. exists 1. split; [exact Hn | done].
Qed.

Lemma deferred_delivered_witness :
  @wp _ _ (@amdgpu_drm_queue_handle_deferred (Logging.busy Sample.env) 2 3) (fun _ w' =>
    Logging.log w' = [Handled amdgpu_present_vblank_handler_proc 3 0 0 (EventData 8)]) deferred_w.
Proof.
  eapply wp_mono; [apply (@deferred_delivered Sample.env (Logging.busy Sample.env)
    (Logging.busy_calm Sample.env) 2 deferred_w 3
    (Sample.crtc <| driver_private ::= setf wait_flip_nesting_level (fun _ => 1) |>));
    [exact deferred_w_wf | reflexivity | reflexivity | | | vm_compute; lia] |].
  - intros e He. by apply not_elem_of_nil in He.
  - repeat constructor; vm_compute; eauto.
  - intros r w' (_ & _ & _ & Hl & _). exact Hl.
Defined.
