(* ===== verification/Bo.v ===== *)
(** * Buffer objects and pixmaps: amdgpu_bo_helper.c, amdgpu_pixmap.c,
    amdgpu_pixmap.h and the pixmap functions of amdgpu_glamor.c

    A buffer object ([struct amdgpu_buffer]) wraps a buffer of gbm or of
    libdrm_amdgpu and counts the pointers to it; pixmaps, the front buffer of a
    screen and the cursor buffers of a CRTC hold such pointers.  The invariant
    [bo_inv] says that the count is the number of pointers, so a buffer is
    neither leaked nor used after it was freed. *)
From stdpp Require Import strings.
From S2P Require Import Prelude Modes World Fb.

(** ** Constants of gbm, of the X server and of amdgpu_pixmap.h *)
Definition fourcc (a b c d : Z) : Z := a + b * 2 ^ 8 + c * 2 ^ 16 + d * 2 ^ 24.
Definition GBM_FORMAT_R8 : Z := fourcc 82 56 32 32.
Definition GBM_FORMAT_ARGB1555 : Z := fourcc 65 82 49 53.
Definition GBM_FORMAT_RGB565 : Z := fourcc 82 71 49 54.
Definition GBM_FORMAT_ARGB8888 : Z := fourcc 65 82 50 52.
Definition GBM_FORMAT_XRGB2101010 : Z := fourcc 88 82 51 48.
Definition GBM_FORMAT_XRGB8888 : Z := fourcc 88 82 50 52.
Definition GBM_BO_USE_SCANOUT : Z := 1.
Definition GBM_BO_USE_RENDERING : Z := 4.
Definition GBM_BO_USE_LINEAR : Z := 16.
Definition GBM_BO_USE_FRONT_RENDERING : Z := 64.
Definition CREATE_PIXMAP_USAGE_BACKING_PIXMAP : Z := 2.
Definition CREATE_PIXMAP_USAGE_GLYPH_PICTURE : Z := 3.
Definition CREATE_PIXMAP_USAGE_SHARED : Z := 4.
Definition AMDGPU_CREATE_PIXMAP_FRONT : Z := 0x10000000.
Definition AMDGPU_CREATE_PIXMAP_DRI2 : Z := 0x08000000.
Definition AMDGPU_CREATE_PIXMAP_LINEAR : Z := 0x04000000.
Definition AMDGPU_CREATE_PIXMAP_SCANOUT : Z := 0x02000000.
Definition AMDGPU_CREATE_PIXMAP_GTT : Z := 0x01000000.
Definition AMDGPU_GEM_DOMAIN_GTT : Z := 2.
Definition AMDGPU_GEM_DOMAIN_VRAM : Z := 4.

(** [flags & mask] as a condition. *)
Definition has_bit (flags mask : Z) : bool := negb (Z.land flags mask =? 0).

Definition AMDGPU_CREATE_PIXMAP_SHARED (usage : Z) : bool :=
  (usage =? AMDGPU_CREATE_PIXMAP_DRI2) || (usage =? CREATE_PIXMAP_USAGE_SHARED).

(** ** Sizes *)

(** [AMDGPU_ALIGN(x, bytes)] *)
Definition AMDGPU_ALIGN (x bytes : Z) : Z := Z.land (x + (bytes - 1)) (Z.lnot (bytes - 1)).

(** The alignment of a pitch in elements of [bpe] bytes; [None] where the
    division faults. *)
Definition drmmode_get_pitch_align (info : scrn_info) (bpe : Z) : option Z :=
  if have_tiling_info info then
    if bpe =? 0 then None
    else let q := Z.quot (group_bytes info) bpe in Some (if 64 >? q then 64 else q)
  else Some 512.

(** [None] is the source's [~0U]. *)
Definition amdgpu_get_gbm_format (dep bpp : Z) : option Z :=
  if dep =? 8 then Some GBM_FORMAT_R8
  else if dep =? 15 then Some GBM_FORMAT_ARGB1555
  else if dep =? 16 then Some GBM_FORMAT_RGB565
  else if dep =? 32 then Some GBM_FORMAT_ARGB8888
  else if dep =? 30 then Some GBM_FORMAT_XRGB2101010
  else if (dep =? 24) && (bpp =? 32) then Some GBM_FORMAT_XRGB8888
  else None.

(** [pitch] of the branch without gbm, in the [unsigned] of the source. *)
Definition linear_pitch (info : scrn_info) (width bpp : Z) : option Z :=
  let cpp := Z.quot (bpp + 7) 8 in
  (fun a => u32 (cpp * AMDGPU_ALIGN width a)) <$> drmmode_get_pitch_align info cpp.

Section Code.
Context `{env : Env}.

(** ** amdgpu_bo_helper.c *)

Definition calloc_buffer (refs : Z) : D (option loc) :=
  ok ← call (Calloc "amdgpu_buffer");
  if negb ok then mret None
  else l ← new w_bos (Buffer 0 0 refs 0); mret (Some l).

Definition amdgpu_bo_open (alloc_size phys_alignment domains : Z) : D (option loc) :=
  r ← calloc_buffer 0;
  match r with
  | None => mret None
  | Some l =>
      h ← call (AmdgpuBoAlloc alloc_size phys_alignment domains);
      match h with
      | None => _ ← free w_bos l; mret None
      | Some h =>
          _ ← update w_bos l (fun b => b <| bo_handle := h |> <| ref_count := 1 |>);
          mret (Some l)
      end
  end.

(** The [bo_use] flags of [amdgpu_alloc_pixmap_bo]. *)
Definition gbm_use (usage_hint : Z) : Z :=
  let use := GBM_BO_USE_RENDERING in
  let use := if has_bit usage_hint AMDGPU_CREATE_PIXMAP_SCANOUT
             then Z.lor use GBM_BO_USE_SCANOUT else use in
  let use := if has_bit usage_hint AMDGPU_CREATE_PIXMAP_FRONT
             then Z.lor use GBM_BO_USE_FRONT_RENDERING else use in
  if (usage_hint =? CREATE_PIXMAP_USAGE_SHARED) || has_bit usage_hint AMDGPU_CREATE_PIXMAP_LINEAR
  then Z.lor use GBM_BO_USE_LINEAR else use.

(** The buffer and the value written to [*new_pitch], if any. *)
Definition amdgpu_alloc_pixmap_bo (scrn : loc) (width height dep usage_hint bpp : Z)
  : D (option loc * option Z) :=
  info ← load w_scrns scrn;
  if negb (has_bit usage_hint AMDGPU_CREATE_PIXMAP_GTT) && has_gbm info then
    match amdgpu_get_gbm_format dep bpp with
    | None => mret (None, None)
    | Some gbm_format =>
        r ← calloc_buffer 1;
        match r with
        | None => mret (None, None)
        | Some l =>
            h ← call (GbmBoCreate width height gbm_format (gbm_use usage_hint));
            match h with
            | None => _ ← free w_bos l; mret (None, None)
            | Some h =>
                _ ← update w_bos l (fun b =>
                      b <| bo_handle := h |> <| bo_flags ::= Z.lor AMDGPU_BO_FLAGS_GBM |>);
                stride ← call (GbmBoGetStride h);
                mret (Some l, Some stride)
            end
        end
    end
  else
    pitch ← some_or DivByZero (linear_pitch info width bpp);
    let domain := if has_bit usage_hint AMDGPU_CREATE_PIXMAP_GTT
                  then AMDGPU_GEM_DOMAIN_GTT else AMDGPU_GEM_DOMAIN_VRAM in
    r ← amdgpu_bo_open (u32 (pitch * height)) 4096 domain;
    mret (r, Some pitch).

Definition is_gbm (b : amdgpu_buffer) : bool := has_bit (bo_flags b) AMDGPU_BO_FLAGS_GBM.

Definition amdgpu_bo_get_handle (bo : loc) : D (option Z) :=
  b ← load w_bos bo;
  if is_gbm b then h ← call (GbmBoGetHandle (bo_handle b)); mret (Some h)
  else call (AmdgpuBoExport (bo_handle b)).

(** The result is the C function's [int], zero for success. *)
Definition amdgpu_bo_map (bo : loc) : D Z :=
  b ← load w_bos bo;
  if is_gbm b then
    handle ← call (GbmBoGetHandle (bo_handle b));
    stride ← call (GbmBoGetStride (bo_handle b));
    height ← call (GbmBoGetHeight (bo_handle b));
    r ← call (DrmAmdgpuGemMmap handle);
    let '(ret, addr) := r in
    if negb (ret =? 0) then mret ret
    else
      ptr ← call (Mmap (u32 (stride * height)) addr);
      if ptr =? 0 then mret (-1)
      else _ ← update w_bos bo (setf cpu_ptr (fun _ => ptr)); mret ret
  else
    r ← call (AmdgpuBoCpuMap (bo_handle b));
    let '(ret, ptr) := r in
    _ ← mwhen (ret =? 0) (update w_bos bo (setf cpu_ptr (fun _ => ptr)));
    mret ret.

Definition amdgpu_bo_unmap (bo : loc) : D unit :=
  b ← load w_bos bo;
  if cpu_ptr b =? 0 then mret tt
  else if is_gbm b then
    stride ← call (GbmBoGetStride (bo_handle b));
    height ← call (GbmBoGetHeight (bo_handle b));
    call (Munmap (cpu_ptr b) (u32 (stride * height)))
  else call (AmdgpuBoCpuUnmap (bo_handle b)).

Definition amdgpu_bo_ref (buffer : loc) : D unit :=
  update w_bos buffer (setf ref_count (fun n => u32 (n + 1))).

(** [amdgpu_bo_unref(&v)] for a variable [v] with the value [buffer]; the result
    is the new value of the variable. *)
Definition amdgpu_bo_unref (buffer : option loc) : D (option loc) :=
  l ← deref buffer;
  _ ← update w_bos l (setf ref_count (fun n => u32 (n - 1)));
  buf ← load w_bos l;
  if negb (ref_count buf =? 0) then mret buffer
  else
    _ ← amdgpu_bo_unmap l;
    _ ← (if is_gbm buf then call (GbmBoDestroy (bo_handle buf))
         else call (AmdgpuBoFree (bo_handle buf)));
    _ ← free w_bos l;
    mret None.

Definition amdgpu_gem_bo_open_prime (fd_handle : Z) : D (option loc) :=
  r ← calloc_buffer 0;
  match r with
  | None => mret None
  | Some l =>
      h ← call (AmdgpuBoImport fd_handle);
      match h with
      | None => _ ← free w_bos l; mret None
      | Some h =>
          _ ← update w_bos l (fun b => b <| bo_handle := h |> <| ref_count := 1 |>);
          mret (Some l)
      end
  end.

(** ** The driver's private part of a pixmap: amdgpu_pixmap.h *)

Definition get_priv (pix : loc) : D (option amdgpu_pixmap) :=
  p ← load w_pixmaps pix; mret (pix_priv p).

Definition set_priv (pix : loc) (v : option amdgpu_pixmap) : D unit :=
  update w_pixmaps pix (setf pix_priv (fun _ => v)).

(** A [calloc]ed private. *)
Definition priv0 : amdgpu_pixmap := Priv 0 0 0 None None false false 0.

Definition amdgpu_get_pixmap_bo (pix : loc) : D (option loc) :=
  priv ← get_priv pix; mret (priv ≫= priv_bo).

(** The private is part of the pixmap here: [free(priv)] followed by
    [amdgpu_set_pixmap_private(pPix, NULL)] is one update. *)
Definition amdgpu_set_pixmap_bo (pix : loc) (bo : option loc) : D bool :=
  priv ← get_priv pix;
  match priv, bo with
  | None, None => mret true
  | None, Some b =>
      ok ← call (Calloc "amdgpu_pixmap");
      if negb ok then mret false
      else
        _ ← amdgpu_bo_ref b;
        _ ← set_priv pix (Some (priv0 <| priv_bo := Some b |>));
        mret true
  | Some pr, _ =>
      if bool_decide (priv_bo pr <> None /\ priv_bo pr = bo) then mret true
      else
        _ ← match priv_bo pr with
            | Some _ =>
                v ← amdgpu_bo_unref (priv_bo pr);
                set_priv pix (Some (pr <| priv_bo := v |> <| handle_valid := false |>))
            | None => mret tt
            end;
        _ ← drmmode_fb_reference (SPriv pix) None;
        match bo with
        | None => _ ← set_priv pix None; mret true
        | Some b =>
            _ ← amdgpu_bo_ref b;
            pr' ← get_priv pix;
            pr' ← some_or NullDeref pr';
            _ ← set_priv pix (Some (pr' <| priv_bo := Some b |>));
            mret true
        end
  end.

Definition amdgpu_pixmap_do_get_tiling_info (pix : loc) : D unit :=
  priv ← get_priv pix;
  pr ← some_or NullDeref priv;
  r ← call (DrmAmdgpuGemMetadata (priv_handle pr));
  match r with
  | Some t => set_priv pix (Some (pr <| tiling_info := t |>))
  | None => mret tt
  end.

(** [Some handle] is [TRUE] with [*handle] set.  The result of the [calloc] is
    used without a test. *)
Definition amdgpu_pixmap_get_handle (pix : loc) : D (option Z) :=
  p ← load w_pixmaps pix;
  info ← load w_scrns (pix_scrn p);
  if shadow_fb info then mret None
  else
    _ ← match pix_priv p with
        | Some _ => mret tt
        | None =>
            ok ← call (Calloc "amdgpu_pixmap");
            set_priv pix (if ok : bool then Some priv0 else None)
        end;
    priv ← get_priv pix;
    pr ← some_or NullDeref priv;
    let success : D (option Z) :=
      priv ← get_priv pix;
      pr ← some_or NullDeref priv;
      _ ← set_priv pix (Some (pr <| handle_valid := true |>));
      mret (Some (priv_handle pr)) in
    if handle_valid pr then success
    else if use_glamor info then
      fd ← call (GlamorFdFromPixmap pix);
      if fd <? 0 then mret None
      else
        r ← call (DrmPrimeFDToHandle fd);
        _ ← match r with
            | Some h => set_priv pix (Some (pr <| priv_handle := h |>))
            | None => mret tt
            end;
        _ ← call (CloseFd fd);
        match r with
        | None => mret None
        | Some _ => _ ← amdgpu_pixmap_do_get_tiling_info pix; success
        end
    else
      match priv_bo pr with
      | None => mret None
      | Some bo =>
          r ← amdgpu_bo_get_handle bo;
          match r with
          | None => mret None
          | Some h => _ ← set_priv pix (Some (pr <| priv_handle := h |>)); success
          end
      end.

Definition amdgpu_pixmap_get_tiling_info (pix : loc) : D Z :=
  priv ← get_priv pix;
  _ ← match priv with
      | Some pr => if handle_valid pr then mret None else amdgpu_pixmap_get_handle pix
      | None => amdgpu_pixmap_get_handle pix
      end;
  priv ← get_priv pix;
  pr ← some_or NullDeref priv;
  mret (tiling_info pr).

(** [amdgpu_pixmap_get_fb_ptr]: whether there is a slot [&priv->fb]. *)
Definition amdgpu_pixmap_get_fb_ptr (pix : loc) : D (option fb_slot) :=
  p ← load w_pixmaps pix;
  info ← load w_scrns (pix_scrn p);
  mret (if use_glamor info then
          match pix_priv p with Some _ => Some (SPriv pix) | None => None end
        else None).

Definition amdgpu_pixmap_get_fb (pix : loc) : D (option loc) :=
  fb_ptr ← amdgpu_pixmap_get_fb_ptr pix;
  cur ← match fb_ptr with Some s => read_slot s | None => mret None end;
  match cur with
  | Some fb => mret (Some fb)
  | None =>
      h ← amdgpu_pixmap_get_handle pix;
      fb_ptr ← match h with
        | None => mret fb_ptr
        | Some handle =>
            p ← load w_pixmaps pix;
            info ← load w_scrns (pix_scrn p);
            fb_ptr ← match fb_ptr with
                     | Some s => mret (Some s)
                     | None => amdgpu_pixmap_get_fb_ptr pix
                     end;
            fb ← amdgpu_fb_create info (pix_width p) (pix_height p) (devKind p) handle;
            s ← some_or NullDeref fb_ptr;
            _ ← write_slot s fb;
            mret (Some s)
        end;
      match fb_ptr with Some s => read_slot s | None => mret None end
  end.

(** ** Creating and destroying pixmaps *)

(** The X server's [fbCreatePixmap] and glamor's [glamor_create_pixmap]: a new
    pixmap with one reference and no private of the driver, or [NULL]. *)
Definition new_pixmap_from (r : option new_pixmap) (scrn : loc) (w h dep usage : Z) : D (option loc) :=
  match r with
  | None => mret None
  | Some np =>
      l ← new w_pixmaps (Pixmap scrn w h dep (np_bpp np) (np_devKind np) 1 None (np_ptr np) usage);
      mret (Some l)
  end.
Definition fbCreatePixmap (scrn : loc) (w h dep usage : Z) : D (option loc) :=
  r ← call (FbCreatePixmap w h dep usage); new_pixmap_from r scrn w h dep usage.
Definition glamor_create_pixmap (scrn : loc) (w h dep usage : Z) : D (option loc) :=
  r ← call (GlamorCreatePixmap w h dep usage); new_pixmap_from r scrn w h dep usage.

(** The X server drops one reference and says whether it freed the pixmap. *)
Definition drop_pixmap (pix : loc) (freed : bool) : D unit :=
  if freed then free w_pixmaps pix
  else update w_pixmaps pix (setf pix_refcnt (fun n => n - 1)).
Definition fbDestroyPixmap (pix : loc) : D unit :=
  freed ← call (FbDestroyPixmap pix); drop_pixmap pix freed.

Definition modify_pixmap_header (pix : loc) (w h dep bpp kind ptr : Z) : D unit :=
  r ← call (ModifyPixmapHeader pix w h dep bpp kind ptr);
  update w_pixmaps pix (fun p =>
    p <| pix_width := nh_width r |> <| pix_height := nh_height r |>
      <| pix_depth := nh_depth r |> <| pix_bpp := nh_bpp r |>
      <| devKind := nh_devKind r |> <| devPrivate_ptr := nh_ptr r |>).

(** amdgpu_pixmap.c, used when glamor is disabled. *)
Definition amdgpu_pixmap_create (scrn : loc) (w h dep usage : Z) : D (option loc) :=
  if negb (has_bit usage AMDGPU_CREATE_PIXMAP_DRI2) then fbCreatePixmap scrn w h dep usage
  else if (w >? 32767) || (h >? 32767) then mret None
  else if dep =? 1 then fbCreatePixmap scrn w h dep usage
  else
    pixmap ← fbCreatePixmap scrn 0 0 dep usage;
    match pixmap with
    | None => mret None
    | Some pix =>
        if (w =? 0) || (h =? 0) then mret (Some pix)
        else
          let fallback_pixmap usage :=
            _ ← fbDestroyPixmap pix; fbCreatePixmap scrn w h dep usage in
          ok ← call (Calloc "amdgpu_pixmap");
          if negb ok then fallback_pixmap usage
          else
            info ← load w_scrns scrn;
            let usage := if use_glamor info then usage
                         else Z.lor usage AMDGPU_CREATE_PIXMAP_LINEAR in
            p ← load w_pixmaps pix;
            r ← amdgpu_alloc_pixmap_bo scrn w h dep usage (pix_bpp p);
            match r with
            | (None, _) => fallback_pixmap usage
            | (Some bo, stride) =>
                _ ← set_priv pix (Some (priv0 <| priv_bo := Some bo |>));
                m ← amdgpu_bo_map bo;
                if negb (m =? 0) then
                  v ← amdgpu_bo_unref (Some bo);
                  _ ← set_priv pix None;
                  fallback_pixmap usage
                else
                  stride ← some_or NullDeref stride;
                  b ← load w_bos bo;
                  _ ← modify_pixmap_header pix w h 0 0 stride (cpu_ptr b);
                  mret (Some pix)
            end
    end.

Definition amdgpu_pixmap_destroy (pix : loc) : D bool :=
  p ← load w_pixmaps pix;
  _ ← mwhen (pix_refcnt p =? 1) (_ ← amdgpu_set_pixmap_bo pix None; mret tt);
  _ ← fbDestroyPixmap pix;
  mret true.

(** ** amdgpu_glamor.c *)

Definition amdgpu_glamor_create_textured_pixmap (pix bo : loc) : D bool :=
  p ← load w_pixmaps pix;
  info ← load w_scrns (pix_scrn p);
  if negb (use_glamor info) then mret true
  else
    b ← load w_bos bo;
    if is_gbm b then call (GlamorTexturedFromGbm pix (bo_handle b))
    else
      h ← amdgpu_bo_get_handle bo;
      match h with
      | None => mret false
      | Some handle => call (GlamorTexturedFromHandle pix handle (devKind p))
      end.

Definition amdgpu_glamor_destroy_pixmap (pix : loc) : D bool :=
  p ← load w_pixmaps pix;
  _ ← mwhen (pix_refcnt p =? 1)
        (_ ← mwhen (negb (devPrivate_ptr p =? 0))
               (bo ← amdgpu_get_pixmap_bo pix;
                match bo with Some b => amdgpu_bo_unmap b | None => mret tt end);
         _ ← amdgpu_set_pixmap_bo pix None;
         mret tt);
  freed ← call (GlamorDestroyPixmap pix);
  _ ← drop_pixmap pix freed;
  mret true.

(** The usage after the scanout test of [amdgpu_glamor_create_pixmap]. *)
Definition scanout_usage (info : scrn_info) (format_bpp w h usage : Z) : Z :=
  if negb (usage =? CREATE_PIXMAP_USAGE_BACKING_PIXMAP)
     && negb (usage =? CREATE_PIXMAP_USAGE_SHARED)
     && negb (shadow_primary info) && (virtualX info <=? w) && (w <=? displayWidth info)
     && (h =? virtualY info) && (format_bpp =? bitsPerPixel info)
  then Z.lor usage AMDGPU_CREATE_PIXMAP_SCANOUT else usage.

(** The part of [amdgpu_glamor_create_pixmap] that gives the pixmap a buffer. *)
Definition glamor_create_with_bo (scrn : loc) (w h dep usage : Z) : D (option loc) :=
  if (w >? 32767) || (h >? 32767) then mret None
  else if dep =? 1 then fbCreatePixmap scrn w h dep usage
  else if (usage =? CREATE_PIXMAP_USAGE_GLYPH_PICTURE) && (w <=? 32) && (h <=? 32)
  then fbCreatePixmap scrn w h dep usage
  else
    pixmap ← fbCreatePixmap scrn 0 0 dep usage;
    match pixmap with
    | None => mret None
    | Some pix =>
        if (w =? 0) || (h =? 0) then mret (Some pix)
        else
          let fallback_pixmap new_pixmap :=
            _ ← fbDestroyPixmap pix;
            match new_pixmap with
            | Some n => mret (Some n)
            | None => fbCreatePixmap scrn w h dep usage
            end in
          ok ← call (Calloc "amdgpu_pixmap");
          if negb ok then fallback_pixmap None
          else
            p ← load w_pixmaps pix;
            r ← amdgpu_alloc_pixmap_bo scrn w h dep usage (pix_bpp p);
            match r with
            | (None, _) => fallback_pixmap None
            | (Some bo, stride) =>
                _ ← set_priv pix (Some (priv0 <| priv_bo := Some bo |>));
                stride ← some_or NullDeref stride;
                _ ← modify_pixmap_header pix w h 0 0 stride 0;
                _ ← update w_pixmaps pix (setf devPrivate_ptr (fun _ => 0));
                t ← amdgpu_glamor_create_textured_pixmap pix bo;
                if t : bool then mret (Some pix)
                else if AMDGPU_CREATE_PIXMAP_SHARED usage then
                  _ ← amdgpu_glamor_destroy_pixmap pix; mret None
                else
                  new_pixmap ← glamor_create_pixmap scrn w h dep usage;
                  _ ← amdgpu_bo_unref (Some bo);
                  _ ← set_priv pix None;
                  fallback_pixmap new_pixmap
            end
    end.

(** [format_bpp] is the pixmap format of the depth, [None] where the server has
    none. *)
Definition amdgpu_glamor_create_pixmap (scrn : loc) (format_bpp : option Z) (w h dep usage : Z)
  : D (option loc) :=
  match format_bpp with
  | None => mret None
  | Some fbpp =>
      info ← load w_scrns scrn;
      let usage := scanout_usage info fbpp w h usage in
      if negb (has_bit usage AMDGPU_CREATE_PIXMAP_SCANOUT)
         && negb (AMDGPU_CREATE_PIXMAP_SHARED usage) then
        if shadow_primary info then
          if negb (usage =? CREATE_PIXMAP_USAGE_BACKING_PIXMAP)
          then fbCreatePixmap scrn w h dep usage
          else glamor_create_with_bo scrn w h dep
                 (Z.lor usage (Z.lor AMDGPU_CREATE_PIXMAP_LINEAR AMDGPU_CREATE_PIXMAP_GTT))
        else if negb (usage =? CREATE_PIXMAP_USAGE_BACKING_PIXMAP) then
          pixmap ← glamor_create_pixmap scrn w h dep usage;
          match pixmap with
          | Some pix => mret (Some pix)
          | None => glamor_create_with_bo scrn w h dep usage
          end
        else glamor_create_with_bo scrn w h dep usage
      else glamor_create_with_bo scrn w h dep usage
  end.

(** ** Sharing: [amdgpu_set_shared_pixmap_backing] *)

(** What both branches do with the new buffer, of which the function holds the
    first reference. *)
Definition give_to_pixmap (pix bo : loc) : D bool :=
  ret ← amdgpu_set_pixmap_bo pix (Some bo);
  _ ← amdgpu_bo_unref (Some bo);
  mret ret.

Definition amdgpu_set_shared_pixmap_backing (pix : loc) (ihandle : Z) : D bool :=
  p ← load w_pixmaps pix;
  info ← load w_scrns (pix_scrn p);
  if ihandle =? -1 then amdgpu_set_pixmap_bo pix None
  else if has_gbm info then
    match amdgpu_get_gbm_format (pix_depth p) (pix_bpp p) with
    | None => mret false
    | Some format =>
        r ← calloc_buffer 1;
        match r with
        | None => mret false
        | Some bo =>
            let bo_use := if pix_bpp p =? bitsPerPixel info
                          then Z.lor GBM_BO_USE_RENDERING GBM_BO_USE_SCANOUT
                          else GBM_BO_USE_RENDERING in
            h ← call (GbmBoImport ihandle (pix_width p) (pix_height p) (devKind p) format bo_use);
            match h with
            | None => _ ← free w_bos bo; mret false
            | Some h =>
                _ ← update w_bos bo (fun b =>
                      b <| bo_handle := h |> <| bo_flags ::= Z.lor AMDGPU_BO_FLAGS_GBM |>);
                t ← (if use_glamor info then amdgpu_glamor_create_textured_pixmap pix bo
                     else mret true);
                if negb t then _ ← amdgpu_bo_unref (Some bo); mret false
                else give_to_pixmap pix bo
            end
        end
    end
  else
    r ← amdgpu_gem_bo_open_prime ihandle;
    match r with
    | None => mret false
    | Some bo => _ ← call (CloseFd ihandle); give_to_pixmap pix bo
    end.

Definition amdgpu_glamor_set_shared_pixmap_backing (pix : loc) (ihandle : Z) : D bool :=
  ok ← amdgpu_set_shared_pixmap_backing pix ihandle;
  if negb ok then mret false
  else
    priv ← get_priv pix;
    t ← (if negb (ihandle =? -1) then
           pr ← some_or NullDeref priv;
           bo ← deref (priv_bo pr);
           amdgpu_glamor_create_textured_pixmap pix bo
         else mret true);
    if negb t then mret false
    else
      p ← load w_pixmaps pix;
      _ ← modify_pixmap_header pix (pix_width p) (pix_height p) 0 0 0 0;
      mret true.
End Code.

(** ** The count of a buffer is the number of pointers to it *)

Definition pix_bo_refs (l : loc) (p : pixmap) : Z :=
  match pix_priv p with Some pr => points l (priv_bo pr) | None => 0 end.
Definition scrn_bo_refs (l : loc) (s : scrn_info) : Z := points l (front_buffer s).
Definition crtc_bo_refs (l : loc) (c : xf86Crtc) : Z :=
  points l (cursor_buffer (driver_private c)).1 + points l (cursor_buffer (driver_private c)).2.

Definition bo_refs (w : world) (l : loc) : Z :=
  msum (pix_bo_refs l) (w_pixmaps w) + msum (scrn_bo_refs l) (w_scrns w)
  + msum (crtc_bo_refs l) (w_crtcs w).

(** [extra] counts references held in local variables of a running function. *)
Record bo_inv_with (extra : loc -> Z) (w : world) : Prop := {
  bi_count : counted ref_count (w_bos w) (fun l => bo_refs w l + extra l);
  bi_width : forall l b, w_bos w !! l = Some b -> ref_count b < 2 ^ 32;
  bi_bound : forall l, is_Some (w_bos w !! l) -> (l < w_next w)%positive
}.
Definition bo_inv : world -> Prop := bo_inv_with (fun _ => 0).

(** Both kinds of counts are right, and every pixmap has an address the
    allocator has handed out. *)
Record mem_inv_with (extra : loc -> Z) (w : world) : Prop := {
  mi_fb : fb_inv w;
  mi_bo : bo_inv_with extra w;
  mi_pix : forall l, is_Some (w_pixmaps w !! l) -> (l < w_next w)%positive
}.
Definition mem_inv : world -> Prop := mem_inv_with (fun _ => 0).

Lemma bo_refs_frame w w' l :
  w_pixmaps w' = w_pixmaps w -> w_scrns w' = w_scrns w -> w_crtcs w' = w_crtcs w ->
  bo_refs w' l = bo_refs w l.
Proof. intros Hp Hs Hc. unfold bo_refs. by rewrite Hp, Hs, Hc. Qed.

(** The invariant does not look at the other parts of the state. *)
Lemma mem_inv_frame ex w w' :
  w_fbs w' = w_fbs w -> w_bos w' = w_bos w -> w_pixmaps w' = w_pixmaps w ->
  w_scrns w' = w_scrns w -> w_crtcs w' = w_crtcs w -> w_flipdata w' = w_flipdata w ->
  (w_next w <= w_next w')%positive -> mem_inv_with ex w -> mem_inv_with ex w'.
Proof.
  intros Hf Hb Hp Hs Hc Hd Hn [Hfb [Hcnt Hwd Hbd] Hpx]. split; [| split |].
  - by apply (fb_inv_frame _ w).
  - rewrite Hb. eapply counted_ext; [| exact Hcnt]. intros l. cbn. by rewrite (bo_refs_frame w w').
  - rewrite Hb. apply Hwd.
  - rewrite Hb. intros l Hl. specialize (Hbd l Hl). lia.
  - rewrite Hp. intros l Hl. specialize (Hpx l Hl). lia.
Qed.

Lemma mem_inv_trace ex w t : mem_inv_with ex w -> mem_inv_with ex (w <| w_trace := t |>).
Proof. by apply mem_inv_frame. Qed.

Lemma mem_inv_ext ex ex' w :
  (forall l, ex l = ex' l) -> mem_inv_with ex w -> mem_inv_with ex' w.
Proof.
  intros He [Hf [Hc ? ?] ?]. split; [done | | done]. split; [| done | done].
  eapply counted_ext; [| exact Hc]. intros l. cbn. by rewrite He.
Qed.

Lemma pix_bo_refs_range l p : 0 <= pix_bo_refs l p <= 1.
Proof. unfold pix_bo_refs. destruct (pix_priv p); [apply points_range | done]. Qed.

Lemma bo_refs_nonneg w l : 0 <= bo_refs w l.
Proof.
  unfold bo_refs.
  assert (0 <= msum (pix_bo_refs l) (w_pixmaps w))
    by (apply msum_nonneg; intros; apply pix_bo_refs_range).
  assert (0 <= msum (scrn_bo_refs l) (w_scrns w))
    by (apply msum_nonneg; intros; apply points_range).
  assert (0 <= msum (crtc_bo_refs l) (w_crtcs w))
    by (apply msum_nonneg; intros; apply Z.add_nonneg_nonneg; apply points_range).
  lia.
Qed.

(** The pointer of a pixmap is one of the references. *)
Lemma bo_refs_pix w pix p pr l :
  w_pixmaps w !! pix = Some p -> pix_priv p = Some pr -> priv_bo pr = Some l -> 1 <= bo_refs w l.
Proof.
  intros Hp Hpr Hl. unfold bo_refs.
  assert (pix_bo_refs l p <= msum (pix_bo_refs l) (w_pixmaps w))
    by (apply (msum_pos _ _ pix); [intros; apply pix_bo_refs_range | done]).
  assert (pix_bo_refs l p = 1) by (unfold pix_bo_refs; rewrite Hpr, Hl; apply points_self).
  assert (0 <= msum (scrn_bo_refs l) (w_scrns w))
    by (apply msum_nonneg; intros; apply points_range).
  assert (0 <= msum (crtc_bo_refs l) (w_crtcs w))
    by (apply msum_nonneg; intros; apply Z.add_nonneg_nonneg; apply points_range).
  lia.
Qed.

(** Slots of framebuffers do not hold buffers. *)
Lemma bo_refs_slot_set s v w l : bo_refs (slot_set s v w) l = bo_refs w l.
Proof.
  destruct s; cbn [slot_set]; unfold bo_refs, setf; cbn; [| | | done];
    rewrite msum_alter_same; try done.
  intros p. unfold pix_bo_refs. cbn. by destruct (pix_priv p).
Qed.

Section Rules.
Context `{env : Env}.

(** *** The effects of [amdgpu_bo_ref] and [amdgpu_bo_unref] *)

Definition bo_acquire (l : loc) : gmap loc amdgpu_buffer -> gmap loc amdgpu_buffer :=
  alter (setf ref_count (fun n => n + 1)) l.
Definition bo_release (l : loc) (bos : gmap loc amdgpu_buffer) : gmap loc amdgpu_buffer :=
  match bos !! l with
  | Some b => if ref_count b =? 1 then delete l bos
              else <[l := b <| ref_count := ref_count b - 1 |>]> bos
  | None => bos
  end.

Lemma wp_bo_unmap l b (Q : unit -> world -> Prop) w :
  w_bos w !! l = Some b -> (forall t, Q tt (w <| w_trace := t |>)) ->
  wp (amdgpu_bo_unmap l) Q w.
Proof.
  intros Hl HQ. unfold amdgpu_bo_unmap. apply wp_bind, (wp_load _ _ b); [done |].
  destruct (cpu_ptr b =? 0); [apply wp_ret; specialize (HQ (w_trace w)); by destruct w |].
  destruct (is_gbm b).
  - apply wp_bind. wp_ext. apply wp_bind. wp_ext. wp_ext. by_trace HQ.
  - wp_ext. by_trace HQ.
Qed.

Lemma wp_bo_unref l b (Q : option loc -> world -> Prop) w :
  w_bos w !! l = Some b -> 0 < ref_count b < 2 ^ 32 ->
  (forall t, Q (if ref_count b =? 1 then None else Some l)
               (w <| w_bos ::= bo_release l |> <| w_trace := t |>)) ->
  wp (amdgpu_bo_unref (Some l)) Q w.
Proof.
  intros Hl Hb HQ. unfold bo_release, setf in HQ. cbn in HQ. rewrite Hl in HQ.
  unfold amdgpu_bo_unref. apply wp_bind, (wp_deref _ l); [done |].
  apply wp_bind, (wp_update _ _ b); [done |].
  apply wp_bind, (wp_load _ _ (setf ref_count (fun n => u32 (n - 1)) b)); [apply lookup_insert_eq |].
  unfold setf. cbn [ref_count]. rewrite u32_id by (unfold in_u32; lia).
  destruct (Z.eqb_spec (ref_count b) 1) as [Heq|Hne].
  - rewrite Heq. cbn [Z.sub Z.eqb negb]. apply wp_bind.
    eapply wp_bo_unmap; [apply lookup_insert_eq |]. intros t. apply wp_bind.
    destruct (is_gbm _).
    + wp_ext. apply wp_bind. eapply wp_free; [apply lookup_insert_eq |]. apply wp_ret.
      match goal with |- context [cons ?e] => specialize (HQ (e :: t)) end.
      revert HQ. unfold setf. cbn. by rewrite delete_insert_eq.
    + wp_ext. apply wp_bind. eapply wp_free; [apply lookup_insert_eq |]. apply wp_ret.
      match goal with |- context [cons ?e] => specialize (HQ (e :: t)) end.
      revert HQ. unfold setf. cbn. by rewrite delete_insert_eq.
  - destruct (Z.eqb_spec (ref_count b - 1) 0); [lia |]. apply wp_ret.
    specialize (HQ (w_trace w)). by destruct w.
Qed.

Lemma wp_bo_ref l b (Q : unit -> world -> Prop) w :
  w_bos w !! l = Some b -> 0 <= ref_count b < 2 ^ 32 - 1 ->
  Q tt (w <| w_bos ::= bo_acquire l |>) -> wp (amdgpu_bo_ref l) Q w.
Proof.
  intros Hl Hb HQ. apply (wp_update _ _ b); [done |]. unfold bo_acquire, setf in *.
  rewrite <- (alter_insert_id _ _ _ _ Hl) in HQ. cbn in *.
  by rewrite u32_id by (unfold in_u32; lia).
Qed.

(** *** Owned references

    The rules move references between the pointers of the state and the local
    variables, counted by [extra]. *)

Lemma mem_inv_release ex w l b :
  mem_inv_with ex w -> w_bos w !! l = Some b ->
  mem_inv_with (fun k => ex k - points k (Some l)) (w <| w_bos ::= bo_release l |>).
Proof.
  intros [Hf [Hc Hw Hb] Hp] Hbl. destruct (counted_pos _ _ _ l b Hc Hbl) as [Hrc Hpos].
  split; [by apply (fb_inv_frame _ w) | | done]. unfold bo_release, setf.
  split; cbn; rewrite Hbl; destruct (Z.eqb_spec (ref_count b) 1) as [H1|H1].
  - eapply counted_ext; [| apply (counted_delete _ _ _ l Hc); lia].
    intros k. cbn. change (bo_refs (World _ _ _ _ _ _ _ _ _ _ _ _ _ _ _ _)) with (bo_refs w). lia.
  - eapply counted_ext; [| apply (counted_insert _ _ _ l _ (-1) Hc); cbn; lia].
    intros k. cbn. change (bo_refs (World _ _ _ _ _ _ _ _ _ _ _ _ _ _ _ _)) with (bo_refs w). lia.
  - intros k b' Hk. apply lookup_delete_Some in Hk as [_ Hk]. by eapply Hw.
  - intros k b' Hk. apply lookup_insert_Some in Hk as [[-> <-]|[_ Hk]]; [| by eapply Hw].
    cbn. pose proof (Hw _ _ Hbl). lia.
  - intros k [b' Hk]. apply lookup_delete_Some in Hk as [_ Hk]. apply Hb. eauto.
  - intros k [b' Hk]. apply lookup_insert_Some in Hk as [[-> _]|[_ Hk]]; apply Hb; eauto.
Qed.

(** A local variable gives up its reference. *)
Lemma wp_bo_unref_owned ex l b (Q : option loc -> world -> Prop) w :
  mem_inv_with ex w -> w_bos w !! l = Some b ->
  (forall t, mem_inv_with (fun k => ex k - points k (Some l))
               (w <| w_bos ::= bo_release l |> <| w_trace := t |>) ->
     Q (if ref_count b =? 1 then None else Some l)
       (w <| w_bos ::= bo_release l |> <| w_trace := t |>)) ->
  wp (amdgpu_bo_unref (Some l)) Q w.
Proof.
  intros Hinv Hl HQ. pose proof (mem_inv_release ex w l b Hinv Hl) as Hinv'.
  destruct Hinv as [_ [Hc Hw _] _]. destruct (counted_pos _ _ _ l b Hc Hl) as [Hrc Hpos].
  apply (wp_bo_unref l b); [done | split; [lia | by eapply Hw] |].
  intros t. by apply HQ, mem_inv_trace.
Qed.

Lemma mem_inv_acquire ex w l b :
  mem_inv_with ex w -> w_bos w !! l = Some b -> ref_count b < 2 ^ 32 - 1 ->
  mem_inv_with (fun k => ex k + points k (Some l)) (w <| w_bos ::= bo_acquire l |>).
Proof.
  intros [Hf [Hc Hw Hb] Hp] Hl Hlt. split; [by apply (fb_inv_frame _ w) | | done].
  unfold bo_acquire, setf. cbn. pose proof (counted_pos _ _ _ _ _ Hc Hl) as [Hrc Hpos].
  split; cbn; rewrite <- (alter_insert_id _ _ _ _ Hl).
  - eapply counted_ext; [| apply (counted_insert _ _ _ l _ 1 Hc); cbn; lia].
    intros k. cbn. rewrite ?points_self; change (bo_refs (World _ _ _ _ _ _ _ _ _ _ _ _ _ _ _ _)) with (bo_refs w); lia.
  - intros k b' Hk. apply lookup_insert_Some in Hk as [[-> <-]|[_ Hk]]; [cbn; lia | by eapply Hw].
  - intros k [b' Hk]. apply lookup_insert_Some in Hk as [[-> _]|[_ Hk]]; apply Hb; eauto.
Qed.

Definition priv_bo_refs (l : loc) (v : option amdgpu_pixmap) : Z :=
  match v with Some pr => points l (priv_bo pr) | None => 0 end.

(** Writing the private of a pixmap, the framebuffer pointer apart. *)
Lemma mem_inv_set_priv ex w pix p v :
  mem_inv_with ex w -> w_pixmaps w !! pix = Some p ->
  (pix_priv p ≫= priv_fb) = (v ≫= priv_fb) ->
  mem_inv_with (fun k => ex k + priv_bo_refs k (pix_priv p) - priv_bo_refs k v)
    (w <| w_pixmaps ::= <[pix := p <| pix_priv := v |>]> |>).
Proof.
  intros [[Hf Hfb] [Hc Hw Hb] Hp] Hpix Hv. split; [split | split |]; unfold setf; cbn; try done.
  - intros l. specialize (Hf l). unfold fb_refs in *. cbn.
    rewrite (msum_insert _ _ _ p) by done.
    assert (priv_refs l p = priv_refs l (p <| pix_priv := v |>)) as Heq.
    { unfold priv_refs. cbn. destruct (pix_priv p), v; cbn in Hv; [by rewrite Hv | by rewrite Hv, points_None | by rewrite <- Hv, points_None | done]. }
    unfold setf in Heq. cbn in Heq. rewrite <- Heq. destruct (w_fbs w !! l); lia.
  - eapply counted_ext; [| exact Hc]. intros k. unfold bo_refs. cbn.
    rewrite (msum_insert _ _ _ p) by done. unfold pix_bo_refs at 3 4. cbn.
    unfold priv_bo_refs. lia.
  - intros k Hk. apply Hp. rewrite lookup_insert_is_Some' in Hk. destruct Hk as [->|Hk]; eauto.
Qed.

Lemma wp_set_priv pix p v (Q : unit -> world -> Prop) w :
  w_pixmaps w !! pix = Some p -> Q tt (w <| w_pixmaps ::= <[pix := p <| pix_priv := v |>]> |>) ->
  wp (set_priv pix v) Q w.
Proof. intros Hp HQ. by apply (wp_update _ _ p). Qed.

Lemma wp_get_priv pix p (Q : option amdgpu_pixmap -> world -> Prop) w :
  w_pixmaps w !! pix = Some p -> Q (pix_priv p) w -> wp (get_priv pix) Q w.
Proof. intros Hp HQ. by apply wp_bind, (wp_load _ _ p). Qed.

Lemma mem_inv_fb_reference ex s old new w :
  mem_inv_with ex w -> slot_get w s = Some old ->
  (forall n, new = Some n -> is_Some (w_fbs w !! n)) ->
  mem_inv_with ex (fb_reference_effect s old new w).
Proof.
  intros [Hf [Hc Hw Hb] Hp] Hs Hnew. pose proof (fb_reference_effect_inv _ s old new w Hf) as Hf'.
  split; [by apply Hf' | split |].
  - replace (w_bos (fb_reference_effect s old new w)) with (w_bos w) by (by destruct s).
    eapply counted_ext; [| exact Hc]. intros k. cbn. unfold fb_reference_effect. cbv zeta.
    by rewrite bo_refs_slot_set.
  - replace (w_bos (fb_reference_effect s old new w)) with (w_bos w) by (by destruct s). done.
  - replace (w_bos (fb_reference_effect s old new w)) with (w_bos w) by (by destruct s).
    by replace (w_next (fb_reference_effect s old new w)) with (w_next w) by (by destruct s).
  - replace (w_next (fb_reference_effect s old new w)) with (w_next w) by (by destruct s).
    intros l Hl. apply Hp. destruct s; try done. revert Hl. cbn.
    destruct (decide (l = pix)) as [->|Hne].
    + rewrite lookup_alter_eq. by rewrite fmap_is_Some.
    + by rewrite lookup_alter_ne.
Qed.

(** *** [amdgpu_set_pixmap_bo] *)

(** The rest of the state is as it was. *)
Record pix_frame (pix : loc) (w w' : world) : Prop := {
  pf_scrns : w_scrns w' = w_scrns w;
  pf_crtcs : w_crtcs w' = w_crtcs w;
  pf_queue : w_queue w' = w_queue w;
  pf_next : w_next w' = w_next w;
  pf_flipdata : w_flipdata w' = w_flipdata w;
  pf_events : w_events w' = w_events w;
  pf_pixmaps : forall l, l <> pix -> w_pixmaps w' !! l = w_pixmaps w !! l
}.

Lemma pix_frame_refl pix w : pix_frame pix w w.
Proof. by split. Qed.
Lemma pix_frame_trans pix w1 w2 w3 : pix_frame pix w1 w2 -> pix_frame pix w2 w3 -> pix_frame pix w1 w3.
Proof.
  intros [] []. split; try (by etrans).
  intros l Hl. rewrite pf_pixmaps1, pf_pixmaps0 by done. done.
Qed.

(** What the private of the pixmap is afterwards. *)
Definition set_bo_post (p : pixmap) (pix : loc) (bo : option loc) (ok : bool) (w' : world) : Prop :=
  exists v, w_pixmaps w' !! pix = Some (p <| pix_priv := v |>) /\
    if ok then (v ≫= priv_bo) = bo /\ (bo = None -> v = None)
    else v = None /\ pix_priv p = None.

(** The last part: the pixmap has dropped what it had, [debt] is what its
    pointer [v] no longer counts for. *)
Lemma bo_release_ne l b bos : l <> b -> bo_release l bos !! b = bos !! b.
Proof.
  intros Hne. unfold bo_release. destruct (bos !! l); [| done].
  case_match; [by rewrite lookup_delete_ne | by rewrite lookup_insert_ne].
Qed.

Lemma wp_drop_old_bo ex pix p pr bo (Q : unit -> world -> Prop) w :
  mem_inv_with ex w -> (forall k, 0 <= ex k) ->
  w_pixmaps w !! pix = Some p -> pix_priv p = Some pr ->
  ~ (priv_bo pr <> None /\ priv_bo pr = bo) ->
  (forall v w', mem_inv_with (fun k => ex k - points k (priv_bo v)) w' -> pix_frame pix w w' ->
     w_pixmaps w' !! pix = Some (p <| pix_priv := Some v |>) -> priv_fb v = priv_fb pr ->
     (forall b, bo = Some b -> w_bos w' !! b = w_bos w !! b) -> Q tt w') ->
  wp (match priv_bo pr with
      | Some _ =>
          v ← amdgpu_bo_unref (priv_bo pr);
          set_priv pix (Some (pr <| priv_bo := v |> <| handle_valid := false |>))
      | None => mret tt
      end) Q w.
Proof.
  intros Hinv Hex Hp Hpr Hne HQ. destruct (priv_bo pr) as [o|] eqn:Ho.
  - pose proof (bo_refs_pix w pix p pr o Hp Hpr Ho) as Hrefs. specialize (Hex o).
    destruct (counted_live _ _ _ o (bi_count _ _ (mi_bo _ _ Hinv))) as (b & Hb & _); [lia |].
    apply wp_bind, (wp_bo_unref_owned ex o b); [done | done |]. intros t Hinv'.
    set (v := if ref_count b =? 1 then None else Some o) in *.
    apply (wp_set_priv _ p); [done |].
    apply (HQ (pr <| priv_bo := v |> <| handle_valid := false |>)).
    + eapply mem_inv_ext; [| eapply (mem_inv_set_priv _ _ pix p); [exact Hinv' | done | by rewrite Hpr]].
      intros k. rewrite Hpr. cbn. rewrite Ho. lia.
    + split; try done. intros l Hl. unfold setf. cbn. by rewrite lookup_insert_ne.
    + unfold setf. cbn. by rewrite lookup_insert_eq.
    + done.
    + intros b' ->. unfold setf. cbn. apply bo_release_ne. intros ->. by apply Hne.
  - apply wp_ret. apply (HQ pr); try done.
    + eapply mem_inv_ext; [| exact Hinv]. intros k. rewrite Ho, points_None. lia.
    + rewrite Hp. f_equal. destruct p. unfold setf. cbn in *. by rewrite Hpr.
Qed.

Lemma wp_set_pixmap_bo ex pix p bo (Q : bool -> world -> Prop) w :
  mem_inv_with ex w -> (forall k, 0 <= ex k) -> w_pixmaps w !! pix = Some p ->
  (forall b, bo = Some b -> exists x, w_bos w !! b = Some x /\ ref_count x < 2 ^ 32 - 1) ->
  (forall ok w', mem_inv_with ex w' -> pix_frame pix w w' -> set_bo_post p pix bo ok w' -> Q ok w') ->
  wp (amdgpu_set_pixmap_bo pix bo) Q w.
Proof.
  intros Hinv Hex Hp Hbo HQ. unfold amdgpu_set_pixmap_bo.
  apply wp_bind, (wp_get_priv _ p); [done |].
  assert (Hself : w_pixmaps w !! pix = Some (p <| pix_priv := pix_priv p |>))
    by (rewrite Hp; by destruct p).
  destruct (pix_priv p) as [pr|] eqn:Hpr.
  - case_bool_decide as Heq.
    { apply wp_ret, HQ; [done | apply pix_frame_refl |]. exists (Some pr). split; [done |].
      destruct Heq as [Hn Heq]. split; [done |]. intros ->. done. }
    apply wp_bind, (wp_drop_old_bo ex pix p pr bo); [done..|].
    intros v w1 Hinv1 Hfr1 Hp1 Hfb Hlive1.
    assert (Hs1 : slot_get w1 (SPriv pix) = Some (priv_fb v)) by (cbn; by rewrite Hp1).
    apply wp_bind. eapply wp_fb_reference_inv; [apply (mi_fb _ _ Hinv1) | done | exact Hs1 | done |].
    intros _. pose proof (mem_inv_fb_reference _ _ _ None _ Hinv1 Hs1 ltac:(done)) as Hinv2.
    set (w2 := fb_reference_effect _ _ _ _) in *.
    assert (Hp2 : w_pixmaps w2 !! pix = Some (p <| pix_priv := Some (v <| priv_fb := None |>) |>)).
    { unfold w2. cbn. unfold setf. cbn. by rewrite lookup_alter_eq, Hp1. }
    assert (Hfr2 : pix_frame pix w w2).
    { eapply pix_frame_trans; [exact Hfr1 |]. split; try done. intros l Hl.
      unfold w2, setf. cbn. by rewrite lookup_alter_ne. }
    destruct bo as [b|].
    + destruct (Hbo b eq_refl) as (x & Hx & Hlt). rewrite <- (Hlive1 b eq_refl) in Hx.
      change (w_bos w1) with (w_bos w2) in Hx.
      assert (0 < ref_count x) by (by destruct (counted_pos _ _ _ _ _ (bi_count _ _ (mi_bo _ _ Hinv2)) Hx); lia).
      apply wp_bind, (wp_bo_ref _ x); [done | lia |].
      pose proof (mem_inv_acquire _ _ _ _ Hinv2 Hx Hlt) as Hinv3.
      set (w3 := w2 <| w_bos ::= bo_acquire b |>) in *.
      change (w_pixmaps w2) with (w_pixmaps w3) in Hp2.
      apply wp_bind, (wp_get_priv _ _ _ _ Hp2).
      apply wp_bind, (wp_some_or _ _ (v <| priv_fb := None |>)); [done |].
      apply wp_bind, (wp_set_priv _ _ _ _ _ Hp2), wp_ret, HQ.
      * eapply mem_inv_ext; [| apply (mem_inv_set_priv _ _ _ _ _ Hinv3 Hp2); done].
        intros k. cbn. lia.
      * eapply pix_frame_trans; [exact Hfr2 |]. split; try done. intros l Hl. unfold setf. cbn.
        by rewrite lookup_insert_ne.
      * exists (Some (v <| priv_fb := None |> <| priv_bo := Some b |>)). unfold setf. cbn.
        by rewrite lookup_insert_eq.
    + apply wp_bind, (wp_set_priv _ _ _ _ _ Hp2), wp_ret, HQ.
      * eapply mem_inv_ext; [| apply (mem_inv_set_priv _ _ _ _ _ Hinv2 Hp2); done].
        intros k. cbn. lia.
      * eapply pix_frame_trans; [exact Hfr2 |]. split; try done. intros l Hl. unfold setf. cbn.
        by rewrite lookup_insert_ne.
      * exists None. unfold setf. cbn. by rewrite lookup_insert_eq.
  - destruct bo as [b|]; cycle 1.
    { apply wp_ret, HQ; [done | apply pix_frame_refl |]. exists None. by split. }
    apply wp_bind. wp_ext. set (w1 := w <| w_trace ::= _ |>).
    assert (Hinv1 : mem_inv_with ex w1) by (by apply mem_inv_trace).
    destruct (reply _ _); cbn [negb]; cycle 1.
    { apply wp_ret, HQ; [done | by split | by exists None]. }
    destruct (Hbo b eq_refl) as (x & Hx & Hlt).
    assert (0 < ref_count x) by (by destruct (counted_pos _ _ _ _ _ (bi_count _ _ (mi_bo _ _ Hinv)) Hx); lia).
    apply wp_bind, (wp_bo_ref _ x); [done | lia |].
    pose proof (mem_inv_acquire _ _ _ _ Hinv1 Hx Hlt) as Hinv2.
    apply wp_bind, (wp_set_priv _ p); [done |]. apply wp_ret, HQ.
    + eapply mem_inv_ext; [| apply (mem_inv_set_priv _ _ _ p _ Hinv2 Hp); by rewrite Hpr].
      intros k. rewrite Hpr. cbn. lia.
    + split; try done. intros l Hl. unfold setf. cbn. by rewrite lookup_insert_ne.
    + exists (Some (priv0 <| priv_bo := Some b |>)). unfold setf. cbn. by rewrite lookup_insert_eq.
Qed.

(** *** New buffers *)

Record bo_frame (w w' : world) : Prop := {
  bf_scrns : w_scrns w' = w_scrns w;
  bf_crtcs : w_crtcs w' = w_crtcs w;
  bf_queue : w_queue w' = w_queue w;
  bf_flipdata : w_flipdata w' = w_flipdata w;
  bf_events : w_events w' = w_events w;
  bf_pixmaps : w_pixmaps w' = w_pixmaps w;
  bf_fbs : w_fbs w' = w_fbs w;
  bf_next : (w_next w <= w_next w')%positive;
  bf_bos : forall l b, w_bos w !! l = Some b -> w_bos w' !! l = Some b
}.

(** The result of a function that makes a new buffer: the caller owns the only
    reference, or there is no new buffer. *)
Definition new_bo_post (ex : loc -> Z) (w : world) (r : option loc) (w' : world) : Prop :=
  mem_inv_with (fun k => ex k + points k r) w' /\ bo_frame w w' /\
  match r with
  | Some l => w_bos w !! l = None /\ exists b, w_bos w' !! l = Some b /\ ref_count b = 1
  | None => w_bos w' = w_bos w
  end.

Lemma bo_fresh ex w : mem_inv_with ex w -> w_bos w !! w_next w = None.
Proof.
  intros [_ [_ _ Hb] _]. destruct (w_bos w !! w_next w) eqn:Hl; [| done].
  specialize (Hb _ (mk_is_Some _ _ Hl)). lia.
Qed.

Lemma mem_inv_new_bo ex w b t :
  mem_inv_with ex w -> ref_count b = 1 ->
  new_bo_post ex w (Some (w_next w))
    (w <| w_bos ::= <[w_next w := b]> |> <| w_next ::= Pos.succ |> <| w_trace := t |>).
Proof.
  intros Hinv Hb. pose proof (bo_fresh _ _ Hinv) as Hfresh. destruct Hinv as [Hf [Hc Hw Hbd] Hp].
  split; [split; [| split |] | split; [split; try done |]].
  - apply (fb_inv_frame _ w); try done. unfold setf. cbn. lia.
  - unfold setf. cbn. specialize (Hc (w_next w)) as Hn. rewrite Hfresh in Hn.
    eapply counted_ext; [| apply (counted_insert _ _ _ (w_next w) b 1 Hc); lia].
    intros k. cbn. change (bo_refs (World _ _ _ _ _ _ _ _ _ _ _ _ _ _ _ _)) with (bo_refs w). lia.
  - unfold setf. cbn. intros l b' Hl. apply lookup_insert_Some in Hl as [[_ <-]|[_ Hl]]; [lia | by eapply Hw].
  - unfold setf. cbn. intros l [b' Hl]. apply lookup_insert_Some in Hl as [[<- _]|[_ Hl]]; [lia |].
    specialize (Hbd l (mk_is_Some _ _ Hl)). lia.
  - intros l Hl. specialize (Hp l Hl). unfold setf. cbn. lia.
  - unfold setf. cbn. lia.
  - intros l b' Hl. unfold setf. cbn. rewrite lookup_insert_ne; [done |]. intros <-. congruence.
  - split; [done |]. exists b. unfold setf. cbn. by rewrite lookup_insert_eq.
Qed.

Lemma new_bo_none ex w t :
  mem_inv_with ex w -> new_bo_post ex w None (w <| w_next ::= Pos.succ |> <| w_trace := t |>).
Proof.
  intros Hinv. split; [| split; [split; try done; unfold setf; cbn; lia | done]].
  eapply mem_inv_ext; [| eapply (mem_inv_frame _ w); try done].
  - intros k. cbn. rewrite points_None. lia.
  - unfold setf. cbn. lia.
Qed.

Lemma new_bo_none_trace ex w t : mem_inv_with ex w -> new_bo_post ex w None (w <| w_trace := t |>).
Proof.
  intros Hinv. split; [| split; [by split | done]].
  eapply mem_inv_ext; [| by apply mem_inv_trace]. intros k. cbn. rewrite points_None. lia.
Qed.

(** The common shape of the allocators: [calloc], ask the outside for the
    buffer, and go on with it or free the structure. *)
Lemma wp_new_buffer {B} ex refs e (got : answer e -> option Z)
    (upd : Z -> amdgpu_buffer -> amdgpu_buffer) (fail : D B) (k : loc -> Z -> D B)
    (Q : B -> world -> Prop) w :
  mem_inv_with ex w -> (forall h, ref_count (upd h (Buffer 0 0 refs 0)) = 1) ->
  (forall w', new_bo_post ex w None w' -> wp fail Q w') ->
  (forall l h w', new_bo_post ex w (Some l) w' -> wp (k l h) Q w') ->
  wp (r ← calloc_buffer refs;
      match r with
      | None => fail
      | Some l =>
          h ← call e;
          match got h with
          | None => _ ← free w_bos l; fail
          | Some h => _ ← update w_bos l (upd h); k l h
          end
      end) Q w.
Proof.
  intros Hinv Hupd Hfail Hk. apply wp_bind, wp_bind. wp_ext. destruct (reply _ _); cbn [negb]; cycle 1.
  { apply wp_ret, Hfail, (new_bo_none_trace _ _ (_ :: w_trace w) Hinv). }
  apply wp_bind, wp_new, wp_ret, wp_bind. wp_ext. destruct (got _) as [h|].
  - apply wp_bind. eapply wp_update; [apply lookup_insert_eq |]. apply Hk.
    unfold setf. cbn. rewrite insert_insert_eq.
    exact (mem_inv_new_bo ex w (upd h (Buffer 0 0 refs 0)) (e :: Calloc "amdgpu_buffer" :: w_trace w)
             Hinv (Hupd h)).
  - apply wp_bind. eapply wp_free; [apply lookup_insert_eq |]. apply Hfail.
    unfold setf. cbn. rewrite delete_insert_id by (by eapply bo_fresh).
    exact (new_bo_none ex w (e :: Calloc "amdgpu_buffer" :: w_trace w) Hinv).
Qed.

Lemma new_bo_post_trace ex w r w' t :
  new_bo_post ex w r w' -> new_bo_post ex w r (w' <| w_trace := t |>).
Proof. intros (Hm & [] & Hr). split; [by apply mem_inv_trace | by split]. Qed.

Lemma wp_bo_open ex size align domains (Q : option loc -> world -> Prop) w :
  mem_inv_with ex w -> (forall r w', new_bo_post ex w r w' -> Q r w') ->
  wp (amdgpu_bo_open size align domains) Q w.
Proof.
  intros Hinv HQ. apply (wp_new_buffer ex 0 (AmdgpuBoAlloc size align domains) id
    (fun h b => b <| bo_handle := h |> <| ref_count := 1 |>)); [done | done | |].
  - intros w' Hw'. by apply wp_ret, HQ.
  - intros l h w' Hw'. by apply wp_ret, HQ.
Qed.

Lemma wp_bo_open_prime ex fd (Q : option loc -> world -> Prop) w :
  mem_inv_with ex w -> (forall r w', new_bo_post ex w r w' -> Q r w') ->
  wp (amdgpu_gem_bo_open_prime fd) Q w.
Proof.
  intros Hinv HQ. apply (wp_new_buffer ex 0 (AmdgpuBoImport fd) id
    (fun h b => b <| bo_handle := h |> <| ref_count := 1 |>)); [done | done | |].
  - intros w' Hw'. by apply wp_ret, HQ.
  - intros l h w' Hw'. by apply wp_ret, HQ.
Qed.

Lemma wp_alloc_pixmap_bo ex scrn info width height dep usage bpp
    (Q : option loc * option Z -> world -> Prop) w :
  mem_inv_with ex w -> w_scrns w !! scrn = Some info -> is_Some (linear_pitch info width bpp) ->
  (forall r pitch w', new_bo_post ex w r w' -> (r <> None -> is_Some pitch) -> Q (r, pitch) w') ->
  wp (amdgpu_alloc_pixmap_bo scrn width height dep usage bpp) Q w.
Proof.
  intros Hinv Hs [pitch Hpitch] HQ. unfold amdgpu_alloc_pixmap_bo.
  apply wp_bind, (wp_load _ _ info); [done |]. destruct (_ && _).
  - destruct (amdgpu_get_gbm_format dep bpp) as [f|]; cycle 1.
    { apply wp_ret, HQ; [| done]. pose proof (new_bo_none_trace _ _ (w_trace w) Hinv) as H.
      by destruct w. }
    apply (wp_new_buffer ex 1 (GbmBoCreate width height f (gbm_use usage)) id
      (fun h b => b <| bo_handle := h |> <| bo_flags ::= Z.lor AMDGPU_BO_FLAGS_GBM |>)
      (mret (None, None)) (fun l h => stride ← call (GbmBoGetStride h); mret (Some l, Some stride)));
      [done | done | |].
    + intros w' Hw'. by apply wp_ret, HQ.
    + intros l h w' Hw'. apply wp_bind. wp_ext. apply wp_ret, HQ; [| eauto].
      exact (new_bo_post_trace _ _ _ _ (_ :: _) Hw').
  - apply wp_bind, (wp_some_or _ _ pitch); [done |]. apply wp_bind, (wp_bo_open ex); [done |].
    intros r w' Hw'. apply wp_ret, HQ; eauto.
Qed.

(** *** New and dying pixmaps *)

(** Only pixmaps that did not exist before have changed. *)
Record pm_frame (w w' : world) : Prop := {
  pm_scrns : w_scrns w' = w_scrns w;
  pm_crtcs : w_crtcs w' = w_crtcs w;
  pm_queue : w_queue w' = w_queue w;
  pm_flipdata : w_flipdata w' = w_flipdata w;
  pm_events : w_events w' = w_events w;
  pm_next : (w_next w <= w_next w')%positive;
  pm_pixmaps : forall l, is_Some (w_pixmaps w !! l) -> w_pixmaps w' !! l = w_pixmaps w !! l
}.

Lemma pm_frame_refl w : pm_frame w w.
Proof. by split. Qed.
Lemma pm_frame_trans w1 w2 w3 : pm_frame w1 w2 -> pm_frame w2 w3 -> pm_frame w1 w3.
Proof.
  intros [] []. split; try (by etrans). intros l Hl. rewrite pm_pixmaps1; [auto |].
  by rewrite pm_pixmaps0.
Qed.
Lemma pm_frame_bo w0 w w' : pm_frame w0 w -> bo_frame w w' -> pm_frame w0 w'.
Proof. intros [] []. split; try (by etrans). intros l Hl. rewrite bf_pixmaps0. auto. Qed.
Lemma pm_frame_pix w0 w w' pix :
  pm_frame w0 w -> w_pixmaps w0 !! pix = None -> pix_frame pix w w' -> pm_frame w0 w'.
Proof.
  intros [] Hpix []. split; try (by etrans); [rewrite pf_next0; lia |]. intros l Hl.
  rewrite pf_pixmaps0; [auto |]. intros ->. rewrite Hpix in Hl. by destruct Hl.
Qed.
Lemma pm_frame_trace w0 w t : pm_frame w0 w -> pm_frame w0 (w <| w_trace := t |>).
Proof. intros []. by split. Qed.

Lemma pix_fresh ex w : mem_inv_with ex w -> w_pixmaps w !! w_next w = None.
Proof.
  intros [_ _ Hp]. destruct (w_pixmaps w !! w_next w) eqn:Hl; [| done].
  specialize (Hp _ (mk_is_Some _ _ Hl)). lia.
Qed.

Lemma mem_inv_new_pixmap ex w p :
  mem_inv_with ex w -> pix_priv p = None ->
  mem_inv_with ex (w <| w_next ::= Pos.succ |> <| w_pixmaps ::= <[w_next w := p]> |>).
Proof.
  intros Hinv Hpr. pose proof (pix_fresh _ _ Hinv) as Hfresh.
  destruct Hinv as [[Hf Hfb] [Hc Hw Hb] Hp]. split; [split | split |]; unfold setf; cbn; try done.
  - intros l. specialize (Hf l). unfold fb_refs in *. cbn.
    rewrite msum_insert_fresh by done. unfold priv_refs at 1 3. rewrite Hpr. done.
  - intros l Hl. specialize (Hfb l Hl). lia.
  - eapply counted_ext; [| exact Hc]. intros k. unfold bo_refs. cbn.
    rewrite msum_insert_fresh by done. unfold pix_bo_refs at 2. rewrite Hpr. lia.
  - intros l Hl. specialize (Hb l Hl). lia.
  - intros l Hl. rewrite lookup_insert_is_Some' in Hl. destruct Hl as [<-|Hl]; [lia |].
    specialize (Hp l Hl). lia.
Qed.

(** A change of a pixmap that leaves its private alone. *)
Lemma mem_inv_upd_pix ex w pix p p' :
  mem_inv_with ex w -> w_pixmaps w !! pix = Some p -> pix_priv p' = pix_priv p ->
  mem_inv_with ex (w <| w_pixmaps ::= <[pix := p']> |>).
Proof.
  intros [[Hf Hfb] [Hc Hw Hb] Hp] Hpix Hpr. split; [split | split |]; unfold setf; cbn; try done.
  - intros l. specialize (Hf l). unfold fb_refs in *. cbn.
    rewrite (msum_insert _ _ _ p) by done. unfold priv_refs at 2 3 5 6. rewrite Hpr.
    destruct (w_fbs w !! l); lia.
  - eapply counted_ext; [| exact Hc]. intros k. unfold bo_refs. cbn.
    rewrite (msum_insert _ _ _ p) by done. unfold pix_bo_refs at 3 4. rewrite Hpr. lia.
  - intros k Hk. apply Hp. rewrite lookup_insert_is_Some' in Hk. destruct Hk as [->|Hk]; eauto.
Qed.

Lemma mem_inv_delete_pix ex w pix p :
  mem_inv_with ex w -> w_pixmaps w !! pix = Some p -> pix_priv p = None ->
  mem_inv_with ex (w <| w_pixmaps ::= delete pix |>).
Proof.
  intros [[Hf Hfb] [Hc Hw Hb] Hp] Hpix Hpr. split; [split | split |]; unfold setf; cbn; try done.
  - intros l. specialize (Hf l). unfold fb_refs in *. cbn.
    rewrite (msum_delete _ (w_pixmaps w) pix p) in Hf by done. unfold priv_refs at 1 3 in Hf.
    rewrite Hpr in Hf. done.
  - eapply counted_ext; [| exact Hc]. intros k. unfold bo_refs. cbn.
    rewrite (msum_delete _ (w_pixmaps w) pix p) by done. unfold pix_bo_refs at 1. rewrite Hpr. lia.
  - intros k [x Hk]. apply lookup_delete_Some in Hk as [_ Hk]. eauto.
Qed.

Definition new_pix_post (ex : loc -> Z) (w : world) (scrn : loc) (r : option loc) (w' : world) : Prop :=
  mem_inv_with ex w' /\ pm_frame w w' /\ w_bos w' = w_bos w /\
  match r with
  | Some l => w_pixmaps w !! l = None /\
      exists p, w_pixmaps w' !! l = Some p /\ pix_priv p = None /\ pix_refcnt p = 1 /\ pix_scrn p = scrn
  | None => w_pixmaps w' = w_pixmaps w
  end.

Lemma wp_new_pixmap_from ex r scrn w0 h dep usage (Q : option loc -> world -> Prop) w :
  mem_inv_with ex w -> (forall r' w', new_pix_post ex w scrn r' w' -> Q r' w') ->
  wp (new_pixmap_from r scrn w0 h dep usage) Q w.
Proof.
  intros Hinv HQ. destruct r as [np|]; cbn.
  - apply wp_bind, wp_new, wp_ret, HQ.
    assert (Hfresh := pix_fresh _ _ Hinv).
    split; [by apply (mem_inv_new_pixmap ex w) | split; [split; try done | split; [done |]]].
    + unfold setf. cbn. lia.
    + intros l [x Hl]. unfold setf. cbn. rewrite lookup_insert_ne; [done |]. intros <-. congruence.
    + split; [done |]. eexists. split; [by apply lookup_insert_eq |]. done.
  - apply wp_ret, HQ. split; [done | split; [apply pm_frame_refl | done]].
Qed.

Lemma new_pix_post_trace ex w t scrn r w' :
  new_pix_post ex (w <| w_trace := t |>) scrn r w' -> new_pix_post ex w scrn r w'.
Proof. intros (? & [] & ? & ?). split; [done | split; [by split | done]]. Qed.

Lemma wp_fbCreatePixmap ex scrn w0 h dep usage (Q : option loc -> world -> Prop) w :
  mem_inv_with ex w -> (forall r w', new_pix_post ex w scrn r w' -> Q r w') ->
  wp (fbCreatePixmap scrn w0 h dep usage) Q w.
Proof.
  intros Hinv HQ. apply wp_bind. wp_ext. apply (wp_new_pixmap_from ex); [by apply mem_inv_trace |].
  intros r w' Hw'. apply HQ. exact (new_pix_post_trace ex w (_ :: _) scrn r w' Hw').
Qed.

(** The server's pixmaps have at least one bit per pixel. *)
Definition server_bpp : Prop :=
  forall history w0 h dep usage np, reply history (FbCreatePixmap w0 h dep usage) = Some np -> 0 < np_bpp np.

Lemma wp_fbCreatePixmap_bpp ex scrn w0 h dep usage (Q : option loc -> world -> Prop) w :
  server_bpp -> mem_inv_with ex w ->
  (forall r w', new_pix_post ex w scrn r w' ->
     (forall l p, r = Some l -> w_pixmaps w' !! l = Some p -> 0 < pix_bpp p) -> Q r w') ->
  wp (fbCreatePixmap scrn w0 h dep usage) Q w.
Proof.
  intros Hbpp Hinv HQ. assert (Hb : pwp (fbCreatePixmap scrn w0 h dep usage)
    (fun r w' => forall l p, r = Some l -> w_pixmaps w' !! l = Some p -> 0 < pix_bpp p) w).
  { unfold fbCreatePixmap. apply pwp_bind. wp_ext. destruct (reply _ _) as [np|] eqn:Hr; cbn [new_pixmap_from]; [| by apply pwp_ret].
    apply wp_pwp, wp_bind, wp_new, wp_ret. intros l p [= <-]. unfold setf. cbn. rewrite lookup_insert_eq. intros [= <-]. by eapply Hbpp. }
  assert (Hw : wp (fbCreatePixmap scrn w0 h dep usage) (new_pix_post ex w scrn) w) by (by apply (wp_fbCreatePixmap ex)).
  unfold wp, pwp in *. destruct (fbCreatePixmap scrn w0 h dep usage w) as [r w'| |]; [| done..]. by apply HQ.
Qed.

Lemma linear_pitch_some info wd bpp : 0 < bpp -> is_Some (linear_pitch info wd bpp).
Proof.
  intros Hb. unfold linear_pitch, drmmode_get_pitch_align. destruct (have_tiling_info info); [| by eexists].
  destruct (Z.eqb_spec (Z.quot (bpp + 7) 8) 0) as [Hz|]; [| by eexists]. rewrite Z.quot_div_nonneg in Hz by lia.
  assert (1 <= (bpp + 7) / 8) by (apply Z.div_le_lower_bound; lia). lia.
Qed.

Lemma wp_glamor_create_pixmap ex scrn w0 h dep usage (Q : option loc -> world -> Prop) w :
  mem_inv_with ex w -> (forall r w', new_pix_post ex w scrn r w' -> Q r w') ->
  wp (glamor_create_pixmap scrn w0 h dep usage) Q w.
Proof.
  intros Hinv HQ. apply wp_bind. wp_ext. apply (wp_new_pixmap_from ex); [by apply mem_inv_trace |].
  intros r w' Hw'. apply HQ. exact (new_pix_post_trace ex w (_ :: _) scrn r w' Hw').
Qed.

(** A pixmap without a private may go, whatever the X server decides. *)
Lemma wp_drop_pixmap ex pix p freed (Q : unit -> world -> Prop) w :
  mem_inv_with ex w -> w_pixmaps w !! pix = Some p -> pix_priv p = None ->
  (forall w', mem_inv_with ex w' -> pix_frame pix w w' -> w_bos w' = w_bos w -> Q tt w') ->
  wp (drop_pixmap pix freed) Q w.
Proof.
  intros Hinv Hp Hpr HQ. destruct freed; cbn.
  - apply (wp_free _ _ p); [done |]. apply HQ; [by eapply mem_inv_delete_pix | | done].
    split; try done. intros l Hl. unfold setf. cbn. by rewrite lookup_delete_ne.
  - apply (wp_update _ _ p); [done |]. apply HQ; [by eapply mem_inv_upd_pix | | done].
    split; try done. intros l Hl. unfold setf. cbn. by rewrite lookup_insert_ne.
Qed.

Lemma wp_modify_pixmap_header ex pix p w0 h dep bpp kind ptr (Q : unit -> world -> Prop) w :
  mem_inv_with ex w -> w_pixmaps w !! pix = Some p ->
  (forall w' p', mem_inv_with ex w' -> pix_frame pix w w' -> w_bos w' = w_bos w ->
     w_pixmaps w' !! pix = Some p' -> pix_priv p' = pix_priv p -> pix_scrn p' = pix_scrn p ->
     pix_refcnt p' = pix_refcnt p -> Q tt w') ->
  wp (modify_pixmap_header pix w0 h dep bpp kind ptr) Q w.
Proof.
  intros Hinv Hp HQ. apply wp_bind. wp_ext. eapply wp_update; [done |].
  eapply HQ; [eapply (mem_inv_upd_pix _ (w <| w_trace := _ :: _ |>)); [by apply mem_inv_trace | done | done] | | done
             | apply lookup_insert_eq | done..].
  split; try done. intros l Hl. unfold setf. cbn. by rewrite lookup_insert_ne.
Qed.

(** *** Mapping *)

(** A change of a buffer that leaves its count alone. *)
Lemma mem_inv_upd_bo ex w l b b' :
  mem_inv_with ex w -> w_bos w !! l = Some b -> ref_count b' = ref_count b ->
  mem_inv_with ex (w <| w_bos ::= <[l := b']> |>).
Proof.
  intros [Hf [Hc Hw Hb] Hp] Hl Hrc. split; [by apply (fb_inv_frame _ w) | split | done];
    unfold setf; cbn.
  - destruct (counted_pos _ _ _ l b Hc Hl) as [Hn Hpos].
    eapply counted_ext; [| apply (counted_insert _ _ _ l b' 0 Hc); lia]. intros k. cbn.
    change (bo_refs (World _ _ _ _ _ _ _ _ _ _ _ _ _ _ _ _)) with (bo_refs w). lia.
  - intros k x Hk. apply lookup_insert_Some in Hk as [[-> <-]|[_ Hk]]; [| by eapply Hw].
    rewrite Hrc. by eapply Hw.
  - intros k [x Hk]. apply lookup_insert_Some in Hk as [[-> _]|[_ Hk]]; apply Hb; eauto.
Qed.

Lemma wp_bo_map ex l b (Q : Z -> world -> Prop) w :
  mem_inv_with ex w -> w_bos w !! l = Some b ->
  (forall r w' b', mem_inv_with ex w' -> (forall pix, pix_frame pix w w') ->
     w_pixmaps w' = w_pixmaps w ->
     w_bos w' = <[l := b']> (w_bos w) -> ref_count b' = ref_count b -> Q r w') ->
  wp (amdgpu_bo_map l) Q w.
Proof.
  intros Hinv Hl HQ.
  assert (Hsame : forall r t, Q r (w <| w_trace := t |>)).
  { intros r t. apply (HQ _ _ b); try done; [by apply mem_inv_trace |].
    unfold setf. cbn. by rewrite insert_id. }
  assert (Hptr : forall r t p, Q r (w <| w_trace := t |> <| w_bos ::= <[l := b <| cpu_ptr := p |>]> |>)).
  { intros r t p. apply (HQ _ _ (b <| cpu_ptr := p |>)); try done.
    eapply mem_inv_upd_bo; [by apply mem_inv_trace | done | done]. }
  unfold amdgpu_bo_map. apply wp_bind, (wp_load _ _ b); [done |]. destruct (is_gbm b).
  - apply wp_bind. wp_ext. apply wp_bind. wp_ext. apply wp_bind. wp_ext. apply wp_bind. wp_ext.
    destruct (reply _ _) as [ret addr]. destruct (negb _); [apply wp_ret; by_trace (Hsame ret) |].
    apply wp_bind. wp_ext. destruct (_ =? 0); [apply wp_ret; by_trace (Hsame (-1)) |].
    apply wp_bind, (wp_update _ _ b); [done |]. apply wp_ret.
    exact (Hptr ret (_ :: _ :: _ :: _ :: _ :: w_trace w) _).
  - apply wp_bind. wp_ext. destruct (reply _ _) as [ret ptr]. apply wp_bind, wp_mwhen; intros _.
    + apply (wp_update _ _ b); [done |]. apply wp_ret. exact (Hptr ret (_ :: w_trace w) ptr).
    + apply wp_ret. exact (Hsame ret (_ :: w_trace w)).
Qed.

(** *** Creating a pixmap with a buffer *)

(** The result of creating a pixmap: the counts are right, so nothing is leaked
    on any path; older pixmaps are untouched; a pixmap that is returned is new
    and has one reference. *)
Definition create_post (w : world) (r : option loc) (w' : world) : Prop :=
  mem_inv w' /\ pm_frame w w' /\
  forall pix, r = Some pix -> w_pixmaps w !! pix = None /\
    exists p, w_pixmaps w' !! pix = Some p /\ pix_refcnt p = 1.

Lemma create_post_none w w' : mem_inv w' -> pm_frame w w' -> create_post w None w'.
Proof. by intros. Qed.

(** Continue from an intermediate state. *)
Lemma create_post_new w w1 scrn r w' :
  pm_frame w w1 -> new_pix_post (fun _ => 0) w1 scrn r w' ->
  (forall l, w_pixmaps w1 !! l = None -> w_pixmaps w !! l = None) -> create_post w r w'.
Proof.
  intros Hfr (Hinv & [] & _ & Hr) Hnone. split; [done | split].
  - destruct Hfr. split; try (by etrans). intros l Hl. rewrite pm_pixmaps0; [auto |].
    by rewrite pm_pixmaps1.
  - intros pix ->. destruct Hr as [Hn (p & ? & _ & ? & _)]. split; eauto.
Qed.

Lemma pm_frame_none w w1 l : pm_frame w w1 -> w_pixmaps w1 !! l = None -> w_pixmaps w !! l = None.
Proof.
  intros [] Hl. destruct (w_pixmaps w !! l) eqn:Hw; [| done].
  rewrite pm_pixmaps0, Hw in Hl; [done | by eauto].
Qed.

(** [fallback_pixmap:] of both functions. *)
Lemma wp_fallback_pixmap w0 scrn pix p w1 h dep usage (Q : option loc -> world -> Prop) w :
  mem_inv w -> pm_frame w0 w -> w_pixmaps w0 !! pix = None ->
  w_pixmaps w !! pix = Some p -> pix_priv p = None ->
  (forall r w', create_post w0 r w' -> Q r w') ->
  wp (_ ← fbDestroyPixmap pix; fbCreatePixmap scrn w1 h dep usage) Q w.
Proof.
  intros Hinv Hfr Hnone Hp Hpr HQ. apply wp_bind, wp_bind. wp_ext.
  eapply wp_drop_pixmap; [by apply mem_inv_trace | done | done |]. intros w2 Hinv2 Hfr2 _.
  assert (pm_frame w0 w2) as Hfr'.
  { eapply pm_frame_pix; [by apply pm_frame_trace | done | exact Hfr2]. }
  apply (wp_fbCreatePixmap (fun _ => 0)); [done |]. intros r w' Hw'.
  eapply HQ, create_post_new; [done | done |]. intros l. by apply pm_frame_none.
Qed.

Lemma create_post_here w w' pix p :
  mem_inv w' -> pm_frame w w' -> w_pixmaps w !! pix = None ->
  w_pixmaps w' !! pix = Some p -> pix_refcnt p = 1 -> create_post w (Some pix) w'.
Proof. intros ? ? ? ? ?. split; [done | split; [done |]]. intros ? [= <-]. eauto. Qed.

Lemma create_post_direct w scrn r w' : new_pix_post (fun _ => 0) w scrn r w' -> create_post w r w'.
Proof. intros H. by eapply create_post_new; [apply pm_frame_refl | exact H |]. Qed.

(** A new buffer stored in the private of a pixmap that had none. *)
Lemma wp_give_new_bo pix p bo w0 w1 (Q : unit -> world -> Prop) w :
  new_bo_post (fun _ => 0) w1 (Some bo) w -> pm_frame w0 w1 -> w_pixmaps w0 !! pix = None ->
  w_pixmaps w1 !! pix = Some p -> pix_priv p = None ->
  (forall b w', mem_inv w' -> pm_frame w0 w' -> w_bos w' !! bo = Some b ->
     w_pixmaps w' !! pix = Some (p <| pix_priv := Some (priv0 <| priv_bo := Some bo |>) |>) ->
     Q tt w') ->
  wp (set_priv pix (Some (priv0 <| priv_bo := Some bo |>))) Q w.
Proof.
  intros (Hinv & Hfr & Hb) Hfr0 Hnone Hp Hpr HQ. pose proof (bf_pixmaps _ _ Hfr) as Hpx.
  destruct Hb as (_ & b & Hb & _). rewrite <- Hpx in Hp.
  apply (wp_set_priv _ p); [done |]. apply (HQ b); [| | done | unfold setf; cbn; by rewrite lookup_insert_eq].
  - eapply mem_inv_ext; [| eapply (mem_inv_set_priv _ _ pix p); [exact Hinv | done | by rewrite Hpr]].
    intros k. cbn. rewrite Hpr. cbn. lia.
  - eapply (pm_frame_pix _ _ _ pix); [by eapply pm_frame_bo | done |]. split; try done.
    intros l Hl. unfold setf. cbn. by rewrite lookup_insert_ne.
Qed.

(** Taking it back: [amdgpu_bo_unref(&priv->bo); free(priv);]. *)
Lemma wp_take_back {B} pix p pr bo b w0 (k : D B) (Q : B -> world -> Prop) w :
  mem_inv w -> pm_frame w0 w -> w_pixmaps w0 !! pix = None -> w_bos w !! bo = Some b ->
  w_pixmaps w !! pix = Some p -> pix_priv p = Some pr -> priv_bo pr = Some bo -> priv_fb pr = None ->
  (forall w', mem_inv w' -> pm_frame w0 w' -> w_pixmaps w' !! pix = Some (p <| pix_priv := None |>) ->
     wp k Q w') ->
  wp (_ ← amdgpu_bo_unref (Some bo); _ ← set_priv pix None; k) Q w.
Proof.
  intros Hinv Hfr Hnone Hb Hp Hpr Hbo Hfb HQ. apply wp_bind.
  eapply (wp_bo_unref_owned (fun _ => 0)); [exact Hinv | done |]. intros t Hinv'.
  apply wp_bind, (wp_set_priv _ p); [done |]. apply HQ; [| | unfold setf; cbn; by rewrite lookup_insert_eq].
  - eapply mem_inv_ext; [| eapply (mem_inv_set_priv _ _ pix p); [exact Hinv' | done | by rewrite Hpr]].
    intros l. cbn. rewrite Hpr. cbn. rewrite Hbo. lia.
  - eapply (pm_frame_pix _ _ _ pix); [exact Hfr | done |]. split; try done.
    intros l Hl. unfold setf. cbn. by rewrite lookup_insert_ne.
Qed.

(** [amdgpu_pixmap_create] never faults, and on every path, the failures of
    [calloc], of the buffer allocation and of the mapping included, the
    reference counts are right afterwards (so nothing is leaked and nothing is
    used after it was freed), no other pixmap has changed, and the pixmap it
    returns, if any, is new. *)
Theorem pixmap_create_safe scrn info wd h dep usage w :
  mem_inv w -> w_scrns w !! scrn = Some info ->
  server_bpp ->
  wp (amdgpu_pixmap_create scrn wd h dep usage) (create_post w) w.
Proof.
  intros Hinv Hs Hbpp. unfold amdgpu_pixmap_create.
  destruct (negb _).
  { apply (wp_fbCreatePixmap (fun _ => 0)); [done |]. apply create_post_direct. }
  destruct (_ || _); [apply wp_ret, create_post_none; [done | apply pm_frame_refl] |].
  destruct (dep =? 1).
  { apply (wp_fbCreatePixmap (fun _ => 0)); [done |]. apply create_post_direct. }
  apply wp_bind, (wp_fbCreatePixmap_bpp (fun _ => 0)); [done | done |].
  intros [pix|] w1 (Hinv1 & Hfr1 & _ & Hr) Hpos; [| apply wp_ret; by apply create_post_none].
  destruct Hr as (Hnone & p & Hp & Hpr & Hrc & Hsc). specialize (Hpos pix p eq_refl Hp).
  destruct (_ || _); [apply wp_ret; by eapply create_post_here |].
  apply wp_bind. wp_ext. set (w2 := w1 <| w_trace ::= _ |>).
  assert (Hinv2 : mem_inv w2) by (by apply mem_inv_trace).
  assert (Hfr2 : pm_frame w w2) by (by apply (pm_frame_trace w w1)).
  change (w_pixmaps w1) with (w_pixmaps w2) in Hp.
  destruct (reply _ _); cbn [negb]; [| by eapply wp_fallback_pixmap].
  apply wp_bind, (wp_load _ _ info); [by rewrite (pm_scrns _ _ Hfr2) |].
  apply wp_bind, (wp_load _ _ p); [done |].
  apply wp_bind, (wp_alloc_pixmap_bo (fun _ => 0) _ info);
    [done | by rewrite (pm_scrns _ _ Hfr2) | by apply linear_pitch_some |].
  intros [bo|] pitch w3 Hpost Hpi; cycle 1.
  { destruct Hpost as (Hinv3 & Hfr3 & _). rewrite <- (bf_pixmaps _ _ Hfr3) in Hp.
    eapply (wp_fallback_pixmap w _ pix p); [| by eapply pm_frame_bo | done..].
    eapply mem_inv_ext; [| exact Hinv3]. intros k. cbn. by rewrite points_None. }
  apply wp_bind, (wp_give_new_bo pix p bo w w2); [done..|]. intros b w4 Hinv4 Hfr4 Hb4 Hp4.
  apply wp_bind, (wp_bo_map (fun _ => 0) _ b); [done | done |].
  intros m w5 b' Hinv5 Hfr5 Hpx5 Hb5 _.
  assert (Hfr5' : pm_frame w w5) by (by eapply pm_frame_pix).
  assert (Hbo5 : w_bos w5 !! bo = Some b') by (by rewrite Hb5, lookup_insert_eq).
  rewrite <- Hpx5 in Hp4. destruct (negb _).
  - eapply wp_take_back; try done. intros w6 Hinv6 Hfr6 Hp6. by eapply wp_fallback_pixmap.
  - destruct (Hpi ltac:(done)) as [st ->]. apply wp_bind, (wp_some_or _ _ st); [done |].
    apply wp_bind, (wp_load _ _ b'); [done |]. apply wp_bind.
    eapply (wp_modify_pixmap_header (fun _ => 0)); [done | done |].
    intros w6 p' Hinv6 Hfr6 _ Hp6 Hpr6 _ Hrc6. apply wp_ret.
    eapply create_post_here; [done | by eapply pm_frame_pix | done | done |]. by rewrite Hrc6.
Qed.

(** C12. [amdgpu_set_pixmap_bo] keeps the counts of buffers and framebuffers
    right.  Afterwards the pixmap owns a reference to exactly the new buffer, or
    has no private left when there is none; it fails only for a pixmap without
    private, when memory is exhausted, and then changes nothing; and no other
    pixmap, screen, CRTC or queue entry is touched. *)
Theorem set_pixmap_bo_safe pix p bo w :
  mem_inv w -> w_pixmaps w !! pix = Some p ->
  (forall b, bo = Some b -> exists x, w_bos w !! b = Some x /\ ref_count x < 2 ^ 32 - 1) ->
  wp (amdgpu_set_pixmap_bo pix bo)
     (fun ok w' => mem_inv w' /\ pix_frame pix w w' /\ set_bo_post p pix bo ok w') w.
Proof.
  intros Hinv Hp Hbo. apply (wp_set_pixmap_bo (fun _ => 0) pix p); [done | done | done | done |].
  intros ok w' ? ? ?. done.
Qed.

(** A pixmap whose last reference goes has lost its private before. *)
Lemma wp_last_reference pix p (k : D bool) (Q : bool -> world -> Prop) w :
  mem_inv w -> w_pixmaps w !! pix = Some p ->
  (forall w', mem_inv w' -> pix_frame pix w w' ->
     (exists v, w_pixmaps w' !! pix = Some (p <| pix_priv := v |>) /\ v = if pix_refcnt p =? 1 then None else pix_priv p) ->
     wp k Q w') ->
  wp (_ ← mwhen (pix_refcnt p =? 1) (_ ← amdgpu_set_pixmap_bo pix None; mret tt); k) Q w.
Proof.
  intros Hinv Hp HQ. apply wp_bind, wp_mwhen; intros Hrc; rewrite Hrc in HQ.
  - apply wp_bind, (wp_set_pixmap_bo (fun _ => 0) pix p); [done | done | done | done |].
    intros ok w' Hinv' Hfr (v & Hv & Hpost). apply wp_ret, HQ; [done | done |].
    exists v. split; [done |]. destruct ok; [by apply Hpost | apply Hpost].
  - apply HQ; [done | apply pix_frame_refl |]. exists (pix_priv p).
    split; [rewrite Hp; by destruct p | done].
Qed.

(** The pixmap has lost one reference, and is gone with the last one. *)
Definition destroyed (pix : loc) (p : pixmap) (w' : world) : Prop :=
  match w_pixmaps w' !! pix with
  | None => pix_refcnt p = 1
  | Some p' => pix_refcnt p <> 1 /\ pix_refcnt p' = pix_refcnt p - 1 /\ pix_priv p' = pix_priv p
  end.

(** The X server frees the pixmap only with its last reference. *)
Lemma wp_drop_last pix p v freed (Q : unit -> world -> Prop) w :
  mem_inv w -> w_pixmaps w !! pix = Some (p <| pix_priv := v |>) ->
  v = (if pix_refcnt p =? 1 then None else pix_priv p) -> freed = (pix_refcnt p =? 1) ->
  (forall w', mem_inv w' -> pix_frame pix w w' -> destroyed pix p w' -> Q tt w') ->
  wp (drop_pixmap pix freed) Q w.
Proof.
  intros Hinv Hp Hv -> HQ. unfold destroyed in HQ.
  destruct (Z.eqb_spec (pix_refcnt p) 1) as [H1|H1]; cbn; subst v.
  - eapply wp_free; [exact Hp |]. apply HQ.
    + by eapply mem_inv_delete_pix.
    + split; try done. intros l Hl. unfold setf. cbn. by rewrite lookup_delete_ne.
    + unfold setf. cbn. by rewrite lookup_delete_eq.
  - eapply wp_update; [exact Hp |]. apply HQ.
    + by eapply mem_inv_upd_pix.
    + split; try done. intros l Hl. unfold setf. cbn. by rewrite lookup_insert_ne.
    + unfold setf. cbn. by rewrite lookup_insert_eq.
Qed.

(** Destroying a pixmap, where the X server frees it exactly with its last
    reference: the buffer and framebuffer references of the private are given
    up with the last reference of the pixmap and only then, and the counts stay
    right. *)
Theorem pixmap_destroy_safe pix p w :
  mem_inv w -> w_pixmaps w !! pix = Some p ->
  (forall t, reply t (FbDestroyPixmap pix) = (pix_refcnt p =? 1)) ->
  wp (amdgpu_pixmap_destroy pix)
     (fun ok w' => ok = true /\ mem_inv w' /\ pix_frame pix w w' /\ destroyed pix p w') w.
Proof.
  intros Hinv Hp Hx. unfold amdgpu_pixmap_destroy. apply wp_bind, (wp_load _ _ p); [done |].
  apply (wp_last_reference pix p); [done | done |]. intros w1 Hinv1 Hfr1 (v & Hv & Hn).
  apply wp_bind, wp_bind. wp_ext.
  eapply (wp_drop_last pix p v); [by apply mem_inv_trace | exact Hv | exact Hn | apply Hx |].
  intros w2 Hinv2 Hfr2 Hp2. apply wp_ret. split_and!; [done | done | | done].
  eapply pix_frame_trans; [exact Hfr1 |]. by destruct Hfr2.
Qed.

(** *** The glamor versions *)

Lemma wp_bo_get_handle l b (Q : option Z -> world -> Prop) w :
  w_bos w !! l = Some b -> (forall r t, Q r (w <| w_trace := t |>)) ->
  wp (amdgpu_bo_get_handle l) Q w.
Proof.
  intros Hl HQ. apply wp_bind, (wp_load _ _ b); [done |]. destruct (is_gbm b).
  - apply wp_bind. wp_ext. apply wp_ret. exact (HQ _ (_ :: _)).
  - wp_ext. exact (HQ _ (_ :: _)).
Qed.

Lemma wp_textured pix p info bo b (Q : bool -> world -> Prop) w :
  w_pixmaps w !! pix = Some p -> w_scrns w !! pix_scrn p = Some info -> w_bos w !! bo = Some b ->
  (forall r t, Q r (w <| w_trace := t |>)) ->
  wp (amdgpu_glamor_create_textured_pixmap pix bo) Q w.
Proof.
  intros Hp Hs Hb HQ. apply wp_bind, (wp_load _ _ p); [done |].
  apply wp_bind, (wp_load _ _ info); [done |].
  destruct (negb _); [apply wp_ret; specialize (HQ true (w_trace w)); by destruct w |].
  apply wp_bind, (wp_load _ _ b); [done |]. destruct (is_gbm b); [wp_ext; exact (HQ _ (_ :: _)) |].
  apply wp_bind, (wp_bo_get_handle _ b); [done |]. intros [h|] t; [wp_ext; exact (HQ _ (_ :: _)) |].
  apply wp_ret, HQ.
Qed.

(** [amdgpu_glamor_destroy_pixmap] up to the call of the wrapped function. *)
Lemma wp_glamor_destroy pix p (Q : bool -> world -> Prop) w :
  mem_inv w -> w_pixmaps w !! pix = Some p ->
  (forall w' v freed, mem_inv w' -> pix_frame pix w w' ->
     w_pixmaps w' !! pix = Some (p <| pix_priv := v |>) ->
     v = (if pix_refcnt p =? 1 then None else pix_priv p) ->
     (exists t, freed = reply t (GlamorDestroyPixmap pix)) ->
     wp (_ ← drop_pixmap pix freed; mret true) Q w') ->
  wp (amdgpu_glamor_destroy_pixmap pix) Q w.
Proof.
  intros Hinv Hp HQ. apply wp_bind, (wp_load _ _ p); [done |]. unfold mwhen at 1.
  destruct (Z.eqb_spec (pix_refcnt p) 1) as [H1|H1].
  - apply wp_bind, wp_bind.
    assert (Hunmap : wp (mwhen (negb (devPrivate_ptr p =? 0))
      (bo ← amdgpu_get_pixmap_bo pix; match bo with Some b => amdgpu_bo_unmap b | None => mret tt end))
      (fun _ w' => exists t, w' = w <| w_trace := t |>) w).
    { apply wp_mwhen; intros _; [| exists (w_trace w); by destruct w].
      apply wp_bind, wp_bind, (wp_get_priv _ p); [done |]. apply wp_ret.
      destruct (pix_priv p) as [pr|] eqn:Hpr; cbn; [| exists (w_trace w); by destruct w].
      destruct (priv_bo pr) as [b|] eqn:Hb; [| exists (w_trace w); by destruct w].
      pose proof (bo_refs_pix w pix p pr b Hp Hpr Hb).
      destruct (counted_live _ _ _ b (bi_count _ _ (mi_bo _ _ Hinv))) as (x & Hx & _); [cbn; lia |].
      apply (wp_bo_unmap _ x); [done |]. eauto. }
    eapply wp_mono; [exact Hunmap |]. intros [] w1 [t ->]. clear Hunmap.
    apply wp_bind, (wp_set_pixmap_bo (fun _ => 0) pix p); [by apply mem_inv_trace | done | done | done |].
    intros ok w1 Hinv1 Hfr1 (v & Hv & Hpost). apply wp_ret, wp_bind. wp_ext.
    eapply HQ; [by apply mem_inv_trace | | exact Hv | | eauto].
    + by destruct Hfr1.
    + destruct ok; [by apply Hpost | apply Hpost].
  - apply wp_bind, wp_ret, wp_bind. wp_ext.
    eapply (HQ _ (pix_priv p)); [by apply mem_inv_trace | by split | | done | eauto].
    unfold setf. cbn. rewrite Hp. by destruct p.
Qed.

(** [amdgpu_glamor_destroy_pixmap] gives up the references of the private
    exactly with the last reference of the pixmap and keeps the counts right,
    where glamor frees the pixmap exactly with its last reference. *)
Theorem glamor_destroy_pixmap_safe pix p w :
  mem_inv w -> w_pixmaps w !! pix = Some p ->
  (forall t, reply t (GlamorDestroyPixmap pix) = (pix_refcnt p =? 1)) ->
  wp (amdgpu_glamor_destroy_pixmap pix)
     (fun ok w' => ok = true /\ mem_inv w' /\ pix_frame pix w w' /\ destroyed pix p w') w.
Proof.
  intros Hinv Hp Hx. apply (wp_glamor_destroy pix p); [done | done |].
  intros w1 v freed Hinv1 Hfr1 Hv Hn [t ->]. apply wp_bind.
  eapply (wp_drop_last pix p v); [done | exact Hv | exact Hn | apply Hx |].
  intros w2 Hinv2 Hfr2 Hp2. apply wp_ret. split_and!; [done | done | | done].
  by eapply pix_frame_trans.
Qed.

Lemma wp_glamor_destroy_new w0 pix p (Q : bool -> world -> Prop) w :
  mem_inv w -> pm_frame w0 w -> w_pixmaps w0 !! pix = None ->
  w_pixmaps w !! pix = Some p -> pix_refcnt p = 1 ->
  (forall w', mem_inv w' -> pm_frame w0 w' -> Q true w') ->
  wp (amdgpu_glamor_destroy_pixmap pix) Q w.
Proof.
  intros Hinv Hfr Hnone Hp Hrc HQ. apply (wp_glamor_destroy pix p); [done | done |].
  intros w1 v freed Hinv1 Hfr1 Hv Hn _. rewrite Hrc in Hn. cbn in Hn. subst v. apply wp_bind.
  eapply (wp_drop_pixmap (fun _ => 0)); [done | exact Hv | done |]. intros w2 Hinv2 Hfr2 _.
  apply wp_ret, HQ; [done |]. eapply pm_frame_pix; [| done | exact Hfr2].
  by eapply pm_frame_pix.
Qed.

Lemma create_post_mono w1 w2 r w' :
  pm_frame w1 w2 -> create_post w2 r w' -> create_post w1 r w'.
Proof.
  intros Hfr (Hinv & Hfr' & Hr). split; [done | split].
  - by eapply pm_frame_trans.
  - intros pix ->. destruct (Hr pix eq_refl) as [Hn He]. split; [by eapply pm_frame_none | done].
Qed.

(** The whole fallback after texturing failed: a pixmap of glamor is made, the
    buffer is given back, the first pixmap destroyed. *)
Lemma wp_fallback_glamor w0 scrn pix p pr bo b wd h dep usage (Q : option loc -> world -> Prop) w :
  mem_inv w -> pm_frame w0 w -> w_pixmaps w0 !! pix = None -> w_bos w !! bo = Some b ->
  w_pixmaps w !! pix = Some p -> pix_priv p = Some pr -> priv_bo pr = Some bo -> priv_fb pr = None ->
  (forall r w', create_post w0 r w' -> Q r w') ->
  wp (new_pixmap ← glamor_create_pixmap scrn wd h dep usage;
      _ ← amdgpu_bo_unref (Some bo);
      _ ← set_priv pix None;
      _ ← fbDestroyPixmap pix;
      match new_pixmap with
      | Some n => mret (Some n)
      | None => fbCreatePixmap scrn wd h dep usage
      end) Q w.
Proof.
  intros Hinv Hfr Hnone Hb Hp Hpr Hbo Hfb HQ.
  apply wp_bind, (wp_glamor_create_pixmap (fun _ => 0)); [done |].
  intros r w1 (Hinv1 & Hfr1 & Hb1 & Hr). rewrite <- Hb1 in Hb.
  assert (Hp1 : w_pixmaps w1 !! pix = Some p) by (by rewrite (pm_pixmaps _ _ Hfr1), Hp by eauto).
  assert (Hfr01 : pm_frame w0 w1).
  { by eapply pm_frame_trans. }
  set (wd0 := w1 <| w_pixmaps ::= delete pix |>).
  assert (Hd0 : pm_frame wd0 w1).
  { split; try done. intros l Hl. unfold wd0, setf in *. cbn in *.
    destruct (decide (l = pix)) as [->|Hne]; [| by rewrite lookup_delete_ne].
    rewrite lookup_delete_eq in Hl. by destruct Hl. }
  assert (H0d : pm_frame w0 wd0).
  { destruct Hfr01. split; try done. intros l Hl. unfold wd0, setf. cbn.
    rewrite lookup_delete_ne; [auto |]. intros <-. rewrite Hnone in Hl. by destruct Hl. }
  assert (Hnone' : w_pixmaps wd0 !! pix = None) by apply lookup_delete_eq.
  eapply (wp_take_back pix p pr bo b wd0); try done. intros w2 Hinv2 Hfr2 Hp2.
  destruct r as [n|].
  - apply wp_bind, wp_bind. wp_ext. destruct Hr as (Hn & pn & Hpn & _ & Hrc & _).
    assert (Hne : n <> pix) by (intros ->; congruence).
    assert (Hn2 : w_pixmaps w2 !! n = Some pn).
    { rewrite (pm_pixmaps _ _ Hfr2); unfold wd0, setf; cbn; rewrite lookup_delete_ne; eauto. }
    eapply (wp_drop_pixmap (fun _ => 0)); [by apply mem_inv_trace | exact Hp2 | done |].
    intros w3 Hinv3 Hfr3 _. apply wp_ret, HQ, (create_post_here _ _ _ pn); [done | | | | done].
    + eapply pm_frame_pix; [| exact Hnone | exact Hfr3]. apply pm_frame_trace.
      eapply (pm_frame_trans _ _ _ H0d Hfr2).
    + exact (pm_frame_none _ _ _ Hfr Hn).
    + by rewrite (pf_pixmaps _ _ _ Hfr3).
  - eapply (wp_fallback_pixmap w0); try done. eapply (pm_frame_trans _ _ _ H0d Hfr2).
Qed.

Lemma wp_glamor_create_with_bo scrn info wd h dep usage (Q : option loc -> world -> Prop) w :
  mem_inv w -> w_scrns w !! scrn = Some info -> server_bpp ->
  (forall r w', create_post w r w' -> Q r w') ->
  wp (glamor_create_with_bo scrn wd h dep usage) Q w.
Proof.
  intros Hinv Hs Hbpp HQ. unfold glamor_create_with_bo.
  destruct (_ || _); [apply wp_ret, HQ, create_post_none; [done | apply pm_frame_refl] |].
  destruct (dep =? 1).
  { apply (wp_fbCreatePixmap (fun _ => 0)); [done |]. intros. by eapply HQ, create_post_direct. }
  destruct (_ && _).
  { apply (wp_fbCreatePixmap (fun _ => 0)); [done |]. intros. by eapply HQ, create_post_direct. }
  apply wp_bind, (wp_fbCreatePixmap_bpp (fun _ => 0)); [done | done |].
  intros [pix|] w1 (Hinv1 & Hfr1 & _ & Hr) Hpos; [| apply wp_ret; by apply HQ, create_post_none].
  destruct Hr as (Hnone & p & Hp & Hpr & Hrc & Hsc). specialize (Hpos pix p eq_refl Hp).
  destruct (_ || _); [apply wp_ret; by eapply HQ, create_post_here |].
  apply wp_bind. wp_ext. set (w2 := w1 <| w_trace ::= _ |>).
  assert (Hinv2 : mem_inv w2) by (by apply mem_inv_trace).
  assert (Hfr2 : pm_frame w w2) by (by apply (pm_frame_trace w w1)).
  change (w_pixmaps w1) with (w_pixmaps w2) in Hp.
  destruct (reply _ _); cbn [negb]; [| by eapply wp_fallback_pixmap].
  apply wp_bind, (wp_load _ _ p); [done |].
  apply wp_bind, (wp_alloc_pixmap_bo (fun _ => 0) _ info);
    [done | by rewrite (pm_scrns _ _ Hfr2) | by apply linear_pitch_some |].
  intros [bo|] pitch w3 Hpost Hpi; cycle 1.
  { destruct Hpost as (Hinv3 & Hfr3 & _). rewrite <- (bf_pixmaps _ _ Hfr3) in Hp.
    eapply (wp_fallback_pixmap w _ pix p); [| by eapply pm_frame_bo | done..].
    eapply mem_inv_ext; [| exact Hinv3]. intros k. cbn. by rewrite points_None. }
  apply wp_bind, (wp_give_new_bo pix p bo w w2); [done..|]. intros b w4 Hinv4 Hfr4 Hb4 Hp4.
  destruct (Hpi ltac:(done)) as [st ->]. apply wp_bind, (wp_some_or _ _ st); [done |].
  apply wp_bind. eapply (wp_modify_pixmap_header (fun _ => 0)); [done | exact Hp4 |].
  intros w5 p5 Hinv5 Hfr5 Hb5 Hp5 Hpr5 Hsc5 Hrc5. apply wp_bind, (wp_update _ _ p5); [done |].
  set (w6 := setf w_pixmaps _ w5). set (p6 := setf devPrivate_ptr (fun _ => 0) p5) in *.
  assert (Hinv6 : mem_inv w6) by (by eapply mem_inv_upd_pix).
  assert (Hp6 : w_pixmaps w6 !! pix = Some p6) by apply lookup_insert_eq.
  assert (Hfr6 : pm_frame w w6).
  { eapply pm_frame_pix; [exact Hfr4 | done |]. eapply pix_frame_trans; [exact Hfr5 |].
    split; try done. intros l Hl. unfold w6, setf. cbn. by rewrite lookup_insert_ne. }
  assert (Hb6 : w_bos w6 !! bo = Some b) by (change (w_bos w6) with (w_bos w5); by rewrite Hb5).
  apply wp_bind, (wp_textured pix p6 info bo b); [done | | done |].
  { rewrite (pm_scrns _ _ Hfr6). change (pix_scrn p6) with (pix_scrn p5). rewrite Hsc5. cbn.
    by rewrite Hsc. }
  intros t tr. assert (Hfr7 : pm_frame w (w6 <| w_trace := tr |>)) by (by apply pm_frame_trace).
  assert (Hinv7 : mem_inv (w6 <| w_trace := tr |>)) by (by apply mem_inv_trace).
  assert (Hrc6 : pix_refcnt p6 = 1) by (change (pix_refcnt p6) with (pix_refcnt p5); by rewrite Hrc5).
  destruct t; [apply wp_ret; by eapply HQ, create_post_here |].
  destruct (AMDGPU_CREATE_PIXMAP_SHARED usage).
  - apply wp_bind, (wp_glamor_destroy_new w pix p6); [done..|]. intros w8 ? ?.
    by apply wp_ret, HQ, create_post_none.
  - eapply (wp_fallback_glamor w scrn pix p6 (priv0 <| priv_bo := Some bo |>) bo b); [done.. | | done | done | done].
    change (pix_priv p6) with (pix_priv p5). by rewrite Hpr5.
Qed.


(** *** Sharing *)

Definition backing_post (pix : loc) (p : pixmap) (ihandle : Z) (w : world) (ok : bool) (w' : world) : Prop :=
  mem_inv w' /\ w_scrns w' = w_scrns w /\
  (forall l, l <> pix -> w_pixmaps w' !! l = w_pixmaps w !! l) /\
  exists v, w_pixmaps w' !! pix = Some (p <| pix_priv := v |>) /\
    if ok then
      if ihandle =? -1 then v = None
      else exists b, (v ≫= priv_bo) = Some b /\ w_bos w !! b = None /\ is_Some (w_bos w' !! b)
    else v = pix_priv p.

Lemma backing_fail pix p ih w w' :
  mem_inv w' -> w_scrns w' = w_scrns w -> w_pixmaps w' = w_pixmaps w ->
  w_pixmaps w !! pix = Some p -> backing_post pix p ih w false w'.
Proof.
  intros Hinv Hs Hp Hpix. split_and!; [done | done | by rewrite Hp |]. exists (pix_priv p).
  rewrite Hp, Hpix. by destruct p.
Qed.

Lemma wp_give_to_pixmap pix p bo ih w (Q : bool -> world -> Prop) w1 :
  new_bo_post (fun _ => 0) w (Some bo) w1 -> w_pixmaps w !! pix = Some p -> ih <> -1 ->
  (forall ok w', backing_post pix p ih w ok w' -> Q ok w') ->
  wp (give_to_pixmap pix bo) Q w1.
Proof.
  intros (Hinv & Hfr & Hfresh & b & Hb & Hrc) Hp Hih HQ. unfold give_to_pixmap.
  pose proof (bf_pixmaps _ _ Hfr) as Hpx.
  apply wp_bind, (wp_set_pixmap_bo (fun k => 0 + points k (Some bo)) pix p); [done | | | |].
  - intros k. pose proof (points_range k (Some bo)). lia.
  - by rewrite Hpx.
  - intros ? [= <-]. exists b. split; [done | lia].
  - intros ok w2 Hinv2 Hfr2 (v & Hv & Hpost). pose proof (bo_refs_nonneg w2 bo).
    destruct (counted_live _ _ _ bo (bi_count _ _ (mi_bo _ _ Hinv2))) as (x & Hx & _).
    { cbn. rewrite points_self. lia. }
    apply wp_bind, (wp_bo_unref_owned _ bo x _ _ Hinv2 Hx). intros t Hinv3. apply wp_ret, HQ.
    assert (Hinv3' : mem_inv (w2 <| w_bos ::= bo_release bo |> <| w_trace := t |>)).
    { eapply mem_inv_ext; [| exact Hinv3]. intros k. cbn. lia. }
    split_and!; [done | rewrite <- (bf_scrns _ _ Hfr); apply (pf_scrns _ _ _ Hfr2) | |].
    + intros l Hl. rewrite <- Hpx. by apply (pf_pixmaps _ _ _ Hfr2).
    + exists v. split; [done |]. apply Z.eqb_neq in Hih. rewrite Hih. destruct ok.
      * destruct Hpost as [Hbo _]. exists bo. split_and!; [done | done |].
        destruct v as [pr|]; [| done]. cbn in Hbo.
        set (w3 := w2 <| w_bos ::= bo_release bo |> <| w_trace := t |>) in *.
        pose proof (bo_refs_pix w3 pix (p <| pix_priv := Some pr |>) pr bo Hv eq_refl Hbo) as Hrefs.
        destruct (counted_live _ _ _ bo (bi_count _ _ (mi_bo _ _ Hinv3'))) as (y & Hy & _); [cbn; lia |].
        eauto.
      * destruct Hpost as [-> ->]. done.
Qed.

(** [amdgpu_set_shared_pixmap_backing]: the function's own reference to the
    imported buffer is always given up, so on success the pixmap is the only
    owner of a new, live buffer and on failure nothing is leaked and the pixmap
    keeps the private it had; handle -1 takes the buffer away. *)
Theorem set_shared_pixmap_backing_safe pix p info ihandle w :
  mem_inv w -> w_pixmaps w !! pix = Some p -> w_scrns w !! pix_scrn p = Some info ->
  wp (amdgpu_set_shared_pixmap_backing pix ihandle) (backing_post pix p ihandle w) w.
Proof.
  intros Hinv Hp Hs. unfold amdgpu_set_shared_pixmap_backing.
  apply wp_bind, (wp_load _ _ p); [done |]. apply wp_bind, (wp_load _ _ info); [done |].
  destruct (Z.eqb_spec ihandle (-1)) as [->|Hih].
  { apply (wp_set_pixmap_bo (fun _ => 0) pix p); [done | done | done | done |].
    intros ok w' Hinv' [] (v & Hv & Hpost). split_and!; [done | done | done |]. exists v.
    split; [done |]. cbn. destruct ok; [by apply Hpost | by destruct Hpost as [-> ->]]. }
  destruct (has_gbm info).
  - destruct (amdgpu_get_gbm_format _ _) as [f|]; [| apply wp_ret; by apply backing_fail].
    cbv zeta. set (use := if _ =? _ then _ else _).
    apply (wp_new_buffer (fun _ => 0) 1
      (GbmBoImport ihandle (pix_width p) (pix_height p) (devKind p) f use) id
      (fun h b => b <| bo_handle := h |> <| bo_flags ::= Z.lor AMDGPU_BO_FLAGS_GBM |>)
      (mret false) (fun bo h => t ← (if use_glamor info then amdgpu_glamor_create_textured_pixmap pix bo
                     else mret true);
                if negb t then _ ← amdgpu_bo_unref (Some bo); mret false
                else give_to_pixmap pix bo)); [done | done | |].
    + intros w' (Hinv' & Hfr & _). apply wp_ret, backing_fail; [| apply Hfr | apply Hfr | done].
      eapply mem_inv_ext; [| exact Hinv']. intros k. cbn. by rewrite points_None.
    + intros bo h w1 Hnew. destruct Hnew as (Hinv1 & Hfr1 & Hfresh & b & Hb & Hrc) eqn:Hn. clear Hn.
      assert (Hrest : forall (t : bool) tr, wp
        (if negb t then _ ← amdgpu_bo_unref (Some bo); mret false else give_to_pixmap pix bo)
        (backing_post pix p ihandle w) (w1 <| w_trace := tr |>)).
      { intros t tr. destruct t; cbn [negb].
        - eapply wp_give_to_pixmap; [by apply new_bo_post_trace | done | done | done].
        - apply wp_bind, (wp_bo_unref_owned _ bo b _ _ (mem_inv_trace _ _ tr Hinv1) Hb). intros tr' Hinv2.
          apply wp_ret, backing_fail; [| apply Hfr1 | apply Hfr1 | done].
          eapply mem_inv_ext; [| exact Hinv2]. intros k. cbn. lia. }
      apply wp_bind. destruct (use_glamor info).
      * apply (wp_textured pix p info bo b); [by rewrite (bf_pixmaps _ _ Hfr1) | by rewrite (bf_scrns _ _ Hfr1)
          | done | exact Hrest].
      * apply wp_ret. specialize (Hrest true (w_trace w1)). by destruct w1.
  - apply wp_bind, (wp_bo_open_prime (fun _ => 0)); [done |]. intros [bo|] w1 Hnew.
    + apply wp_bind. wp_ext. eapply wp_give_to_pixmap; [| done | done | done].
      exact (new_bo_post_trace _ _ _ _ (_ :: _) Hnew).
    + destruct Hnew as (Hinv1 & Hfr & _). apply wp_ret, backing_fail; [| apply Hfr | apply Hfr | done].
      eapply mem_inv_ext; [| exact Hinv1]. intros k. cbn. by rewrite points_None.
Qed.
End Rules.

(** ** The rules at work on the sample machine *)

Lemma sample_mem_inv : mem_inv Sample.w.
Proof.
  split; [split | split |].
  - intros l. change (w_fbs Sample.w) with (∅ : gmap loc drmmode_fb). rewrite lookup_empty.
    unfold fb_refs. cbn. rewrite !msum_singleton, msum_empty. done.
  - change (w_fbs Sample.w) with (∅ : gmap loc drmmode_fb). intros l [x Hx].
    by rewrite lookup_empty in Hx.
  - intros l. change (w_bos Sample.w) with ({[4%positive := Buffer 21 0 1 0]} : gmap loc amdgpu_buffer).
    unfold bo_refs. cbn. rewrite !msum_singleton. unfold pix_bo_refs, scrn_bo_refs, crtc_bo_refs. cbn.
    rewrite !points_None. destruct (decide (l = 4%positive)) as [->|Hne].
    + by rewrite lookup_singleton_eq, points_self.
    + by rewrite lookup_singleton_ne, points_other by congruence.
  - intros l b. change (w_bos Sample.w) with ({[4%positive := Buffer 21 0 1 0]} : gmap loc amdgpu_buffer).
    intros Hl. by apply lookup_singleton_Some in Hl as [_ <-].
  - intros l [b Hl]. change (w_bos Sample.w) with ({[4%positive := Buffer 21 0 1 0]} : gmap loc amdgpu_buffer) in Hl.
    by apply lookup_singleton_Some in Hl as [<- _].
  - intros l [b Hl]. change (w_pixmaps Sample.w) with ({[2%positive := Sample.pix]} : gmap loc pixmap) in Hl.
    by apply lookup_singleton_Some in Hl as [<- _].
Qed.

Lemma set_pixmap_bo_witness :
  mem_inv Sample.w /\ @wp _ _ (@amdgpu_set_pixmap_bo Sample.env 2 (Some 4%positive))
     (fun ok w' => mem_inv w' /\ pix_frame 2 Sample.w w' /\
        set_bo_post Sample.pix 2 (Some 4%positive) ok w') Sample.w.
Proof.
  split; [exact sample_mem_inv |].
  apply (@set_pixmap_bo_safe Sample.env); [exact sample_mem_inv | reflexivity |].
  intros b [= <-]. by exists (Buffer 21 0 1 0).
Defined.

Lemma pixmap_create_witness :
  mem_inv Sample.w /\ @wp _ _ (@amdgpu_pixmap_create Sample.env 1 64 64 24 AMDGPU_CREATE_PIXMAP_DRI2)
     (create_post Sample.w) Sample.w.
Proof.
  split; [exact sample_mem_inv |].
  apply (@pixmap_create_safe Sample.env 1 Sample.scrn); [exact sample_mem_inv | reflexivity |].
  by intros ? ? ? ? ? np [= <-].
Defined.

Lemma pixmap_destroy_witness :
  mem_inv Sample.w /\ @wp _ _ (@amdgpu_pixmap_destroy Sample.env 2)
     (fun ok w' => ok = true /\ mem_inv w' /\ pix_frame 2 Sample.w w' /\
        destroyed 2 Sample.pix w') Sample.w.
Proof.
  split; [exact sample_mem_inv |].
  by apply (@pixmap_destroy_safe Sample.env); [exact sample_mem_inv | reflexivity |].
Defined.

Lemma glamor_destroy_pixmap_witness :
  mem_inv Sample.w /\ @wp _ _ (@amdgpu_glamor_destroy_pixmap Sample.env 2)
     (fun ok w' => ok = true /\ mem_inv w' /\ pix_frame 2 Sample.w w' /\
        destroyed 2 Sample.pix w') Sample.w.
Proof.
  split; [exact sample_mem_inv |].
  by apply (@glamor_destroy_pixmap_safe Sample.env); [exact sample_mem_inv | reflexivity |].
Defined.


Lemma set_shared_pixmap_backing_witness :
  mem_inv Sample.w /\ @wp _ _ (@amdgpu_set_shared_pixmap_backing Sample.env 2 7)
     (backing_post 2 Sample.pix 7 Sample.w) Sample.w.
Proof.
  split; [exact sample_mem_inv |].
  by apply (@set_shared_pixmap_backing_safe Sample.env 2 Sample.pix Sample.scrn);
    [exact sample_mem_inv | reflexivity | reflexivity].
Defined.
