(* ===== verification/PixmapFb.v ===== *)
(** * Handles and framebuffers of pixmaps; sizes of buffers

    [amdgpu_pixmap_get_handle], [amdgpu_pixmap_get_fb] and the exact behaviour
    of [amdgpu_bo_unref], on top of the rules of Bo.v. *)
From stdpp Require Import strings.
From S2P Require Import Prelude Modes World Fb Bo.

Section Handles.
Context `{env : Env}.

(** The pixmap [pix], which was [p] in [w], has the private [v] in [w'], and
    only the parts of the private that describe the handle have changed. *)
Record handle_state (pix : loc) (p : pixmap) (w : world) (v : amdgpu_pixmap) (w' : world) : Prop := {
  hs_inv : mem_inv w';
  hs_frame : pix_frame pix w w';
  hs_pix : w_pixmaps w' !! pix = Some (p <| pix_priv := Some v |>);
  hs_fbs : w_fbs w' = w_fbs w;
  hs_bos : w_bos w' = w_bos w;
  hs_fb : Some (priv_fb v) = Some (pix_priv p ≫= priv_fb);
  hs_bo : priv_bo v = (pix_priv p ≫= priv_bo)
}.

Lemma handle_state_trace pix p w v w' t :
  handle_state pix p w v w' -> handle_state pix p w v (w' <| w_trace := t |>).
Proof. intros [? [] ? ? ? ? ?]. by split; [apply mem_inv_trace |..]. Qed.

Lemma wp_handle_set pix p w v v' (Q : unit -> world -> Prop) w' :
  handle_state pix p w v w' -> priv_fb v' = priv_fb v -> priv_bo v' = priv_bo v ->
  (forall w'', handle_state pix p w v' w'' -> Q tt w'') ->
  wp (set_priv pix (Some v')) Q w'.
Proof.
  intros Hs Hfb Hbo HQ. destruct Hs. eapply wp_set_priv; [exact hs_pix0 |]. apply HQ. split; try done.
  - eapply mem_inv_ext; [| eapply mem_inv_set_priv; [exact hs_inv0 | exact hs_pix0 |]].
    + intros k. cbn. rewrite Hbo. lia.
    + cbn. by rewrite Hfb.
  - eapply pix_frame_trans; [exact hs_frame0 |]. split; try done. intros l Hl. unfold setf. cbn.
    by rewrite lookup_insert_ne.
  - unfold setf. cbn. by rewrite lookup_insert_eq.
  - by rewrite Hfb.
  - by rewrite Hbo.
Qed.

Lemma wp_handle_get pix p w v (Q : option amdgpu_pixmap -> world -> Prop) w' :
  handle_state pix p w v w' -> Q (Some v) w' -> wp (get_priv pix) Q w'.
Proof. intros [] HQ. by eapply wp_get_priv. Qed.

(** [calloc] of the private does not fail, or is not needed. *)
Definition priv_available (p : pixmap) : Prop :=
  pix_priv p = None -> forall t, reply t (Calloc "amdgpu_pixmap") = true.

(** The [success:] label. *)
Lemma wp_handle_success pix p w v (Q : option Z -> world -> Prop) w' :
  handle_state pix p w v w' ->
  (forall w'' v', handle_state pix p w v' w'' -> handle_valid v' = true ->
     priv_handle v' = priv_handle v -> Q (Some (priv_handle v)) w'') ->
  wp (priv ← get_priv pix; pr ← some_or NullDeref priv;
      _ ← set_priv pix (Some (pr <| handle_valid := true |>)); mret (Some (priv_handle pr))) Q w'.
Proof.
  intros Hs HQ. apply wp_bind, (wp_handle_get pix p w v); [done |].
  apply wp_bind, (wp_some_or _ _ v); [done |].
  apply wp_bind, (wp_handle_set pix p w v); [done | done | done |]. intros w'' Hs'.
  apply wp_ret. by eapply HQ.
Qed.

Lemma wp_get_handle pix p info (Q : option Z -> world -> Prop) w :
  mem_inv w -> w_pixmaps w !! pix = Some p -> w_scrns w !! pix_scrn p = Some info ->
  shadow_fb info = false -> priv_available p ->
  (forall r v w', handle_state pix p w v w' ->
     (forall h, r = Some h -> handle_valid v = true /\ priv_handle v = h) -> Q r w') ->
  wp (amdgpu_pixmap_get_handle pix) Q w.
Proof.
  intros Hinv Hp Hs Hsh Hav HQ. unfold amdgpu_pixmap_get_handle.
  apply wp_bind, (wp_load _ _ p); [done |]. apply wp_bind, (wp_load _ _ info); [done |]. rewrite Hsh.
  set (v0 := default priv0 (pix_priv p)). cbv zeta.
  apply wp_bind.
  eapply (wp_mono _ (fun _ w' => handle_state pix p w v0 w')).
  { unfold v0. destruct (pix_priv p) as [pr|] eqn:Hpr; cbn.
    - apply wp_ret. split; try done; [rewrite Hp; f_equal; destruct p; cbn in *; by rewrite Hpr |..];
        by rewrite Hpr.
    - apply wp_bind. wp_ext. rewrite (Hav Hpr). eapply wp_set_priv; [done |]. split; try done.
      + eapply mem_inv_ext; [| eapply mem_inv_set_priv; [by apply mem_inv_trace | exact Hp | by rewrite Hpr]].
        intros k. rewrite Hpr. cbn. rewrite points_None. lia.
      + split; try done. intros l Hl. unfold setf. cbn. by rewrite lookup_insert_ne.
      + unfold setf. cbn. by rewrite lookup_insert_eq.
      + by rewrite Hpr.
      + by rewrite Hpr. }
  intros [] w1 Hs1. apply wp_bind, (wp_handle_get pix p w v0); [done |].
  apply wp_bind, (wp_some_or _ _ v0); [done |]. cbn beta.
  assert (Hnone : forall w' v, handle_state pix p w v w' -> Q None w') by (intros; by eapply HQ).
  assert (Hsucc : forall w' v, handle_state pix p w v w' -> wp (priv ← get_priv pix;
      pr ← some_or NullDeref priv; _ ← set_priv pix (Some (pr <| handle_valid := true |>));
      mret (Some (priv_handle pr))) Q w').
  { intros w' v Hv. eapply wp_handle_success; [done |]. intros w'' v' Hv' Hval Hh. eapply HQ; [done |].
    intros h [= <-]. done. }
  destruct (handle_valid v0); [by eapply Hsucc |]. destruct (use_glamor info).
  - apply wp_bind. wp_ext. destruct (_ <? 0).
    { eapply wp_ret, Hnone. exact (handle_state_trace _ _ _ _ _ (_ :: _) Hs1). }
    apply wp_bind. wp_ext. destruct (reply _ (DrmPrimeFDToHandle _)) as [hd|].
    + apply wp_bind, (wp_handle_set pix p w v0);
        [exact (handle_state_trace _ _ _ _ _ (_ :: _) Hs1) | done | done |]. intros w2 Hs2.
      apply wp_bind. wp_ext. apply wp_bind.
      pose proof (handle_state_trace _ _ _ _ _ (CloseFd (reply (w_trace w1) (GlamorFdFromPixmap pix)) :: w_trace w2) Hs2) as Hs3.
      unfold amdgpu_pixmap_do_get_tiling_info.
      apply wp_bind, (wp_handle_get pix p w _ _ _ Hs3), wp_bind, (wp_some_or _ _ _ _ _ eq_refl), wp_bind.
      wp_ext. destruct (reply _ (DrmAmdgpuGemMetadata _)) as [ti|].
      * eapply wp_handle_set; [exact (handle_state_trace _ _ _ _ _ (_ :: _) Hs3) | done | done |].
        intros w3 Hs4. by eapply Hsucc.
      * apply wp_ret. eapply Hsucc. exact (handle_state_trace _ _ _ _ _ (_ :: _) Hs3).
    + apply wp_bind, wp_ret, wp_bind. wp_ext. eapply wp_ret, Hnone.
      exact (handle_state_trace _ _ _ _ _ (_ :: _ :: _) Hs1).
  - destruct (priv_bo v0) as [bo|] eqn:Hbo; [| by eapply wp_ret, Hnone].
    pose proof (bo_refs_pix w1 pix _ _ bo (hs_pix _ _ _ _ _ Hs1) eq_refl Hbo) as Hrefs.
    destruct (counted_live _ _ _ bo (bi_count _ _ (mi_bo _ _ (hs_inv _ _ _ _ _ Hs1)))) as (b & Hb & _); [cbn; lia |].
    apply wp_bind, (wp_bo_get_handle _ b); [done |]. intros [hd|] t.
    + apply wp_bind, (wp_handle_set pix p w v0); [by apply handle_state_trace | done | done |].
      intros w2 Hs2. by eapply Hsucc.
    + eapply wp_ret, Hnone. by apply handle_state_trace.
Qed.

(** ** Framebuffers of pixmaps *)

Lemma wp_get_fb_ptr pix p info (Q : option fb_slot -> world -> Prop) w :
  w_pixmaps w !! pix = Some p -> w_scrns w !! pix_scrn p = Some info ->
  Q (if use_glamor info then match pix_priv p with Some _ => Some (SPriv pix) | None => None end
     else None) w ->
  wp (amdgpu_pixmap_get_fb_ptr pix) Q w.
Proof. intros Hp Hs HQ. apply wp_bind, (wp_load _ _ p); [done |]. by apply wp_bind, (wp_load _ _ info). Qed.

(** A new framebuffer goes into the empty slot of the pixmap. *)
Lemma mem_inv_fill_slot w w1 s r :
  mem_inv w -> slot_get w s = Some None -> fb_frame w w1 ->
  fb_inv_with (fun l => points l r) w1 -> mem_inv (slot_set s r w1).
Proof.
  intros [_ [Hc Hw Hb] Hp] Hs Hfr [Hi Hbd].
  assert (Hs1 : slot_get w1 s = Some None).
  { by rewrite (slot_get_frame w) by apply Hfr. }
  destruct (slot_set_frame s r w1) as (Hf & Hn & _ & _). pose proof (ff_next _ _ Hfr) as Hnx.
  assert (Hbos : w_bos (slot_set s r w1) = w_bos w) by (rewrite <- (ff_bos _ _ Hfr); by destruct s).
  split; [split | split |].
  - intros l. rewrite Hf, (fb_refs_slot_set w1 s None) by done. rewrite points_None.
    specialize (Hi l). destruct (w_fbs w1 !! l); lia.
  - intros l. rewrite Hf, Hn. apply Hbd.
  - rewrite Hbos. eapply counted_ext; [| exact Hc]. intros k. cbn. rewrite bo_refs_slot_set.
    rewrite (bo_refs_frame w w1); [done | apply Hfr..].
  - by rewrite Hbos.
  - intros l. rewrite Hbos, Hn. intros Hl. specialize (Hb l Hl). lia.
  - intros l Hl. rewrite Hn. enough (l < w_next w)%positive by lia. apply Hp.
    rewrite <- (ff_pixmaps _ _ Hfr). destruct s; try done. revert Hl. cbn.
    destruct (decide (l = pix)) as [->|Hne].
    + rewrite lookup_alter_eq. by rewrite fmap_is_Some.
    + by rewrite lookup_alter_ne.
Qed.

(** What [amdgpu_pixmap_get_fb] leaves behind. *)
Record get_fb_post (pix : loc) (p : pixmap) (w : world) (r : option loc) (w' : world) : Prop := {
  gf_inv : mem_inv w';
  gf_slot : forall fb, r = Some fb -> slot_get w' (SPriv pix) = Some (Some fb);
  gf_keep : forall fb, pix_priv p ≫= priv_fb = Some fb -> r = Some fb /\ w' = w;
  gf_bos : w_bos w' = w_bos w;
  gf_scrns : w_scrns w' = w_scrns w;
  gf_crtcs : w_crtcs w' = w_crtcs w;
  gf_queue : w_queue w' = w_queue w;
  gf_flipdata : w_flipdata w' = w_flipdata w;
  gf_events : w_events w' = w_events w;
  gf_next : (w_next w <= w_next w')%positive;
  gf_fbs : forall l fb, w_fbs w !! l = Some fb -> w_fbs w' !! l = Some fb;
  gf_pix : exists pr, w_pixmaps w' !! pix = Some (p <| pix_priv := Some pr |>);
  gf_others : forall l, l <> pix -> w_pixmaps w' !! l = w_pixmaps w !! l
}.

Lemma wp_get_fb pix p info (Q : option loc -> world -> Prop) w :
  mem_inv w -> w_pixmaps w !! pix = Some p -> w_scrns w !! pix_scrn p = Some info ->
  use_glamor info = true -> shadow_fb info = false -> priv_available p ->
  (forall r w', get_fb_post pix p w r w' -> Q r w') ->
  wp (amdgpu_pixmap_get_fb pix) Q w.
Proof.
  intros Hinv Hp Hs Hg Hsh Hav HQ. unfold amdgpu_pixmap_get_fb.
  apply wp_bind, (wp_get_fb_ptr _ p info); [done | done |]. rewrite Hg. apply wp_bind.
  set (ptr := match pix_priv p with Some _ => Some (SPriv pix) | None => None end).
  eapply (wp_mono _ (fun cur w' => cur = (pix_priv p ≫= priv_fb) /\ w' = w)).
  { unfold ptr. destruct (pix_priv p) as [pr|] eqn:Hpr; cbn; [| by apply wp_ret].
    apply (wp_read_slot (SPriv pix) (priv_fb pr)); [cbn; by rewrite Hp; cbn; rewrite Hpr | done]. }
  intros cur w1 [-> ->]. destruct (pix_priv p ≫= priv_fb) as [fb|] eqn:Hcur.
  { apply wp_ret, HQ. destruct (pix_priv p) as [pr|] eqn:Hpr; [| done]. cbn in Hcur. split; try done.
    - intros ? [= <-]. cbn. rewrite Hp. cbn. by rewrite Hpr, <- Hcur.
    - intros ? Hf. rewrite Hpr in Hf. cbn in Hf. split; congruence.
    - exists pr. rewrite Hp. f_equal. destruct p; cbn in *. by rewrite Hpr. }
  apply wp_bind, (wp_get_handle pix p info); [done..|]. intros h v w1 Hst Hh.
  pose proof (hs_frame _ _ _ _ _ Hst) as Hfr. pose proof (hs_pix _ _ _ _ _ Hst) as Hpx.
  assert (Hslot : slot_get w1 (SPriv pix) = Some None).
  { cbn. rewrite Hpx. cbn. rewrite (hs_fb _ _ _ _ _ Hst). by rewrite Hcur. }
  assert (Hs1 : w_scrns w1 !! pix_scrn p = Some info) by (by rewrite (pf_scrns _ _ _ Hfr)).
  destruct h as [h|]; cycle 1.
  - apply wp_bind, wp_ret. eapply (wp_mono _ (fun r w' => r = None /\ w' = w1)).
    { unfold ptr. destruct (pix_priv p); [by apply (wp_read_slot _ None) | by apply wp_ret]. }
    intros r w' [-> ->]. apply HQ. pose proof (pf_next _ _ _ Hfr) as Hnx.
    destruct Hfr, Hst. split; try done; [by rewrite Hcur | by rewrite Hnx | by rewrite hs_fbs0 | eauto].
  - apply wp_bind, wp_bind, (wp_load _ _ _ _ _ Hpx), wp_bind, (wp_load _ _ info); [done |].
    apply wp_bind. eapply (wp_mono _ (fun r w' => r = Some (SPriv pix) /\ w' = w1)).
    { unfold ptr. destruct (pix_priv p); [by apply wp_ret |].
      eapply wp_get_fb_ptr; [exact Hpx | exact Hs1 |]. cbn. by rewrite Hg. }
    intros r w' [-> ->]. apply wp_bind, wp_fb_create; [apply (hs_inv _ _ _ _ _ Hst) |].
    intros r w2 Hfr2 Hinv2 Hr. apply wp_bind, (wp_some_or _ _ (SPriv pix)); [done |].
    assert (Hslot2 : slot_get w2 (SPriv pix) = Some None) by (by rewrite (slot_get_frame w1) by apply Hfr2).
    apply wp_bind, (wp_write_slot _ None); [done |]. apply wp_ret.
    apply (wp_read_slot _ r); [by eapply slot_get_set |]. apply HQ.
    pose proof (mem_inv_fill_slot _ _ _ r (hs_inv _ _ _ _ _ Hst) Hslot Hfr2 Hinv2) as Hinv3.
    pose proof (pf_next _ _ _ Hfr) as Hnx. split.
    + done.
    + intros fb ->. by eapply slot_get_set.
    + rewrite Hcur. done.
    + cbn. by rewrite (ff_bos _ _ Hfr2), (hs_bos _ _ _ _ _ Hst).
    + cbn. by rewrite (ff_scrns _ _ Hfr2), (pf_scrns _ _ _ Hfr).
    + cbn. by rewrite (ff_crtcs _ _ Hfr2), (pf_crtcs _ _ _ Hfr).
    + cbn. by rewrite (ff_queue _ _ Hfr2), (pf_queue _ _ _ Hfr).
    + cbn. by rewrite (ff_flipdata _ _ Hfr2), (pf_flipdata _ _ _ Hfr).
    + cbn. by rewrite (ff_events _ _ Hfr2), (pf_events _ _ _ Hfr).
    + cbn. rewrite <- Hnx. apply Hfr2.
    + intros l fb Hl. cbn. rewrite <- (hs_fbs _ _ _ _ _ Hst) in Hl. destruct r as [n|]; [| by rewrite Hr].
      destruct Hr as (Hn & hd & ->). rewrite lookup_insert_ne; [done |]. intros <-. congruence.
    + exists (v <| priv_fb := r |>). cbn. unfold setf. cbn. by rewrite (ff_pixmaps _ _ Hfr2), lookup_alter_eq, Hpx.
    + intros l Hl. cbn. unfold setf. cbn. rewrite (ff_pixmaps _ _ Hfr2), lookup_alter_ne by done.
      by apply (pf_pixmaps _ _ _ Hfr).
Qed.

(** With glamor, [amdgpu_pixmap_get_fb] returns the framebuffer the pixmap
    has without doing anything; otherwise it makes one and stores it with its
    only reference in the pixmap, or returns nothing and leaves none behind.
    The counts stay right, existing framebuffers are untouched, and a
    framebuffer it returns is live and owned by the pixmap. *)
Theorem pixmap_get_fb_safe pix p info w :
  mem_inv w -> w_pixmaps w !! pix = Some p -> w_scrns w !! pix_scrn p = Some info ->
  use_glamor info = true -> shadow_fb info = false -> priv_available p ->
  wp (amdgpu_pixmap_get_fb pix) (get_fb_post pix p w) w.
Proof. intros. by apply (wp_get_fb pix p info). Qed.

Lemma fb_create_total info width height pitch handle w :
  exists r w', amdgpu_fb_create info width height pitch handle w = Ok r w'.
Proof.
  destruct (wp_elim (amdgpu_fb_create info width height pitch handle) (fun _ _ => True) w)
    as (r & w' & H & _); [| eauto].
  unfold amdgpu_fb_create. apply wp_bind. wp_ext. destruct (negb _); [by apply wp_ret |].
  apply wp_bind, wp_new, wp_bind. wp_ext. case_match; apply wp_bind.
  - eapply wp_update; [apply lookup_insert_eq |]. by apply wp_ret.
  - eapply wp_free; [apply lookup_insert_eq |]. by apply wp_ret.
Qed.

(** Without glamor and without a shadow framebuffer,
    [amdgpu_pixmap_get_fb] writes through the null pointer that
    [amdgpu_pixmap_get_fb_ptr] returns, as soon as the pixmap has a valid
    handle. *)
Theorem pixmap_get_fb_without_glamor pix p pr info w :
  w_pixmaps w !! pix = Some p -> pix_priv p = Some pr -> handle_valid pr = true ->
  w_scrns w !! pix_scrn p = Some info -> use_glamor info = false -> shadow_fb info = false ->
  amdgpu_pixmap_get_fb pix w = Fault NullDeref.
Proof.
  intros Hp Hpr Hval Hs Hg Hsh. unfold amdgpu_pixmap_get_fb.
  assert (Hptr : forall w' p', w_pixmaps w' !! pix = Some p' -> w_scrns w' !! pix_scrn p' = Some info ->
    amdgpu_pixmap_get_fb_ptr pix w' = Ok None w').
  { intros w' p' Hp' Hs'. destruct (wp_elim (amdgpu_pixmap_get_fb_ptr pix) (fun r w'' => r = None /\ w'' = w') w')
      as (r & w'' & -> & -> & ->); [| done]. eapply wp_get_fb_ptr; [done | done |]. by rewrite Hg. }
  rewrite (bind_ok _ _ w None w) by (by eapply Hptr).
  rewrite (bind_ok _ _ w None w) by done.
  destruct (wp_elim (amdgpu_pixmap_get_handle pix) (fun r w' => r = Some (priv_handle pr) /\
    w' = w <| w_pixmaps ::= <[pix := p <| pix_priv := Some (pr <| handle_valid := true |>) |>]> |>) w)
    as (r & w1 & Hh & -> & ->).
  { unfold amdgpu_pixmap_get_handle. apply wp_bind, (wp_load _ _ p); [done |].
    apply wp_bind, (wp_load _ _ info); [done |]. rewrite Hsh, Hpr. cbv zeta.
    apply wp_bind, wp_ret, wp_bind, (wp_get_priv _ p); [done |]. rewrite Hpr.
    apply wp_bind, (wp_some_or _ _ pr); [done |]. rewrite Hval.
    apply wp_bind, (wp_get_priv _ p); [done |]. rewrite Hpr.
    apply wp_bind, (wp_some_or _ _ pr); [done |]. by apply wp_bind, (wp_set_priv _ p). }
  rewrite (bind_ok _ _ _ _ _ Hh). clear Hh.
  set (p1 := p <| pix_priv := _ |>). set (w1 := w <| w_pixmaps ::= _ |>).
  assert (Hp1 : w_pixmaps w1 !! pix = Some p1) by apply lookup_insert_eq.
  apply bind_fault. rewrite (bind_ok _ _ _ _ _ (load_ok w_pixmaps _ _ _ Hp1)).
  rewrite (bind_ok _ _ _ _ _ (load_ok w_scrns (pix_scrn p) info w1 Hs)).
  rewrite (bind_ok _ _ _ _ _ (Hptr w1 p1 Hp1 Hs)).
  destruct (fb_create_total info (pix_width p1) (pix_height p1) (devKind p1) (priv_handle pr) w1)
    as (r & w2 & Hc). by rewrite (bind_ok _ _ _ _ _ Hc).
Qed.

(** ** The exact behaviour of [amdgpu_bo_unref] *)

(** The calls that give a buffer back, newest first. *)
Definition bo_teardown (b : amdgpu_buffer) (t : list ext) : list ext :=
  let unmap :=
    if cpu_ptr b =? 0 then t
    else if is_gbm b then
      let t1 := GbmBoGetStride (bo_handle b) :: t in
      let t2 := GbmBoGetHeight (bo_handle b) :: t1 in
      Munmap (cpu_ptr b) (u32 (reply t (GbmBoGetStride (bo_handle b))
                               * reply t1 (GbmBoGetHeight (bo_handle b)))) :: t2
    else AmdgpuBoCpuUnmap (bo_handle b) :: t in
  (if is_gbm b then GbmBoDestroy (bo_handle b) else AmdgpuBoFree (bo_handle b)) :: unmap.

(** [amdgpu_bo_unref] only counts down while other references remain; with
    the last one it unmaps the buffer if it was mapped, gives it back to the
    library it came from, frees the structure and clears the variable. *)
Theorem bo_unref_exact l b w :
  w_bos w !! l = Some b -> 0 < ref_count b < 2 ^ 32 ->
  amdgpu_bo_unref (Some l) w =
    if ref_count b =? 1
    then Ok None (w <| w_bos ::= delete l |> <| w_trace := bo_teardown b (w_trace w) |>)
    else Ok (Some l) (w <| w_bos ::= <[l := b <| ref_count := ref_count b - 1 |>]> |>).
Proof.
  intros Hl Hb. apply wp_run. unfold amdgpu_bo_unref. apply wp_bind, (wp_deref _ l); [done |].
  apply wp_bind, (wp_update _ _ b); [done |].
  set (b1 := setf ref_count (fun n => u32 (n - 1)) b). set (w1 := w <| w_bos ::= <[l := b1]> |>).
  assert (Hl1 : w_bos w1 !! l = Some b1) by apply lookup_insert_eq.
  assert (Hrc : ref_count b1 = ref_count b - 1) by (apply u32_id; unfold in_u32; lia).
  apply wp_bind, (wp_load _ _ b1); [done |].
  destruct (Z.eqb_spec (ref_count b) 1) as [Heq|Hne].
  - rewrite Hrc, Heq. cbn [Z.sub Z.eqb negb]. unfold amdgpu_bo_unmap.
    apply wp_bind, wp_bind, (wp_load _ _ b1); [done |].
    assert (Hend : forall w2, w2 = w1 <| w_trace := w_trace w2 |> ->
      w_trace w2 = bo_teardown b (w_trace w) ->
      wp (_ ← free w_bos l; mret (None : option loc)) (fun a w' => Ok a w' = Ok None
        (w <| w_bos ::= delete l |> <| w_trace := bo_teardown b (w_trace w) |>)) w2).
    { intros w2 Hw2 Ht. rewrite Hw2.
      apply wp_bind, (wp_free _ _ b1); [done |]. apply wp_ret. f_equal. rewrite Ht.
      unfold w1, setf. cbn. by rewrite delete_insert_eq. }
    change (cpu_ptr b1) with (cpu_ptr b). change (is_gbm b1) with (is_gbm b).
    change (bo_handle b1) with (bo_handle b). unfold bo_teardown in Hend |- *.
    destruct (cpu_ptr b =? 0).
    + apply wp_ret, wp_bind. destruct (is_gbm b); wp_ext;
        (lazymatch goal with |- wp _ _ ?w2 => exact (Hend w2 eq_refl eq_refl) end).
    + destruct (is_gbm b).
      * apply wp_bind. wp_ext. apply wp_bind. wp_ext. wp_ext. apply wp_bind. wp_ext.
        lazymatch goal with |- wp _ _ ?w2 => exact (Hend w2 eq_refl eq_refl) end.
      * wp_ext. apply wp_bind. wp_ext.
        lazymatch goal with |- wp _ _ ?w2 => exact (Hend w2 eq_refl eq_refl) end.
  - rewrite Hrc. destruct (Z.eqb_spec (ref_count b - 1) 0); [lia |]. apply wp_ret. f_equal.
    unfold w1, b1, setf. by rewrite u32_id by (unfold in_u32; lia).
Qed.
End Handles.

(** ** Sizes *)

(** [a] is a power of two. *)
Definition pow2 (a : Z) : Prop := exists n, 0 <= n /\ a = 2 ^ n.

Lemma land_lnot_ones x n : 0 <= n -> Z.land x (Z.lnot (2 ^ n - 1)) = x - x mod 2 ^ n.
Proof.
  intros Hn. replace (2 ^ n - 1) with (Z.ones n) by (rewrite Z.ones_equiv; lia).
  rewrite <- Z.ldiff_land, Z.ldiff_ones_r, Z.shiftr_div_pow2, Z.shiftl_mul_pow2 by done.
  pose proof (Z.div_mod x (2 ^ n)). lia.
Qed.

(** [AMDGPU_ALIGN] rounds up to the next multiple. *)
Lemma align_pow2 x a : pow2 a ->
  x <= AMDGPU_ALIGN x a < x + a /\ (a | AMDGPU_ALIGN x a).
Proof.
  intros (n & Hn & ->). unfold AMDGPU_ALIGN. rewrite land_lnot_ones by done.
  assert (0 < 2 ^ n) by (apply Z.pow_pos_nonneg; lia).
  set (y := x + (2 ^ n - 1)). pose proof (Z.mod_pos_bound y (2 ^ n)) as Hm.
  pose proof (Z.div_mod y (2 ^ n)) as Hd. split; [unfold y in *; lia |].
  exists (y / 2 ^ n). lia.
Qed.

(** The configurations [amdgpu_get_tile_config] can leave. *)
Definition tile_config_ok (info : scrn_info) : Prop :=
  have_tiling_info info = true -> group_bytes info = 256 \/ group_bytes info = 512.

Lemma pitch_align_pow2 info bpe :
  tile_config_ok info -> bpe = 1 \/ bpe = 2 \/ bpe = 4 ->
  exists a, drmmode_get_pitch_align info bpe = Some a /\ pow2 a /\ 64 <= a <= 512.
Proof.
  intros Hok Hbpe. unfold drmmode_get_pitch_align. destruct (have_tiling_info info) eqn:Ht.
  - destruct (Hok Ht) as [-> | ->], Hbpe as [-> | [-> | ->]];
      [exists (2 ^ 8) | exists (2 ^ 7) | exists (2 ^ 6) | exists (2 ^ 9) | exists (2 ^ 8) | exists (2 ^ 7)];
      (split_and!; [reflexivity | eexists; split; [| reflexivity]; lia | lia | lia]).
  - exists 512. split_and!; [done | by exists 9 | lia | lia].
Qed.

(** C36. For every pixmap size the driver accepts (up to 32767 x 32767, 8, 16 or
    32 bits per pixel), the pitch of a linear buffer holds a row, is a multiple
    of the required alignment, and neither the pitch nor the size
    [pitch * height] wraps around in 32 bits, so the buffer holds the pixmap. *)
Theorem linear_bo_size_fits info width height bpp :
  tile_config_ok info -> bpp = 8 \/ bpp = 16 \/ bpp = 32 ->
  0 < width <= 32767 -> 0 < height <= 32767 ->
  exists a pitch, drmmode_get_pitch_align info (bpp / 8) = Some a /\
    linear_pitch info width bpp = Some pitch /\
    width * (bpp / 8) <= pitch < (width + a) * (bpp / 8) /\ (a * (bpp / 8) | pitch) /\
    u32 (pitch * height) = pitch * height.
Proof.
  intros Hok Hbpp Hw Hh.
  assert (Hc : exists c, bpp / 8 = c /\ Z.quot (bpp + 7) 8 = c /\ (c = 1 \/ c = 2 \/ c = 4)).
  { destruct Hbpp as [-> | [-> | ->]]; eexists; (split; [reflexivity |]); cbn; auto. }
  destruct Hc as (c & -> & Hq & Hc). destruct (pitch_align_pow2 info c Hok Hc) as (a & Ha & Hp & Hr).
  destruct (align_pow2 width a Hp) as [Hal Hdiv].
  assert (Hmax : AMDGPU_ALIGN width a <= 32768).
  { assert (Hd2 : (a | 32768)).
    { destruct Hp as (n & Hn & ->). exists (2 ^ (15 - n)). rewrite <- Z.pow_add_r; [| | done].
      - replace (15 - n + n) with 15 by lia. done.
      - destruct (Z.lt_ge_cases n 16) as [|Hge]; [lia |].
        pose proof (Z.pow_le_mono_r 2 16 n ltac:(lia) Hge). lia. }
    destruct Hd2 as [m Hm], Hdiv as [q Hqq]. rewrite Hqq in *.
    assert (q <= m); [| nia]. apply Z.lt_succ_r, (Z.mul_lt_mono_pos_r a); lia. }
  exists a, (c * AMDGPU_ALIGN width a). split; [done |].
  assert (0 <= c * AMDGPU_ALIGN width a <= 4 * 32768) by nia.
  split_and!; [| nia | nia | |].
  - unfold linear_pitch. rewrite Hq, Ha. cbn. by rewrite u32_id by (unfold in_u32; lia).
  - destruct Hdiv as [q ->]. exists q. lia.
  - apply u32_id. unfold in_u32. nia.
Qed.

(** ** The theorems on the sample machine *)

Lemma pixmap_get_fb_witness :
  mem_inv Sample.w /\ @wp _ _ (@amdgpu_pixmap_get_fb Sample.env 2)
     (get_fb_post 2 Sample.pix Sample.w) Sample.w.
Proof.
  split; [exact sample_mem_inv |].
  by apply (@pixmap_get_fb_safe Sample.env 2 Sample.pix Sample.scrn);
    [exact sample_mem_inv | reflexivity | reflexivity | reflexivity | reflexivity |].
Defined.

Lemma pixmap_get_fb_without_glamor_witness :
  let p := Sample.pix <| pix_priv := Some (priv0 <| handle_valid := true |>) |> in
  let w := Sample.w <| w_pixmaps := {[2%positive := p]} |>
                    <| w_scrns := {[1%positive := Sample.scrn <| use_glamor := false |>]} |> in
  @amdgpu_pixmap_get_fb Sample.env 2 w = Fault NullDeref.
Proof.
  intros p w.
  by apply (@pixmap_get_fb_without_glamor Sample.env 2 p (priv0 <| handle_valid := true |>)
              (Sample.scrn <| use_glamor := false |>)).
Defined.

Lemma bo_unref_exact_witness :
  @amdgpu_bo_unref Sample.env (Some 4%positive) Sample.w
  = Ok None (Sample.w <| w_bos ::= delete 4%positive |> <| w_trace := [AmdgpuBoFree 21] |>).
Proof. by apply (@bo_unref_exact Sample.env 4 (Buffer 21 0 1 0)). Defined.

Lemma linear_bo_size_fits_witness :
  exists a pitch, drmmode_get_pitch_align Sample.scrn (32 / 8) = Some a /\
    linear_pitch Sample.scrn 32767 32 = Some pitch /\
    32767 * (32 / 8) <= pitch < (32767 + a) * (32 / 8) /\ (a * (32 / 8) | pitch) /\
    u32 (pitch * 32767) = pitch * 32767.
Proof. apply linear_bo_size_fits; [done | auto | lia | lia]. Defined.
