(* ===== verification/Crtc.v ===== *)
(** * CRTCs: vblank counters, power management and programming a mode

    The functions of src/src/drmmode_display.c that read the vblank counter of a
    CRTC, switch it on and off, and program a mode with [drmModeSetCrtc]. *)
From stdpp Require Import strings.
From S2P Require Import Prelude Modes World Fb Queue.

(** ** Constants of xf86drm.h *)
Definition DRM_VBLANK_ABSOLUTE : Z := 0.
Definition DRM_VBLANK_RELATIVE : Z := 1.
Definition DRM_VBLANK_HIGH_CRTC_SHIFT : Z := 1.
Definition DRM_VBLANK_HIGH_CRTC_MASK : Z := 0x3e.
Definition DRM_VBLANK_EVENT : Z := 0x4000000.
Definition DRM_VBLANK_SECONDARY : Z := 0x20000000.
Definition DRM_CAP_TIMESTAMP_MONOTONIC : Z := 6.
Definition CLOCK_REALTIME : Z := 0.
Definition CLOCK_MONOTONIC : Z := 1.
Definition DEFAULT_NOMINAL_FRAME_RATE : Z := 60.

(** [drmmode_crtc->field = v] *)
Definition set_dcrtc (crtc : loc) (f : drmmode_crtc -> drmmode_crtc) : D unit :=
  update w_crtcs crtc (setf driver_private f).

Definition get_dcrtc (crtc : loc) : D drmmode_crtc :=
  c ← load w_crtcs crtc; mret (driver_private c).

Definition drmmode_get_crtc_id (crtc : loc) : D Z :=
  d ← get_dcrtc crtc; mret (hw_id d).

(** [drmmode_crtc->scanout[i]]; the index is zero or one. *)
Definition scanout_at (d : drmmode_crtc) (i : Z) : option loc :=
  if i =? 0 then (scanout d).1 else (scanout d).2.

Definition drmmode_crtc_can_flip (crtc : loc) : D bool :=
  c ← load w_crtcs crtc;
  let d := driver_private c in
  mret (enabled c && (dpms_mode d =? DPMSModeOn)
        && match rotate d with None => true | Some _ => false end
        && (tear_free d || match scanout_at d (scanout_id d) with None => true | Some _ => false end)).

Definition drmmode_cm_prop_supported (info : scrn_info) (prop : drmmode_cm_prop) : bool :=
  negb (cm_prop_ids info prop =? 0).

(** The request type with the CRTC in it, in 32 bits. *)
Definition vblank_type (type crtc_id : Z) : Z :=
  if crtc_id =? 1 then Z.lor type DRM_VBLANK_SECONDARY
  else if crtc_id >? 1 then
    Z.lor type (Z.land (Z.shiftl crtc_id DRM_VBLANK_HIGH_CRTC_SHIFT) DRM_VBLANK_HIGH_CRTC_MASK)
  else type.

(** The X server's [xf86CrtcRotate], which may change the CRTC and call back into
    the driver. *)
Class Rotator := xf86CrtcRotate : loc -> D bool.

Section Code.
Context `{env : Env} `{callbacks : Callbacks}.
Context `{rot : Rotator}.

(** [inl errno] is [FALSE]; otherwise [*ust] and [*result_seq]. *)
Definition drmmode_wait_vblank (crtc : loc) (type target_seq signal : Z) : D (Z + (Z * Z)) :=
  crtc_id ← drmmode_get_crtc_id crtc;
  r ← call (DrmWaitVBlank (vblank_type type crtc_id) target_seq signal);
  mret match r with
       | inl errno => inl errno
       | inr (sec, usec, seq) => inr (u64 (sec * 1000000 + usec), seq)
       end.

(** [None] is a non-zero return value; otherwise [*ust]. *)
Definition drmmode_get_current_ust : D (option Z) :=
  cap ← call (DrmGetCap DRM_CAP_TIMESTAMP_MONOTONIC);
  let clk := match cap with
             | Some v => if v =? 0 then CLOCK_REALTIME else CLOCK_MONOTONIC
             | None => CLOCK_REALTIME
             end in
  now ← call (ClockGettime clk);
  mret ((fun '(sec, nsec) => u64 (u64 sec * 1000000 + u64 nsec / 1000)) <$> now).

(** [Some (ust, msc)] is [Success]. *)
Definition drmmode_crtc_get_ust_msc (crtc : loc) : D (option (Z * Z)) :=
  r ← drmmode_wait_vblank crtc DRM_VBLANK_RELATIVE 0 0;
  mret match r with inl _ => None | inr (ust, seq) => Some (ust, seq) end.

(** [drmModeGetProperty] on each id of the object, as the loop meets them: the
    name and id of the property, or nothing. *)
Fixpoint drmmode_crtc_get_prop_id (props : list (option (string * Z))) (name : string) (prop_id : Z) : Z :=
  match props with
  | [] => prop_id
  | p :: r =>
      if negb (prop_id =? 0) then prop_id
      else match p with
           | None => drmmode_crtc_get_prop_id r name prop_id
           | Some (n, id) =>
               drmmode_crtc_get_prop_id r name (if String.eqb n name then id else prop_id)
           end
  end.

(** [props] is what [drmModeObjectGetProperties] finds, [None] for [NULL]. *)
Definition drmmode_crtc_vrr_init (crtc : loc) (props : option (list (option (string * Z)))) : D unit :=
  c ← load w_crtcs crtc;
  info ← load w_scrns (crtc_scrn c);
  if negb (vrr_prop_id info =? 0) then mret tt
  else
    match props with
    | None => mret tt
    | Some ps => update w_scrns (crtc_scrn c)
                   (setf vrr_prop_id (fun _ => drmmode_crtc_get_prop_id ps "VRR_ENABLED" 0))
    end.

Definition drmmode_crtc_set_vrr (crtc : loc) (on : bool) : D unit :=
  c ← load w_crtcs crtc;
  info ← load w_scrns (crtc_scrn c);
  let d := driver_private c in
  if negb (vrr_prop_id info =? 0) && negb (bool_decide (vrr_enabled d = on)) then
    r ← call (DrmModeObjectSetProperty (mode_crtc_id d) (vrr_prop_id info) (Z.b2z on));
    mwhen (r =? 0) (set_dcrtc crtc (setf vrr_enabled (fun _ => on)))
  else mret tt.

(** The frame rate of a mode in the [CARD64] and [int] arithmetic of
    [drmmode_do_crtc_dpms]. *)
Definition nominal_frame_rate (m : DisplayModeRec) : Z :=
  let rate := u64 (u64 (Clock m) * 1000) in
  let pix_in_frame := u64 (s32 (HTotal m * VTotal m)) in
  s32 (if (rate =? 0) || (pix_in_frame =? 0) then DEFAULT_NOMINAL_FRAME_RATE
       else rate / pix_in_frame).

(** The vblanks that would have happened between two times. *)
Definition missed_vblanks (last_ust fps ust : Z) : Z :=
  u64 (u64 (ust - last_ust) * u64 fps) / 1000000.

Definition drmmode_do_crtc_dpms (fuel : nat) (crtc : loc) (mode : Z) : D unit :=
  d ← get_dcrtc crtc;
  if (dpms_mode d =? DPMSModeOn) && negb (mode =? DPMSModeOn) then
    _ ← amdgpu_drm_wait_pending_flip fuel crtc;
    r ← drmmode_wait_vblank crtc DRM_VBLANK_RELATIVE 0 0;
    _ ← match r with
        | inl _ => mret tt
        | inr (ust, seq) =>
            c ← load w_crtcs crtc;
            set_dcrtc crtc (fun d =>
              d <| dpms_last_ust := ust |> <| dpms_last_seq := seq |>
                <| dpms_last_fps := nominal_frame_rate (crtc_mode c) |>)
        end;
    _ ← set_dcrtc crtc (setf dpms_mode (fun _ => mode));
    amdgpu_drm_queue_handle_deferred fuel crtc
  else if negb (dpms_mode d =? DPMSModeOn) && (mode =? DPMSModeOn) then
    r ← drmmode_get_current_ust;
    _ ← match r with
        | None => mret tt
        | Some ust =>
            mwhen (negb (dpms_last_ust d =? 0))
              (set_dcrtc crtc (setf interpolated_vblanks (fun n =>
                 u32 (n + missed_vblanks (dpms_last_ust d) (dpms_last_fps d) ust))))
        end;
    set_dcrtc crtc (setf dpms_mode (fun _ => DPMSModeOn))
  else mret tt.

(** The connectors of the outputs on the CRTC; [None] where one has none. *)
Fixpoint connector_ids (outs : list loc) (crtc : loc) : D (option (list Z)) :=
  match outs with
  | [] => mret (Some [])
  | o :: r =>
      out ← load w_outputs o;
      if negb (bool_decide (out_crtc out = Some crtc)) then connector_ids r crtc
      else match connector_id out with
           | None => mret None
           | Some id => ids ← connector_ids r crtc; mret (cons id <$> ids)
           end
  end.

Definition drmmode_set_mode (crtc fb : loc) (mode : DisplayModeRec) (x y : Z) : D bool :=
  c ← load w_crtcs crtc;
  info ← load w_scrns (crtc_scrn c);
  ok ← call (Calloc "output_ids");
  if negb ok then mret false
  else
    ids ← connector_ids (outputs info) crtc;
    match ids with
    | None => mret false
    | Some output_ids =>
        f ← load w_fbs fb;
        r ← call (DrmModeSetCrtc (mode_crtc_id (driver_private c)) (fb_handle f) x y output_ids
                    (Some (drmmode_ConvertToKMode mode)));
        if r =? 0 then _ ← drmmode_fb_reference (SCrtcFb crtc) (Some fb); mret true
        else mret false
    end.

(** [sw_cursor] is the option of that name. *)
Definition drmmode_can_use_hw_cursor (sw_cursor : bool) (crtc : loc) : D bool :=
  c ← load w_crtcs crtc;
  mret (if sw_cursor then false else negb (transformPresent c)).

(** The loop over the outputs, which ends at the first output that asks for it. *)
Fixpoint wants_tear_free (info : scrn_info) (c : xf86Crtc) (crtc : loc) (outs : list loc) : D bool :=
  match outs with
  | [] => mret false
  | o :: r =>
      out ← load w_outputs o;
      if negb (bool_decide (out_crtc out = Some crtc)) then wants_tear_free info c crtc r
      else if (out_tear_free out =? 1)
              || ((out_tear_free out =? 2)
                  && (is_gpu info || shadow_primary info || vrr_support info
                      || transformPresent c || negb (rotation c =? RR_Rotate_0)))
      then mret true
      else wants_tear_free info c crtc r
  end.

Definition drmmode_crtc_update_tear_free (crtc : loc) : D unit :=
  c ← load w_crtcs crtc;
  info ← load w_scrns (crtc_scrn c);
  _ ← set_dcrtc crtc (setf tear_free (fun _ => false));
  b ← wants_tear_free info c crtc (outputs info);
  mwhen b (set_dcrtc crtc (setf tear_free (fun _ => true))).

(** [XF86DriverTransformOutput] is a constant bit of the server. *)
Definition drmmode_handle_transform (crtc : loc) : D bool :=
  _ ← update w_crtcs crtc (setf driverIsPerformingTransform (fun _ => true));
  ret ← xf86CrtcRotate crtc;
  _ ← update w_crtcs crtc (fun c =>
        c <| driverIsPerformingTransform ::= fun b => b && ret && transform_in_use c |>);
  mret ret.
End Code.

(** ** The request type names the CRTC *)

(** How the kernel reads the CRTC back from the type. *)
Definition vblank_type_crtc (type : Z) : Z :=
  let high := Z.shiftr (Z.land type DRM_VBLANK_HIGH_CRTC_MASK) DRM_VBLANK_HIGH_CRTC_SHIFT in
  if high =? 0 then (if Z.land type DRM_VBLANK_SECONDARY =? 0 then 0 else 1) else high.

(** The types the driver asks with. *)
Definition plain_type (type : Z) : Prop :=
  type = DRM_VBLANK_ABSOLUTE \/ type = DRM_VBLANK_RELATIVE \/
  type = Z.lor DRM_VBLANK_ABSOLUTE DRM_VBLANK_EVENT \/ type = Z.lor DRM_VBLANK_RELATIVE DRM_VBLANK_EVENT.

(** The type [drmmode_wait_vblank] passes to the kernel names the CRTC it was
    called for, for every CRTC number the field can hold, and keeps the bits
    that say how the sequence number is meant and whether an event is wanted. *)
Theorem vblank_type_roundtrip type crtc_id :
  plain_type type -> 0 <= crtc_id < 32 ->
  vblank_type_crtc (vblank_type type crtc_id) = crtc_id /\
  Z.land (vblank_type type crtc_id) (Z.lor DRM_VBLANK_RELATIVE DRM_VBLANK_EVENT) = type.
Proof.
  intros Ht Hc. assert (Hin : crtc_id ∈ (Z.of_nat <$> seq 0 32)).
  { apply list_elem_of_fmap. exists (Z.to_nat crtc_id). split; [lia |]. apply elem_of_seq. lia. }
  pose (ok t c := (vblank_type_crtc (vblank_type t c) =? c)
    && (Z.land (vblank_type t c) (Z.lor DRM_VBLANK_RELATIVE DRM_VBLANK_EVENT) =? t)).
  assert (Hall : forallb (fun t => forallb (ok t) (Z.of_nat <$> seq 0 32))
    [DRM_VBLANK_ABSOLUTE; DRM_VBLANK_RELATIVE; Z.lor DRM_VBLANK_ABSOLUTE DRM_VBLANK_EVENT;
     Z.lor DRM_VBLANK_RELATIVE DRM_VBLANK_EVENT] = true) by (vm_compute; reflexivity).
  rewrite forallb_forall in Hall. specialize (Hall type). rewrite forallb_forall in Hall.
  assert (Hok : ok type crtc_id = true).
  { apply Hall; [| by apply list_elem_of_In]. apply list_elem_of_In.
    rewrite !elem_of_cons. unfold plain_type in Ht. tauto. }
  unfold ok in Hok. apply andb_true_iff in Hok as [H1 H2]. lia.
Qed.

Lemma vblank_type_roundtrip_witness :
  vblank_type_crtc (vblank_type (Z.lor DRM_VBLANK_RELATIVE DRM_VBLANK_EVENT) 5) = 5.
Proof. apply vblank_type_roundtrip; [unfold plain_type; auto | lia]. Defined.

(** ** Switching a CRTC off and on *)

#[local] Arguments u32 : simpl never.
#[local] Arguments u64 : simpl never.
#[local] Arguments s32 : simpl never.
#[local] Arguments nominal_frame_rate : simpl never.
#[local] Arguments missed_vblanks : simpl never.

Lemma missed_vblanks_exact last_ust fps ust :
  0 <= last_ust <= ust -> ust < 2 ^ 64 -> 0 <= fps -> (ust - last_ust) * fps < 2 ^ 64 ->
  missed_vblanks last_ust fps ust = (ust - last_ust) * fps / 1000000.
Proof.
  intros Hl Hu Hf Hm. unfold missed_vblanks. rewrite (u64_id (ust - last_ust)) by (unfold in_u64; lia).
  assert (Hcase : ust = last_ust \/ last_ust < ust) by lia. destruct Hcase as [->|Hlt].
  - rewrite Z.sub_diag. unfold u64 at 1. by rewrite !Z.mul_0_l.
  - rewrite (u64_id fps) by (unfold in_u64; nia). by rewrite u64_id by (unfold in_u64; nia).
Qed.

Lemma nominal_frame_rate_exact m :
  0 < Clock m < 2 ^ 31 -> 0 < HTotal m * VTotal m < 2 ^ 31 ->
  Clock m * 1000 / (HTotal m * VTotal m) < 2 ^ 31 ->
  nominal_frame_rate m = Clock m * 1000 / (HTotal m * VTotal m).
Proof.
  intros Hc Hp Hr. unfold nominal_frame_rate. rewrite (s32_id (HTotal m * VTotal m)) by (unfold in_s32; lia).
  rewrite (u64_id (Clock m)), (u64_id (Clock m * 1000)), (u64_id (HTotal m * VTotal m)) by (unfold in_u64; lia).
  destruct (Z.eqb_spec (Clock m * 1000) 0); [lia |].
  destruct (Z.eqb_spec (HTotal m * VTotal m) 0); [lia |]. cbn.
  assert (0 <= Clock m * 1000 / (HTotal m * VTotal m)) by (apply Z.div_pos; lia).
  apply s32_id. unfold in_s32. lia.
Qed.

Section Dpms.
Context `{env : Env} `{callbacks : Callbacks}.

Lemma wp_set_dcrtc crtc c f (Q : unit -> world -> Prop) w :
  w_crtcs w !! crtc = Some c ->
  Q tt (w <| w_crtcs ::= <[crtc := c <| driver_private ::= f |>]> |>) -> wp (set_dcrtc crtc f) Q w.
Proof. intros Hc HQ. by apply (wp_update _ _ c). Qed.

Lemma wp_get_dcrtc crtc c (Q : drmmode_crtc -> world -> Prop) w :
  w_crtcs w !! crtc = Some c -> Q (driver_private c) w -> wp (get_dcrtc crtc) Q w.
Proof. intros Hc HQ. by apply wp_bind, (wp_load _ _ c). Qed.

(** Nothing waits to be delivered, and no flip of the CRTC is pending. *)
Record quiet (crtc : loc) (w : world) (c : xf86Crtc) : Prop := {
  qt_crtc : w_crtcs w !! crtc = Some c;
  qt_flip : flip_pending (driver_private c) = None;
  qt_nest : wait_flip_nesting_level (driver_private c) = 0;
  qt_signalled : amdgpu_drm_vblank_signalled (w_queue w) = [];
  qt_deferred : amdgpu_drm_vblank_deferred (w_queue w) = []
}.

(** [w] with another state of one CRTC, and calls [t]. *)
Definition put_crtc (crtc : loc) (c : xf86Crtc) (t : list ext) (w : world) : world :=
  w <| w_crtcs ::= <[crtc := c]> |> <| w_trace := t |>.

Lemma put_crtc_same crtc c w : w_crtcs w !! crtc = Some c -> w = put_crtc crtc c (w_trace w) w.
Proof. intros Hc. unfold put_crtc, setf. cbn. rewrite insert_id by done. by destruct w. Qed.
Lemma put_crtc_put crtc c c' t w :
  setf w_crtcs <[crtc := c']> (put_crtc crtc c t w) = put_crtc crtc c' t w.
Proof. unfold put_crtc, setf. cbn. by rewrite insert_insert_eq. Qed.
Lemma put_crtc_first crtc c' w : setf w_crtcs <[crtc := c']> w = put_crtc crtc c' (w_trace w) w.
Proof. by destruct w. Qed.
Lemma put_crtc_call crtc c t e w :
  setf w_trace (cons e) (put_crtc crtc c t w) = put_crtc crtc c (e :: t) w.
Proof. done. Qed.
Lemma put_crtc_lookup crtc c t w : w_crtcs (put_crtc crtc c t w) !! crtc = Some c.
Proof. apply lookup_insert_eq. Qed.

(** Waiting for a flip when none is pending. *)
Lemma wp_wait_quiet fuel crtc c (Q : unit -> world -> Prop) w :
  quiet crtc w c -> (0 < fuel)%nat ->
  Q tt (w <| w_crtcs ::= <[crtc := c <| driver_private ::= setf wait_flip_nesting_level (fun _ => 1) |>]> |>) ->
  wp (amdgpu_drm_wait_pending_flip fuel crtc) Q w.
Proof.
  intros [Hc Hf Hn _ _] Hfuel HQ. destruct fuel as [|fuel]; [lia |].
  unfold amdgpu_drm_wait_pending_flip. apply wp_bind, wp_bind, (wp_load _ _ c); [done |]. apply wp_ret.
  rewrite Hn. apply wp_bind, (wp_update _ _ c); [done |].
  set (c1 := setf driver_private _ c). set (w1 := setf w_crtcs _ w).
  assert (Hc1 : w_crtcs w1 !! crtc = Some c1) by apply lookup_insert_eq.
  assert (Hp : wp (has_flip_pending crtc) (fun b w' => b = false /\ w' = w1) w1).
  { apply wp_bind, (wp_load _ _ c1); [done |]. apply wp_ret. cbn. by rewrite Hf. }
  apply wp_bind. cbn [handle_flip_signalled]. apply wp_bind.
  eapply wp_mono; [exact Hp |]. intros b w2 [-> ->]. apply wp_bind, wp_gets, wp_ret.
  cbn [wait_flip_loop]. apply wp_bind. eapply wp_mono; [exact Hp |]. intros b w2 [-> ->]. by apply wp_ret.
Qed.

(** Ending the wait when nothing was deferred. *)
Lemma wp_deferred_quiet fuel crtc c (Q : unit -> world -> Prop) w :
  w_crtcs w !! crtc = Some c -> wait_flip_nesting_level (driver_private c) = 1 ->
  amdgpu_drm_vblank_signalled (w_queue w) = [] -> amdgpu_drm_vblank_deferred (w_queue w) = [] ->
  (0 < fuel)%nat ->
  Q tt (w <| w_crtcs ::= <[crtc := c <| driver_private ::= setf wait_flip_nesting_level (fun _ => 0) |>]> |>) ->
  wp (amdgpu_drm_queue_handle_deferred fuel crtc) Q w.
Proof.
  intros Hc Hn Hs Hd Hfuel HQ. destruct fuel as [|fuel]; [lia |].
  unfold amdgpu_drm_queue_handle_deferred. apply wp_bind, wp_bind, (wp_load _ _ c); [done |]. apply wp_ret.
  rewrite Hn. apply wp_bind, (wp_update _ _ c); [done |].
  change (1 - 1 >? 0) with false. change (1 - 1) with 0. apply wp_bind, wp_modify.
  set (w1 := setf w_crtcs _ w) in *.
  assert (Hu : setf w_queue (undefer crtc) w1 = w1).
  { unfold setf, undefer. change (w_queue w1) with (w_queue w). rewrite Hd. by destruct w. }
  rewrite Hu. cbn [amdgpu_drm_handle_vblank_signalled]. apply wp_bind, wp_gets.
  change (w_queue w1) with (w_queue w). rewrite Hs. by apply wp_ret.
Qed.

Lemma put_crtc_again crtc c c' t t' w : put_crtc crtc c' t' (put_crtc crtc c t w) = put_crtc crtc c' t' w.
Proof. unfold put_crtc, setf. cbn. by rewrite insert_insert_eq. Qed.

(** Switching off a CRTC that has no flip pending. *)
Lemma wp_dpms_off fuel crtc c mode sec usec seq (Q : unit -> world -> Prop) w :
  quiet crtc w c -> (0 < fuel)%nat -> dpms_mode (driver_private c) = DPMSModeOn -> mode <> DPMSModeOn ->
  (forall t, reply t (DrmWaitVBlank (vblank_type DRM_VBLANK_RELATIVE (hw_id (driver_private c))) 0 0)
     = inr (sec, usec, seq)) ->
  0 <= sec * 1000000 + usec < 2 ^ 64 ->
  (forall t, Q tt (put_crtc crtc (c <| driver_private ::= fun d => d
     <| dpms_last_ust := sec * 1000000 + usec |> <| dpms_last_seq := seq |>
     <| dpms_last_fps := nominal_frame_rate (crtc_mode c) |> <| dpms_mode := mode |> |>) t w)) ->
  wp (drmmode_do_crtc_dpms fuel crtc mode) Q w.
Proof.
  intros Hq Hfuel Hon Hmode Hvb Hr HQ. unfold drmmode_do_crtc_dpms at 1.
  apply wp_bind, (wp_get_dcrtc _ c); [apply Hq |]. rewrite Hon.
  change (DPMSModeOn =? DPMSModeOn) with true. apply Z.eqb_neq in Hmode. rewrite Hmode. cbn [andb negb].
  apply wp_bind, (wp_wait_quiet _ _ c); [done | done |]. rewrite put_crtc_first.
  set (c1 := setf driver_private _ c).
  apply wp_bind. unfold drmmode_wait_vblank, drmmode_get_crtc_id.
  apply wp_bind, wp_bind, (wp_get_dcrtc _ c1); [apply put_crtc_lookup |]. apply wp_ret, wp_bind. wp_ext.
  rewrite put_crtc_call. change (hw_id (driver_private c1)) with (hw_id (driver_private c)). rewrite Hvb.
  apply wp_ret. rewrite u64_id by done.
  apply wp_bind, wp_bind, (wp_load _ _ c1); [apply put_crtc_lookup |].
  apply (wp_set_dcrtc _ c1); [apply put_crtc_lookup |]. rewrite put_crtc_put.
  set (c2 := setf driver_private _ c1).
  apply wp_bind, (wp_set_dcrtc _ c2); [apply put_crtc_lookup |]. rewrite put_crtc_put.
  set (c3 := setf driver_private _ c2).
  eapply (wp_deferred_quiet _ _ c3); [apply put_crtc_lookup | done | apply Hq | apply Hq | done |].
  rewrite put_crtc_put. match goal with |- Q _ (put_crtc _ ?c4 ?t _) => specialize (HQ t); set (d4 := c4) end.
  eassert (d4 = _) as ->; [| exact HQ]. unfold d4, c3, c2, c1.
  pose proof (qt_nest _ _ _ Hq) as Hn. clear -Hn. destruct c as [? ? ? ? ? ? ? ? ? ? ? ? ? ? ? ? ? ? ? d].
  cbn in Hn. destruct d. cbn in Hn. subst. reflexivity.
Qed.

(** Switching a CRTC on. *)
Lemma wp_dpms_on fuel crtc c sec nsec (Q : unit -> world -> Prop) w :
  w_crtcs w !! crtc = Some c -> dpms_mode (driver_private c) <> DPMSModeOn ->
  (forall t clk, reply t (ClockGettime clk) = Some (sec, nsec)) ->
  0 <= sec -> 0 <= nsec < 10 ^ 9 -> sec * 1000000 + nsec / 1000 < 2 ^ 63 ->
  (forall t, Q tt (put_crtc crtc (c <| driver_private ::= fun d => d
     <| interpolated_vblanks ::= fun n => if dpms_last_ust d =? 0 then n else
          u32 (n + missed_vblanks (dpms_last_ust d) (dpms_last_fps d) (sec * 1000000 + nsec / 1000)) |>
     <| dpms_mode := DPMSModeOn |> |>) t w)) ->
  wp (drmmode_do_crtc_dpms fuel crtc DPMSModeOn) Q w.
Proof.
  intros Hc Hoff Hclk Hs Hn Hlt HQ. unfold drmmode_do_crtc_dpms.
  apply wp_bind, (wp_get_dcrtc _ c); [done |]. apply Z.eqb_neq in Hoff. rewrite Hoff.
  change (DPMSModeOn =? DPMSModeOn) with true. cbn [andb negb].
  apply wp_bind. unfold drmmode_get_current_ust. apply wp_bind. wp_ext. apply wp_bind. wp_ext.
  rewrite Hclk. apply wp_ret. cbn [fmap option_fmap option_map].
  assert (0 <= nsec / 1000) by (apply Z.div_pos; lia).
  rewrite (u64_id sec), (u64_id nsec), u64_id by (unfold in_u64; lia).
  match goal with |- wp _ _ ?v => set (w1 := v) end.
  assert (Hw1 : w1 = put_crtc crtc c (w_trace w1) w).
  { unfold w1, put_crtc, setf. cbn. by rewrite insert_id. }
  revert HQ. generalize (sec * 1000000 + nsec / 1000). intros ust HQ. rewrite Hw1. clearbody w1.
  unfold mwhen. destruct (dpms_last_ust (driver_private c) =? 0) eqn:Hu; cbn [negb].
  - apply wp_bind, wp_ret. apply (wp_set_dcrtc _ c); [apply put_crtc_lookup |]. rewrite put_crtc_put.
    eapply eq_rect; [apply (HQ (w_trace w1)) |]. f_equal.
    destruct c as [? ? ? ? ? ? ? ? ? ? ? ? ? ? ? ? ? ? ? d]. cbn in Hu. unfold setf. cbn. by rewrite Hu.
  - apply wp_bind. eapply wp_set_dcrtc; [apply put_crtc_lookup |]. rewrite put_crtc_put.
    eapply wp_set_dcrtc; [apply put_crtc_lookup |]. rewrite put_crtc_put.
    eapply eq_rect; [apply (HQ (w_trace w1)) |]. f_equal.
    destruct c as [? ? ? ? ? ? ? ? ? ? ? ? ? ? ? ? ? ? ? d]. cbn in Hu. unfold setf. cbn. by rewrite Hu.
Qed.

(** C32. A CRTC that is switched off and on again while it has no flip pending and no
    vblank event waits to be delivered, on a kernel that tells the time of the last
    vblank and the clock: the vblanks counted for the time it was off are its frame rate
    times the time between that vblank and the time it came back, in exact arithmetic as
    long as the product fits 64 bits; the CRTC is on, the nesting level is what it was,
    and queue and other CRTCs are untouched. *)
Theorem dpms_cycle fuel crtc c mode sec usec seq sec' nsec' w :
  quiet crtc w c -> (0 < fuel)%nat -> dpms_mode (driver_private c) = DPMSModeOn -> mode <> DPMSModeOn ->
  (forall t, reply t (DrmWaitVBlank (vblank_type DRM_VBLANK_RELATIVE (hw_id (driver_private c))) 0 0)
     = inr (sec, usec, seq)) ->
  (forall t clk, reply t (ClockGettime clk) = Some (sec', nsec')) ->
  let off := sec * 1000000 + usec in
  let on := sec' * 1000000 + nsec' / 1000 in
  let fps := nominal_frame_rate (crtc_mode c) in
  0 < off <= on -> 0 <= sec' -> 0 <= nsec' < 10 ^ 9 -> on < 2 ^ 63 -> 0 <= fps -> (on - off) * fps < 2 ^ 64 ->
  wp (_ ← drmmode_do_crtc_dpms fuel crtc mode; drmmode_do_crtc_dpms fuel crtc DPMSModeOn)
     (fun _ w' => exists t, w' = put_crtc crtc (c <| driver_private ::= fun d => d
        <| dpms_last_ust := off |> <| dpms_last_seq := seq |> <| dpms_last_fps := fps |>
        <| interpolated_vblanks ::= fun n => u32 (n + (on - off) * fps / 1000000) |> |>) t w) w.
Proof.
  intros Hq Hfuel Hon Hmode Hvb Hclk off on fps Hoff Hs' Hn' Hlt Hfps Hmul.
  apply wp_bind, (wp_dpms_off _ _ c _ sec usec seq); [done.. | lia |].
  intros t. fold off fps. match goal with |- wp _ _ (put_crtc _ ?x _ _) => set (c4 := x) end.
  eapply (wp_dpms_on _ _ c4); [apply put_crtc_lookup | done | exact Hclk | lia.. |].
  fold on. intros t'. exists t'. rewrite put_crtc_again. f_equal. unfold c4.
  assert (Hm : missed_vblanks off fps on = (on - off) * fps / 1000000) by (apply missed_vblanks_exact; lia).
  assert (Hz : (off =? 0) = false) by lia. clearbody fps off on. clear -Hm Hz Hon.
  destruct c as [? ? ? ? ? ? ? ? ? ? ? ? ? ? ? ? ? ? ? d]. destruct d. cbn in Hon. subst.
  cbv -[u32 missed_vblanks Z.eqb Z.sub Z.mul Z.div Z.add DPMSModeOn]. by rewrite Hz, Hm.
Qed.
End Dpms.

Lemma sample_quiet : quiet 3 Sample.w Sample.crtc.
Proof. by split. Qed.

(** The clock reads a second and a half more than the time of the last vblank. *)
Definition later_env : Env := fun history e =>
  match e as e return answer e with ClockGettime _ => Some (2, 500000000) | e => Sample.env history e end.

(** The sample mode has 18562 frames a second: 27843 vblanks were missed. *)
Lemma dpms_cycle_witness :
  @wp _ _ (_ ← @drmmode_do_crtc_dpms later_env noting_callbacks 1 3 DPMSModeOff;
           @drmmode_do_crtc_dpms later_env noting_callbacks 1 3 DPMSModeOn)
     (fun _ w' => exists t, w' = put_crtc 3 (Sample.crtc <| driver_private ::= fun d => d
        <| dpms_last_ust := 1000000 |> <| dpms_last_seq := 0 |> <| dpms_last_fps := 18562 |>
        <| interpolated_vblanks := 27843 |> |>) t Sample.w)
     Sample.w.
Proof.
  eapply wp_mono; [apply (@dpms_cycle later_env noting_callbacks 1 3 Sample.crtc DPMSModeOff 1 0 0 2 500000000);
    [exact sample_quiet | lia | done | done | done | done | vm_compute; repeat split; congruence..] |].
  intros [] w' [t ->]. exists t. reflexivity.
Defined.

(** ** Programming a mode *)
Section SetMode.
Context `{env : Env}.

(** The outputs of the screen that the CRTC drives. *)
Definition driven (w : world) (crtc : loc) (outs : list loc) : list xf86Output :=
  filter (fun o => out_crtc o = Some crtc) (omap (fun l => w_outputs w !! l) outs).

Lemma wp_connector_ids outs crtc (Q : option (list Z) -> world -> Prop) w :
  Forall (fun o => is_Some (w_outputs w !! o)) outs ->
  Q (mapM connector_id (driven w crtc outs)) w -> wp (connector_ids outs crtc) Q w.
Proof.
  intros Hall. revert Q. induction Hall as [|o r [out Ho] Hr IH]; intros Q HQ; [done |].
  cbn [connector_ids]. apply wp_bind, (wp_load _ _ out); [done |].
  revert HQ. unfold driven. cbn [omap list_omap]. rewrite Ho. intros HQ. case_bool_decide as Hd; cbn [negb].
  - rewrite filter_cons_True in HQ by done. cbn [mapM] in HQ.
    destruct (connector_id out) as [id|]; [| done]. apply wp_bind, IH, wp_ret.
    unfold driven. by destruct (mapM _ _).
  - rewrite filter_cons_False in HQ by done. by apply IH.
Qed.

(** C27. [drmmode_set_mode] shows [fb] on the CRTC: when every output the CRTC
    drives has a connector it asks the kernel for the mode on exactly those
    connectors, and returns [TRUE] when the kernel agrees, with [fb] in place of the
    framebuffer the CRTC had and the references moved accordingly.  If memory is short,
    an output has no connector (the kernel is not asked then) or the kernel refuses, it
    returns [FALSE] and the driver's state is what it was, but for the calls made.  No
    framebuffer is leaked or freed too early. *)
Theorem set_mode_safe crtc fb c info f mode x y w :
  fb_inv w -> w_crtcs w !! crtc = Some c -> w_scrns w !! crtc_scrn c = Some info ->
  Forall (fun o => is_Some (w_outputs w !! o)) (outputs info) -> w_fbs w !! fb = Some f ->
  let heap := Calloc "output_ids" in
  let called es := w <| w_trace := es ++ heap :: w_trace w |> in
  wp (drmmode_set_mode crtc fb mode x y)
     (fun ok w' => fb_inv w' /\
        match mapM connector_id (driven w crtc (outputs info)) with
        | Some ids =>
            let ask := DrmModeSetCrtc (mode_crtc_id (driver_private c)) (fb_handle f) x y ids
                         (Some (drmmode_ConvertToKMode mode)) in
            ok = reply (w_trace w) heap && (reply (heap :: w_trace w) ask =? 0) /\
            w' = if reply (w_trace w) heap
                 then if ok then fb_reference_effect (SCrtcFb crtc) (crtc_fb (driver_private c)) (Some fb) (called [ask]) else called [ask]
                 else called []
        | None => ok = false /\ w' = called []
        end /\
        slot_get w' (SCrtcFb crtc) = Some (if ok then Some fb else crtc_fb (driver_private c))) w.
Proof.
  intros Hinv Hc Hs Hout Hfb heap called. unfold drmmode_set_mode.
  apply wp_bind, (wp_load _ _ c); [done |]. apply wp_bind, (wp_load _ _ info); [done |].
  apply wp_bind. wp_ext. set (w1 := setf w_trace _ w).
  assert (Hinv1 : fb_inv w1) by (by apply (fb_inv_frame _ w)).
  assert (Hslot : slot_get w1 (SCrtcFb crtc) = Some (crtc_fb (driver_private c))) by (cbn; by rewrite Hc).
  fold heap. destruct (reply _ _) eqn:Hok; cbn [negb].
  - apply wp_bind, wp_connector_ids; [done |]. change (driven w1) with (driven w).
    destruct (mapM _ _) as [ids|]; [| by apply wp_ret].
    apply wp_bind, (wp_load _ _ f); [done |]. apply wp_bind. wp_ext. set (w2 := setf w_trace _ w1).
    assert (Hinv2 : fb_inv w2) by (by apply (fb_inv_frame _ w)).
    destruct (_ =? 0) eqn:Hr.
    + eapply wp_bind, wp_fb_reference_inv; [exact Hinv2 | done | exact Hslot | |].
      { intros n [= <-]. by eexists. }
      intros Hinv3. apply wp_ret. split_and!; [done | done | done |].
      eapply slot_get_set. by rewrite (slot_get_frame w1).
    + by apply wp_ret.
  - apply wp_ret. split; [done |]. split; [| done]. by destruct (mapM _ _).
Qed.
End SetMode.

(** A CRTC that drives one output; the framebuffer is that of a pixmap. *)
Definition sample_mode_w : world :=
  sample_fb_w <| w_outputs := {[6%positive := Output (Some 3%positive) "HDMI-A-0" 0 (Some (Connector 50 11 1 1 1 [] [] [])) [] 0 [] 0 0 0 0 0 false]} |>
    <| w_scrns := {[1%positive := Sample.scrn <| outputs := [6%positive] |>]} |>.

Lemma set_mode_safe_witness :
  @wp _ _ (@drmmode_set_mode Sample.env 3 5 Sample.mode 0 0)
     (fun ok w' => fb_inv w' /\ ok = true /\ slot_get w' (SCrtcFb 3) = Some (Some 5%positive)) sample_mode_w.
Proof.
  eapply wp_mono; [apply (@set_mode_safe Sample.env 3 5 Sample.crtc (Sample.scrn <| outputs := [6%positive] |>)
    (Fb 1 77) Sample.mode 0 0 sample_mode_w) |].
  - exact (fb_inv_frame _ sample_fb_w sample_mode_w eq_refl eq_refl eq_refl eq_refl (Pos.le_refl _) sample_fb_inv).
  - done.
  - done.
  - repeat constructor. by eexists.
  - done.
  - intros ok w' (H1 & [-> _] & H2). exact (conj H1 (conj eq_refl H2)).
Defined.
