(* ===== verification/Keeps.v ===== *)
(** * The functions that do not touch the event queue

    Reference counting, buffers, pixmaps and CRTC state: none of it takes part in
    the queue, so all of it keeps the queue well-formed. *)
From stdpp Require Import strings.
From S2P Require Import Prelude Modes World Fb Queue Bo PixmapFb Crtc.

Section Keeps.
Context `{env : Env}.

Lemma read_slot_keeps s : keeps (read_slot s).
Proof. destruct s; unfold read_slot; keeps_auto. Qed.
Lemma write_slot_keeps s v : keeps (write_slot s v).
Proof. destruct s; unfold write_slot; keeps_auto. Qed.
#[local] Hint Resolve read_slot_keeps write_slot_keeps : keeps.
Lemma fb_reference_keeps s n : keeps (drmmode_fb_reference s n).
Proof. unfold drmmode_fb_reference. keeps_auto. Qed.
Lemma fb_create_keeps scrn width height pitch handle : keeps (amdgpu_fb_create scrn width height pitch handle).
Proof. unfold amdgpu_fb_create. keeps_auto. Qed.
#[local] Hint Resolve fb_reference_keeps fb_create_keeps : keeps.

Lemma set_dcrtc_keeps crtc f :
  (forall d, wait_flip_nesting_level (f d) = wait_flip_nesting_level d) -> keeps (set_dcrtc crtc f).
Proof. intros Hf. apply keeps_update_crtc. intros c. apply Hf. Qed.
Lemma get_dcrtc_keeps crtc : keeps (get_dcrtc crtc).
Proof. unfold get_dcrtc. keeps_auto. Qed.
#[local] Hint Resolve get_dcrtc_keeps : keeps.
Lemma wait_vblank_keeps crtc type target signal : keeps (drmmode_wait_vblank crtc type target signal).
Proof. unfold drmmode_wait_vblank, drmmode_get_crtc_id. keeps_auto. Qed.
Lemma get_current_ust_keeps : keeps drmmode_get_current_ust.
Proof. unfold drmmode_get_current_ust. keeps_auto. Qed.

(** Buffers *)
Lemma get_priv_keeps pix : keeps (get_priv pix).
Proof. unfold get_priv. keeps_auto. Qed.
Lemma set_priv_keeps pix v : keeps (set_priv pix v).
Proof. unfold set_priv. keeps_auto. Qed.
#[local] Hint Resolve get_priv_keeps set_priv_keeps : keeps.
Lemma bo_open_keeps size align domains : keeps (amdgpu_bo_open size align domains).
Proof. unfold amdgpu_bo_open, calloc_buffer. keeps_auto. Qed.
Lemma alloc_pixmap_bo_keeps scrn width height dep usage bpp :
  keeps (amdgpu_alloc_pixmap_bo scrn width height dep usage bpp).
Proof.
  pose proof bo_open_keeps. unfold amdgpu_alloc_pixmap_bo, calloc_buffer. keeps_auto.
Qed.
Lemma bo_get_handle_keeps bo : keeps (amdgpu_bo_get_handle bo).
Proof. unfold amdgpu_bo_get_handle. keeps_auto. Qed.
Lemma bo_map_keeps bo : keeps (amdgpu_bo_map bo).
Proof. unfold amdgpu_bo_map. keeps_auto. Qed.
Lemma bo_unmap_keeps bo : keeps (amdgpu_bo_unmap bo).
Proof. unfold amdgpu_bo_unmap. keeps_auto. Qed.
Lemma bo_ref_keeps bo : keeps (amdgpu_bo_ref bo).
Proof. unfold amdgpu_bo_ref. keeps_auto. Qed.
#[local] Hint Resolve alloc_pixmap_bo_keeps bo_get_handle_keeps bo_map_keeps bo_unmap_keeps bo_ref_keeps : keeps.
Lemma bo_unref_keeps bo : keeps (amdgpu_bo_unref bo).
Proof. unfold amdgpu_bo_unref. keeps_auto. Qed.
Lemma get_pixmap_bo_keeps pix : keeps (amdgpu_get_pixmap_bo pix).
Proof. unfold amdgpu_get_pixmap_bo. keeps_auto. Qed.
#[local] Hint Resolve bo_unref_keeps get_pixmap_bo_keeps : keeps.
Lemma set_pixmap_bo_keeps pix bo : keeps (amdgpu_set_pixmap_bo pix bo).
Proof. unfold amdgpu_set_pixmap_bo. keeps_auto. Qed.
#[local] Hint Resolve set_pixmap_bo_keeps : keeps.

(** Pixmaps *)
Lemma do_get_tiling_info_keeps pix : keeps (amdgpu_pixmap_do_get_tiling_info pix).
Proof. unfold amdgpu_pixmap_do_get_tiling_info. keeps_auto. Qed.
#[local] Hint Resolve do_get_tiling_info_keeps : keeps.
Lemma get_handle_keeps pix : keeps (amdgpu_pixmap_get_handle pix).
Proof. unfold amdgpu_pixmap_get_handle. keeps_auto. Qed.
Lemma get_fb_ptr_keeps pix : keeps (amdgpu_pixmap_get_fb_ptr pix).
Proof. unfold amdgpu_pixmap_get_fb_ptr. keeps_auto. Qed.
#[local] Hint Resolve get_handle_keeps get_fb_ptr_keeps : keeps.
Lemma get_fb_keeps pix : keeps (amdgpu_pixmap_get_fb pix).
Proof. unfold amdgpu_pixmap_get_fb. keeps_auto. Qed.

(** Creating and destroying pixmaps *)
Lemma new_pixmap_from_keeps r scrn w h dep usage : keeps (new_pixmap_from r scrn w h dep usage).
Proof. unfold new_pixmap_from. keeps_auto. Qed.
#[local] Hint Resolve new_pixmap_from_keeps : keeps.
Lemma fbCreatePixmap_keeps scrn w h dep usage : keeps (fbCreatePixmap scrn w h dep usage).
Proof. unfold fbCreatePixmap. keeps_auto. Qed.
Lemma glamor_create_keeps scrn w h dep usage : keeps (glamor_create_pixmap scrn w h dep usage).
Proof. unfold glamor_create_pixmap. keeps_auto. Qed.
Lemma drop_pixmap_keeps pix freed : keeps (drop_pixmap pix freed).
Proof. unfold drop_pixmap. keeps_auto. Qed.
#[local] Hint Resolve fbCreatePixmap_keeps glamor_create_keeps drop_pixmap_keeps : keeps.
Lemma fbDestroyPixmap_keeps pix : keeps (fbDestroyPixmap pix).
Proof. unfold fbDestroyPixmap. keeps_auto. Qed.
Lemma modify_pixmap_header_keeps pix w h dep bpp kind ptr : keeps (modify_pixmap_header pix w h dep bpp kind ptr).
Proof. unfold modify_pixmap_header. keeps_auto. Qed.
#[local] Hint Resolve fbDestroyPixmap_keeps modify_pixmap_header_keeps : keeps.
Lemma pixmap_create_keeps scrn w h dep usage : keeps (amdgpu_pixmap_create scrn w h dep usage).
Proof. unfold amdgpu_pixmap_create. keeps_auto. Qed.
Lemma pixmap_destroy_keeps pix : keeps (amdgpu_pixmap_destroy pix).
Proof. unfold amdgpu_pixmap_destroy. keeps_auto. Qed.
Lemma textured_keeps pix bo : keeps (amdgpu_glamor_create_textured_pixmap pix bo).
Proof. unfold amdgpu_glamor_create_textured_pixmap. keeps_auto. Qed.
Lemma glamor_destroy_keeps pix : keeps (amdgpu_glamor_destroy_pixmap pix).
Proof. unfold amdgpu_glamor_destroy_pixmap. keeps_auto. Qed.
#[local] Hint Resolve textured_keeps glamor_destroy_keeps : keeps.
Lemma glamor_create_with_bo_keeps scrn w h dep usage : keeps (glamor_create_with_bo scrn w h dep usage).
Proof. unfold glamor_create_with_bo. keeps_auto. Qed.
#[local] Hint Resolve glamor_create_with_bo_keeps : keeps.
Lemma glamor_create_pixmap_keeps scrn fmt w h dep usage : keeps (amdgpu_glamor_create_pixmap scrn fmt w h dep usage).
Proof. unfold amdgpu_glamor_create_pixmap. keeps_auto. Qed.

(** Modes *)
Lemma connector_ids_keeps outs crtc : keeps (connector_ids outs crtc).
Proof. induction outs; cbn [connector_ids]; keeps_auto. Qed.
#[local] Hint Resolve connector_ids_keeps : keeps.
Lemma set_mode_keeps crtc fb mode x y : keeps (drmmode_set_mode crtc fb mode x y).
Proof. unfold drmmode_set_mode. keeps_auto. Qed.
Lemma wants_tear_free_keeps info c crtc outs : keeps (wants_tear_free info c crtc outs).
Proof. induction outs; cbn [wants_tear_free]; keeps_auto. Qed.
Lemma update_tear_free_keeps crtc : keeps (drmmode_crtc_update_tear_free crtc).
Proof.
  pose proof wants_tear_free_keeps. unfold drmmode_crtc_update_tear_free, set_dcrtc. keeps_auto.
Qed.
End Keeps.

#[export] Hint Resolve read_slot_keeps fb_reference_keeps get_priv_keeps set_priv_keeps bo_get_handle_keeps bo_map_keeps bo_ref_keeps
  bo_unref_keeps get_pixmap_bo_keeps set_pixmap_bo_keeps do_get_tiling_info_keeps get_handle_keeps new_pixmap_from_keeps
  fbCreatePixmap_keeps fbDestroyPixmap_keeps modify_pixmap_header_keeps fb_reference_keeps fb_create_keeps get_dcrtc_keeps wait_vblank_keeps
  get_current_ust_keeps get_fb_keeps pixmap_create_keeps pixmap_destroy_keeps glamor_destroy_keeps
  glamor_create_pixmap_keeps set_mode_keeps update_tear_free_keeps : keeps.
#[export] Hint Extern 1 (keeps (set_dcrtc _ _)) => apply set_dcrtc_keeps; done : keeps.

(** Switching a CRTC on or off begins and ends a wait. *)
Section Dpms.
Context `{env : Env} `{safe : CallbacksSafe}.

Lemma do_crtc_dpms_keeps fuel crtc mode : keeps (drmmode_do_crtc_dpms fuel crtc mode).
Proof.
  unfold drmmode_do_crtc_dpms. apply keeps_bind; [keeps_auto |]. intros d.
  destruct (_ && _); [| keeps_auto].
  apply keeps_wait. intros _. apply ends_bind; [keeps_auto |]. intros r.
  apply ends_bind; [keeps_auto |]. intros _. apply ends_bind; [keeps_auto |]. intros _.
  apply ends_deferred.
Qed.
End Dpms.
#[export] Hint Resolve do_crtc_dpms_keeps : keeps.

(** ** Code that leaves a part of the state alone *)
Definition leaves {X A} (proj : world -> X) (m : D A) : Prop :=
  forall w, pwp m (fun _ w' => proj w' = proj w) w.

Create HintDb leaves.

Section Leaves.
Context `{env : Env} {X : Type} (proj : world -> X).

Lemma leaves_ret {A} (a : A) : leaves proj (mret a).
Proof. done. Qed.
Lemma leaves_bind {A B} (m : D A) (k : A -> D B) :
  leaves proj m -> (forall a, leaves proj (k a)) -> leaves proj (mbind k m).
Proof.
  intros Hm Hk w. apply pwp_bind. eapply pwp_mono; [apply Hm |]. intros a w1 H1.
  eapply pwp_mono; [apply Hk |]. intros b w2 H2. cbn. by rewrite H2.
Qed.
Lemma leaves_gets {A} (f : world -> A) : leaves proj (gets f).
Proof. done. Qed.
Lemma leaves_raise {A} f : leaves proj (raise (A := A) f).
Proof. done. Qed.
Lemma leaves_some_or {A} f (o : option A) : leaves proj (some_or f o).
Proof. by destruct o. Qed.
Lemma leaves_deref o : leaves proj (deref o).
Proof. by destruct o. Qed.
Lemma leaves_mwhen b m : leaves proj m -> leaves proj (mwhen b m).
Proof. by destruct b. Qed.
Lemma leaves_mfor {A} (l : list A) (f : A -> D unit) : (forall x, leaves proj (f x)) -> leaves proj (mfor l f).
Proof. intros Hf. induction l as [|x l IH]; [done |]. by apply leaves_bind. Qed.
Lemma leaves_modify f : (forall w, proj (f w) = proj w) -> leaves proj (modify f).
Proof. intros Hf w. by apply pwp_modify. Qed.
Lemma leaves_call e : (forall f w, proj (setf w_trace f w) = proj w) -> leaves proj (call e).
Proof. intros Hf w. wp_ext. apply Hf. Qed.
Lemma leaves_load {A} (heap : world -> gmap loc A) l : leaves proj (load heap l).
Proof. intros w. by apply pwp_load. Qed.

Context {A : Type} (heap : world -> gmap loc A) `{!Setter heap}.
Hypothesis other : forall f w, proj (setf heap f w) = proj w.

Lemma leaves_store l a : leaves proj (store heap l a).
Proof. apply leaves_modify. intros w. apply other. Qed.
Lemma leaves_update l g : leaves proj (update heap l g).
Proof. intros w. apply pwp_update. intros a _. apply other. Qed.
Lemma leaves_free l : leaves proj (free heap l).
Proof. apply leaves_bind; [apply leaves_load |]. intros _. apply leaves_modify. intros w. apply other. Qed.
Lemma leaves_new a : (forall f w, proj (setf w_next f w) = proj w) -> leaves proj (new heap a).
Proof.
  intros Hn. apply leaves_bind; [apply leaves_gets |]. intros l. apply leaves_bind; [| intros; apply leaves_ret].
  apply leaves_modify. intros w. rewrite other. apply Hn.
Qed.
End Leaves.

Lemma leaves_part {X Y A} (f : X -> Y) (proj : world -> X) (m : D A) :
  leaves proj m -> leaves (fun w => f (proj w)) m.
Proof. intros Hm w. eapply pwp_mono; [apply Hm |]. intros a w' H. cbn. by rewrite H. Qed.

#[export] Hint Resolve leaves_ret leaves_gets leaves_raise leaves_some_or leaves_deref leaves_load : leaves.
#[export] Hint Extern 1 (leaves _ (call _)) => refine (leaves_call _ _ _); done : leaves.
#[export] Hint Extern 2 (leaves _ (store _ _ _)) => apply leaves_store; done : leaves.
#[export] Hint Extern 2 (leaves _ (update _ _ _)) => apply leaves_update; done : leaves.
#[export] Hint Extern 2 (leaves _ (free _ _)) => apply leaves_free; done : leaves.
#[export] Hint Extern 2 (leaves _ (new _ _)) => apply leaves_new; done : leaves.
#[export] Hint Extern 2 (leaves _ (modify _)) => apply leaves_modify; done : leaves.

Ltac leaves_step :=
  lazymatch goal with
  | |- leaves _ (mbind _ _) => apply leaves_bind; [| intros]
  | |- leaves _ (mwhen _ _) => apply leaves_mwhen
  | |- leaves _ (mfor _ _) => apply leaves_mfor; intros
  | |- leaves _ (if ?b then _ else _) => destruct b
  | |- leaves _ (match ?x with _ => _ end) => destruct x
  | |- leaves _ (let '(_, _) := ?x in _) => destruct x
  | |- leaves _ (let _ := _ in _) => cbv zeta
  end.
Ltac leaves_auto := repeat first [solve [auto 2 with leaves nocore] | leaves_step].
