(* ===== verification/Scanout.v ===== *)
(** * Scanout pixmaps: updating, creating and destroying them

    The functions of src/src/amdgpu_kms.c that copy the screen to the scanout
    pixmaps of a CRTC, and those of src/src/drmmode_display.c that own these
    pixmaps.  A CRTC with TearFree has two of them and shows one while the other
    is drawn to. *)
From stdpp Require Import strings.
From S2P Require Import Prelude Modes Region World Fb Queue Bo PixmapFb Crtc.

(** The screen as a CRTC sees it: the box in CRTC coordinates, and whether any of
    it is on the CRTC. *)
Definition amdgpu_scanout_extents_intersect `{XServer} (c : xf86Crtc) (gpu : bool) (extents : BoxRec)
  : BoxRec * bool :=
  let e := if gpu
    then Box (s16 (x1 extents - crtc_x c)) (s16 (y1 extents - crtc_y c))
             (s16 (x2 extents - crtc_x c)) (s16 (y2 extents - crtc_y c))
    else
      let dx := Z.shiftr (filter_width c) 1 in
      let dy := Z.shiftr (filter_height c) 1 in
      pixman_f_transform_bounds (f_framebuffer_to_crtc c)
        (Box (s16 (x1 extents - dx)) (s16 (y1 extents - dy)) (s16 (x2 extents + dx)) (s16 (y2 extents + dy))) in
  let e := Box (Z.max (x1 e) 0) (Z.max (y1 e) 0)
               (s16 (Z.min (x2 e) (HDisplay (crtc_mode c)))) (s16 (Z.min (y2 e) (VDisplay (crtc_mode c)))) in
  (e, (x1 e <? x2 e) && (y1 e <? y2 e)).

(** The loop of [transform_region]: the transformed boxes that are not empty
    after clipping. *)
Fixpoint transformed_rects `{XServer} (transform w h : Z) (boxes : list BoxRec) : list BoxRec :=
  match boxes with
  | [] => []
  | b :: r =>
      let b' := pixman_f_transform_bounds transform b in
      let box := Box (Z.max (x1 b') 0) (Z.max (y1 b') 0) (s16 (Z.min (x2 b') w)) (s16 (Z.min (y2 b') h)) in
      if (x1 box >=? x2 box) || (y1 box >=? y2 box) then transformed_rects transform w h r
      else box :: transformed_rects transform w h r
  end.

Definition transform_region `{XServer} (r : region) (transform w h : Z) : region :=
  ⋃ (box_region <$> transformed_rects transform w h (RegionRects r)).

(** [drmmode_crtc->scanout[i] = v] *)
Definition set_scanout (i : Z) (v : option loc) (d : drmmode_crtc) : drmmode_crtc :=
  if i =? 0 then d <| scanout ::= fun s => (v, s.2) |> else d <| scanout ::= fun s => (s.1, v) |>.

Section Code.
Context `{env : Env} `{srv : XServer} `{callbacks : Callbacks}.

Definition amdgpu_glamor_flush (scrn : loc) : D unit :=
  info ← load w_scrns scrn;
  _ ← mwhen (use_glamor info) (call (Notify "glamor_block_handler" [Zpos scrn]));
  update w_scrns scrn (setf gpu_flushed (fun n => u64 (n + 1))).

Definition amdgpu_glamor_finish (scrn : loc) : D unit :=
  info ← load w_scrns scrn;
  if use_glamor info then
    _ ← call (Notify "glamor_finish" [Zpos scrn]);
    update w_scrns scrn (setf gpu_flushed (fun n => u64 (n + 1)))
  else mret tt.

Definition amdgpu_sync_scanout_pixmaps (crtc : loc) (new_region : region) (scanout_id : Z) : D unit :=
  c ← load w_crtcs crtc;
  let d := driver_private c in
  info ← load w_scrns (crtc_scrn c);
  if RegionNil (scanout_last_region d) then mret tt
  else
    let remaining := scanout_last_region d ∖ new_region in
    if RegionNil remaining then mret tt
    else
      let '(_, hit) := amdgpu_scanout_extents_intersect c (is_gpu info) (RegionExtents remaining) in
      if negb hit then mret tt
      else
        dst ← deref (scanout_at d scanout_id);
        src ← deref (scanout_at d (Z.lxor scanout_id 1));
        p ← load w_pixmaps dst;
        let sync_region :=
          if driverIsPerformingTransform c
          then transform_region remaining (f_framebuffer_to_crtc c) (pix_width p) (pix_height p)
          else RegionTranslate (- crtc_x c) (- crtc_y c) remaining in
        gc ← call (GetScratchGC (pix_depth p));
        mwhen gc (call (CopyArea src dst (Some sync_region) 0 0 (pix_width p) (pix_height p) 0 0)).

(** Drawing the box of the source that was found to be on the CRTC. *)
Definition scanout_copy (c : xf86Crtc) (src_pix dst : loc) (e : BoxRec) : D unit :=
  p ← load w_pixmaps dst;
  gc ← call (GetScratchGC (pix_depth p));
  if negb gc then raise NullDeref
  else call (CopyArea src_pix dst None (crtc_x c + x1 e) (crtc_y c + y1 e)
               (x2 e - x1 e) (y2 e - y1 e) (x1 e) (y1 e)).

Definition scanout_composite (c : xf86Crtc) (src_pix dst : loc) (e : BoxRec) : D unit :=
  src ← call (CreatePicture src_pix);
  if negb src then scanout_copy c src_pix dst e
  else
    pic ← call (CreatePicture dst);
    if negb pic then mret tt
    else
      error ← call SetPictureTransform;
      mwhen (error =? 0)
        (call (CompositePicture src_pix dst (x1 e) (y1 e) (x2 e - x1 e) (y2 e - y1 e))).

Definition amdgpu_scanout_do_update (crtc : loc) (scanout_id : Z) (src_pix : loc) (extents : BoxRec)
  : D bool :=
  c ← load w_crtcs crtc;
  let d := driver_private c in
  info ← load w_scrns (crtc_scrn c);
  match scanout_at d scanout_id with
  | None => mret false
  | Some dst =>
      if negb (enabled c) || (x1 extents >=? x2 extents) || (y1 extents >=? y2 extents) then mret false
      else
        let '(e, hit) := amdgpu_scanout_extents_intersect c (is_gpu info) extents in
        if negb hit then mret false
        else
          _ ← mwhen (tear_free d)
                (_ ← amdgpu_sync_scanout_pixmaps crtc (box_region extents) scanout_id;
                 set_dcrtc crtc (setf scanout_last_region (fun _ => box_region extents)));
          _ ← (if driverIsPerformingTransform c then scanout_composite c src_pix dst e
               else scanout_copy c src_pix dst e);
          mret true
  end.
End Code.

(** ** What the copies show *)

(** The contents of pixmaps, and what a drawing call does to them. *)
Abbreviation image := (pixel -> Z).
Definition in_clip (clip : option region) (p : pixel) : Prop :=
  match clip with Some r => p ∈ r | None => True end.
#[export] Instance in_clip_dec clip p : Decision (in_clip clip p).
Proof. destruct clip; cbn; apply _. Defined.
Definition paint (e : ext) (im : loc -> image) : loc -> image :=
  match e with
  | CopyArea src dst clip sx sy w h dx dy => fun l p =>
      if decide (l = dst /\ in_box (Box dx dy (dx + w) (dy + h)) p /\ in_clip clip p)
      then im src (p.1 - dx + sx, p.2 - dy + sy) else im l p
  | _ => im
  end.
(** Several calls, the newest first. *)
Definition paint_all (es : list ext) (im : loc -> image) : loc -> image := foldr paint im es.

(** The screen pixel a pixel of the CRTC shows. *)
Definition on_screen (c : xf86Crtc) (p : pixel) : pixel := (p.1 + crtc_x c, p.2 + crtc_y c).
Definition crtc_area (c : xf86Crtc) : BoxRec := Box 0 0 (HDisplay (crtc_mode c)) (VDisplay (crtc_mode c)).

(** Coordinates of a screen of ordinary size, for which sums and differences
    stay in 16 bits. *)
Definition small (z : Z) : Prop := - 2 ^ 14 < z < 2 ^ 14.
Definition small_box (b : BoxRec) : Prop := small (x1 b) /\ small (y1 b) /\ small (x2 b) /\ small (y2 b).
Definition small_region (r : region) : Prop := forall p, p ∈ r -> small p.1 /\ small (p.1 + 1) /\ small p.2 /\ small (p.2 + 1).

Lemma small_extents r : small_region r -> small_box (RegionExtents r).
Proof.
  intros Hr. assert (Hl : forall p, p ∈ elements r -> small_box (box_pixel p)).
  { intros p Hp. apply elem_of_elements in Hp. destruct (Hr p Hp) as (? & ? & ? & ?).
    unfold small_box, box_pixel, small in *. cbn [x1 y1 x2 y2]. lia. }
  unfold RegionExtents, pixels_extents. clear Hr. destruct (elements r) as [|p l].
  { unfold small_box, small. cbn. lia. }
  assert (Hp := Hl p (list_elem_of_here p l)).
  assert (Hl' : forall q, q ∈ l -> small_box (box_pixel q)).
  { intros q Hq. apply Hl. by apply list_elem_of_further. }
  clear Hl. induction l as [|q l IH]; [done |]. cbn [foldr].
  assert (Hq := Hl' q (list_elem_of_here q l)).
  assert (IH' := IH (fun q' Hq' => Hl' q' (list_elem_of_further q' q l Hq'))). revert IH'.
  generalize (foldr (fun q b => box_union (box_pixel q) b) (box_pixel p) l). intros b IH'.
  revert Hq IH'. unfold box_union, small_box, small. cbn [x1 y1 x2 y2]. lia.
Qed.

(** A CRTC that shows its part of the screen as it is, with the server's
    transform for that case: a translation. *)
Record untransformed `{XServer} (c : xf86Crtc) : Prop := {
  ut_off : driverIsPerformingTransform c = false;
  ut_fw : filter_width c = 0;
  ut_fh : filter_height c = 0;
  ut_x : small (crtc_x c);
  ut_y : small (crtc_y c);
  ut_w : 0 <= HDisplay (crtc_mode c) < 2 ^ 14;
  ut_h : 0 <= VDisplay (crtc_mode c) < 2 ^ 14;
  ut_bounds : forall b, small_box b -> pixman_f_transform_bounds (f_framebuffer_to_crtc c) b
    = Box (x1 b - crtc_x c) (y1 b - crtc_y c) (x2 b - crtc_x c) (y2 b - crtc_y c)
}.

(** The box of an untransformed CRTC: the pixels of the CRTC whose screen pixel
    lies in the box. *)
Lemma extents_intersect_spec `{XServer} c gpu b p :
  untransformed c -> small_box b ->
  let '(e, hit) := amdgpu_scanout_extents_intersect c gpu b in
  (in_box e p <-> in_box (crtc_area c) p /\ in_box b (on_screen c p)) /\
  (in_box e p -> hit = true).
Proof.
  intros [] Hb. unfold amdgpu_scanout_extents_intersect. rewrite ut_fw0, ut_fh0.
  change (Z.shiftr 0 1) with 0. rewrite !Z.sub_0_r, !Z.add_0_r.
  assert (Hs : s16 (x1 b) = x1 b /\ s16 (y1 b) = y1 b /\ s16 (x2 b) = x2 b /\ s16 (y2 b) = y2 b).
  { destruct Hb as (? & ? & ? & ?). rewrite !s16_id by (unfold in_s16, small in *; lia). done. }
  destruct Hs as (-> & -> & -> & ->). replace (Box (x1 b) (y1 b) (x2 b) (y2 b)) with b by (by destruct b).
  rewrite ut_bounds0 by done.
  assert (He : (if gpu then Box (s16 (x1 b - crtc_x c)) (s16 (y1 b - crtc_y c))
    (s16 (x2 b - crtc_x c)) (s16 (y2 b - crtc_y c))
    else Box (x1 b - crtc_x c) (y1 b - crtc_y c) (x2 b - crtc_x c) (y2 b - crtc_y c))
    = Box (x1 b - crtc_x c) (y1 b - crtc_y c) (x2 b - crtc_x c) (y2 b - crtc_y c)).
  { destruct gpu; [| done]. destruct Hb as (? & ? & ? & ?).
    by rewrite !s16_id by (unfold in_s16, small in *; lia). }
  rewrite He. cbn [x1 y1 x2 y2].
  destruct Hb as (? & ? & ? & ?). rewrite !s16_id by (unfold in_s16, small in *; lia).
  unfold in_box, on_screen, crtc_area, small in *. cbn [x1 y1 x2 y2 fst snd].
  split; [lia |]. intros ?. apply andb_true_iff. lia.
Qed.

Section Update.
Context `{env : Env} `{srv : XServer}.

Lemma paint_all_app es es' im : paint_all (es ++ es') im = paint_all es (paint_all es' im).
Proof. apply foldr_app. Qed.

(** The part of the back buffer the last update of the front buffer changed is
    copied over, except for what is about to be drawn. *)
Definition synced (c : xf86Crtc) (dst src : loc) (new_region : region) (es : list ext) : Prop :=
  (forall im l q, l <> dst -> paint_all es im l q = im l q) /\
  (forall im q, in_box (crtc_area c) q -> paint_all es im dst q
     = if decide (on_screen c q ∈ scanout_last_region (driver_private c) ∖ new_region)
       then im src q else im dst q).

Lemma synced_nothing c dst src r :
  (forall q, in_box (crtc_area c) q -> on_screen c q ∉ scanout_last_region (driver_private c) ∖ r) ->
  synced c dst src r [].
Proof. intros H. split; [done |]. intros im q Hq. rewrite decide_False by (by apply H). done. Qed.

Lemma wp_sync_scanout crtc c info r id dst src p (Q : unit -> world -> Prop) w :
  w_crtcs w !! crtc = Some c -> w_scrns w !! crtc_scrn c = Some info -> untransformed c ->
  scanout_at (driver_private c) id = Some dst -> scanout_at (driver_private c) (Z.lxor id 1) = Some src ->
  w_pixmaps w !! dst = Some p ->
  HDisplay (crtc_mode c) <= pix_width p -> VDisplay (crtc_mode c) <= pix_height p ->
  small_region (scanout_last_region (driver_private c)) ->
  (forall t d, reply t (GetScratchGC d) = true) ->
  (forall es, synced c dst src r es -> Q tt (w <| w_trace := es ++ w_trace w |>)) ->
  wp (amdgpu_sync_scanout_pixmaps crtc r id) Q w.
Proof.
  intros Hc Hs Hut Hd Hb Hp Hw Hh Hsm Hgc HQ. unfold amdgpu_sync_scanout_pixmaps.
  apply wp_bind, (wp_load _ _ c); [done |]. apply wp_bind, (wp_load _ _ info); [done |].
  assert (Hnone : (forall q, in_box (crtc_area c) q -> on_screen c q ∉ scanout_last_region (driver_private c) ∖ r) ->
    wp (mret tt) Q w).
  { intros H. specialize (HQ [] (synced_nothing c dst src r H)). by destruct w. }
  unfold RegionNil. case_bool_decide as Hl.
  { apply Hnone. intros q _. rewrite Hl. by intros [?%not_elem_of_empty _]%elem_of_difference. }
  set (rem := scanout_last_region (driver_private c) ∖ r). case_bool_decide as Hr.
  { apply Hnone. intros q _. fold rem. rewrite Hr. apply not_elem_of_empty. }
  assert (Hrem : small_box (RegionExtents rem)).
  { apply small_extents. intros q Hq. apply Hsm. by apply elem_of_difference in Hq as [? _]. }
  pose proof (extents_intersect_spec c (is_gpu info) (RegionExtents rem)) as Hi.
  destruct (amdgpu_scanout_extents_intersect _ _ _) as [e hit]. destruct hit; cbn [negb]; cycle 1.
  { apply Hnone. intros q Hq Hin. fold rem in Hin. destruct (Hi q Hut Hrem) as [H1 H2].
    apply region_extents in Hin. by discriminate H2; apply H1. }
  apply wp_bind, (wp_deref _ dst); [done |]. apply wp_bind, (wp_deref _ src); [done |].
  apply wp_bind, (wp_load _ _ p); [done |]. apply wp_bind. wp_ext. rewrite Hgc. cbn [mwhen].
  rewrite (ut_off _ Hut). wp_ext.
  lazymatch goal with |- Q ?u (w <| w_trace ::= cons ?g |> <| w_trace ::= cons ?e |>) =>
    destruct u; apply (HQ [e; g]) end.
  split; cbn.
  - intros im l q Hne. by rewrite decide_False by tauto.
  - intros im q Hq. fold rem.
    assert (Htr : q ∈ RegionTranslate (- crtc_x c) (- crtc_y c) rem <-> on_screen c q ∈ rem)
      by (rewrite elem_of_translate, !Z.sub_opp_r; done).
    assert (in_box (Box 0 0 (0 + pix_width p) (0 + pix_height p)) q).
    { revert Hq. unfold in_box, crtc_area. cbn [x1 y1 x2 y2]. lia. }
    destruct (decide (on_screen c q ∈ rem)) as [Hin|Hin].
    + rewrite decide_True by tauto. f_equal. destruct q. cbn. f_equal; lia.
    + rewrite decide_False by tauto. done.
Qed.

(** C6. TearFree on a CRTC without a transform whose two scanout pixmaps differ from
    each other and from the source, the one drawn to being at least as large as the
    mode, with coordinates of the damage and of the last update below 2{^14},
    and while the server never runs out of scratch GCs.  If [amdgpu_scanout_do_update]
    returns true, it has drawn so that: wherever before it the front buffer showed the
    screen outside [extents] and the back buffer was the front buffer outside the
    region of the last update, now the back buffer shows the whole part of the screen
    the CRTC covers, and the extents are recorded as the last update.  If it returns
    false, nothing has changed.  In both cases no other pixmap has been drawn to. *)
Theorem scanout_do_update_shows crtc c info id dst src src_pix p extents w :
  w_crtcs w !! crtc = Some c -> w_scrns w !! crtc_scrn c = Some info -> untransformed c ->
  tear_free (driver_private c) = true ->
  scanout_at (driver_private c) id = Some dst -> scanout_at (driver_private c) (Z.lxor id 1) = Some src ->
  src <> dst -> src_pix <> dst -> w_pixmaps w !! dst = Some p ->
  HDisplay (crtc_mode c) <= pix_width p -> VDisplay (crtc_mode c) <= pix_height p ->
  small_region (scanout_last_region (driver_private c)) -> small_box extents ->
  (forall t d, reply t (GetScratchGC d) = true) ->
  wp (amdgpu_scanout_do_update crtc id src_pix extents)
     (fun ok w' => exists es, w_trace w' = es ++ w_trace w /\
        (forall im l q, l <> dst -> paint_all es im l q = im l q) /\
        (if ok : bool then
           w_crtcs w' = <[crtc := c <| driver_private ::=
              setf scanout_last_region (fun _ => box_region extents) |>]> (w_crtcs w) /\
           forall im,
             (forall q, in_box (crtc_area c) q -> ~ in_box extents (on_screen c q) ->
                im src q = im src_pix (on_screen c q)) ->
             (forall q, in_box (crtc_area c) q ->
                on_screen c q ∉ scanout_last_region (driver_private c) -> im dst q = im src q) ->
             forall q, in_box (crtc_area c) q -> paint_all es im dst q = im src_pix (on_screen c q)
         else w' = w)) w.
Proof.
  intros Hc Hs Hut Htf Hd Hb Hne Hne' Hp Hw Hh Hsm Hse Hgc. unfold amdgpu_scanout_do_update.
  apply wp_bind, (wp_load _ _ c); [done |]. apply wp_bind, (wp_load _ _ info); [done |]. rewrite Hd.
  destruct (_ || _ || _); [by exists [] |].
  pose proof (extents_intersect_spec c (is_gpu info) extents) as Hi.
  destruct (amdgpu_scanout_extents_intersect _ _ _) as [e hit]. destruct hit; cbn [negb]; [| by exists []].
  rewrite Htf, (ut_off _ Hut). cbn [mwhen]. apply wp_bind, wp_bind.
  apply (wp_sync_scanout crtc c info _ _ dst src p); [done.. |]. intros es [Hoth Hdst].
  apply (wp_set_dcrtc _ c); [done |]. unfold scanout_copy.
  apply wp_bind, wp_bind, (wp_load _ _ p); [done |]. apply wp_bind. wp_ext. rewrite Hgc. cbn [negb]. wp_ext.
  apply wp_ret.
  lazymatch goal with |- context [cons (CopyArea ?a ?b ?cl ?sx ?sy ?ww ?hh ?dx ?dy)] =>
    exists (CopyArea a b cl sx sy ww hh dx dy :: GetScratchGC (pix_depth p) :: es) end.
  split; [done |]. cbn [paint_all foldr paint].
  split_and!; [| done |].
  - intros im l q Hl. fold (paint_all es im). rewrite decide_False by tauto. by apply Hoth.
  - intros im Hfront Hback q Hq. fold (paint_all es im). destruct (Hi q Hut Hse) as [Hin _].
    replace (Box (x1 e) (y1 e) (x1 e + (x2 e - x1 e)) (y1 e + (y2 e - y1 e))) with e
      by (destruct e; cbn; f_equal; lia).
    destruct (decide (in_box e q)) as [He|He].
    + rewrite decide_True by done. rewrite Hoth by done. f_equal. unfold on_screen. f_equal; lia.
    + rewrite decide_False by tauto. rewrite Hdst by done.
      assert (Hout : ~ in_box extents (on_screen c q)) by tauto. specialize (Hfront q Hq Hout).
      destruct (decide _) as [Hrem|Hrem]; [done |]. rewrite <- Hfront. apply Hback; [done |].
      intros Hlast. apply Hrem. apply elem_of_difference. split; [done |]. by rewrite elem_of_box_region.
Qed.
End Update.

(** A server whose transforms are identities and whose regions are stored pixel
    by pixel. *)
#[export] Instance sample_server : XServer := {|
  pixman_f_transform_bounds _ b := b;
  RegionRects r := box_pixel <$> elements r;
  pixmap_format_bpp _ := Some 32
|}.

(** CRTC 3 with the two scanout pixmaps 6 and 7, which shows the first. *)
Definition sample_tf_crtc : xf86Crtc :=
  Sample.crtc <| driver_private ::= fun d => d <| scanout := (Some 6%positive, Some 7%positive) |>
    <| tear_free := true |> <| scanout_damage := Some (box_region (Box 1 1 3 3)) |> |>.
Definition sample_tf_w : world :=
  Sample.w <| w_crtcs := {[3%positive := sample_tf_crtc]} |>
    <| w_pixmaps := {[2%positive := Sample.pix; 6%positive := Sample.pix; 7%positive := Sample.pix]} |>.

Lemma sample_untransformed : untransformed sample_tf_crtc.
Proof.
  split; try done; try (unfold small; cbn; lia). intros [a b c d] _. cbn. by rewrite !Z.sub_0_r.
Qed.

Lemma scanout_do_update_shows_witness :
  @wp _ _ (@amdgpu_scanout_do_update Sample.env sample_server 3 1 2 (Box 1 1 3 3))
     (fun ok w' => exists es, w_trace w' = es ++ w_trace sample_tf_w /\
        (ok = true -> forall im,
           (forall q, in_box (Box 0 0 64 64) q -> ~ in_box (Box 1 1 3 3) q -> im 6%positive q = im 2%positive q) ->
           (forall q, in_box (Box 0 0 64 64) q -> im 7%positive q = im 6%positive q) ->
           forall q, in_box (Box 0 0 64 64) q -> paint_all es im 7 q = im 2%positive q)) sample_tf_w.
Proof.
  assert (Hos : forall q, on_screen sample_tf_crtc q = q)
    by (intros [x y]; unfold on_screen; cbn; by rewrite !Z.add_0_r).
  eapply wp_mono; [apply (@scanout_do_update_shows Sample.env sample_server 3 sample_tf_crtc Sample.scrn
    1 7 6 2 Sample.pix (Box 1 1 3 3) sample_tf_w); try done; try exact sample_untransformed |].
  intros ok w' (es & He & _ & Hok). exists es. split; [done |]. intros -> im H1 H2 q Hq.
  destruct Hok as [_ Hok]. rewrite (Hok im); rewrite ?Hos; try done; intros q'; rewrite Hos; auto.
Defined.
