(* ===== verification/Modeset.v ===== *)
(** * Mode setting: src/src/drmmode_display.c

    The scanout pixmaps of a CRTC are created, destroyed and brought up to date;
    [drmmode_set_mode_major] chooses what a CRTC shows and programs it. *)
From stdpp Require Import strings.
From S2P Require Import Prelude Modes Region World Fb Queue Bo PixmapFb Crtc Keeps Scanout.

(** [RegionUninit] on a region that stays in use: the list of boxes is dropped,
    which leaves the extents. *)
Definition RegionUninit (r : region) : region :=
  if RegionNil r then r else box_region (RegionExtents r).

Section Code.
Context `{env : Env} `{srv : XServer} `{callbacks : Callbacks} `{rot : Rotator}.
(** The option of that name. *)
Context (sw_cursor : bool).

(** [screen->CreatePixmap] and [dixDestroyPixmap] with the hooks the driver has
    installed for direct rendering. *)
Definition screen_CreatePixmap (scrn : loc) (width height dep usage : Z) : D (option loc) :=
  info ← load w_scrns scrn;
  if use_glamor info
  then amdgpu_glamor_create_pixmap scrn (pixmap_format_bpp dep) width height dep usage
  else amdgpu_pixmap_create scrn width height dep usage.

Definition dixDestroyPixmap (pix : loc) : D unit :=
  p ← load w_pixmaps pix;
  info ← load w_scrns (pix_scrn p);
  _ ← (if use_glamor info then amdgpu_glamor_destroy_pixmap pix else amdgpu_pixmap_destroy pix);
  mret tt.

(** [drmmode_crtc_scanout_destroy(&drmmode_crtc->scanout[i])] *)
Definition drmmode_crtc_scanout_destroy (crtc : loc) (i : Z) : D unit :=
  d ← get_dcrtc crtc;
  match scanout_at d i with
  | None => mret tt
  | Some pix =>
      _ ← dixDestroyPixmap pix;
      set_dcrtc crtc (set_scanout i None)
  end.

(** [DamageDestroy], which calls [drmmode_screen_damage_destroy]. *)
Definition drmmode_screen_damage_destroy (crtc : loc) : D unit :=
  set_dcrtc crtc (fun d => d <| scanout_damage := None |>
                             <| scanout_last_region ::= RegionUninit |>).

Definition drmmode_crtc_scanout_free (fuel : nat) (crtc : loc) : D unit :=
  d ← get_dcrtc crtc;
  _ ← (if negb (scanout_update_pending d =? 0) then
         _ ← amdgpu_drm_wait_pending_flip fuel crtc;
         d' ← get_dcrtc crtc;
         _ ← amdgpu_drm_abort_entry (scanout_update_pending d');
         _ ← set_dcrtc crtc (setf scanout_update_pending (fun _ => 0));
         amdgpu_drm_queue_handle_deferred fuel crtc
       else mret tt);
  _ ← drmmode_crtc_scanout_destroy crtc 0;
  _ ← drmmode_crtc_scanout_destroy crtc 1;
  d' ← get_dcrtc crtc;
  match scanout_damage d' with
  | Some _ => drmmode_screen_damage_destroy crtc
  | None => mret tt
  end.

Definition drmmode_crtc_scanout_create (crtc : loc) (i width height : Z) : D bool :=
  c ← load w_crtcs crtc;
  info ← load w_scrns (crtc_scrn c);
  reuse ← match scanout_at (driver_private c) i with
          | None => mret false
          | Some pix =>
              p ← load w_pixmaps pix;
              if (pix_width p =? width) && (pix_height p =? height) then mret true
              else _ ← drmmode_crtc_scanout_destroy crtc i; mret false
          end;
  if reuse : bool then mret true
  else
    r ← screen_CreatePixmap (crtc_scrn c) width height (depth info) AMDGPU_CREATE_PIXMAP_SCANOUT;
    _ ← set_dcrtc crtc (set_scanout i r);
    match r with
    | None => _ ← drmmode_crtc_scanout_destroy crtc i; mret false
    | Some pix =>
        fb ← amdgpu_pixmap_get_fb pix;
        match fb with
        | None => _ ← drmmode_crtc_scanout_destroy crtc i; mret false
        | Some _ => mret true
        end
    end.

(** The report function of the CRTC's damage record, called after the server has
    added to the damage. *)
Definition amdgpu_screen_damage_report (crtc : loc) : D unit :=
  d ← get_dcrtc crtc;
  if ignore_damage d then
    set_dcrtc crtc (fun d => d <| scanout_damage ::= fmap (fun _ => ∅) |> <| ignore_damage := false |>)
  else set_dcrtc crtc (setf scanout_damage (fmap RegionUninit)).

(** [*fb], [*x] and [*y] of the callers are passed in and out. *)
Definition drmmode_crtc_prime_scanout_update (crtc : loc) (mode : DisplayModeRec) (scanout_id' : Z)
  : D (option loc * Z * Z) :=
  c ← load w_crtcs crtc;
  let d := driver_private c in
  let scrn := crtc_scrn c in
  info ← load w_scrns scrn;
  _ ← mwhen (tear_free d && match (scanout d).2 with None => true | Some _ => false end)
        (_ ← drmmode_crtc_scanout_create crtc 1 (HDisplay mode) (VDisplay mode);
         set_dcrtc crtc (setf scanout_last_region (fun _ =>
           box_region (Box (s16 (crtc_x c)) (s16 (crtc_y c)) (s16 (crtc_x c + HDisplay mode))
                           (s16 (crtc_y c + VDisplay mode))))));
  _ ← mwhen (negb (scanout_id' =? scanout_id d))
        (d' ← get_dcrtc crtc;
         _ ← (if existsb (fun e => bool_decide (Some (dirty_src e) = prime_scanout_pixmap d'))
                   (pixmap_dirty_list info) then
                dst ← deref (scanout_at d' scanout_id');
                update w_scrns scrn (setf pixmap_dirty_list (fun l =>
                  match list_find (fun e => Some (dirty_src e) = prime_scanout_pixmap d') l with
                  | Some (k, e) => <[k := e <| secondary_dst := dst |>]> l
                  | None => l
                  end))
              else mret tt);
         mwhen (negb (tear_free d'))
           (gc ← call (GetScratchGC (depth info));
            dst ← deref (scanout d').1;
            if negb gc then raise NullDeref
            else
              src ← deref (scanout d').2;
              _ ← call (CopyArea src dst None 0 0 (HDisplay mode) (VDisplay mode) 0 0);
              amdgpu_glamor_finish scrn));
  d' ← get_dcrtc crtc;
  pix ← deref (scanout_at d' scanout_id');
  fb ← amdgpu_pixmap_get_fb pix;
  _ ← set_dcrtc crtc (setf scanout_id (fun _ => scanout_id'));
  mret (fb, 0, 0).

(** [None] leaves [*fb], [*x] and [*y] alone. *)
Definition drmmode_crtc_scanout_update (crtc : loc) (mode : DisplayModeRec) (scanout_id' : Z)
  : D (option (option loc * Z * Z)) :=
  _ ← drmmode_crtc_scanout_create crtc scanout_id' (HDisplay mode) (VDisplay mode);
  d ← get_dcrtc crtc;
  _ ← mwhen (tear_free d)
        (_ ← drmmode_crtc_scanout_create crtc (Z.lxor scanout_id' 1) (HDisplay mode) (VDisplay mode);
         mret tt);
  c ← load w_crtcs crtc;
  let d := driver_private c in
  info ← load w_scrns (crtc_scrn c);
  match scanout_at d scanout_id' with
  | None => mret None
  | Some pix =>
      if tear_free d && match scanout_at d (Z.lxor scanout_id' 1) with None => true | _ => false end
      then mret None
      else
        _ ← match scanout_damage d with
            | Some _ => mret tt
            | None =>
                ok ← call (Calloc "DamageRec");
                if negb ok then raise NullDeref
                else set_dcrtc crtc (setf scanout_damage (fun _ => Some ∅))
            end;
        fb ← amdgpu_pixmap_get_fb pix;
        ok ← amdgpu_scanout_do_update crtc scanout_id' (root_pixmap info)
               (Box 0 0 (s16 (virtualX info)) (s16 (virtualY info)));
        _ ← (if ok : bool then
               _ ← set_dcrtc crtc (setf scanout_damage (fmap (fun _ => ∅)));
               _ ← amdgpu_glamor_finish (crtc_scrn c);
               d' ← get_dcrtc crtc;
               mwhen (match flip_pending d' with None => true | Some _ => false end)
                 (amdgpu_drm_abort_entry (scanout_update_pending d'))
             else mret tt);
        mret (Some (fb, 0, 0))
  end.

(** [output->funcs->dpms], given [drmmode_set_mode_major] with the CRTC's own mode. *)
Definition drmmode_output_dpms (fuel : nat) (reset_mode : loc -> D unit) (output : loc) (mode : Z)
  : D unit :=
  out ← load w_outputs output;
  match connector_id out with
  | None => mret tt
  | Some conn =>
      _ ← match out_crtc out with
          | Some crtc => mwhen (negb (mode =? DPMSModeOn)) (drmmode_do_crtc_dpms fuel crtc mode)
          | None => mret tt
          end;
      _ ← call (DrmModeConnectorSetProperty conn (dpms_enum_id out) mode);
      match out_crtc out with
      | Some crtc =>
          mwhen (mode =? DPMSModeOn)
            (d ← get_dcrtc crtc;
             if need_modeset d then reset_mode crtc
             else drmmode_do_crtc_dpms fuel crtc mode)
      | None => mret tt
      end
  end.

(** Which framebuffer the CRTC is to show, and where in it. *)
Definition choose_fb (crtc : loc) (m : DisplayModeRec) (sid x y : Z) : D (option loc * Z * Z) :=
  c ← load w_crtcs crtc;
  let d := driver_private c in
  info ← load w_scrns (crtc_scrn c);
  match prime_scanout_pixmap d, rotate d with
  | Some _, _ => drmmode_crtc_prime_scanout_update crtc m sid
  | None, Some pix => fb ← amdgpu_pixmap_get_fb pix; mret (fb, 0, 0)
  | None, None =>
      if negb (is_gpu info)
         && (tear_free d || driverIsPerformingTransform c || shadow_primary info) then
        r ← drmmode_crtc_scanout_update crtc m sid;
        mret (default (None, x, y) r)
      else mret (None, x, y)
  end.

(** The framebuffer of the screen where there is none yet; one made for the
    front buffer if the screen pixmap has none either. *)
Definition fallback_fb (crtc : loc) (fb : option loc) : D (option loc) :=
  c ← load w_crtcs crtc;
  info ← load w_scrns (crtc_scrn c);
  fb ← match fb with Some f => mret (Some f) | None => amdgpu_pixmap_get_fb (root_pixmap info) end;
  match fb with
  | Some f => mret (Some f)
  | None =>
      front ← deref (front_buffer info);
      b ← load w_bos front;
      h ← call (GbmBoGetHandle (bo_handle b));
      f ← amdgpu_fb_create info (virtualX info) (virtualY info) (displayWidth info * pixel_bytes info) h;
      _ ← drmmode_fb_reference (SCrtcFb crtc) None;
      _ ← write_slot (SCrtcFb crtc) f;
      mret f
  end.

(** Whether the CRTC can use the hardware cursor, as a bit of the screen. *)
Definition update_hwcursor_disabled (crtc : loc) : D unit :=
  c ← load w_crtcs crtc;
  info ← load w_scrns (crtc_scrn c);
  match list_find (fun k => k = crtc) (crtcs info) with
  | None => mret tt
  | Some (i, _) =>
      can ← drmmode_can_use_hw_cursor sw_cursor crtc;
      let bit := Z.shiftl 1 (Z.of_nat i) in
      update w_scrns (crtc_scrn c) (setf hwcursor_disabled (fun v =>
        if negb (enabled c) || can then Z.land v (Z.lnot bit) else Z.lor v bit))
  end.

(** After [done:], what is left to do with the scanout pixmaps of a CRTC whose
    mode was set. *)
Definition finish_scanouts (fuel : nat) (crtc : loc) (sid : Z) (fb : option loc) : D unit :=
  d ← get_dcrtc crtc;
  other ← match scanout_at d sid with
          | None => mret false
          | Some pix => fb' ← amdgpu_pixmap_get_fb pix; mret (negb (bool_decide (fb = fb')))
          end;
  if other : bool then drmmode_crtc_scanout_free fuel crtc
  else
    d' ← get_dcrtc crtc;
    mwhen (negb (tear_free d')) (drmmode_crtc_scanout_destroy crtc 1).

Fixpoint drmmode_set_mode_major (fuel : nat) (crtc : loc) (mode : option DisplayModeRec)
    (rot' x y : Z) : D bool :=
  match fuel with
  | O => nofuel
  | S fuel' =>
      saved ← load w_crtcs crtc;
      info ← load w_scrns (crtc_scrn saved);
      if exposures_oneshot info then mret false
      else
        let done ret sid fb :=
          if ret : bool then
            _ ← update w_crtcs crtc (setf active (fun _ => true));
            finish_scanouts fuel' crtc sid fb
          else
            update w_crtcs crtc (fun c => c <| crtc_x := crtc_x saved |> <| crtc_y := crtc_y saved |>
              <| rotation := rotation saved |> <| crtc_mode := crtc_mode saved |>) in
        match mode with
        | None => _ ← update_hwcursor_disabled crtc; _ ← done false 0 None; mret false
        | Some m =>
            _ ← update w_crtcs crtc (fun c => c <| crtc_mode := m |> <| crtc_x := x |> <| crtc_y := y |>
                  <| rotation := rot' |>);
            ok ← drmmode_handle_transform crtc;
            if negb ok then _ ← done false 0 None; mret false
            else
              _ ← drmmode_crtc_update_tear_free crtc;
              d ← get_dcrtc crtc;
              _ ← mwhen (negb (tear_free d)) (set_dcrtc crtc (setf scanout_id (fun _ => 0)));
              let sid := if tear_free d then scanout_id d else 0 in
              t ← choose_fb crtc m sid x y;
              let '(fb0, fx, fy) := t in
              fb ← fallback_fb crtc fb0;
              match fb with
              | None => _ ← done false sid None; mret false
              | Some f =>
                  _ ← amdgpu_drm_wait_pending_flip fuel' crtc;
                  ok ← drmmode_set_mode crtc f m fx fy;
                  _ ← (if ok : bool then
                         _ ← call (Notify "xf86CrtcSetScreenSubpixelOrder" []);
                         _ ← set_dcrtc crtc (setf need_modeset (fun _ => false));
                         _ ← mfor (outputs info) (fun o =>
                               out ← load w_outputs o;
                               mwhen (bool_decide (out_crtc out = Some crtc))
                                 (drmmode_output_dpms fuel' (fun c' =>
                                    k ← load w_crtcs c';
                                    _ ← drmmode_set_mode_major fuel' c' (Some (crtc_mode k)) (rotation k)
                                          (crtc_x k) (crtc_y k);
                                    mret tt) o DPMSModeOn));
                         update_hwcursor_disabled crtc
                       else mret tt);
                  _ ← done ok sid (Some f);
                  _ ← amdgpu_drm_queue_handle_deferred fuel' crtc;
                  mret ok
              end
        end
  end.

(** [crtc->funcs->set_mode_major(crtc, &crtc->mode, crtc->rotation, crtc->x, crtc->y)] *)
Definition reset_mode (fuel : nat) (crtc : loc) : D unit :=
  c ← load w_crtcs crtc;
  _ ← drmmode_set_mode_major fuel crtc (Some (crtc_mode c)) (rotation c) (crtc_x c) (crtc_y c);
  mret tt.

Definition drmmode_crtc_dpms (fuel : nat) (crtc : loc) (mode : Z) : D unit :=
  c ← load w_crtcs crtc;
  if negb (enabled c) || negb (mode =? DPMSModeOn) then
    _ ← drmmode_do_crtc_dpms fuel crtc DPMSModeOff;
    d ← get_dcrtc crtc;
    _ ← call (DrmModeSetCrtc (mode_crtc_id d) 0 0 0 [] None);
    drmmode_fb_reference (SCrtcFb crtc) None
  else mwhen (negb (dpms_mode (driver_private c) =? DPMSModeOn)) (reset_mode fuel crtc).
End Code.

(** ** Every wait is ended

    The server's [xf86CrtcRotate] may change CRTCs and make pixmaps through the
    driver; it does not wait for page flips. *)
Class RotatorSafe `{Rotator} := rotate_safe : forall crtc, keeps (xf86CrtcRotate crtc).

Section Safe.
Context `{env : Env} `{srv : XServer} `{safe : CallbacksSafe} `{rsafe : RotatorSafe}.

Lemma glamor_flush_keeps scrn : keeps (amdgpu_glamor_flush scrn).
Proof. unfold amdgpu_glamor_flush. keeps_auto. Qed.
Lemma glamor_finish_keeps scrn : keeps (amdgpu_glamor_finish scrn).
Proof. unfold amdgpu_glamor_finish. keeps_auto. Qed.
Lemma sync_scanout_keeps crtc r id : keeps (amdgpu_sync_scanout_pixmaps crtc r id).
Proof. unfold amdgpu_sync_scanout_pixmaps. keeps_auto. Qed.
#[local] Hint Resolve glamor_flush_keeps glamor_finish_keeps sync_scanout_keeps : keeps.
Lemma do_update_keeps crtc id src e : keeps (amdgpu_scanout_do_update crtc id src e).
Proof. unfold amdgpu_scanout_do_update, scanout_composite, scanout_copy. keeps_auto. Qed.
#[local] Hint Resolve do_update_keeps : keeps.
Lemma dixDestroyPixmap_keeps pix : keeps (dixDestroyPixmap pix).
Proof. unfold dixDestroyPixmap. keeps_auto. Qed.
Lemma screen_CreatePixmap_keeps scrn width height dep usage : keeps (screen_CreatePixmap scrn width height dep usage).
Proof. unfold screen_CreatePixmap. keeps_auto. Qed.
#[local] Hint Resolve dixDestroyPixmap_keeps screen_CreatePixmap_keeps : keeps.
Lemma set_scanout_keeps crtc i v : keeps (set_dcrtc crtc (set_scanout i v)).
Proof. apply set_dcrtc_keeps. intros d. unfold set_scanout. by destruct (i =? 0). Qed.
#[local] Hint Resolve set_scanout_keeps : keeps.
Lemma scanout_destroy_keeps crtc i : keeps (drmmode_crtc_scanout_destroy crtc i).
Proof. unfold drmmode_crtc_scanout_destroy. keeps_auto. Qed.
#[local] Hint Resolve scanout_destroy_keeps : keeps.
Lemma scanout_create_keeps crtc i width height : keeps (drmmode_crtc_scanout_create crtc i width height).
Proof. unfold drmmode_crtc_scanout_create. keeps_auto. Qed.
#[local] Hint Resolve scanout_create_keeps : keeps.
Lemma scanout_free_keeps fuel crtc : keeps (drmmode_crtc_scanout_free fuel crtc).
Proof.
  unfold drmmode_crtc_scanout_free, drmmode_screen_damage_destroy.
  apply keeps_bind; [keeps_auto |]. intros d. apply keeps_bind; [| intros _; keeps_auto].
  destruct (negb _); [| keeps_auto]. apply keeps_wait. intros _.
  ends_auto. apply ends_deferred.
Qed.
#[local] Hint Resolve scanout_free_keeps : keeps.
Lemma prime_scanout_update_keeps crtc m sid : keeps (drmmode_crtc_prime_scanout_update crtc m sid).
Proof. unfold drmmode_crtc_prime_scanout_update. keeps_auto. Qed.
Lemma scanout_update_keeps crtc m sid : keeps (drmmode_crtc_scanout_update crtc m sid).
Proof. unfold drmmode_crtc_scanout_update. keeps_auto. Qed.
#[local] Hint Resolve prime_scanout_update_keeps scanout_update_keeps : keeps.
Lemma output_dpms_keeps fuel reset o mode :
  (forall c, keeps (reset c)) -> keeps (drmmode_output_dpms fuel reset o mode).
Proof. intros Hr. unfold drmmode_output_dpms. keeps_auto. Qed.
Lemma handle_transform_keeps crtc : keeps (drmmode_handle_transform crtc).
Proof. pose proof rotate_safe. unfold drmmode_handle_transform. keeps_auto. Qed.
Lemma choose_fb_keeps crtc m sid x y : keeps (choose_fb crtc m sid x y).
Proof. unfold choose_fb. keeps_auto. Qed.
Lemma fallback_fb_keeps crtc fb : keeps (fallback_fb crtc fb).
Proof. pose proof write_slot_keeps. unfold fallback_fb. keeps_auto. Qed.
Lemma hwcursor_keeps sw crtc : keeps (update_hwcursor_disabled sw crtc).
Proof. unfold update_hwcursor_disabled, drmmode_can_use_hw_cursor. keeps_auto. Qed.
Lemma finish_scanouts_keeps fuel crtc sid fb : keeps (finish_scanouts fuel crtc sid fb).
Proof. unfold finish_scanouts. keeps_auto. Qed.
#[local] Hint Resolve handle_transform_keeps choose_fb_keeps fallback_fb_keeps hwcursor_keeps
  finish_scanouts_keeps : keeps.

Lemma set_mode_major_keeps sw fuel crtc mode r x y : keeps (drmmode_set_mode_major sw fuel crtc mode r x y).
Proof.
  revert crtc mode r x y. induction fuel as [|fuel IH]; intros crtc mode r x y; [apply keeps_nofuel |].
  cbn [drmmode_set_mode_major].
  apply keeps_bind; [keeps_auto |]. intros saved. apply keeps_bind; [keeps_auto |]. intros info.
  destruct (exposures_oneshot info); [keeps_auto |]. destruct mode as [m|]; [| keeps_auto].
  do 2 (apply keeps_bind; [keeps_auto |]; intros ?). destruct (negb _); [keeps_auto |].
  do 4 (apply keeps_bind; [keeps_auto |]; intros ?).
  lazymatch goal with |- keeps (let '(_, _) := ?t in _) => destruct t as [[fb0 fx] fy] end.
  apply keeps_bind; [keeps_auto |]. intros [f|]; [| keeps_auto].
  apply keeps_wait. intros _. apply ends_bind; [keeps_auto |]. intros ok.
  apply ends_bind; [destruct ok; [| keeps_auto] |].
  { do 2 (apply keeps_bind; [keeps_auto |]; intros _). apply keeps_bind; [| intros _; keeps_auto].
    apply keeps_mfor. intros o. apply keeps_bind; [keeps_auto |]. intros out.
    apply keeps_mwhen, output_dpms_keeps. intros c'. apply keeps_bind; [keeps_auto |]. intros k.
    apply keeps_bind; [apply IH | intros; keeps_auto]. }
  intros _. apply ends_bind; [destruct ok; keeps_auto |]. intros _.
  apply ends_then; [apply ends_deferred | intros _; keeps_auto].
Qed.

Lemma reset_mode_keeps sw fuel crtc : keeps (reset_mode sw fuel crtc).
Proof. pose proof set_mode_major_keeps. unfold reset_mode. keeps_auto. Qed.
#[local] Hint Resolve reset_mode_keeps : keeps.

Lemma crtc_dpms_keeps sw fuel crtc mode : keeps (drmmode_crtc_dpms sw fuel crtc mode).
Proof. unfold drmmode_crtc_dpms. keeps_auto. Qed.
End Safe.

#[export] Hint Resolve glamor_flush_keeps glamor_finish_keeps sync_scanout_keeps do_update_keeps
  dixDestroyPixmap_keeps screen_CreatePixmap_keeps scanout_destroy_keeps scanout_create_keeps
  scanout_free_keeps set_mode_major_keeps reset_mode_keeps crtc_dpms_keeps : keeps.
