(* ===== verification/CursorHw.v ===== *)
(** * The hardware cursor: src/src/drmmode_display.c

    A CRTC has two buffers for cursor images.  A new image goes to the one that is
    not shown, which is then shown in its place; the position of the cursor is kept
    relative to the hot spot of the image.  Also here: the shadow pixmap of a rotated
    CRTC. *)
From S2P Require Import Prelude Modes Region World Lut Cursor Fb Queue Bo PixmapFb Crtc Keeps Scanout Modeset.

Definition DRM_MODE_CURSOR_BO : Z := 1.
Definition DRM_MODE_CURSOR_MOVE : Z := 2.
Definition EINVAL : Z := 22.

(** [drmmode_crtc->cursor_buffer[id]] *)
Definition cursor_buffer_at (d : drmmode_crtc) (id : Z) : option loc :=
  if id =? 0 then (cursor_buffer d).1 else (cursor_buffer d).2.

(** The gamma tables of a CRTC. *)
Definition crtc_gamma (c : xf86Crtc) : gamma := Gamma (gamma_red c) (gamma_green c) (gamma_blue c).

(** The private data after the hot spot has become [(xh, yh)]: the cursor moves so
    that the hot spot stays where it was. *)
Definition moved (xh yh : Z) (d : drmmode_crtc) : bool := negb (xh =? cursor_xhot d) || negb (yh =? cursor_yhot d).
Definition move_hotspot (xh yh : Z) (d : drmmode_crtc) : drmmode_crtc :=
  if moved xh yh d then
    d <| cursor_x ::= fun x => x + (cursor_xhot d - xh) |> <| cursor_y ::= fun y => y + (cursor_yhot d - yh) |>
      <| cursor_xhot := xh |> <| cursor_yhot := yh |>
  else d.

Section Code.
Context `{env : Env} `{srv : XServer} `{callbacks : Callbacks}.

Definition drmmode_set_cursor_position (crtc : loc) (x y : Z) : D unit :=
  _ ← set_dcrtc crtc (fun d => d <| cursor_x := x |> <| cursor_y := y |>);
  d ← get_dcrtc crtc;
  call (DrmModeMoveCursor (mode_crtc_id d) x y).

Definition drmmode_hide_cursor (crtc : loc) : D unit :=
  c ← load w_crtcs crtc;
  info ← load w_scrns (crtc_scrn c);
  _ ← call (DrmModeSetCursor (mode_crtc_id (driver_private c)) 0 (cursor_w info) (cursor_h info));
  set_dcrtc crtc (setf cursor (fun _ => None)).

(** What [drmmode_show_cursor] does with the handle of the buffer. *)
Definition show_image (crtc : loc) (c : xf86Crtc) (info : scrn_info) (xhot yhot handle : Z) : D unit :=
  let d := driver_private c in
  let '(xh, yh) := cursor_hotspot (rotation c) (cursor_w info) (cursor_h info) xhot yhot in
  let mv := moved xh yh d in
  _ ← set_dcrtc crtc (move_hotspot xh yh);
  d' ← get_dcrtc crtc;
  let flags := if mv then Z.lor DRM_MODE_CURSOR_BO DRM_MODE_CURSOR_MOVE else DRM_MODE_CURSOR_BO in
  let x := if mv then cursor_x d' else 0 in
  let y := if mv then cursor_y d' else 0 in
  e ← gets w_entity;
  again ← (if use_set_cursor2 e then
             r ← call (DrmIoctlCursor2 flags (mode_crtc_id d) x y (cursor_w info) (cursor_h info) handle xh yh);
             if (r.1 =? -1) && (r.2 =? EINVAL) then
               _ ← modify (setf w_entity (setf use_set_cursor2 (fun _ => false))); mret true
             else mret false
           else mret true);
  mwhen again (call (DrmIoctlCursor flags (mode_crtc_id d) x y (cursor_w info) (cursor_h info) handle)).

(** [ConfigCursor] reads [xf86_config->cursor] with the hot spot of its image. *)
Definition drmmode_show_cursor (crtc : loc) : D unit :=
  c ← load w_crtcs crtc;
  info ← load w_scrns (crtc_scrn c);
  let d := driver_private c in
  cur ← call (ConfigCursor (crtc_scrn c));
  t ← some_or NullDeref cur;
  let '(cur, xhot, yhot) := t in
  _ ← set_dcrtc crtc (setf World.cursor (fun _ => Some cur));
  buffer ← deref (cursor_buffer_at d (cursor_id d));
  h ← amdgpu_bo_get_handle buffer;
  match h with
  | None => mret tt
  | Some handle => show_image crtc c info xhot yhot handle
  end.

(** The pixels are written through the mapping of the buffer; every one of them is,
    so what the buffer held before does not matter. *)
Definition drmmode_load_cursor_argb (crtc : loc) (image : list Z) : D unit :=
  c ← load w_crtcs crtc;
  info ← load w_scrns (crtc_scrn c);
  let d := driver_private c in
  let apply_gamma := negb ((negb (depth info =? 24) && negb (depth info =? 32)) || drmmode_cm_prop_supported info CM_GAMMA_LUT) in
  cur ← call (ConfigCursor (crtc_scrn c));
  let other := match World.cursor d with
               | None => false
               | Some k => negb (bool_decide ((fst ∘ fst <$> cur) = Some k))
               end in
  let id := if other then Z.lxor (cursor_id d) 1 else cursor_id d in
  buffer ← deref (cursor_buffer_at d id);
  b ← load w_bos buffer;
  _ ← mwhen (cpu_ptr b =? 0) (raise NullDeref);
  let cursor_size := u32 (cursor_w info * cursor_h info) in
  px ← some_or OutOfBounds (load_cursor_pixels (crtc_gamma c) image apply_gamma cursor_size
                              (replicate (Z.to_nat cursor_size) 0));
  _ ← call (CpuWrite (cpu_ptr b) px);
  mwhen other (_ ← set_dcrtc crtc (setf cursor_id (fun _ => id)); drmmode_show_cursor crtc).

Definition drmmode_load_cursor_argb_check (sw_cursor : bool) (crtc : loc) (image : list Z) : D bool :=
  can ← drmmode_can_use_hw_cursor sw_cursor crtc;
  if negb can then mret false else _ ← drmmode_load_cursor_argb crtc image; mret true.

(** ** The shadow of a rotated CRTC

    [drmmode_crtc_scanout_create] and [_destroy] on [&drmmode_crtc->rotate]. *)
Definition rotate_destroy (crtc : loc) : D unit :=
  d ← get_dcrtc crtc;
  match rotate d with
  | None => mret tt
  | Some pix => _ ← dixDestroyPixmap pix; set_dcrtc crtc (setf rotate (fun _ => None))
  end.

Definition rotate_create (crtc : loc) (width height : Z) : D bool :=
  c ← load w_crtcs crtc;
  info ← load w_scrns (crtc_scrn c);
  reuse ← match rotate (driver_private c) with
          | None => mret false
          | Some pix =>
              p ← load w_pixmaps pix;
              if (pix_width p =? width) && (pix_height p =? height) then mret true
              else _ ← rotate_destroy crtc; mret false
          end;
  if reuse : bool then mret true
  else
    r ← screen_CreatePixmap (crtc_scrn c) width height (depth info) AMDGPU_CREATE_PIXMAP_SCANOUT;
    _ ← set_dcrtc crtc (setf rotate (fun _ => r));
    match r with
    | None => _ ← rotate_destroy crtc; mret false
    | Some pix =>
        fb ← amdgpu_pixmap_get_fb pix;
        match fb with
        | None => _ ← rotate_destroy crtc; mret false
        | Some _ => mret true
        end
    end.

(** Whether the result is not [NULL]. *)
Definition drmmode_crtc_shadow_allocate (crtc : loc) (width height : Z) : D bool := rotate_create crtc width height.

Definition drmmode_crtc_shadow_create (crtc : loc) (data : bool) (width height : Z) : D (option loc) :=
  _ ← mwhen (negb data) (_ ← rotate_create crtc width height; mret tt);
  d ← get_dcrtc crtc;
  mret (rotate d).

Definition drmmode_crtc_shadow_destroy (crtc : loc) : D unit := rotate_destroy crtc.
End Code.

(** ** None of it disturbs the queue *)
Section Keeps.
Context `{env : Env} `{srv : XServer} `{callbacks : Callbacks}.

#[local] Hint Extern 3 (keeps (modify _)) => apply keeps_modify; intros; by apply kept_frame : keeps.
Lemma set_cursor_position_keeps crtc x y : keeps (drmmode_set_cursor_position crtc x y).
Proof. unfold drmmode_set_cursor_position. keeps_auto. Qed.
Lemma hide_cursor_keeps crtc : keeps (drmmode_hide_cursor crtc).
Proof. unfold drmmode_hide_cursor. keeps_auto. Qed.
Lemma move_hotspot_keeps crtc xh yh : keeps (set_dcrtc crtc (move_hotspot xh yh)).
Proof. apply set_dcrtc_keeps. intros d. unfold move_hotspot. by destruct (moved xh yh d). Qed.
#[local] Hint Resolve move_hotspot_keeps : keeps.
Lemma show_image_keeps crtc c info x y h : keeps (show_image crtc c info x y h).
Proof. unfold show_image. keeps_auto. Qed.
#[local] Hint Resolve show_image_keeps : keeps.
Lemma show_cursor_keeps crtc : keeps (drmmode_show_cursor crtc).
Proof. unfold drmmode_show_cursor. keeps_auto. Qed.
#[local] Hint Resolve show_cursor_keeps : keeps.
Lemma load_cursor_keeps crtc image : keeps (drmmode_load_cursor_argb crtc image).
Proof. unfold drmmode_load_cursor_argb. keeps_auto. Qed.
#[local] Hint Resolve load_cursor_keeps : keeps.
Lemma load_cursor_check_keeps sw crtc image : keeps (drmmode_load_cursor_argb_check sw crtc image).
Proof. unfold drmmode_load_cursor_argb_check, drmmode_can_use_hw_cursor. keeps_auto. Qed.
Lemma rotate_destroy_keeps crtc : keeps (rotate_destroy crtc).
Proof. unfold rotate_destroy. keeps_auto. Qed.
#[local] Hint Resolve rotate_destroy_keeps : keeps.
Lemma rotate_create_keeps crtc w h : keeps (rotate_create crtc w h).
Proof. unfold rotate_create. keeps_auto. Qed.
#[local] Hint Resolve rotate_create_keeps : keeps.
Lemma shadow_create_keeps crtc data w h : keeps (drmmode_crtc_shadow_create crtc data w h).
Proof. unfold drmmode_crtc_shadow_create. keeps_auto. Qed.
End Keeps.

#[export] Hint Resolve set_cursor_position_keeps hide_cursor_keeps show_cursor_keeps load_cursor_keeps
  load_cursor_check_keeps rotate_destroy_keeps rotate_create_keeps shadow_create_keeps : keeps.

(** ** Where the cursor is *)

(** The position the kernel was told last. *)
Fixpoint hw_pos (id : Z) (trace : list ext) : Z * Z :=
  match trace with
  | [] => (0, 0)
  | e :: r =>
      match e with
      | DrmModeMoveCursor i x y => if i =? id then (x, y) else hw_pos id r
      | DrmIoctlCursor2 flags i x y _ _ _ _ _ | DrmIoctlCursor flags i x y _ _ _ =>
          if (i =? id) && has_bit flags DRM_MODE_CURSOR_MOVE then (x, y) else hw_pos id r
      | _ => hw_pos id r
      end
  end.

(** Where the hot spot of the cursor is. *)
Definition pointer (d : drmmode_crtc) : Z * Z := (cursor_x d + cursor_xhot d, cursor_y d + cursor_yhot d).

(** The driver and the kernel agree on the position, and the hot spot is at [p]. *)
Definition cursor_at (crtc : loc) (p : Z * Z) (w : world) : Prop :=
  exists c, w_crtcs w !! crtc = Some c /\ pointer (driver_private c) = p /\
    hw_pos (mode_crtc_id (driver_private c)) (w_trace w) = (cursor_x (driver_private c), cursor_y (driver_private c)).

(** What the server asks of the cursor of a CRTC; [Rotate] is a new rotation of the CRTC,
    which [drmmode_set_mode_major] stores. *)
Inductive cursor_op : Type :=
| SetPosition (x y : Z)
| Rotate (r : Z)
| ShowCursor
| HideCursor
| LoadCursor (image : list Z)
| LoadCursorCheck (image : list Z).

Section Position.
Context `{env : Env} `{srv : XServer}.

Definition run_cursor_op (sw_cursor : bool) (crtc : loc) (op : cursor_op) : D unit :=
  match op with
  | SetPosition x y => drmmode_set_cursor_position crtc x y
  | Rotate r => update w_crtcs crtc (fun c => c <| rotation := r |>)
  | ShowCursor => drmmode_show_cursor crtc
  | HideCursor => drmmode_hide_cursor crtc
  | LoadCursor image => drmmode_load_cursor_argb crtc image
  | LoadCursorCheck image => _ ← drmmode_load_cursor_argb_check sw_cursor crtc image; mret tt
  end.

(** Only a new position, which is that of the image, moves the hot spot. *)
Definition pointer_after (hot : Z * Z) (op : cursor_op) (p : Z * Z) : Z * Z :=
  match op with SetPosition x y => (x + hot.1, y + hot.2) | _ => p end.

(** Code that changes neither the CRTC nor the cursor of the kernel. *)
Definition no_move (e : ext) : Prop := forall id r, hw_pos id (e :: r) = hw_pos id r.
Lemma cursor_at_call crtc p e w : no_move e -> cursor_at crtc p w -> cursor_at crtc p (w <| w_trace ::= cons e |>).
Proof. intros He (c & Hc & Hp & Hh). exists c. split_and!; [done | done |]. rewrite <- Hh. exact (He _ _). Qed.
Lemma cursor_at_frame crtc p w w' :
  w_crtcs w' = w_crtcs w -> w_trace w' = w_trace w -> cursor_at crtc p w -> cursor_at crtc p w'.
Proof. intros Hc Ht (c & Hl & Hp & Hh). exists c. by rewrite Hc, Ht. Qed.

(** A change of other fields of the private data. *)
Lemma pwp_set_other crtc p f (Q : unit -> world -> Prop) w :
  (forall d, pointer (f d) = pointer d /\ cursor_x (f d) = cursor_x d /\ cursor_y (f d) = cursor_y d /\
     mode_crtc_id (f d) = mode_crtc_id d) ->
  cursor_at crtc p w -> (forall w', cursor_at crtc p w' -> Q tt w') -> pwp (set_dcrtc crtc f) Q w.
Proof.
  intros Hf (c & Hc & Hp & Hh) HQ. apply pwp_update. intros c' Hc'. assert (c' = c) as -> by congruence. apply HQ.
  exists (c <| driver_private ::= f |>). destruct (Hf (driver_private c)) as (H1 & H2 & H3 & H4).
  split_and!; cbn; [apply lookup_insert_eq | by rewrite H1 | by rewrite H2, H3, H4].
Qed.

Lemma pwp_get_handle_at crtc p b (Q : option Z -> world -> Prop) w :
  cursor_at crtc p w -> (forall r w', cursor_at crtc p w' -> Q r w') -> pwp (amdgpu_bo_get_handle b) Q w.
Proof.
  intros Hat HQ. apply pwp_bind, pwp_load. intros x _. destruct (is_gbm x).
  - apply pwp_bind. wp_ext. apply pwp_ret, HQ. by apply cursor_at_call.
  - wp_ext. apply HQ. by apply cursor_at_call.
Qed.

(** The call that shows the image carries the position when the hot spot moved. *)
Lemma cursor_at_ioctl crtc p c d xh yh es w :
  w_crtcs w !! crtc = Some c -> d = driver_private c -> pointer d = p ->
  hw_pos (mode_crtc_id d) (w_trace w) = (cursor_x d, cursor_y d) ->
  (forall r, hw_pos (mode_crtc_id d) (es ++ r) =
     if moved xh yh d then (cursor_x (move_hotspot xh yh d), cursor_y (move_hotspot xh yh d))
     else hw_pos (mode_crtc_id d) r) ->
  cursor_at crtc p (w <| w_crtcs ::= <[crtc := c <| driver_private ::= move_hotspot xh yh |>]> |> <| w_trace ::= app es |>).
Proof.
  intros Hc -> Hp Hh He. exists (c <| driver_private ::= move_hotspot xh yh |>). cbn [w_crtcs w_trace].
  split_and!; [apply lookup_insert_eq | |].
  - rewrite <- Hp. cbn. unfold move_hotspot. destruct (moved xh yh (driver_private c)); [| done].
    unfold pointer. cbn. f_equal; lia.
  - set (d' := move_hotspot xh yh (driver_private c)).
    change (hw_pos (mode_crtc_id d') (es ++ w_trace w) = (cursor_x d', cursor_y d')). unfold d'.
    assert (Hid : mode_crtc_id (move_hotspot xh yh (driver_private c)) = mode_crtc_id (driver_private c))
      by (unfold move_hotspot; by destruct (moved _ _ _)).
    rewrite Hid, He. unfold move_hotspot. by destruct (moved xh yh (driver_private c)).
Qed.

(** [c] was read before the field [cursor] of the private data changed. *)
Lemma show_image_at crtc c c1 info xhot yhot handle p (Q : unit -> world -> Prop) w :
  w_crtcs w !! crtc = Some c1 -> (exists k, c1 = c <| driver_private ::= setf World.cursor (fun _ => k) |>) ->
  cursor_at crtc p w -> (forall w', cursor_at crtc p w' -> Q tt w') -> pwp (show_image crtc c info xhot yhot handle) Q w.
Proof.
  intros Hc1 [k Hk] (c' & Hc' & Hp & Hh) HQ. assert (c' = c1) as -> by congruence. clear Hc'. unfold show_image.
  destruct (cursor_hotspot _ _ _ _ _) as [xh yh].
  assert (Hm : moved xh yh (driver_private c) = moved xh yh (driver_private c1) /\
    mode_crtc_id (driver_private c) = mode_crtc_id (driver_private c1)) by (by rewrite Hk).
  destruct Hm as [-> ->]. clear Hk. cbv zeta.
  apply pwp_bind, pwp_update. intros c' Hc'. assert (c' = c1) as -> by congruence. clear Hc'.
  apply pwp_bind, pwp_bind, pwp_load. intros c4 Hc4. cbn in Hc4. rewrite lookup_insert_eq in Hc4. injection Hc4 as <-.
  apply pwp_ret, pwp_bind, pwp_gets.
  set (flags := if moved xh yh (driver_private c1) then _ else _).
  assert (Hflags : has_bit flags DRM_MODE_CURSOR_MOVE = moved xh yh (driver_private c1))
    by (unfold flags; by destruct (moved _ _ _)).
  set (w4 := setf w_crtcs _ w).
  set (x := if moved xh yh (driver_private c1) then _ else _). set (y := if moved xh yh (driver_private c1) then _ else _).
  assert (Hafter : forall es w', w_crtcs w' = w_crtcs w4 -> w_trace w' = es ++ w_trace w4 ->
     (forall r, hw_pos (mode_crtc_id (driver_private c1)) (es ++ r) =
        if moved xh yh (driver_private c1) then (x, y) else hw_pos (mode_crtc_id (driver_private c1)) r) -> Q tt w').
  { intros es w' Hcr Htr He. apply HQ, (cursor_at_frame _ _ (w4 <| w_trace ::= app es |>)); [done | done |].
    apply cursor_at_ioctl with (driver_private c1); try done. intros r. rewrite He. unfold x, y.
    by destruct (moved _ _ _). }
  clearbody w4. apply pwp_bind. destruct (use_set_cursor2 _).
  - apply pwp_bind. wp_ext. destruct (_ && _).
    + apply pwp_bind, pwp_modify, pwp_ret. cbn [mwhen]. wp_ext. destruct (reply _ _). eapply (Hafter [_; _]); [done.. |]. intros r.
      cbn [hw_pos app]. rewrite Z.eqb_refl, Hflags. by destruct (moved _ _ _).
    + apply pwp_ret, pwp_ret. eapply (Hafter [_]); [done.. |]. intros r. cbn [hw_pos app]. rewrite Z.eqb_refl, Hflags. done.
  - apply pwp_ret. cbn [mwhen]. wp_ext. destruct (reply _ _). eapply (Hafter [_]); [done.. |]. intros r.
    cbn [hw_pos app]. by rewrite Z.eqb_refl, Hflags.
Qed.

Lemma show_cursor_at crtc p (Q : unit -> world -> Prop) w :
  cursor_at crtc p w -> (forall w', cursor_at crtc p w' -> Q tt w') -> pwp (drmmode_show_cursor crtc) Q w.
Proof.
  intros Hat HQ. unfold drmmode_show_cursor. destruct Hat as (c & Hc & Hp & Hh).
  apply pwp_bind, pwp_load. intros c' Hc'. assert (c' = c) as -> by congruence. clear Hc'.
  apply pwp_bind, pwp_load. intros info _. apply pwp_bind. wp_ext.
  apply pwp_bind, pwp_some_or. intros [[cur xhot] yhot] _. apply pwp_bind.
  set (w1 := w <| w_trace ::= cons _ |>). apply pwp_update. intros c' Hc'. assert (c' = c) as -> by (cbn in Hc'; congruence). clear Hc'.
  set (c1 := c <| driver_private ::= _ |>). set (w2 := w1 <| w_crtcs ::= _ |>).
  assert (Hat : cursor_at crtc p w2 /\ w_crtcs w2 !! crtc = Some c1).
  { split; [exists c1; split_and!; [| done | exact Hh] |]; apply lookup_insert_eq. }
  clearbody w2. apply pwp_bind, pwp_some_or. intros buffer _.
  set (post w' := cursor_at crtc p w' /\ w_crtcs w' !! crtc = Some c1).
  apply pwp_bind, (pwp_mono _ (fun _ w' => post w')).
  { apply pwp_bind, pwp_load. intros b _. unfold post. destruct (is_gbm b).
    - apply pwp_bind. wp_ext. apply pwp_ret. split; [apply cursor_at_call; [done | apply Hat] | apply Hat].
    - wp_ext. split; [apply cursor_at_call; [done | apply Hat] | apply Hat]. }
  intros [handle|] w3 [Hat3 Hc3]; [| by apply pwp_ret, HQ]. by apply (show_image_at _ _ c1 _ _ _ _ p); [| eexists | |].
Qed.

Lemma load_cursor_at crtc image p (Q : unit -> world -> Prop) w :
  cursor_at crtc p w -> (forall w', cursor_at crtc p w' -> Q tt w') -> pwp (drmmode_load_cursor_argb crtc image) Q w.
Proof.
  intros Hat HQ. unfold drmmode_load_cursor_argb. do 2 (apply pwp_bind, pwp_load; intros ? _). apply pwp_bind. wp_ext.
  apply pwp_bind, pwp_some_or. intros b _. apply pwp_bind, pwp_load. intros x _.
  apply pwp_bind. destruct (cpu_ptr x =? 0); cbn [mwhen]; [apply pwp_raise |]. apply pwp_ret.
  apply pwp_bind, pwp_some_or. intros px _. apply pwp_bind. wp_ext.
  match goal with |- pwp (mwhen ?o _) _ _ => destruct o end; cbn [mwhen].
  - apply pwp_bind, (pwp_set_other _ p); [done | do 2 (apply cursor_at_call; [done |]); done |]. intros w' Hw'. by apply show_cursor_at with p.
  - apply pwp_ret, HQ. do 2 (apply cursor_at_call; [done |]); done.
Qed.

Lemma run_cursor_op_at sw crtc op p w c :
  w_crtcs w !! crtc = Some c -> cursor_at crtc p w ->
  pwp (run_cursor_op sw crtc op)
    (fun _ w' => cursor_at crtc (pointer_after (cursor_xhot (driver_private c), cursor_yhot (driver_private c)) op p) w') w.
Proof.
  intros Hc Hat. destruct op; cbn [run_cursor_op pointer_after].
  - apply pwp_bind, pwp_update. intros c' Hc'. assert (c' = c) as -> by congruence.
    apply pwp_bind, pwp_bind, pwp_load. intros c1 Hc1. cbn in Hc1. rewrite lookup_insert_eq in Hc1. injection Hc1 as <-.
    apply pwp_ret. wp_ext. eexists. split; [apply lookup_insert_eq |]. split; [done |]. cbn. by rewrite Z.eqb_refl.
  - apply pwp_update. intros c' Hc'. assert (c' = c) as -> by congruence. destruct Hat as (c0 & Hc0 & Hp & Hh).
    assert (c0 = c) as -> by congruence. exists (c <| rotation := r |>). split_and!; [apply lookup_insert_eq | done | done].
  - by apply show_cursor_at with p.
  - do 2 (apply pwp_bind, pwp_load; intros ? _). apply pwp_bind. wp_ext.
    apply (pwp_set_other _ p); [done | by apply cursor_at_call | done].
  - by apply load_cursor_at with p.
  - apply pwp_bind, pwp_bind, pwp_bind, pwp_load. intros c' _. apply pwp_ret. destruct (negb _); [by do 2 apply pwp_ret |].
    apply pwp_bind, load_cursor_at with p; [done |]. intros w' Hw'. by do 2 apply pwp_ret.
Qed.

Definition moves (op : cursor_op) : bool := match op with SetPosition _ _ => true | _ => false end.

(** The kernel is told an image. *)
Definition sends_image (e : ext) : bool :=
  match e with DrmIoctlCursor2 _ _ _ _ _ _ _ _ _ | DrmIoctlCursor _ _ _ _ _ _ _ => true | _ => false end.
Definition hot_spot (c : xf86Crtc) : Z * Z := (cursor_xhot (driver_private c), cursor_yhot (driver_private c)).

Lemma hot_spot_moved xh yh c : hot_spot (c <| driver_private ::= move_hotspot xh yh |>) = (xh, yh).
Proof.
  unfold hot_spot. cbn. unfold move_hotspot. destruct (moved xh yh (driver_private c)) eqn:Hm; [done |].
  unfold moved in Hm. apply orb_false_iff in Hm as [H1%negb_false_iff%Z.eqb_eq H2%negb_false_iff%Z.eqb_eq]. by rewrite H1, H2.
Qed.

(** After [drmmode_show_cursor] has told the kernel the image, the hot spot is that of
    the image on the rotated CRTC. *)
Definition hot_after_show (crtc : loc) (c : xf86Crtc) (w w' : world) : Prop :=
  forall info cur xhot yhot, w_scrns w !! crtc_scrn c = Some info ->
    reply (w_trace w) (ConfigCursor (crtc_scrn c)) = Some (cur, xhot, yhot) ->
    exists c' es, w_crtcs w' !! crtc = Some c' /\ w_trace w' = es ++ w_trace w /\
      (existsb sends_image es = true -> hot_spot c' = cursor_hotspot (rotation c) (cursor_w info) (cursor_h info) xhot yhot).

Lemma show_image_hot crtc c c1 info xhot yhot handle w :
  w_crtcs w !! crtc = Some c1 ->
  pwp (show_image crtc c info xhot yhot handle) (fun _ w' => exists c' es, w_crtcs w' !! crtc = Some c' /\ w_trace w' = es ++ w_trace w /\
     hot_spot c' = cursor_hotspot (rotation c) (cursor_w info) (cursor_h info) xhot yhot) w.
Proof.
  intros Hc. unfold show_image. destruct (cursor_hotspot _ _ _ _ _) as [xh yh]. cbv zeta.
  apply pwp_bind, pwp_update. intros c' Hc'. assert (c' = c1) as -> by congruence. clear Hc'.
  set (c2 := c1 <| driver_private ::= _ |>). apply pwp_bind, pwp_bind, pwp_load. intros c3 _. apply pwp_ret, pwp_bind, pwp_gets, pwp_bind.
  assert (HQ : forall w', w_crtcs w' !! crtc = Some c2 -> (exists es, w_trace w' = es ++ w_trace w) ->
    exists c' es, w_crtcs w' !! crtc = Some c' /\ w_trace w' = es ++ w_trace w /\ hot_spot c' = (xh, yh)).
  { intros w' H1 [es H2]. exists c2, es. split_and!; [done | done | apply hot_spot_moved]. }
  destruct (use_set_cursor2 _).
  - apply pwp_bind. wp_ext. destruct (_ && _).
    + apply pwp_bind, pwp_modify, pwp_ret. cbn [mwhen]. wp_ext. apply HQ; [apply lookup_insert_eq | by eexists [_; _]].
    + apply pwp_ret, pwp_ret. apply HQ; [apply lookup_insert_eq | by eexists [_]].
  - apply pwp_ret. cbn [mwhen]. wp_ext. apply HQ; [apply lookup_insert_eq | by eexists [_]].
Qed.

Lemma show_cursor_hot crtc c w :
  w_crtcs w !! crtc = Some c -> pwp (drmmode_show_cursor crtc) (fun _ w' => hot_after_show crtc c w w') w.
Proof.
  intros Hc. unfold drmmode_show_cursor. apply pwp_bind, pwp_load. intros c' Hc'. assert (c' = c) as -> by congruence. clear Hc'.
  apply pwp_bind, pwp_load. intros info Hs. apply pwp_bind. wp_ext.
  apply pwp_bind, pwp_some_or. intros [[cur xhot] yhot] Hcur. apply pwp_bind, pwp_update. intros c' Hc'.
  assert (c' = c) as -> by (cbn in Hc'; congruence). clear Hc'. set (c1 := c <| driver_private ::= _ |>). set (w1 := setf w_crtcs _ _).
  apply pwp_bind, pwp_some_or. intros buffer _. apply pwp_bind.
  assert (Hstep : forall r es w', w_crtcs w' !! crtc = Some c1 -> w_trace w' = es ++ w_trace w -> existsb sends_image es = false ->
    pwp (match r with None => mret tt | Some handle => show_image crtc c info xhot yhot handle end) (fun _ w' => hot_after_show crtc c w w') w').
  { intros r es w' H1 H2 H3. destruct r as [handle|].
    - eapply pwp_mono; [by apply (show_image_hot _ _ c1) |]. intros _ w'' (c' & es' & H4 & H5 & H6) info' cur' x' y' Hs' Hcur'.
      assert (info' = info) as -> by congruence. rewrite Hcur in Hcur'. injection Hcur' as <- <- <-.
      exists c', (es' ++ es). split_and!; [done | by rewrite H5, H2, app_assoc | done].
    - apply pwp_ret. intros info' cur' x' y' _ _. exists c1, es. split_and!; [done | done | by rewrite H3]. }
  apply pwp_bind, pwp_load. intros b _. destruct (is_gbm b).
  - apply pwp_bind. wp_ext. apply pwp_ret. eapply (Hstep (Some _) [_; _]); [apply lookup_insert_eq | done | done].
  - wp_ext. eapply (Hstep _ [_; _]); [apply lookup_insert_eq | done | done].
Qed.

(** C11. In any sequence of operations on the cursor of a CRTC, rotations of the CRTC
    included, the position the kernel was told last is the one the driver has stored,
    and the hot spot stays where it is until the server sets a position.  And whatever
    came before, the next operation does exactly that: a new position [(x, y)] puts the
    hot spot at [(x, y)] plus the hot spot of the image in use; any other operation leaves
    it where it is; and when [drmmode_show_cursor] has told the kernel the image, the hot
    spot in use is that of the new image on the CRTC as it is rotated, so that the cursor
    was moved by the difference. *)
Theorem cursor_position_exact sw crtc ops p w :
  cursor_at crtc p w ->
  pwp (mfor ops (run_cursor_op sw crtc))
    (fun _ w1 => exists c1 p1, w_crtcs w1 !! crtc = Some c1 /\ cursor_at crtc p1 w1 /\
       (existsb moves ops = false -> p1 = p) /\
       (forall op, pwp (run_cursor_op sw crtc op) (fun _ => cursor_at crtc (pointer_after (hot_spot c1) op p1)) w1) /\
       pwp (run_cursor_op sw crtc ShowCursor) (fun _ w2 => hot_after_show crtc c1 w1 w2) w1) w.
Proof.
  intros Hat. apply (pwp_mono _ (fun _ w1 => exists p1, cursor_at crtc p1 w1 /\ (existsb moves ops = false -> p1 = p))).
  - revert p w Hat. induction ops as [|op ops IH]; intros p w Hat; cbn [mfor existsb]; [apply pwp_ret; by exists p |].
    assert (Hc : exists c, w_crtcs w !! crtc = Some c) by (destruct Hat as (c & Hc & _); eauto). destruct Hc as [c Hc].
    apply pwp_bind. eapply pwp_mono; [by apply run_cursor_op_at |]. cbn. intros _ w1 H1.
    eapply pwp_mono; [by apply IH |]. cbn. intros _ w2 (p' & H2 & Hp). exists p'. split; [done |].
    intros [Hm Hms]%orb_false_iff. rewrite (Hp Hms). by destruct op.
  - intros [] w1 (p1 & H1 & Hp). assert (Hc : exists c, w_crtcs w1 !! crtc = Some c) by (destruct H1 as (c & Hc & _); eauto).
    destruct Hc as [c Hc]. exists c, p1. split_and!; [done | done | done | | by apply show_cursor_hot].
    intros op. by apply run_cursor_op_at.
Qed.

(** *** Double buffering *)

Definition no_write (e : ext) : Prop := match e with CpuWrite _ _ => False | _ => True end.

(** [drmmode_show_cursor] only tells the kernel about the buffer that is current. *)
Lemma wp_show_image crtc c c1 info xhot yhot handle (Q : unit -> world -> Prop) w :
  w_crtcs w !! crtc = Some c1 ->
  (forall c' es w', w_crtcs w' !! crtc = Some c' -> cursor_id (driver_private c') = cursor_id (driver_private c1) ->
     World.cursor (driver_private c') = World.cursor (driver_private c1) -> w_trace w' = es ++ w_trace w ->
     Forall no_write es -> Q tt w') ->
  wp (show_image crtc c info xhot yhot handle) Q w.
Proof.
  intros Hc HQ. unfold show_image. destruct (cursor_hotspot _ _ _ _ _) as [xh yh]. cbv zeta.
  apply wp_bind, (wp_set_dcrtc _ c1); [done |]. set (c2 := c1 <| driver_private ::= _ |>).
  apply wp_bind, (wp_get_dcrtc _ c2); [apply lookup_insert_eq |]. apply wp_bind, wp_gets, wp_bind.
  assert (HQ2 : forall es w', w_crtcs w' !! crtc = Some c2 -> w_trace w' = es ++ w_trace w -> Forall no_write es -> Q tt w').
  { intros es w' H1 H2 H3. eapply (HQ c2 es); try done; unfold c2; cbn; unfold move_hotspot; by destruct (moved _ _ _). }
  destruct (use_set_cursor2 _).
  - apply wp_bind. wp_ext. destruct (_ && _).
    + apply wp_bind, wp_modify, wp_ret. cbn [mwhen]. wp_ext. destruct (reply _ _).
      eapply (HQ2 [_; _]); [apply lookup_insert_eq | done | by repeat constructor].
    + apply wp_ret, wp_ret. eapply (HQ2 [_]); [apply lookup_insert_eq | done | by repeat constructor].
  - apply wp_ret. cbn [mwhen]. wp_ext. destruct (reply _ _).
    eapply (HQ2 [_]); [apply lookup_insert_eq | done | by repeat constructor].
Qed.

Lemma wp_show_cursor crtc c info cur xhot yhot buf b (Q : unit -> world -> Prop) w :
  w_crtcs w !! crtc = Some c -> w_scrns w !! crtc_scrn c = Some info ->
  (forall t, reply t (ConfigCursor (crtc_scrn c)) = Some (cur, xhot, yhot)) ->
  cursor_buffer_at (driver_private c) (cursor_id (driver_private c)) = Some buf -> w_bos w !! buf = Some b ->
  (forall c' es w', w_crtcs w' !! crtc = Some c' -> cursor_id (driver_private c') = cursor_id (driver_private c) ->
     World.cursor (driver_private c') = Some cur -> w_trace w' = es ++ w_trace w -> Forall no_write es -> Q tt w') ->
  wp (drmmode_show_cursor crtc) Q w.
Proof.
  intros Hc Hs Hcur Hbuf Hb HQ. unfold drmmode_show_cursor. apply wp_bind, (wp_load _ _ c); [done |].
  apply wp_bind, (wp_load _ _ info); [done |]. apply wp_bind. wp_ext. rewrite Hcur.
  apply wp_bind, (wp_some_or _ _ (cur, xhot, yhot)); [done |].
  apply wp_bind, (wp_set_dcrtc _ c); [done |]. set (c1 := c <| driver_private ::= _ |>).
  apply wp_bind, (wp_deref _ buf); [done |]. apply wp_bind.
  set (w1 := setf w_crtcs _ _).
  assert (Hstep : forall r es w', w_crtcs w' !! crtc = Some c1 -> w_trace w' = es ++ w_trace w -> Forall no_write es ->
    wp (match r with None => mret tt | Some handle => show_image crtc c info xhot yhot handle end) Q w').
  { intros [handle|] es w' Hc' Ht Hes; [| apply wp_ret; by eapply (HQ c1 es)].
    eapply wp_show_image; [done |]. intros c' es' w'' H1 H2 H3 H4 H5.
    eapply (HQ c' (es' ++ es)); [done | done | done | by rewrite H4, Ht, app_assoc | by apply Forall_app]. }
  apply wp_bind, (wp_load _ _ b); [done |]. destruct (is_gbm b).
  - apply wp_bind. wp_ext. apply wp_ret.
    eapply (Hstep (Some _) [_; _]); [apply lookup_insert_eq | done | by repeat constructor].
  - wp_ext. eapply (Hstep _ [_; _]); [apply lookup_insert_eq | done | by repeat constructor].
Qed.

(** C35. The image of a cursor that is not the one on the screen is written to the
    buffer that is not shown, which becomes the current one: the buffer the kernel
    shows is never written in this case. *)
Theorem cursor_double_buffered crtc c info k cur xhot yhot image buf b shown sb px w :
  let d := driver_private c in
  w_crtcs w !! crtc = Some c -> w_scrns w !! crtc_scrn c = Some info ->
  World.cursor d = Some k -> cur <> k ->
  (forall t, reply t (ConfigCursor (crtc_scrn c)) = Some (cur, xhot, yhot)) ->
  cursor_id d = 0 \/ cursor_id d = 1 ->
  cursor_buffer_at d (cursor_id d) = Some shown -> w_bos w !! shown = Some sb ->
  cursor_buffer_at d (Z.lxor (cursor_id d) 1) = Some buf -> w_bos w !! buf = Some b ->
  cpu_ptr b <> 0 -> cpu_ptr b <> cpu_ptr sb ->
  load_cursor_pixels (crtc_gamma c) image
    (negb ((negb (depth info =? 24) && negb (depth info =? 32)) || drmmode_cm_prop_supported info CM_GAMMA_LUT))
    (u32 (cursor_w info * cursor_h info)) (replicate (Z.to_nat (u32 (cursor_w info * cursor_h info))) 0) = Some px ->
  wp (drmmode_load_cursor_argb crtc image) (fun _ w' => exists c' es,
    w_crtcs w' !! crtc = Some c' /\ cursor_id (driver_private c') = Z.lxor (cursor_id d) 1 /\
    World.cursor (driver_private c') = Some cur /\
    w_trace w' = es ++ w_trace w /\ CpuWrite (cpu_ptr b) px ∈ es /\
    forall px', CpuWrite (cpu_ptr sb) px' ∉ es) w.
Proof.
  intros d Hc Hs Hk Hne Hcur Hid Hsh Hsb Hbuf Hb Hp Hpp Hpx. unfold drmmode_load_cursor_argb.
  apply wp_bind, (wp_load _ _ c); [done |]. apply wp_bind, (wp_load _ _ info); [done |].
  apply wp_bind. wp_ext. rewrite Hcur. change (driver_private c) with d. rewrite Hk.
  rewrite bool_decide_eq_false_2 by (cbn; congruence). cbn [negb].
  apply wp_bind, (wp_deref _ buf); [done |]. apply wp_bind, (wp_load _ _ b); [done |].
  apply wp_bind. destruct (Z.eqb_spec (cpu_ptr b) 0); [done |]. cbn [mwhen]. apply wp_ret.
  apply wp_bind, (wp_some_or _ _ px); [done |]. apply wp_bind. wp_ext. cbn [mwhen].
  apply wp_bind, (wp_set_dcrtc _ c); [done |].
  eapply (wp_show_cursor _ _ info cur xhot yhot buf b); [apply lookup_insert_eq | done | done | done | done |].
  intros c' es w' Hc' Hi Hcu Ht Hes. exists c', (es ++ [CpuWrite (cpu_ptr b) px; ConfigCursor (crtc_scrn c)]).
  split_and!; [done | done | done | by rewrite Ht, <- app_assoc | set_solver |].
  intros px' [Hin | Hin]%elem_of_app.
  - rewrite Forall_forall in Hes. by apply (Hes _ Hin).
  - apply elem_of_cons in Hin as [[= Heq _] | Hin]; [done |]. apply elem_of_cons in Hin as [? | Hin]; [done | by apply elem_of_nil in Hin].
Qed.
End Position.

(** ** A cursor of two pixels *)

Definition cursor_env : Env := fun history e =>
  match e return answer e with ConfigCursor _ => Some (91%positive, 1, 0) | e' => Sample.env history e' end.
Definition cursor_crtc : xf86Crtc := Sample.crtc <| driver_private ::= fun d =>
  d <| World.cursor := Some 90%positive |> <| cursor_buffer := (Some 5%positive, Some 6%positive) |> |>.
Definition cursor_world : world := Sample.w
  <| w_scrns := {[1%positive := Sample.scrn <| cursor_w := 2 |> <| cursor_h := 1 |>]} |>
  <| w_crtcs := {[3%positive := cursor_crtc]} |>
  <| w_bos := {[4%positive := Buffer 21 0 1 0; 5%positive := Buffer 22 4096 1 0; 6%positive := Buffer 23 8192 1 0]} |>.

Lemma cursor_position_exact_witness :
  let ops := [LoadCursor [0; 0]; Rotate RR_Rotate_180; ShowCursor; HideCursor] in
  pwp (mfor ops (run_cursor_op (env := cursor_env) false 3)) (fun _ w' => exists p', cursor_at 3 p' w' /\ p' = (0, 0)) cursor_world /\
  returns (mfor ops (run_cursor_op (env := cursor_env) false 3)) cursor_world = true /\
  let w' := after (mfor ops (run_cursor_op (env := cursor_env) false 3)) cursor_world in
  hot_spot <$> w_crtcs w' !! 3%positive = Some (0, 0) /\ hw_pos 40 (w_trace w') = (0, 0).
Proof.
  intros ops. split; [| vm_compute; split_and!; reflexivity].
  eapply pwp_mono; [apply (cursor_position_exact (env := cursor_env) false 3 ops (0, 0)) |].
  - exists cursor_crtc. split_and!; reflexivity.
  - intros _ w' (c' & p' & _ & H & Hp & _). exists p'. split; [exact H | by apply Hp].
Defined.

Lemma cursor_double_buffered_witness :
  wp (drmmode_load_cursor_argb (env := cursor_env) 3 [0; 0]) (fun _ w' => exists es,
    w_trace w' = es ++ w_trace cursor_world /\ CpuWrite 8192 [0; 0] ∈ es) cursor_world.
Proof.
  eapply wp_mono; [eapply (cursor_double_buffered (env := cursor_env) 3 cursor_crtc _ 90 91 1 0 [0; 0] 6 _ 5 _ [0; 0]);
    [reflexivity | reflexivity | reflexivity | done | reflexivity | by left | reflexivity | reflexivity | reflexivity | reflexivity
    | done | done | reflexivity] |].
  intros _ w' (c' & es & _ & _ & _ & Ht & Hin & _). by exists es.
Defined.
