(* ===== verification/Flip.v ===== *)
(** * Page flips

    The page flip ioctls and [amdgpu_do_pageflip] with its completion callbacks
    (src/src/drmmode_display.c), and the scanout updates and flips that the block
    handler starts (src/src/amdgpu_kms.c). *)
From stdpp Require Import strings.
From S2P Require Import Prelude Modes Region World Fb Queue Bo PixmapFb Crtc Keeps Scanout Modeset.

(** ** Constants of xf86drm.h, drm_mode.h and the driver's headers *)
Definition DRM_CAP_PAGE_FLIP_TARGET : Z := 0x11.
Definition DRM_MODE_PAGE_FLIP_EVENT : Z := 1.
Definition DRM_MODE_PAGE_FLIP_ASYNC : Z := 2.
Definition DRM_MODE_PAGE_FLIP_TARGET_ABSOLUTE : Z := 4.
Definition DRM_MODE_PAGE_FLIP_TARGET_RELATIVE : Z := 8.
Definition DRMMODE_SCANOUT_FLIP_FAILED : Z := 1.
Definition DRMMODE_SCANOUT_VBLANK_FAILED : Z := 2.
(** [serverClient] and [~0ULL]. *)
Definition AMDGPU_DRM_QUEUE_CLIENT_DEFAULT : Z := 0.
Definition AMDGPU_DRM_QUEUE_ID_DEFAULT : Z := 2 ^ 64 - 1.

Section Code.
Context `{env : Env} `{srv : XServer} `{callbacks : Callbacks} `{rot : Rotator}.
Context (sw_cursor : bool).

Definition drmmode_probe_page_flip_target : D bool :=
  r ← call (DrmGetCap DRM_CAP_PAGE_FLIP_TARGET);
  mret match r with Some cap_value => negb (cap_value =? 0) | None => false end.

Definition drmmode_page_flip (d : drmmode_crtc) (fb_id flags drm_queue_seq : Z) : D Z :=
  call (DrmModePageFlip (mode_crtc_id d) fb_id (Z.lor flags DRM_MODE_PAGE_FLIP_EVENT) drm_queue_seq).

Definition drmmode_page_flip_target_absolute (d : drmmode_crtc) (fb_id flags drm_queue_seq target_msc : Z)
  : D Z :=
  has ← gets w_has_page_flip_target;
  if has : bool then
    call (DrmModePageFlipTarget (mode_crtc_id d) fb_id
            (Z.lor flags (Z.lor DRM_MODE_PAGE_FLIP_EVENT DRM_MODE_PAGE_FLIP_TARGET_ABSOLUTE))
            drm_queue_seq target_msc)
  else drmmode_page_flip d fb_id flags drm_queue_seq.

Definition drmmode_page_flip_target_relative (d : drmmode_crtc) (fb_id flags drm_queue_seq target_msc : Z)
  : D Z :=
  has ← gets w_has_page_flip_target;
  if has : bool then
    call (DrmModePageFlipTarget (mode_crtc_id d) fb_id
            (Z.lor flags (Z.lor DRM_MODE_PAGE_FLIP_EVENT DRM_MODE_PAGE_FLIP_TARGET_RELATIVE))
            drm_queue_seq target_msc)
  else drmmode_page_flip d fb_id flags drm_queue_seq.

(** ** Completion of scanout updates and flips *)

(** [struct drmmode_fb *fb = event_data] *)
Definition cookie_fb (data : cookie) : option loc :=
  match data with FbData l => Some l | _ => None end.

Definition amdgpu_scanout_flip_abort (crtc : loc) (data : cookie) : D unit :=
  _ ← set_dcrtc crtc (setf scanout_update_pending (fun _ => 0));
  d ← get_dcrtc crtc;
  mwhen (bool_decide (flip_pending d = cookie_fb data))
    (drmmode_fb_reference (SFlipPending crtc) None).

Definition amdgpu_scanout_flip_handler (crtc : loc) (msc usec : Z) (data : cookie) : D unit :=
  _ ← drmmode_fb_reference (SCrtcFb crtc) (cookie_fb data);
  amdgpu_scanout_flip_abort crtc data.

(** [drmmode_crtc_private_ptr drmmode_crtc = event_data] *)
Definition cookie_crtc (data : cookie) : D loc :=
  match data with CrtcData l => mret l | _ => raise NullDeref end.

Definition amdgpu_scanout_update_abort (data : cookie) : D unit :=
  k ← cookie_crtc data;
  set_dcrtc k (setf scanout_update_pending (fun _ => 0)).

Definition amdgpu_scanout_update_handler (crtc : loc) (frame usec : Z) (data : cookie) : D unit :=
  k ← cookie_crtc data;
  c ← load w_crtcs crtc;
  info ← load w_scrns (crtc_scrn c);
  d ← get_dcrtc k;
  _ ← (if enabled c && match flip_pending d with None => true | Some _ => false end
          && (dpms_mode d =? DPMSModeOn) then
         region ← some_or NullDeref (scanout_damage d);
         ok ← amdgpu_scanout_do_update crtc (scanout_id d) (root_pixmap info) (RegionExtents region);
         if ok : bool then
           _ ← amdgpu_glamor_flush (crtc_scrn c);
           set_dcrtc k (setf scanout_damage (fmap (fun _ => ∅)))
         else mret tt
       else mret tt);
  amdgpu_scanout_update_abort data.

(** A vblank event that the kernel refused is delivered at once: the handler is
    called with zeros and the signalled events are run. *)
Definition deliver_now (fuel : nat) (crtc : loc) (drm_queue_seq : Z) : D unit :=
  _ ← set_dcrtc crtc (setf scanout_status (fun s => Z.lor s DRMMODE_SCANOUT_VBLANK_FAILED));
  _ ← amdgpu_drm_queue_handler 0 0 0 drm_queue_seq;
  _ ← set_dcrtc crtc (setf wait_flip_nesting_level (fun n => n + 1));
  amdgpu_drm_queue_handle_deferred fuel crtc.

(** The vblank ioctl works: if both ioctls had failed before, TearFree is tried
    again. *)
Definition vblank_works (fuel : nat) (crtc : loc) : D unit :=
  d ← get_dcrtc crtc;
  _ ← mwhen (scanout_status d =? Z.lor DRMMODE_SCANOUT_FLIP_FAILED DRMMODE_SCANOUT_VBLANK_FAILED)
        (reset_mode sw_cursor fuel crtc);
  set_dcrtc crtc (setf scanout_status (fun s => Z.land s (Z.lnot DRMMODE_SCANOUT_VBLANK_FAILED))).

Definition amdgpu_scanout_update (fuel : nat) (crtc : loc) : D unit :=
  c ← load w_crtcs crtc;
  let d := driver_private c in
  info ← load w_scrns (crtc_scrn c);
  if negb (enabled c) || negb (scanout_update_pending d =? 0)
     || match flip_pending d with Some _ => true | None => false end
     || negb (dpms_mode d =? DPMSModeOn)
  then mret tt
  else
    match scanout_damage d with
    | None => mret tt
    | Some region =>
        if RegionNil region then mret tt
        else if negb (amdgpu_scanout_extents_intersect c (is_gpu info) (RegionExtents region)).2
        then set_dcrtc crtc (setf scanout_damage (fmap (fun _ => ∅)))
        else
          seq ← amdgpu_drm_queue_alloc crtc AMDGPU_DRM_QUEUE_CLIENT_DEFAULT AMDGPU_DRM_QUEUE_ID_DEFAULT
                  (CrtcData crtc) amdgpu_scanout_update_handler_proc amdgpu_scanout_update_abort_proc false;
          if seq =? AMDGPU_DRM_QUEUE_ERROR then amdgpu_scanout_update_handler crtc 0 0 (CrtcData crtc)
          else
            _ ← set_dcrtc crtc (setf scanout_update_pending (fun _ => seq));
            r ← drmmode_wait_vblank crtc (Z.lor DRM_VBLANK_RELATIVE DRM_VBLANK_EVENT) 1 seq;
            match r with
            | inl _ => deliver_now fuel crtc seq
            | inr _ => vblank_works fuel crtc
            end
    end.

Definition amdgpu_scanout_flip (fuel : nat) (crtc : loc) : D unit :=
  c ← load w_crtcs crtc;
  let d := driver_private c in
  info ← load w_scrns (crtc_scrn c);
  if negb (scanout_update_pending d =? 0)
     || match flip_pending d with Some _ => true | None => false end
     || negb (dpms_mode d =? DPMSModeOn)
  then mret tt
  else
    let sid := Z.lxor (scanout_id d) 1 in
    region ← some_or NullDeref (scanout_damage d);
    ok ← amdgpu_scanout_do_update crtc sid (root_pixmap info) (RegionExtents region);
    if negb ok then mret tt
    else
      _ ← amdgpu_glamor_flush (crtc_scrn c);
      _ ← set_dcrtc crtc (setf scanout_damage (fmap (fun _ => ∅)));
      pix ← deref (scanout_at d sid);
      fb ← amdgpu_pixmap_get_fb pix;
      match fb with
      | None => mret tt
      | Some f =>
          seq ← amdgpu_drm_queue_alloc crtc AMDGPU_DRM_QUEUE_CLIENT_DEFAULT AMDGPU_DRM_QUEUE_ID_DEFAULT
                  (FbData f) amdgpu_scanout_flip_handler_proc amdgpu_scanout_flip_abort_proc true;
          if seq =? AMDGPU_DRM_QUEUE_ERROR then mret tt
          else
            b ← load w_fbs f;
            r ← drmmode_page_flip_target_relative d (fb_handle b) 0 seq 1;
            if negb (r =? 0) then
              _ ← set_dcrtc crtc (setf scanout_status (fun s => Z.lor s DRMMODE_SCANOUT_FLIP_FAILED));
              _ ← amdgpu_drm_abort_entry seq;
              _ ← set_dcrtc crtc (fun d => d <| scanout_damage ::= fmap (fun _ => scanout_last_region d) |>
                                             <| scanout_last_region := ∅ |>);
              _ ← amdgpu_scanout_update fuel crtc;
              _ ← drmmode_crtc_scanout_destroy crtc sid;
              set_dcrtc crtc (setf tear_free (fun _ => false))
            else
              _ ← set_dcrtc crtc (fun d => d
                    <| scanout_status ::= fun s => Z.land s (Z.lnot DRMMODE_SCANOUT_FLIP_FAILED) |>
                    <| scanout_id := sid |> <| scanout_update_pending := seq |>);
              drmmode_fb_reference (SFlipPending crtc) (Some f)
      end.

(** ** Flips of the whole screen *)

(** [drmmode_flipdata_ptr flipdata = event_data] *)
Definition cookie_flip (data : cookie) : D loc :=
  match data with FlipData l => mret l | _ => raise NullDeref end.

(** [--flipdata->flip_count == 0] *)
Definition count_down (fd : loc) : D bool :=
  f ← load w_flipdata fd;
  _ ← store w_flipdata fd (f <| flip_count := flip_count f - 1 |>);
  mret (flip_count f - 1 =? 0).

(** The framebuffer of an aborted flip is given up. *)
Definition abort_release (crtc fd : loc) (crtc_id : Z) : D unit :=
  fb ← read_slot (SFlipdata fd crtc_id);
  d ← get_dcrtc crtc;
  _ ← mwhen (bool_decide (flip_pending d = fb)) (drmmode_fb_reference (SFlipPending crtc) None);
  drmmode_fb_reference (SFlipdata fd crtc_id) None.

(** The framebuffer of a flip that is done becomes that of the CRTC. *)
Definition done_release (crtc fd : loc) (crtc_id : Z) : D unit :=
  fb ← read_slot (SFlipdata fd crtc_id);
  match fb with
  | None => mret tt
  | Some _ =>
      d ← get_dcrtc crtc;
      _ ← mwhen (bool_decide (flip_pending d = fb)) (drmmode_fb_reference (SFlipPending crtc) None);
      _ ← drmmode_fb_reference (SCrtcFb crtc) fb;
      drmmode_fb_reference (SFlipdata fd crtc_id) None
  end.

Definition drmmode_flip_abort (crtc : loc) (data : cookie) : D unit :=
  fd ← cookie_flip data;
  crtc_id ← drmmode_get_crtc_id crtc;
  _ ← abort_release crtc fd crtc_id;
  last ← count_down fd;
  if last : bool then
    _ ← update w_flipdata fd (setf fe_crtc (fun o => match o with Some k => Some k | None => Some crtc end));
    f ← load w_flipdata fd;
    _ ← call_abort (fd_abort f) (fe_crtc f) (fd_event_data f);
    free w_flipdata fd
  else mret tt.

Definition drmmode_flip_handler (crtc : loc) (frame usec : Z) (data : cookie) : D unit :=
  fd ← cookie_flip data;
  crtc_id ← drmmode_get_crtc_id crtc;
  _ ← update w_flipdata fd (fun f =>
        if bool_decide (Some crtc = fe_crtc f) then f <| fe_frame := frame |> <| fe_usec := usec |> else f);
  _ ← done_release crtc fd crtc_id;
  last ← count_down fd;
  if last : bool then
    f ← load w_flipdata fd;
    _ ← match fe_crtc f with
        | Some k => call_handler (fd_handler f) k (fe_frame f) (fe_usec f) (fd_event_data f)
        | None => call_handler (fd_handler f) crtc frame usec (fd_event_data f)
        end;
    free w_flipdata fd
  else mret tt.

(** How the loop of [amdgpu_do_pageflip] leaves: at its end, or with a jump to
    one of the error labels. *)
Inductive loop_exit : Type := LoopEnd | LoopError.

(** What one iteration decides before it flips: the CRTC is only to be notified
    ([VblankOnly]), or it is to flip. *)
Inductive prepared : Type := PrepError | VblankOnly | PrepFlip (waited : bool).

(** A scanout update that is still pending is cancelled, after a wait for the
    flip of the CRTC that the caller has to end; says whether there was one. *)
Definition cancel_update (fuel : nat) (crtc : loc) : D bool :=
  d ← get_dcrtc crtc;
  if negb (scanout_update_pending d =? 0) then
    _ ← amdgpu_drm_wait_pending_flip fuel crtc;
    d' ← get_dcrtc crtc;
    _ ← amdgpu_drm_abort_entry (scanout_update_pending d');
    _ ← set_dcrtc crtc (setf scanout_update_pending (fun _ => 0));
    mret true
  else mret false.

(** The TearFree branch: the back buffer is brought up to date and becomes what
    is flipped to. *)
Definition prepare_tear_free (fuel : nat) (crtc : loc) (new_front : loc) (fd : loc) (crtc_id seq : Z)
    (async : bool) : D prepared :=
  d ← get_dcrtc crtc;
  let sid := Z.lxor (scanout_id d) 1 in
  if async then
    r ← drmmode_wait_vblank crtc (Z.lor DRM_VBLANK_RELATIVE DRM_VBLANK_EVENT) 0 seq;
    mret match r with inl _ => PrepError | inr _ => VblankOnly end
  else
    p ← load w_pixmaps new_front;
    back ← deref (scanout_at d sid);
    fb ← amdgpu_pixmap_get_fb back;
    _ ← drmmode_fb_reference (SFlipdata fd crtc_id) fb;
    match fb with
    | None => mret PrepError
    | Some _ =>
        _ ← amdgpu_scanout_do_update crtc sid new_front (Box 0 0 (s16 (pix_width p)) (s16 (pix_height p)));
        c ← load w_crtcs crtc;
        _ ← amdgpu_glamor_flush (crtc_scrn c);
        waited ← cancel_update fuel crtc;
        mret (PrepFlip waited)
    end.

(** The ioctl of one iteration. *)
Definition flip_ioctl (crtc : loc) (ref_crtc : option loc) (fd : loc)
    (crtc_id seq flip_flags sec_flip_flags target_msc : Z) : D bool :=
  fb ← read_slot (SFlipdata fd crtc_id);
  f ← deref fb;
  b ← load w_fbs f;
  d ← get_dcrtc crtc;
  r ← (if bool_decide (Some crtc = ref_crtc)
       then drmmode_page_flip_target_absolute d (fb_handle b) flip_flags seq target_msc
       else drmmode_page_flip_target_relative d (fb_handle b) sec_flip_flags seq 0);
  mret (r =? 0).

(** The loop over the CRTCs; it returns how it ended, the CRTC it was at, the
    number of the entry of the flip that failed, and [handle_deferred]. *)
Fixpoint flip_crtcs (fuel : nat) (l : list loc) (at_crtc : option loc) (deferred : bool)
    (client id : Z) (new_front fb fd : loc) (ref_crtc : option loc) (async : bool)
    (flip_flags sec_flip_flags target_msc : Z) : D (loop_exit * option loc * Z * bool) :=
  match l with
  | [] => mret (LoopEnd, at_crtc, 0, deferred)
  | crtc :: rest =>
      let next deferred' := flip_crtcs fuel rest (Some crtc) deferred' client id new_front fb fd ref_crtc
                              async flip_flags sec_flip_flags target_msc in
      let jump seq deferred' := mret (LoopError, Some crtc, seq, deferred') in
      crtc_id ← drmmode_get_crtc_id crtc;
      can ← drmmode_crtc_can_flip crtc;
      d ← get_dcrtc crtc;
      if negb can || (tear_free d && negb (bool_decide (Some crtc = ref_crtc))) then next deferred
      else
        _ ← update w_flipdata fd (setf flip_count (fun n => n + 1));
        seq ← amdgpu_drm_queue_alloc crtc client id (FlipData fd) drmmode_flip_handler_proc
                drmmode_flip_abort_proc true;
        if seq =? AMDGPU_DRM_QUEUE_ERROR then jump seq deferred
        else
          prep ← (if tear_free d then prepare_tear_free fuel crtc new_front fd crtc_id seq async
                  else _ ← drmmode_fb_reference (SFlipdata fd crtc_id) (Some fb); mret (PrepFlip false));
          match prep with
          | PrepError => jump seq deferred
          | VblankOnly => next deferred
          | PrepFlip waited =>
              let deferred := deferred || waited in
              ok ← flip_ioctl crtc ref_crtc fd crtc_id seq flip_flags sec_flip_flags target_msc;
              if negb ok then jump seq deferred
              else
                d' ← get_dcrtc crtc;
                _ ← mwhen (tear_free d')
                      (set_dcrtc crtc (fun d => d <| scanout_id ::= fun i => Z.lxor i 1 |>
                                                  <| ignore_damage := true |>));
                v ← read_slot (SFlipdata fd crtc_id);
                _ ← drmmode_fb_reference (SFlipPending crtc) v;
                next deferred
          end
  end.

(** [ref_crtc] is dereferenced when the wait is ended. *)
Definition end_deferred (fuel : nat) (deferred : bool) (ref_crtc : option loc) : D unit :=
  mwhen deferred (r ← deref ref_crtc; amdgpu_drm_queue_handle_deferred fuel r).

Definition amdgpu_do_pageflip (fuel : nat) (scrn : loc) (client : Z) (new_front : loc) (id : Z)
    (data : cookie) (ref_crtc : option loc) (handler : handler_proc) (abort : abort_proc)
    (async : bool) (target_msc : Z) : D bool :=
  info ← load w_scrns scrn;
  first ← some_or OutOfBounds (head (crtcs info));
  _ ← load w_crtcs first;
  let flip_flags := if async then DRM_MODE_PAGE_FLIP_ASYNC else 0 in
  let sec_flip_flags := if can_async_flip info && async_flip_secondaries info
                        then Z.lor flip_flags DRM_MODE_PAGE_FLIP_ASYNC else flip_flags in
  ok ← call (Calloc "drmmode_flipdata");
  if negb ok then _ ← call_abort abort None data; mret false
  else
    fd ← new w_flipdata (Flipdata data 0 0 0 ref_crtc handler abort
                           (replicate (Z.to_nat (count_crtcs info)) None));
    fb ← amdgpu_pixmap_get_fb new_front;
    match fb with
    | None => _ ← call_abort abort None data; _ ← free w_flipdata fd; mret false
    | Some f =>
        t ← flip_crtcs fuel (crtcs info) None false client id new_front f fd ref_crtc async
              flip_flags sec_flip_flags target_msc;
        let '(how, at_crtc, seq, deferred) := t in
        let error :=
          _ ← (if negb (seq =? 0) then amdgpu_drm_abort_entry seq
               else match at_crtc with
                    | Some crtc => drmmode_flip_abort crtc (FlipData fd)
                    | None => _ ← call_abort abort None data; free w_flipdata fd
                    end);
          _ ← end_deferred fuel deferred ref_crtc;
          mret false in
        match how with
        | LoopError => error
        | LoopEnd =>
            _ ← end_deferred fuel deferred ref_crtc;
            x ← load w_flipdata fd;
            if flip_count x >? 0 then mret true else error
        end
    end.
End Code.

(** ** Every wait is ended *)
Section Safe.
Context `{env : Env} `{srv : XServer} `{safe : CallbacksSafe} `{rsafe : RotatorSafe}.

Lemma page_flip_absolute_keeps d fb flags seq t : keeps (drmmode_page_flip_target_absolute d fb flags seq t).
Proof. unfold drmmode_page_flip_target_absolute, drmmode_page_flip. keeps_auto. Qed.
Lemma page_flip_relative_keeps d fb flags seq t : keeps (drmmode_page_flip_target_relative d fb flags seq t).
Proof. unfold drmmode_page_flip_target_relative, drmmode_page_flip. keeps_auto. Qed.
#[local] Hint Resolve page_flip_absolute_keeps page_flip_relative_keeps : keeps.
Lemma scanout_flip_abort_keeps crtc data : keeps (amdgpu_scanout_flip_abort crtc data).
Proof. unfold amdgpu_scanout_flip_abort. keeps_auto. Qed.
#[local] Hint Resolve scanout_flip_abort_keeps : keeps.
Lemma scanout_flip_handler_keeps crtc msc usec data : keeps (amdgpu_scanout_flip_handler crtc msc usec data).
Proof. unfold amdgpu_scanout_flip_handler. keeps_auto. Qed.
Lemma cookie_crtc_keeps data : keeps (cookie_crtc data).
Proof. unfold cookie_crtc. keeps_auto. Qed.
Lemma cookie_flip_keeps data : keeps (cookie_flip data).
Proof. unfold cookie_flip. keeps_auto. Qed.
#[local] Hint Resolve cookie_crtc_keeps cookie_flip_keeps : keeps.
Lemma scanout_update_abort_keeps data : keeps (amdgpu_scanout_update_abort data).
Proof. unfold amdgpu_scanout_update_abort. keeps_auto. Qed.
#[local] Hint Resolve scanout_update_abort_keeps : keeps.
Lemma scanout_update_handler_keeps crtc frame usec data : keeps (amdgpu_scanout_update_handler crtc frame usec data).
Proof. unfold amdgpu_scanout_update_handler. keeps_auto. Qed.
#[local] Hint Resolve scanout_update_handler_keeps : keeps.

(** Raising the level by hand and ending the wait. *)
Lemma keeps_raised crtc {B} (k : unit -> D B) :
  (forall u, ends crtc (k u)) ->
  keeps (mbind k (set_dcrtc crtc (setf wait_flip_nesting_level (fun n => n + 1)))).
Proof.
  intros Hk w Hw. apply pwp_bind, pwp_update. intros c Hc.
  assert (Hn : nest_of w crtc = Some (wait_flip_nesting_level (driver_private c)))
    by (unfold nest_of; by rewrite Hc).
  pose proof (qw_nesting _ Hw _ _ Hn).
  set (n := wait_flip_nesting_level (driver_private c)) in *. set (w1 := setf w_crtcs _ w).
  assert (Hs : shifted crtc 1 w w1)
    by (apply (set_nesting_shifted w crtc c (n + 1)); [done | done | done | lia | apply Forall_forall; intros; lia]).
  eapply pwp_mono; [apply Hk, Hs |]. intros b w2 H2. exact (shifted_back _ _ _ _ Hw Hs H2).
Qed.

Lemma deliver_now_keeps fuel crtc seq : keeps (deliver_now fuel crtc seq).
Proof.
  unfold deliver_now. do 2 (apply keeps_bind; [keeps_auto |]; intros _).
  apply keeps_raised. intros _. apply ends_deferred.
Qed.
Lemma vblank_works_keeps sw fuel crtc : keeps (vblank_works sw fuel crtc).
Proof. unfold vblank_works. keeps_auto. Qed.
#[local] Hint Resolve deliver_now_keeps vblank_works_keeps : keeps.
Lemma kms_scanout_update_keeps sw fuel crtc : keeps (amdgpu_scanout_update sw fuel crtc).
Proof. unfold amdgpu_scanout_update. keeps_auto. Qed.
#[local] Hint Resolve kms_scanout_update_keeps : keeps.
Lemma scanout_flip_keeps sw fuel crtc : keeps (amdgpu_scanout_flip sw fuel crtc).
Proof. unfold amdgpu_scanout_flip. keeps_auto. Qed.

Lemma count_down_keeps fd : keeps (count_down fd).
Proof. unfold count_down. keeps_auto. Qed.
#[local] Hint Resolve count_down_keeps read_slot_keeps : keeps.
Lemma flip_abort_keeps crtc data : keeps (drmmode_flip_abort crtc data).
Proof.
  pose proof abort_safe. unfold drmmode_flip_abort, abort_release, drmmode_get_crtc_id. keeps_auto.
Qed.
Lemma flip_handler_keeps crtc frame usec data : keeps (drmmode_flip_handler crtc frame usec data).
Proof.
  pose proof handler_safe. unfold drmmode_flip_handler, done_release, drmmode_get_crtc_id. keeps_auto.
Qed.
End Safe.

(** ** A flip completes once

    The kernel reports, for every CRTC a flip was queued on, that it is done; or
    the request is aborted.  These completions come in any order. *)
Inductive completion : Type :=
| FlipDone (frame usec : Z)
| FlipAborted.

Section Completion.
Context `{env : Env} `{callbacks : Callbacks}.

Definition complete (fd : loc) (k : loc * completion) : D unit :=
  match k.2 with
  | FlipDone frame usec => drmmode_flip_handler k.1 frame usec (FlipData fd)
  | FlipAborted => drmmode_flip_abort k.1 (FlipData fd)
  end.

Definition hw_of (w : world) (crtc : loc) : option Z := (hw_id ∘ driver_private) <$> w_crtcs w !! crtc.

(** The frame and time of the reference CRTC, once it has completed. *)
Definition note_ref (f : drmmode_flipdata) (k : loc * completion) : drmmode_flipdata :=
  match k.2 with
  | FlipDone frame usec =>
      if bool_decide (Some k.1 = fe_crtc f) then f <| fe_frame := frame |> <| fe_usec := usec |> else f
  | FlipAborted => f
  end.

(** The call that reports the whole flip, made when its last CRTC completes. *)
Definition report (f : drmmode_flipdata) (k : loc * completion) : D unit :=
  match k.2 with
  | FlipDone frame usec =>
      match fe_crtc f with
      | Some r => call_handler (fd_handler f) r (fe_frame f) (fe_usec f) (fd_event_data f)
      | None => call_handler (fd_handler f) k.1 frame usec (fd_event_data f)
      end
  | FlipAborted =>
      call_abort (fd_abort f) (Some (default k.1 (fe_crtc f))) (fd_event_data f)
  end.

Lemma effect_hw s old n w c : hw_of (fb_reference_effect s old n w) c = hw_of w c.
Proof.
  unfold fb_reference_effect, hw_of. destruct s; unfold slot_set, setf; cbn; try done;
    (destruct (decide (c = crtc)) as [->|Hne];
     [rewrite lookup_alter_eq; by destruct (w_crtcs w !! crtc) | by rewrite lookup_alter_ne]).
Qed.

Lemma effect_flipdata s old n w :
  w_flipdata (fb_reference_effect s old n w)
  = match s with
    | SFlipdata fd idx => alter (setf fd_fb <[Z.to_nat idx := n]>) fd (w_flipdata w)
    | _ => w_flipdata w
    end.
Proof. by destruct s. Qed.

(** The slots of a CRTC are touched by its own completion only. *)
Lemma effect_other_slot s old n w s' :
  match s, s' with
  | SCrtcFb a, SCrtcFb b | SFlipPending a, SFlipPending b => a <> b
  | SFlipdata _ _, SFlipdata _ _ | SPriv _, SPriv _ => False
  | _, _ => True
  end -> slot_get (fb_reference_effect s old n w) s' = slot_get w s'.
Proof.
  destruct s, s'; unfold fb_reference_effect, slot_set, slot_get, setf; cbn; intros Hne; try done;
    (destruct (decide (crtc0 = crtc)) as [->|Hc];
     [try done; rewrite lookup_alter_eq; by destruct (w_crtcs w !! crtc) | by rewrite lookup_alter_ne]).
Qed.

(** A flip in progress: the flip data with its count and the slots that are left,
    each of a CRTC that is still to complete. *)
Record flipping (fd : loc) (f : drmmode_flipdata) (todo : list loc) (w : world) : Prop := {
  fl_inv : fb_inv w;
  fl_data : w_flipdata w !! fd = Some f;
  fl_count : flip_count f = Z.of_nat (length todo);
  fl_hw : exists ids, mapM (hw_of w) todo = Some ids /\ NoDup ids /\
    Forall (fun i => 0 <= i < Z.of_nat (length (fd_fb f))) ids /\
    forall i, fd_fb f !! i <> Some None -> is_Some (fd_fb f !! i) -> Z.of_nat i ∈ ids
}.

(** What a completion does before it counts down. *)
Definition release_flip (fd : loc) (k : loc * completion) (crtc_id : Z) : D unit :=
  match k.2 with
  | FlipDone _ _ => done_release k.1 fd crtc_id
  | FlipAborted => abort_release k.1 fd crtc_id
  end.

(** After it: the slot of the flip data is empty; a CRTC that flipped shows the
    framebuffer that was there; the others are as before. *)
Record released (fd : loc) (f : drmmode_flipdata) (k : loc * completion) (crtc_id : Z) (v : option loc)
    (w w' : world) : Prop := {
  rl_inv : fb_inv w';
  rl_data : w_flipdata w' !! fd = Some (f <| fd_fb ::= <[Z.to_nat crtc_id := None]> |>);
  rl_hw : forall c, hw_of w' c = hw_of w c;
  rl_fb : forall x, v = Some x -> k.2 <> FlipAborted -> slot_get w' (SCrtcFb k.1) = Some (Some x);
  rl_other : forall c, c <> k.1 -> slot_get w' (SCrtcFb c) = slot_get w (SCrtcFb c);
  rl_queue : w_queue w' = w_queue w
}.

Lemma effect_queue s old n w : w_queue (fb_reference_effect s old n w) = w_queue w.
Proof. by destruct s. Qed.

(** Dropping [flip_pending] if it is the framebuffer of this flip. *)
Lemma wp_drop_pending crtc c v (Q : unit -> world -> Prop) w :
  fb_inv w -> w_crtcs w !! crtc = Some c ->
  (forall w', fb_inv w' -> (forall k, hw_of w' k = hw_of w k) -> w_flipdata w' = w_flipdata w ->
     (forall k, slot_get w' (SCrtcFb k) = slot_get w (SCrtcFb k)) -> w_queue w' = w_queue w ->
     Q tt w') ->
  wp (d ← get_dcrtc crtc; mwhen (bool_decide (flip_pending d = v)) (drmmode_fb_reference (SFlipPending crtc) None)) Q w.
Proof.
  intros Hinv Hc HQ. apply wp_bind, (wp_get_dcrtc _ c); [done |].
  apply wp_mwhen; intros _; [| by apply HQ].
  eapply (wp_fb_reference_inv (fun _ => 0)); [exact Hinv | done | | done |].
  - cbn. by rewrite Hc.
  - intros Hinv'. apply HQ; [done | intros; apply effect_hw | by rewrite effect_flipdata | | apply effect_queue].
    intros k. by apply effect_other_slot.
Qed.

Lemma wp_clear_slot fd f id v (Q : unit -> world -> Prop) w :
  fb_inv w -> w_flipdata w !! fd = Some f -> 0 <= id -> fd_fb f !! Z.to_nat id = Some v ->
  (forall w', fb_inv w' -> (forall k, hw_of w' k = hw_of w k) ->
     w_flipdata w' !! fd = Some (f <| fd_fb ::= <[Z.to_nat id := None]> |>) ->
     (forall k, slot_get w' (SCrtcFb k) = slot_get w (SCrtcFb k)) -> w_queue w' = w_queue w -> Q tt w') ->
  wp (drmmode_fb_reference (SFlipdata fd id) None) Q w.
Proof.
  intros Hinv Hf Hid Hv HQ.
  eapply (wp_fb_reference_inv (fun _ => 0)); [exact Hinv | done | | done |].
  - cbn. rewrite Hf. cbn. destruct (Z.ltb_spec id 0); [lia | exact Hv].
  - intros Hinv'. apply HQ; [done | intros; apply effect_hw | | | apply effect_queue].
    + rewrite effect_flipdata, lookup_alter_eq, Hf. done.
    + intros k. by apply effect_other_slot.
Qed.

Lemma hw_of_Some w crtc id : hw_of w crtc = Some id ->
  exists c, w_crtcs w !! crtc = Some c /\ hw_id (driver_private c) = id.
Proof. unfold hw_of. destruct (w_crtcs w !! crtc) as [c|]; [| done]. intros [= <-]. eauto. Qed.

Lemma wp_release_flip fd f k id v (Q : unit -> world -> Prop) w :
  fb_inv w -> w_flipdata w !! fd = Some f -> hw_of w k.1 = Some id -> 0 <= id ->
  fd_fb f !! Z.to_nat id = Some v ->
  (forall w', released fd f k id v w w' -> Q tt w') -> wp (release_flip fd k id) Q w.
Proof.
  intros Hinv Hf Hhw Hid Hv HQ. destruct (hw_of_Some _ _ _ Hhw) as (c & Hc & _).
  assert (Hread : slot_get w (SFlipdata fd id) = Some v).
  { cbn. rewrite Hf. cbn. destruct (Z.ltb_spec id 0); [lia | done]. }
  unfold release_flip, done_release, abort_release. destruct (k.2) as [frame usec|] eqn:Hk.
  - apply wp_bind, (wp_read_slot _ v); [done |]. destruct v as [x|]; cycle 1.
    { apply wp_ret, HQ. split; try done. rewrite Hf. f_equal. destruct f. unfold setf. cbn in *.
      by rewrite list_insert_id. }
    apply wp_assoc.
    eapply (wp_drop_pending _ c); [done | done |]. intros w1 Hinv1 Hhw1 Hfd1 Hsl1 Hq1.
    assert (Hf1 : w_flipdata w1 !! fd = Some f) by (by rewrite Hfd1).
    destruct (hw_of_Some w1 k.1 id) as (c1 & Hc1 & _); [by rewrite Hhw1 |].
    apply wp_bind. eapply (wp_fb_reference_inv (fun _ => 0) _ (crtc_fb (driver_private c1)));
      [exact Hinv1 | done | cbn; by rewrite Hc1 | |].
    { intros n [= <-]. destruct (fb_inv_slot_live (fun _ => 0) w1 (SFlipdata fd id) x) as (b & Hb & _);
        [exact Hinv1 | done | | by eexists]. cbn. rewrite Hf1. cbn. by destruct (Z.ltb_spec id 0); [lia |]. }
    intros Hinv2. set (w2 := fb_reference_effect _ _ _ w1) in *.
    apply (wp_clear_slot fd f id (Some x)); [done | unfold w2; by rewrite effect_flipdata | done | done |].
    intros w3 Hinv3 Hhw3 Hfd3 Hsl3 Hq3. apply HQ. split.
    + done.
    + done.
    + intros k'. rewrite Hhw3. unfold w2. by rewrite effect_hw, Hhw1.
    + intros y [= <-] _. rewrite Hsl3. apply (slot_get_set (SCrtcFb k.1) (crtc_fb (driver_private c1))).
      rewrite (slot_get_frame w1) by done. cbn. by rewrite Hc1.
    + intros k' Hne. rewrite Hsl3. unfold w2. rewrite effect_other_slot, Hsl1; [done | cbn; congruence].
    + rewrite Hq3. unfold w2. by rewrite effect_queue.
  - apply wp_bind, (wp_read_slot _ v); [done |]. apply wp_assoc.
    eapply (wp_drop_pending _ c); [done | done |]. intros w1 Hinv1 Hhw1 Hfd1 Hsl1 Hq1.
    apply (wp_clear_slot fd f id v); [done | by rewrite Hfd1 | done | done |].
    intros w3 Hinv3 Hhw3 Hfd3 Hsl3 Hq3. apply HQ. split.
    + done.
    + done.
    + intros k'. by rewrite Hhw3, Hhw1.
    + by rewrite Hk.
    + intros k' _. by rewrite Hsl3, Hsl1.
    + by rewrite Hq3.
Qed.

(** Changing the flip data, but not its slots. *)
Lemma fb_inv_flipdata w fd g g' :
  fb_inv w -> w_flipdata w !! fd = Some g -> fd_fb g' = fd_fb g ->
  fb_inv (w <| w_flipdata ::= <[fd := g']> |>).
Proof.
  intros [Hi Hb] Hg Heq. split; [| done]. intros l. specialize (Hi l).
  assert (Hr : fb_refs (w <| w_flipdata ::= <[fd := g']> |>) l = fb_refs w l).
  { unfold fb_refs, setf. cbn. rewrite (msum_insert _ _ _ _ _ Hg). unfold flip_refs. rewrite Heq. lia. }
  by rewrite Hr.
Qed.

(** The flip data after a completion. *)
Definition completed (f : drmmode_flipdata) (k : loc * completion) (id : Z) : drmmode_flipdata :=
  note_ref f k <| fd_fb ::= <[Z.to_nat id := None]> |> <| flip_count := flip_count (note_ref f k) - 1 |>.

Lemma note_ref_same f k :
  fd_fb (note_ref f k) = fd_fb f /\ flip_count (note_ref f k) = flip_count f /\
  fe_crtc (note_ref f k) = fe_crtc f.
Proof. unfold note_ref. destruct (k.2); [by case_bool_decide | done]. Qed.

(** The flip after one of its CRTCs has completed. *)
Lemma flipping_next fd f k id ids todo w w' v :
  flipping fd f (k.1 :: todo) w -> mapM (hw_of w) (k.1 :: todo) = Some (id :: ids) ->
  released fd (note_ref f k) k id v w w' ->
  flipping fd (completed f k id) todo (w' <| w_flipdata ::= <[fd := completed f k id]> |>).
Proof.
  intros Hfl Hids Hrl. destruct (note_ref_same f k) as (Hfb & Hcnt & _). destruct Hfl as [_ _ Hc Hh].
  destruct Hh as (ids' & Hm & Hnd & Hall & Hslot). rewrite Hids in Hm. injection Hm as <-.
  split.
  - eapply fb_inv_flipdata; [apply Hrl | apply Hrl | done].
  - apply lookup_insert_eq.
  - cbn. rewrite Hcnt, Hc. cbn [length]. lia.
  - exists ids. apply NoDup_cons in Hnd as [Hni Hnd]. apply Forall_cons in Hall as [Hid Hall]. split_and!.
    + cbn [mapM] in Hids. destruct (hw_of w k.1); [| done]. cbn in Hids.
      destruct (mapM (hw_of w) todo) as [l|] eqn:Hl; [| done]. injection Hids as <- <-. rewrite <- Hl.
      apply mapM_ext. intros c. apply (rl_hw _ _ _ _ _ _ _ Hrl).
    + done.
    + cbn. rewrite Hfb. by rewrite length_insert.
    + cbn. rewrite Hfb. intros i Hi1 Hi2. destruct (decide (i = Z.to_nat id)) as [->|Hne].
      { apply lookup_lt_is_Some in Hi2. rewrite length_insert in Hi2.
        by rewrite list_lookup_insert_eq in Hi1. }
      rewrite list_lookup_insert_ne in Hi1, Hi2 by congruence.
      specialize (Hslot i Hi1 Hi2). apply elem_of_cons in Hslot as [Heq|?]; [lia | done].
Qed.

Lemma wp_count_down fd g (Q : bool -> world -> Prop) w :
  w_flipdata w !! fd = Some g ->
  Q (flip_count g - 1 =? 0) (w <| w_flipdata ::= <[fd := g <| flip_count := flip_count g - 1 |>]> |>) ->
  wp (count_down fd) Q w.
Proof. intros Hg HQ. by apply wp_bind, (wp_load _ _ g). Qed.

(** One completion: it gives up the framebuffer, then counts down; the last one
    reports the flip and frees the flip data. *)
Lemma wp_complete fd f k id ids todo v (Q : unit -> world -> Prop) w :
  flipping fd f (k.1 :: todo) w -> mapM (hw_of w) (k.1 :: todo) = Some (id :: ids) ->
  fd_fb f !! Z.to_nat id = Some v ->
  (forall w', released fd (note_ref f k) k id v w w' ->
     if (Z.of_nat (length todo) =? 0) then
       forall f', fd_fb f' = fd_fb (completed f k id) -> flip_count f' = flip_count (completed f k id) ->
         wp (_ ← report (completed f k id) k; free w_flipdata fd) Q (w' <| w_flipdata ::= <[fd := f']> |>)
     else Q tt (w' <| w_flipdata ::= <[fd := completed f k id]> |>)) ->
  wp (complete fd k) Q w.
Proof.
  intros Hfl Hids Hv HQ. destruct Hfl as [Hinv Hf Hc Hh].
  assert (Hhw : hw_of w k.1 = Some id).
  { cbn [mapM] in Hids. destruct (hw_of w k.1); [| done]. cbn in Hids.
    destruct (mapM (hw_of w) todo); [| done]. by injection Hids as <- _. }
  assert (Hid : 0 <= id) by (destruct Hh as (? & Hm & _ & Hall & _); rewrite Hids in Hm;
    injection Hm as <-; apply Forall_cons in Hall as [? _]; lia).
  destruct (hw_of_Some _ _ _ Hhw) as (c & Hcr & Heq). destruct (note_ref_same f k) as (Hfb & Hcnt & Hfe).
  assert (Hlast : forall b, b = (flip_count (note_ref f k) - 1 =? 0) -> b = (Z.of_nat (length todo) =? 0)).
  { intros b ->. rewrite Hcnt, Hc. cbn [length]. f_equal. lia. }
  unfold complete. destruct k as [crtc [frame usec|]]; cbn [fst snd] in *.
  - apply wp_bind, wp_ret, wp_bind, wp_bind, (wp_get_dcrtc _ c); [done |]. apply wp_ret. rewrite Heq.
    apply wp_bind, (wp_update _ _ f); [done |].
    set (w1 := setf w_flipdata _ w). set (g := note_ref f (crtc, FlipDone frame usec)) in *.
    assert (Hg : w_flipdata w1 !! fd = Some g) by apply lookup_insert_eq.
    apply wp_bind, (wp_release_flip fd g (crtc, FlipDone frame usec) id v); [| done | done | done | by rewrite Hfb |].
    { by apply (fb_inv_flipdata w fd f g). }
    intros w2 Hrl. assert (Hrl' : released fd g (crtc, FlipDone frame usec) id v w w2) by (by destruct Hrl).
    specialize (HQ w2 Hrl'). apply wp_bind, (wp_count_down _ _ _ _ (rl_data _ _ _ _ _ _ _ Hrl)).
    change (flip_count (setf fd_fb _ g)) with (flip_count g). rewrite (Hlast _ eq_refl).
    destruct (_ =? 0); [| apply wp_ret, HQ]. eapply wp_bind, wp_load; [apply lookup_insert_eq |].
    specialize (HQ _ eq_refl eq_refl). exact HQ.
  - apply wp_bind, wp_ret, wp_bind, wp_bind, (wp_get_dcrtc _ c); [done |]. apply wp_ret. rewrite Heq.
    apply wp_bind, (wp_release_flip fd f (crtc, FlipAborted) id v); [done.. |].
    intros w2 Hrl. specialize (HQ w2 Hrl). apply wp_bind, (wp_count_down _ _ _ _ (rl_data _ _ _ _ _ _ _ Hrl)).
    change (flip_count (setf fd_fb _ f)) with (flip_count (note_ref f (crtc, FlipAborted))).
    rewrite (Hlast _ eq_refl).
    destruct (_ =? 0); [| apply wp_ret, HQ]. eapply wp_bind, wp_update; [apply lookup_insert_eq |].
    eapply wp_bind, wp_load; [apply lookup_insert_eq |].
    set (f2 := completed f (crtc, FlipAborted) id
      <| fe_crtc := match fe_crtc f with Some k => Some k | None => Some crtc end |>).
    specialize (HQ f2 eq_refl eq_refl). revert HQ. unfold report. cbn [snd fst].
    match goal with |- wp _ _ ?u -> wp _ _ ?u' => replace u' with u;
      [| unfold setf; cbn; by rewrite insert_insert_eq] end.
    cbn. by destruct (fe_crtc f).
Qed.

(** The same report is made of both. *)
Definition reports_as (f f' : drmmode_flipdata) : Prop :=
  fe_crtc f = fe_crtc f' /\ fe_frame f = fe_frame f' /\ fe_usec f = fe_usec f' /\
  fd_handler f = fd_handler f' /\ fd_abort f = fd_abort f' /\ fd_event_data f = fd_event_data f'.

Lemma reports_as_report f f' k : reports_as f f' -> report f k = report f' k.
Proof. intros (H1 & H2 & H3 & H4 & H5 & H6). unfold report. by rewrite H1, H2, H3, H4, H5, H6. Qed.
Lemma reports_as_note f f' k : reports_as f f' -> reports_as (note_ref f k) (note_ref f' k).
Proof.
  intros (H1 & H2 & H3 & H4 & H5 & H6). unfold reports_as, note_ref. rewrite H1.
  destruct (k.2); [case_bool_decide |]; cbn; done.
Qed.
Lemma reports_as_fold ks f f' : reports_as f f' -> reports_as (foldl note_ref f ks) (foldl note_ref f' ks).
Proof.
  revert f f'. induction ks as [|k ks IH]; intros f f' Hf; [done |]. by apply IH, reports_as_note.
Qed.

(** A flip all of whose CRTCs have completed. *)
Record flipped (fd : loc) (f : drmmode_flipdata) (ks : list (loc * completion)) (w w' : world) : Prop := {
  fp_inv : fb_inv w';
  fp_data : exists f', w_flipdata w' !! fd = Some f' /\ flip_count f' = 0 /\ Forall (eq None) (fd_fb f');
  fp_fb : forall k id x, k ∈ ks -> k.2 <> FlipAborted -> hw_of w k.1 = Some id ->
    fd_fb f !! Z.to_nat id = Some (Some x) -> slot_get w' (SCrtcFb k.1) = Some (Some x);
  fp_other : forall c, c ∉ ks.*1 -> slot_get w' (SCrtcFb c) = slot_get w (SCrtcFb c)
}.

Lemma flipping_first fd f c todo w :
  flipping fd f (c :: todo) w ->
  exists id ids v, mapM (hw_of w) (c :: todo) = Some (id :: ids) /\ hw_of w c = Some id /\
    fd_fb f !! Z.to_nat id = Some v /\ 0 <= id /\ (id ∉ ids) /\ (c ∉ todo).
Proof.
  intros [_ _ _ (ids & Hm & Hnd & Hall & _)]. pose proof Hm as Hm'. cbn [mapM] in Hm'.
  destruct (hw_of w c) as [id|] eqn:Hc; [| done]. cbn in Hm'.
  destruct (mapM (hw_of w) todo) as [ids'|] eqn:Ht; [| done]. injection Hm' as <-.
  apply Forall_cons in Hall as [Hid _]. apply NoDup_cons in Hnd as [Hni _].
  destruct (lookup_lt_is_Some_2 (fd_fb f) (Z.to_nat id)) as [v Hv]; [lia |].
  exists id, ids', v. split_and!; try done; [lia |]. intros Hin. apply Hni.
  apply mapM_Some in Ht. apply list_elem_of_lookup in Hin as [i Hi].
  destruct (Forall2_lookup_l _ _ _ _ _ Ht Hi) as (y & Hy & Hhw). rewrite Hc in Hhw. injection Hhw as ->.
  by eapply list_elem_of_lookup_2.
Qed.

(** The flipped state seen from before the first completion. *)
Lemma flipped_cons fd f k id v ks w w1 w' :
  released fd (note_ref f k) k id v w w1 -> hw_of w k.1 = Some id -> 0 <= id -> (k.1 ∉ ks.*1) ->
  fd_fb f !! Z.to_nat id = Some v -> (forall c, c ∈ ks.*1 -> exists i, hw_of w c = Some i /\ 0 <= i /\ i <> id) ->
  flipped fd (completed f k id) ks (w1 <| w_flipdata ::= <[fd := completed f k id]> |>) w' ->
  flipped fd f (k :: ks) w w'.
Proof.
  intros Hrl Hhw Hid Hni Hv Hids Hfp. destruct (note_ref_same f k) as (Hfb & _ & _). split.
  - apply Hfp.
  - apply Hfp.
  - intros k' id' x Hk' Hd Hhw' Hx. apply elem_of_cons in Hk' as [->|Hk'].
    + rewrite Hhw in Hhw'. injection Hhw' as <-. rewrite Hv in Hx. injection Hx as ->.
      rewrite (fp_other _ _ _ _ _ Hfp) by done. by apply (rl_fb _ _ _ _ _ _ _ Hrl).
    + eapply (fp_fb _ _ _ _ _ Hfp); [done | done | |].
      * etrans; [apply (rl_hw _ _ _ _ _ _ _ Hrl) | exact Hhw'].
      * destruct (Hids k'.1) as (i & Hi & Hi0 & Hne); [apply list_elem_of_fmap; eauto |].
        rewrite Hhw' in Hi. injection Hi as ->. cbn. rewrite Hfb.
        rewrite list_lookup_insert_ne by lia. done.
  - intros c Hc. rewrite fmap_cons, not_elem_of_cons in Hc. destruct Hc as [Hne Hc].
    rewrite (fp_other _ _ _ _ _ Hfp) by done. by apply (rl_other _ _ _ _ _ _ _ Hrl).
Qed.

Lemma flipping_nil fd f w : flipping fd f [] w -> flip_count f = 0 /\ Forall (eq None) (fd_fb f).
Proof.
  intros [_ _ Hc (ids & Hm & _ & _ & Hslot)]. injection Hm as <-. split; [done |].
  apply Forall_lookup. intros i x Hx. destruct x as [l|]; [| done]. exfalso.
  specialize (Hslot i). rewrite Hx in Hslot. by apply not_elem_of_nil in Hslot; [| | eexists].
Qed.

Lemma flipped_nil fd g f' w :
  flipping fd g [] (w <| w_flipdata ::= <[fd := g]> |>) -> fd_fb f' = fd_fb g -> flip_count f' = flip_count g ->
  flipped fd g [] (w <| w_flipdata ::= <[fd := g]> |>) (w <| w_flipdata ::= <[fd := f']> |>).
Proof.
  intros Hfl Hfb Hcnt. destruct (flipping_nil _ _ _ Hfl) as [H0 Hnone]. split.
  - assert (Heq : w <| w_flipdata ::= <[fd := f']> |>
      = w <| w_flipdata ::= <[fd := g]> |> <| w_flipdata ::= <[fd := f']> |>)
      by (unfold setf; cbn; by rewrite insert_insert_eq).
    rewrite Heq. eapply fb_inv_flipdata; [apply Hfl | apply lookup_insert_eq | done].
  - exists f'. split; [apply lookup_insert_eq |]. by rewrite Hfb, Hcnt.
  - by intros k id x ?%not_elem_of_nil.
  - done.
Qed.

Lemma completed_reports f k id : reports_as (completed f k id) (note_ref f k).
Proof. done. Qed.

Lemma flipping_ids fd f c todo id ids w :
  flipping fd f (c :: todo) w -> mapM (hw_of w) (c :: todo) = Some (id :: ids) -> (id ∉ ids) ->
  forall c', c' ∈ todo -> exists i, hw_of w c' = Some i /\ 0 <= i /\ i <> id.
Proof.
  intros [_ _ _ (ids' & Hm & _ & Hall & _)] Hids Hni c' Hc'. rewrite Hids in Hm. injection Hm as <-.
  apply mapM_Some in Hids. apply Forall2_cons in Hids as [_ Hids].
  apply list_elem_of_lookup in Hc' as [i Hi].
  destruct (Forall2_lookup_l _ _ _ _ _ Hids Hi) as (y & Hy & Hhw). apply Forall_cons in Hall as [_ Hall].
  exists y. split; [done |]. apply list_elem_of_lookup_2 in Hy.
  rewrite Forall_forall in Hall. specialize (Hall y Hy). split; [lia |]. intros ->. done.
Qed.

(** C3. Whatever the order in which the CRTCs of a page flip complete or are
    aborted, the flip is reported exactly once, by its last completion, with the
    frame and time of the reference CRTC if there is one; by then every CRTC that
    flipped shows the new framebuffer, the flip holds no framebuffer any more, all
    counts are right, and the flip data is freed after the report. *)
Theorem flip_completes fd f ks last (Q : unit -> world -> Prop) w :
  flipping fd f (ks ++ [last]).*1 w ->
  (forall w', flipped fd f (ks ++ [last]) w w' ->
     wp (_ ← report (foldl note_ref f (ks ++ [last])) last; free w_flipdata fd) Q w') ->
  wp (mfor (ks ++ [last]) (complete fd)) Q w.
Proof.
  revert f w. induction ks as [|k ks IH]; intros f w Hfl HQ.
  - destruct (flipping_first _ _ _ _ _ Hfl) as (id & ids & v & Hm & Hhw & Hv & Hid & _ & _).
    apply wp_bind, (wp_complete fd f last id ids [] v); [done | done | done |].
    intros w1 Hrl. change (Z.of_nat (length []) =? 0) with true. intros f' Hfb Hcnt.
    pose proof (flipping_next _ _ _ _ _ _ _ _ _ Hfl Hm Hrl) as Hfl'.
    pose proof (flipped_nil _ _ f' _ Hfl' Hfb Hcnt) as Hnil.
    assert (Hfp := flipped_cons _ _ _ _ _ [] _ _ _ Hrl Hhw Hid (not_elem_of_nil _) Hv
      (fun c Hc => False_ind _ (not_elem_of_nil c Hc)) Hnil).
    rewrite (reports_as_report _ _ _ (completed_reports f last id)).
    eapply wp_mono; [exact (HQ _ Hfp) |]. by intros [].
  - cbn [app fmap list_fmap] in Hfl.
    destruct (flipping_first _ _ _ _ _ Hfl) as (id & ids & v & Hm & Hhw & Hv & Hid & Hni & Hnk).
    apply wp_bind, (wp_complete fd f k id ids (ks ++ [last]).*1 v); [done | done | done |].
    intros w1 Hrl. rewrite length_fmap, length_app.
    destruct (Z.eqb_spec (Z.of_nat (length ks + length [last])) 0); [cbn in *; lia |].
    pose proof (flipping_next _ _ _ _ _ _ _ _ _ Hfl Hm Hrl) as Hfl'. apply (IH _ _ Hfl').
    intros w' Hfp. rewrite (reports_as_report (foldl note_ref (completed f k id) (ks ++ [last]))
      (foldl note_ref f (k :: ks ++ [last])) last).
    + apply HQ. eapply flipped_cons; [exact Hrl | done | done | done | done | | exact Hfp].
      exact (flipping_ids _ _ _ _ _ _ _ Hfl Hm Hni).
    + apply (reports_as_fold (ks ++ [last])), completed_reports.
Qed.
End Completion.

(** ** A flip with nothing to flip *)
Section Nothing.
Context `{env : Env} `{srv : XServer} `{callbacks : Callbacks} `{rot : Rotator}.

Definition cannot_flip (c : xf86Crtc) : Prop :=
  enabled c = false \/ dpms_mode (driver_private c) <> DPMSModeOn \/ is_Some (rotate (driver_private c)).

Lemma wp_cannot_flip crtc c (Q : bool -> world -> Prop) w :
  w_crtcs w !! crtc = Some c -> cannot_flip c -> Q false w -> wp (drmmode_crtc_can_flip crtc) Q w.
Proof.
  intros Hc Hno HQ. apply wp_bind, (wp_load _ _ c); [done |]. apply wp_ret.
  destruct Hno as [-> | [Hd | [x ->]]]; [done | |]; rewrite ?andb_false_r; [| done].
  apply Z.eqb_neq in Hd. rewrite Hd, andb_false_r. done.
Qed.

Lemma wp_flip_crtcs_none fuel l at_crtc client id front fb fd ref async ff sf target
    (Q : loop_exit * option loc * Z * bool -> world -> Prop) w :
  (forall crtc, crtc ∈ l -> exists c, w_crtcs w !! crtc = Some c /\ cannot_flip c) ->
  Q (LoopEnd, match last l with Some c => Some c | None => at_crtc end, 0, false) w ->
  wp (flip_crtcs fuel l at_crtc false client id front fb fd ref async ff sf target) Q w.
Proof.
  revert at_crtc. induction l as [|crtc l IH]; intros at_crtc Hl HQ; [by apply wp_ret |].
  cbn [flip_crtcs]. destruct (Hl crtc (list_elem_of_here crtc l)) as (c & Hc & Hno).
  apply wp_bind, wp_bind, (wp_get_dcrtc _ c); [done |]. apply wp_ret.
  apply wp_bind, (wp_cannot_flip _ c); [done | done |]. apply wp_bind, (wp_get_dcrtc _ c); [done |].
  cbn [negb orb]. apply IH.
  - intros k Hk. apply Hl. by apply list_elem_of_further.
  - revert HQ. rewrite last_cons. by destruct (last l).
Qed.

(** A new flip that holds nothing yet. *)
Lemma mem_inv_new_flipdata w t f n :
  mem_inv w -> w_flipdata w !! w_next w = None -> fd_fb f = replicate n None ->
  mem_inv (w <| w_trace := t |> <| w_next ::= Pos.succ |> <| w_flipdata ::= <[w_next w := f]> |>).
Proof.
  intros [[Hi Hb] [Hcnt Hwd Hbd] Hpx] Hfresh Hf. split; [split | split |].
  - intros l. assert (Hr : msum (flip_refs l) (<[w_next w := f]> (w_flipdata w)) = msum (flip_refs l) (w_flipdata w)).
    { rewrite msum_insert_fresh by done. unfold flip_refs at 1.
      by rewrite Hf, lsum_replicate by apply points_None. }
    specialize (Hi l). unfold fb_refs, setf in *. cbn. by rewrite Hr.
  - intros l Hl. specialize (Hb l Hl). unfold setf. cbn. lia.
  - eapply counted_ext; [| exact Hcnt]. done.
  - exact Hwd.
  - intros l Hl. specialize (Hbd l Hl). unfold setf. cbn. lia.
  - intros l Hl. specialize (Hpx l Hl). unfold setf. cbn. lia.
Qed.

(** When no CRTC of the screen can flip, [amdgpu_do_pageflip] returns [FALSE]
    without telling its caller: neither the handler nor the abort function is
    called, and the flip data stays allocated with a count of minus one. *)
Theorem pageflip_nothing_leaks fuel scrn client front p id data ref h a async target info fb w :
  mem_inv w -> w_scrns w !! scrn = Some info -> crtcs info <> [] ->
  (forall crtc, crtc ∈ crtcs info -> exists c, w_crtcs w !! crtc = Some c /\ cannot_flip c /\
     0 <= hw_id (driver_private c) < count_crtcs info) ->
  w_pixmaps w !! front = Some p -> w_scrns w !! pix_scrn p = Some info ->
  use_glamor info = true -> shadow_fb info = false -> pix_priv p ≫= priv_fb = Some fb ->
  w_flipdata w !! w_next w = None ->
  (forall t, reply t (Calloc "drmmode_flipdata") = true) ->
  wp (amdgpu_do_pageflip fuel scrn client front id data ref h a async target)
     (fun ok w' => ok = false /\ w_queue w' = w_queue w /\
        exists f, w_flipdata w' !! w_next w = Some f /\ flip_count f = -1 /\ fd_event_data f = data) w.
Proof.
  intros Hinv Hs Hne Hcr Hp Hps Hg Hsh Hfb Hfresh Hok. unfold amdgpu_do_pageflip.
  apply wp_bind, (wp_load _ _ info); [done |]. destruct (crtcs info) as [|c0 l0] eqn:Hl; [done |].
  rewrite <- Hl in *. destruct (Hcr c0) as (x0 & Hx0 & _ & _); [rewrite Hl; left |].
  assert (Hhd : head (crtcs info) = Some c0) by (by rewrite Hl).
  apply wp_bind, (wp_some_or _ _ c0); [done |]. apply wp_bind, (wp_load _ _ x0); [done |].
  apply wp_bind. wp_ext. rewrite Hok. cbn [negb]. apply wp_bind, wp_new.
  set (w1 := setf w_flipdata _ _). change (w_next (setf w_trace _ w)) with (w_next w) in *.
  assert (Hinv1 : mem_inv w1) by (by eapply (mem_inv_new_flipdata w (_ :: w_trace w))).
  assert (Hav : priv_available p) by (unfold priv_available; by destruct (pix_priv p)).
  apply wp_bind, (wp_get_fb front p info); [done.. |]. intros r w2 Hgf.
  destruct (gf_keep _ _ _ _ _ Hgf fb Hfb) as [-> ->]. clear Hgf.
  apply wp_bind, wp_flip_crtcs_none; [intros k Hk; destruct (Hcr k Hk) as (c & ? & ? & _); eauto |].
  destruct (last (crtcs info)) as [crtc|] eqn:Hlast; [| by rewrite Hl in Hlast; apply last_None in Hlast].
  unfold end_deferred. cbn [mwhen]. apply wp_bind, wp_ret.
  eapply wp_bind, wp_load; [apply lookup_insert_eq |]. change (flip_count _ >? 0) with false.
  change (negb (0 =? 0)) with false. apply wp_bind.
  destruct (Hcr crtc) as (c & Hc & _ & Hid); [by apply last_Some_elem_of |].
  eapply (wp_mono _ (fun _ w' => w_queue w' = w_queue w /\
    exists f, w_flipdata w' !! w_next w = Some f /\ flip_count f = -1 /\ fd_event_data f = data)).
  - apply wp_bind, wp_ret, wp_bind, wp_bind, (wp_get_dcrtc _ c); [done |]. apply wp_ret.
    set (id' := hw_id (driver_private c)) in *.
    eapply wp_bind, (wp_release_flip (w_next w) _ (crtc, FlipAborted) id' None);
      [apply Hinv1 | apply lookup_insert_eq | | lia | |].
    { unfold hw_of. change (w_crtcs w1) with (w_crtcs w). cbn [fst]. by rewrite Hc. }
    { cbn. apply lookup_replicate_2. lia. }
    intros w2 Hrl. eapply wp_bind, wp_count_down; [apply (rl_data _ _ _ _ _ _ _ Hrl) |].
    cbn [flip_count]. apply wp_ret. split; [apply (rl_queue _ _ _ _ _ _ _ Hrl) |].
    eexists. split; [apply lookup_insert_eq | done].
  - intros [] w2 [Hq Hw2]. apply wp_bind, wp_ret, wp_ret. done.
Qed.
End Nothing.

(** ** Examples *)

(** CRTC 3 of the sample screen is off. *)
Definition sample_off_w : world :=
  sample_fb_w <| w_crtcs := {[3%positive := Sample.crtc <| enabled := false |>]} |>.

Lemma sample_off_inv : mem_inv sample_off_w.
Proof.
  split; [split | split |].
  - intros l. change (w_fbs sample_off_w) with ({[5%positive := Fb 1 77]} : gmap loc drmmode_fb).
    unfold fb_refs. cbn. rewrite !msum_singleton, msum_empty. unfold priv_refs, crtc_refs. cbn.
    rewrite !points_None. destruct (decide (l = 5%positive)) as [->|Hne].
    + by rewrite lookup_singleton_eq, points_self.
    + by rewrite lookup_singleton_ne, points_other by congruence.
  - intros l [x Hx]. change (w_fbs sample_off_w) with ({[5%positive := Fb 1 77]} : gmap loc drmmode_fb) in Hx.
    by apply lookup_singleton_Some in Hx as [<- _].
  - intros l. change (w_bos sample_off_w) with ({[4%positive := Buffer 21 0 1 0]} : gmap loc amdgpu_buffer).
    unfold bo_refs. cbn. rewrite !msum_singleton. unfold pix_bo_refs, scrn_bo_refs, crtc_bo_refs. cbn.
    rewrite !points_None. destruct (decide (l = 4%positive)) as [->|Hne].
    + by rewrite lookup_singleton_eq, points_self.
    + by rewrite lookup_singleton_ne, points_other by congruence.
  - intros l b Hb. change (w_bos sample_off_w) with ({[4%positive := Buffer 21 0 1 0]} : gmap loc amdgpu_buffer) in Hb.
    by apply lookup_singleton_Some in Hb as [_ <-].
  - intros l [x Hx]. change (w_bos sample_off_w) with ({[4%positive := Buffer 21 0 1 0]} : gmap loc amdgpu_buffer) in Hx.
    by apply lookup_singleton_Some in Hx as [<- _].
  - intros l [x Hx]. cbn in Hx. by apply lookup_singleton_Some in Hx as [<- _].
Qed.

Lemma pageflip_nothing_leaks_witness :
  @wp _ _ (@amdgpu_do_pageflip Sample.env sample_server noting_callbacks 1 1 0 2 7 (EventData 9) None
             amdgpu_present_flip_event_proc amdgpu_present_flip_abort_proc false 0)
     (fun ok w' => ok = false /\ exists f, w_flipdata w' !! 10%positive = Some f /\ flip_count f = -1) sample_off_w.
Proof.
  eapply wp_mono; [apply (@pageflip_nothing_leaks Sample.env sample_server noting_callbacks 1 1 0 2
    (Sample.pix <| pix_priv := Some (Priv 0 0 0 None (Some 5%positive) false true 9) |>) 7 (EventData 9) None
    amdgpu_present_flip_event_proc amdgpu_present_flip_abort_proc false 0 Sample.scrn 5 sample_off_w) |];
    try done.
  - exact sample_off_inv.
  - intros crtc ->%list_elem_of_singleton. exists (Sample.crtc <| enabled := false |>).
    split_and!; [done | by left | done | done].
  - intros ok w' (H1 & _ & f & H2 & H3 & _). split; [done |]. by exists f.
Defined.

(** A flip to framebuffer 5 on CRTCs 3 and 8; 3 is the reference. *)
Definition sample_flip_crtc (hw : Z) : xf86Crtc :=
  Sample.crtc <| driver_private ::= fun d => d <| hw_id := hw |> <| flip_pending := Some 5%positive |> |>.
Definition sample_flipdata : drmmode_flipdata :=
  Flipdata (EventData 12) 2 0 0 (Some 3%positive) amdgpu_present_flip_event_proc
    amdgpu_present_flip_abort_proc [Some 5%positive; Some 5%positive].
Definition sample_flip_w : world :=
  sample_fb_w <| w_fbs := {[5%positive := Fb 5 77]} |>
    <| w_crtcs := {[3%positive := sample_flip_crtc 0; 8%positive := sample_flip_crtc 1]} |>
    <| w_flipdata := {[9%positive := sample_flipdata]} |>.

Lemma sample_flipping : flipping 9 sample_flipdata [8%positive; 3%positive] sample_flip_w.
Proof.
  split.
  - split.
    + intros l. change (w_fbs sample_flip_w) with ({[5%positive := Fb 5 77]} : gmap loc drmmode_fb).
      unfold fb_refs. change (w_crtcs sample_flip_w)
        with (<[3%positive := sample_flip_crtc 0]> ({[8%positive := sample_flip_crtc 1]} : gmap loc xf86Crtc)).
      cbn [w_pixmaps w_flipdata sample_flip_w setf].
      rewrite msum_insert_fresh by done. cbn. rewrite !msum_singleton.
      unfold priv_refs, crtc_refs, flip_refs, lsum. cbn. rewrite !points_None.
      destruct (decide (l = 5%positive)) as [->|Hne].
      * by rewrite lookup_singleton_eq, points_self.
      * by rewrite lookup_singleton_ne, points_other by congruence.
    + intros l [x Hx]. change (w_fbs sample_flip_w) with ({[5%positive := Fb 5 77]} : gmap loc drmmode_fb) in Hx.
      by apply lookup_singleton_Some in Hx as [<- _].
  - done.
  - done.
  - exists [1; 0]. split_and!; [done | | |].
    + repeat constructor; rewrite ?list_elem_of_singleton; try done. apply not_elem_of_nil.
    + repeat constructor; cbn; lia.
    + intros [|[|i]] _ [x Hx]; cbn in *; [right; left | left | done].
Qed.

(** CRTC 8 completes first, then the reference: the report has its frame 8 and
    time 80. *)
Lemma flip_completes_witness :
  @wp _ _ (mfor [(8%positive, FlipDone 7 70); (3%positive, FlipDone 8 80)] (@complete Sample.env noting_callbacks 9))
     (fun _ w' => w_flipdata w' !! 9%positive = None /\
        slot_get w' (SCrtcFb 3) = Some (Some 5%positive) /\ Notify "handler" [3; 8; 80] ∈ w_trace w') sample_flip_w.
Proof.
  apply (@flip_completes Sample.env noting_callbacks 9 sample_flipdata [(8%positive, FlipDone 7 70)]
    (3%positive, FlipDone 8 80)); [exact sample_flipping |].
  intros w' Hfp. apply wp_bind.
  lazymatch goal with |- wp ?m _ _ => change m with (@call Sample.env (Notify "handler" [3; 8; 80])) end.
  wp_ext. destruct (fp_data _ _ _ _ _ Hfp) as (f' & Hf & _).
  eapply wp_free; [exact Hf |]. split_and!; [apply lookup_delete_eq | | left].
  apply (fp_fb _ _ _ _ _ Hfp (3%positive, FlipDone 8 80) 0 5%positive); [right; left | done | done | done].
Defined.

(** ** The waits of a page flip *)
Section Balance.
Context `{env : Env} `{srv : XServer} `{safe : CallbacksSafe}.

(** A wait for the reference CRTC has begun, if [deferred] says so. *)
Definition begun (deferred : bool) (ref_crtc : option loc) (w w' : world) : Prop :=
  if deferred then exists r, ref_crtc = Some r /\ shifted r 1 w w' else kept w w'.

Lemma begun_kept d ref w1 w2 w3 : kept w1 w2 -> begun d ref w2 w3 -> begun d ref w1 w3.
Proof.
  intros H1. destruct d; cbn.
  - intros (r & Hr & H2). exists r. split; [done |]. exact (kept_shifted _ _ _ _ _ H1 H2).
  - intros H2. exact (kept_trans _ _ _ H1 H2).
Qed.
Lemma begun_then d ref w1 w2 w3 : begun d ref w1 w2 -> kept w2 w3 -> begun d ref w1 w3.
Proof.
  intros H1 H2. destruct d; cbn in *; [| exact (kept_trans _ _ _ H1 H2)].
  destruct H1 as (r & Hr & H1). exists r. split; [done |]. exact (shifted_kept _ _ _ _ _ H1 H2).
Qed.
Lemma begun_wf d ref w w' : begun d ref w w' -> queue_wf w'.
Proof. destruct d; [by intros (r & _ & [? _]) | by intros [? _]]. Qed.

(** Code that does not touch the queue before a wait may begin. *)
Lemma pwp_begun_bind {A B} (m : D A) (k : A -> D B) (f : B -> bool) ref w :
  keeps m -> queue_wf w -> (forall a w1, queue_wf w1 -> pwp (k a) (fun r => begun (f r) ref w1) w1) ->
  pwp (mbind k m) (fun r => begun (f r) ref w) w.
Proof.
  intros Hm Hw Hk. apply pwp_keeps_bind; [done | done |]. intros a w1 H1.
  eapply pwp_mono; [apply Hk, H1 |]. intros r w2 H2. exact (begun_kept _ _ _ _ _ H1 H2).
Qed.
Lemma pwp_begun_keeps {B} (m : D B) (f : B -> bool) ref w :
  keeps m -> queue_wf w -> (forall r, f r = false) -> pwp m (fun r => begun (f r) ref w) w.
Proof. intros Hm Hw Hf. eapply pwp_mono; [by apply Hm |]. intros r w'. by rewrite Hf. Qed.

Lemma cancel_begun fuel crtc w :
  queue_wf w -> pwp (cancel_update fuel crtc) (fun b w' => begun b (Some crtc) w w') w.
Proof.
  intros Hw. apply (pwp_begun_bind _ _ id); [keeps_auto | done |]. intros d w1 Hw1.
  destruct (negb _); [| by apply pwp_ret, kept_refl].
  apply pwp_bind. eapply pwp_mono; [by apply wait_pending_flip_shifts |]. intros [] w2 Hs.
  assert (Hb : begun true (Some crtc) w1 w2) by (by exists crtc).
  apply pwp_keeps_bind; [keeps_auto | apply Hs |]. intros d' w3 H3.
  apply pwp_keeps_bind; [keeps_auto | apply H3 |]. intros [] w4 H4.
  apply pwp_keeps_bind; [keeps_auto | apply H4 |]. intros [] w5 H5. apply pwp_ret.
  eapply begun_then; [exact Hb |]. exact (kept_trans _ _ _ H3 (kept_trans _ _ _ H4 H5)).
Qed.

Definition waited (r : prepared) : bool := match r with PrepFlip b => b | _ => false end.

Lemma prepare_begun fuel crtc front fd id seq async w :
  queue_wf w -> pwp (prepare_tear_free fuel crtc front fd id seq async)
    (fun r => begun (waited r) (Some crtc) w) w.
Proof.
  intros Hw. unfold prepare_tear_free. apply pwp_begun_bind; [keeps_auto | done |]. intros d w1 H1.
  destruct async.
  { apply pwp_begun_bind; [keeps_auto | done |]. intros r w2 H2. apply pwp_ret. destruct r; by apply kept_refl. }
  apply pwp_begun_bind; [keeps_auto | done |]. intros p w2 H2.
  apply pwp_begun_bind; [keeps_auto | done |]. intros back w3 H3.
  apply pwp_begun_bind; [keeps_auto | done |]. intros fb w4 H4.
  apply pwp_begun_bind; [keeps_auto | done |]. intros [] w5 H5. destruct fb; [| by apply pwp_ret, kept_refl].
  apply pwp_begun_bind; [keeps_auto | done |]. intros ok w6 H6.
  apply pwp_begun_bind; [keeps_auto | done |]. intros c w7 H7.
  apply pwp_begun_bind; [keeps_auto | done |]. intros [] w8 H8.
  apply pwp_bind. eapply pwp_mono; [by apply cancel_begun |]. intros b w9 H9. by apply pwp_ret.
Qed.

Lemma flip_ioctl_keeps crtc ref fd id seq ff sf target : keeps (flip_ioctl crtc ref fd id seq ff sf target).
Proof.
  pose proof read_slot_keeps. pose proof page_flip_absolute_keeps. pose proof page_flip_relative_keeps.
  unfold flip_ioctl. keeps_auto.
Qed.

(** [handle_deferred] as the loop returns it. *)
Definition loop_deferred (t : loop_exit * option loc * Z * bool) : bool := t.2.

(** What the loop may do to the waits, entered with [d]. *)
Definition loop_post (d : bool) (ref : option loc) (t : loop_exit * option loc * Z * bool) (w w' : world) : Prop :=
  if d then loop_deferred t = true /\ kept w w' else begun (loop_deferred t) ref w w'.

Lemma loop_post_kept d ref t w1 w2 w3 : kept w1 w2 -> loop_post d ref t w2 w3 -> loop_post d ref t w1 w3.
Proof.
  intros H1. destruct d; cbn.
  - intros [Ht H2]. split; [done |]. exact (kept_trans _ _ _ H1 H2).
  - apply (begun_kept _ _ _ _ _ H1).
Qed.
Lemma loop_post_begun b ref t w1 w2 w3 : begun b ref w1 w2 -> loop_post b ref t w2 w3 -> loop_post false ref t w1 w3.
Proof.
  intros H1. destruct b; cbn.
  - intros [-> H2]. exact (begun_then true _ _ _ _ H1 H2).
  - apply (begun_kept _ _ _ _ _ H1).
Qed.
Lemma loop_post_here d ref how at_crtc seq w : queue_wf w -> loop_post d ref (how, at_crtc, seq, d) w w.
Proof. intros Hw. destruct d; [split; [done |] |]; by apply kept_refl. Qed.

Lemma pwp_loop_bind {A} (m : D A) (k : A -> D (loop_exit * option loc * Z * bool)) d ref w :
  keeps m -> queue_wf w -> (forall a w1, queue_wf w1 -> pwp (k a) (fun t => loop_post d ref t w1) w1) ->
  pwp (mbind k m) (fun t => loop_post d ref t w) w.
Proof.
  intros Hm Hw Hk. apply pwp_keeps_bind; [done | done |]. intros a w1 H1.
  eapply pwp_mono; [apply Hk, H1 |]. intros r w2 H2. exact (loop_post_kept _ _ _ _ _ _ H1 H2).
Qed.

(** The rest of an iteration once it is decided to flip. *)
Lemma flip_tail_post crtc ref fd id seq ff sf target d (k : D (loop_exit * option loc * Z * bool)) w :
  queue_wf w -> (forall w1, queue_wf w1 -> pwp k (fun t => loop_post d ref t w1) w1) ->
  pwp (ok ← flip_ioctl crtc ref fd id seq ff sf target;
       if negb ok then mret (LoopError, Some crtc, seq, d)
       else
         d' ← get_dcrtc crtc;
         _ ← mwhen (tear_free d')
               (set_dcrtc crtc (fun d => d <| scanout_id ::= fun i => Z.lxor i 1 |> <| ignore_damage := true |>));
         v ← read_slot (SFlipdata fd id);
         _ ← drmmode_fb_reference (SFlipPending crtc) v;
         k) (fun t => loop_post d ref t w) w.
Proof.
  intros Hw Hk. pose proof read_slot_keeps.
  apply pwp_loop_bind; [apply flip_ioctl_keeps | done |]. intros ok w1 H1.
  destruct (negb ok); [by apply pwp_ret, loop_post_here |].
  apply pwp_loop_bind; [keeps_auto | done |]. intros d' w2 H2.
  apply pwp_loop_bind; [keeps_auto | done |]. intros [] w3 H3.
  apply pwp_loop_bind; [keeps_auto | done |]. intros v w4 H4.
  apply pwp_loop_bind; [keeps_auto | done |]. intros [] w5 H5. by apply Hk.
Qed.

(** The loop begins at most one wait, for the reference CRTC, and says so. *)
Lemma flip_crtcs_begun fuel l at_crtc d client id front fb fd ref async ff sf target w :
  queue_wf w -> NoDup l -> (d = true -> forall r, ref = Some r -> r ∉ l) ->
  pwp (flip_crtcs fuel l at_crtc d client id front fb fd ref async ff sf target)
    (fun t => loop_post d ref t w) w.
Proof.
  revert at_crtc d w. induction l as [|crtc l IH]; intros at_crtc d w Hw Hnd Hd.
  { by apply pwp_ret, loop_post_here. }
  apply NoDup_cons in Hnd as [Hni Hnd].
  assert (Hd' : d = true -> forall r, ref = Some r -> r ∉ l).
  { intros Ht r Hr Hin. apply (Hd Ht r Hr). by apply list_elem_of_further. }
  cbn [flip_crtcs]. apply pwp_loop_bind; [unfold drmmode_get_crtc_id; keeps_auto | done |]. intros cid w1 H1.
  apply pwp_loop_bind; [unfold drmmode_crtc_can_flip; keeps_auto | done |]. intros can w2 H2.
  apply pwp_loop_bind; [keeps_auto | done |]. intros dc w3 H3.
  destruct (negb can || _) eqn:Hskip; [by apply IH |].
  apply pwp_loop_bind; [keeps_auto | done |]. intros [] w4 H4.
  apply pwp_loop_bind; [keeps_auto | done |]. intros seq w5 H5.
  destruct (seq =? _); [by apply pwp_ret, loop_post_here |].
  destruct (tear_free dc) eqn:Htf.
  - assert (Href : ref = Some crtc).
    { apply orb_false_iff in Hskip as [_ Hs]. cbn in Hs. by case_bool_decide. }
    destruct d; [destruct (Hd eq_refl crtc Href); left |].
    apply pwp_bind. eapply pwp_mono; [by apply prepare_begun |]. intros r w6 H6. rewrite <- Href in H6.
    pose proof (begun_wf _ _ _ _ H6) as Hw6. destruct r as [| | b]; cbn [waited] in H6.
    + apply pwp_ret. exact (loop_post_begun false _ _ _ _ _ H6 (loop_post_here false _ _ _ _ w6 Hw6)).
    + eapply pwp_mono; [by apply IH |]. intros t w7 H7. exact (loop_post_kept _ _ _ _ _ _ H6 H7).
    + cbn [orb]. eapply pwp_mono; [apply (flip_tail_post _ _ _ _ _ _ _ _ b); [done |] |].
      * intros w7 H7. apply IH; [done | done |]. intros _ r' Hr'. rewrite Href in Hr'. by injection Hr' as <-.
      * intros t w7 H7. exact (loop_post_begun _ _ _ _ _ _ H6 H7).
  - apply pwp_bind. eapply (pwp_mono _ (fun r w' => r = PrepFlip false /\ kept w5 w')).
    { apply pwp_keeps_bind; [keeps_auto | done |]. intros [] w6 H6. by apply pwp_ret. }
    intros r w6 [-> H6]. rewrite orb_false_r.
    eapply pwp_mono; [apply (flip_tail_post _ _ _ _ _ _ _ _ d); [apply H6 |] |].
    + intros w7 H7. by apply IH.
    + intros t w7 H7. exact (loop_post_kept _ _ _ _ _ _ H6 H7).
Qed.

Lemma end_deferred_ends fuel d ref w0 w :
  queue_wf w0 -> begun d ref w0 w -> pwp (end_deferred fuel d ref) (fun _ => kept w0) w.
Proof.
  intros Hw Hb. destruct d; cbn in *; [| by apply pwp_ret].
  destruct Hb as (r & -> & Hs). apply pwp_bind, pwp_ret.
  eapply pwp_mono; [apply ends_deferred, Hs |]. intros [] w' He. exact (shifted_back _ _ _ _ Hw Hs He).
Qed.

Lemma end_deferred_keeps fuel d ref : keeps (end_deferred fuel d ref).
Proof. pose proof handle_deferred_keeps. unfold end_deferred. keeps_auto. Qed.

(** The error labels, reached with a wait that has begun. *)
Lemma flip_error_post fuel (m : D unit) d ref w0 w :
  keeps m -> queue_wf w0 -> begun d ref w0 w ->
  pwp (_ ← m; _ ← end_deferred fuel d ref; mret false) (fun _ => kept w0) w.
Proof.
  intros Hm Hw0 Hb. apply pwp_keeps_bind; [done | by eapply begun_wf |]. intros [] w1 H1.
  apply pwp_bind. eapply pwp_mono; [apply (end_deferred_ends _ _ _ w0), (begun_then _ _ _ _ _ Hb H1); exact Hw0 |].
  intros [] w2 H2. by apply pwp_ret.
Qed.

Lemma pageflip_keeps fuel scrn client front id data ref h a async target :
  keeps (amdgpu_do_pageflip fuel scrn client front id data ref h a async target).
Proof.
  intros w Hw. unfold amdgpu_do_pageflip. apply pwp_bind, pwp_load. intros info Hs.
  pose proof (qw_config _ Hw _ _ Hs) as Hnd. pose proof abort_safe as Hab. pose proof flip_abort_keeps as Hfa.
  pose proof end_deferred_keeps as Hed.
  assert (Hpost : forall A (m : D A) (k : A -> D bool) w0, keeps m -> kept w w0 ->
    (forall a w1, kept w w1 -> pwp (k a) (fun _ => kept w) w1) -> pwp (mbind k m) (fun _ => kept w) w0).
  { intros A m k w0 Hm Hk0 Hk. apply pwp_keeps_bind; [done | apply Hk0 |]. intros x w1 H1.
    exact (Hk x w1 (kept_trans _ _ _ Hk0 H1)). }
  apply Hpost; [keeps_auto | by apply kept_refl |]. intros first w1 H1.
  apply Hpost; [keeps_auto | done |]. intros _ w2 H2. apply Hpost; [keeps_auto | done |]. intros ok w3 H3.
  destruct (negb ok).
  { apply Hpost; [keeps_auto | done |]. intros _ w4 H4. by apply pwp_ret. }
  apply Hpost; [keeps_auto | done |]. intros fd w4 H4. apply Hpost; [keeps_auto | done |].
  intros fb w5 H5. destruct fb as [f|]; cycle 1.
  { apply Hpost; [keeps_auto | done |]. intros _ w6 H6. apply Hpost; [keeps_auto | done |]. intros _ w7 H7.
    by apply pwp_ret. }
  apply pwp_bind. eapply pwp_mono; [by apply flip_crtcs_begun; [apply H5 | |] |].
  intros [[[how at_crtc] seq] d] w6 Hb. cbn [loop_post loop_deferred snd] in Hb.
  pose proof (begun_kept _ _ _ _ _ H5 Hb) as Hb'.
  set (m := if negb (seq =? 0) then _ else _ : D unit).
  assert (Hm : keeps m) by (unfold m; keeps_auto).
  destruct how; [| by apply flip_error_post].
  apply pwp_bind. eapply pwp_mono; [by apply (end_deferred_ends _ _ _ w) |]. intros [] w7 H7.
  apply pwp_bind, pwp_load. intros x _. destruct (flip_count x >? 0); [by apply pwp_ret |].
  apply Hpost; [done | done |]. intros [] w8 H8. apply Hpost; [done | done |]. intros [] w9 H9. by apply pwp_ret.
Qed.
#[local] Hint Resolve pageflip_keeps : keeps.

(** C8. A page flip ends every wait it begins, on every path and whatever the
    callbacks that run meanwhile do: afterwards the event queue is well-formed and
    no CRTC waits for a flip more often than before.  So no vblank event stays
    deferred because of a flip. *)
Theorem pageflip_balanced fuel scrn client front id data ref h a async target w :
  queue_wf w ->
  pwp (amdgpu_do_pageflip fuel scrn client front id data ref h a async target)
      (fun _ w' => queue_wf w' /\ nest_le w w') w.
Proof.
  intros Hw. eapply pwp_mono; [by apply pageflip_keeps |]. by intros ok w' (Hw' & Hn & _).
Qed.
End Balance.

#[export] Hint Resolve pageflip_keeps : keeps.

Lemma sample_fb_queue_wf : queue_wf sample_fb_w.
Proof. apply (queue_wf_frame Sample.w); [done | done | done | done | exact sample_queue_wf]. Qed.

(** The sample CRTC flips to the framebuffer of pixmap 2. *)
Lemma pageflip_balanced_witness :
  let m := @amdgpu_do_pageflip Sample.env sample_server noting_callbacks 2 1 0 2 7 (EventData 9) (Some 3%positive)
             amdgpu_present_flip_event_proc amdgpu_present_flip_abort_proc false 0 in
  exists w', m sample_fb_w = Ok true w' /\ queue_wf w' /\ nest_le sample_fb_w w'.
Proof.
  intros m. pose proof (@pageflip_balanced Sample.env sample_server noting_callbacks noting_safe 2 1 0 2 7 (EventData 9)
    (Some 3%positive) amdgpu_present_flip_event_proc amdgpu_present_flip_abort_proc false 0 sample_fb_w
    sample_fb_queue_wf) as Hb.
  assert (Hok : match m sample_fb_w with Ok b _ => b | _ => false end = true) by (vm_compute; reflexivity).
  fold m in Hb. unfold pwp in Hb. destruct (m sample_fb_w) as [[] w'| |]; [| discriminate Hok..].
  exists w'. by split.
Defined.
