(* ===== verification/Prime.v ===== *)
(** * Screens that share their outputs: the PRIME functions of src/src/amdgpu_kms.c

    A screen whose image is shown by another GPU keeps a list of dirty updates
    ([PixmapDirtyUpdateRec]): changes of a source pixmap that have to be copied to a
    destination pixmap.  On the GPU that shows it, the copy waits for a vblank or
    goes to the back buffer of TearFree. *)
From stdpp Require Import strings.
From S2P Require Import Prelude Modes Region World Fb DriState Queue Bo PixmapFb Crtc Keeps Scanout Modeset Flip.

(** A [PixmapDirtyUpdatePtr]: the screen on whose list it is, and its place. *)
Abbreviation dirty_ptr := (loc * nat)%type.

(** What the X server knows about a screen and its pixmaps: the primary screen it
    is a secondary of, the hook of that screen's driver that brings a shared pixmap
    up to date (which may be another driver), and the pixmaps that are shadows of a
    pixmap of the primary screen. *)
Class PrimeServer := {
  current_primary : loc -> option loc;
  SyncSharedPixmap : loc -> option (dirty_ptr -> D unit);
  primary_pixmap : loc -> bool
}.

Section Code.
Context `{env : Env} `{srv : XServer} `{prime : PrimeServer} `{callbacks : Callbacks} `{rot : Rotator}.
Context (sw_cursor : bool).

Definition load_dirty (p : dirty_ptr) : D dirty_update :=
  info ← load w_scrns p.1; some_or UseAfterFree (pixmap_dirty_list info !! p.2).

Definition set_dirty (p : dirty_ptr) (f : dirty_update -> dirty_update) : D unit :=
  update w_scrns p.1 (setf pixmap_dirty_list (alter f p.2)).

Definition amdgpu_primary_screen (scrn : loc) : loc :=
  match current_primary scrn with Some p => p | None => scrn end.

Definition amdgpu_dirty_primary (ent : dirty_update) : D loc :=
  p ← load w_pixmaps (secondary_dst ent); mret (amdgpu_primary_screen (pix_scrn p)).

Definition amdgpu_dirty_src_equals (ent : dirty_update) (pix : option loc) : bool :=
  bool_decide (Some (dirty_src ent) = pix).

Definition dirty_region (ent : dirty_update) : D region :=
  p ← load w_pixmaps (secondary_dst ent);
  if negb (dirty_rotation ent =? RR_Rotate_0)
  then mret (transform_region (dirty_damage ent) (dirty_f_inverse ent) (pix_width p) (pix_height p))
  else mret (RegionTranslate (- dirty_x ent) (- dirty_y ent) (dirty_damage ent)
             ∩ box_region (Box 0 0 (s16 (pix_width p)) (s16 (pix_height p)))).

Definition redisplay_dirty (p : dirty_ptr) (r : region) : D unit :=
  ent ← load_dirty p;
  src ← load w_pixmaps (dirty_src ent);
  _ ← (if RegionNil r then mret tt
       else
         let dst := secondary_dst ent in
         _ ← mwhen (primary_pixmap dst) (call (Notify "DamageRegionAppend" [Zpos dst]));
         _ ← call (Notify "PixmapSyncDirtyHelper" [Zpos (dirty_src ent); Zpos dst]);
         _ ← amdgpu_glamor_flush (pix_scrn src);
         mwhen (primary_pixmap dst) (call (Notify "DamageRegionProcessPending" [Zpos dst])));
  set_dirty p (setf dirty_damage (fun _ => ∅)).

Definition amdgpu_prime_scanout_update_abort (crtc : loc) : D unit :=
  set_dcrtc crtc (setf scanout_update_pending (fun _ => 0)).

(** The entries of a screen's list, in order. *)
Definition dirty_ptrs (scrn : loc) (info : scrn_info) : list dirty_ptr :=
  (fun k => (scrn, k)) <$> seq 0 (length (pixmap_dirty_list info)).

Definition amdgpu_sync_shared_pixmap (dirty : dirty_ptr) : D unit :=
  d ← load_dirty dirty;
  primary ← amdgpu_dirty_primary d;
  info ← load w_scrns primary;
  mfor (dirty_ptrs primary info) (fun p =>
    ent ← load_dirty p;
    d ← load_dirty dirty;
    if negb (amdgpu_dirty_src_equals d (Some (secondary_dst ent))) then mret tt
    else r ← dirty_region ent; redisplay_dirty p r).

Definition primary_has_sync_shared_pixmap (ent : dirty_update) : D bool :=
  primary ← amdgpu_dirty_primary ent;
  mret match SyncSharedPixmap primary with Some _ => true | None => false end.

Definition secondary_has_sync_shared_pixmap (ent : dirty_update) : D bool :=
  p ← load w_pixmaps (secondary_dst ent);
  mret match SyncSharedPixmap (pix_scrn p) with Some _ => true | None => false end.

Definition call_sync_shared_pixmap (dirty : dirty_ptr) : D unit :=
  d ← load_dirty dirty;
  primary ← amdgpu_dirty_primary d;
  match SyncSharedPixmap primary with
  | Some f => f dirty
  | None => raise NullDeref
  end.

Fixpoint find_prime_crtc (l : list loc) (ent : dirty_update) : D (option loc) :=
  match l with
  | [] => mret None
  | crtc :: r =>
      d ← get_dcrtc crtc;
      if amdgpu_dirty_src_equals ent (prime_scanout_pixmap d) then mret (Some crtc) else find_prime_crtc r ent
  end.

Definition amdgpu_prime_dirty_to_crtc (ent : dirty_update) : D (option loc) :=
  p ← load w_pixmaps (secondary_dst ent);
  info ← load w_scrns (pix_scrn p);
  find_prime_crtc (crtcs info) ent.

(** The body of the loop of [amdgpu_prime_scanout_do_update] for the entry it
    acts on. *)
Definition prime_update_entry (crtc : loc) (sid : Z) (p : dirty_ptr) : D bool :=
  ent ← load_dirty p;
  has ← primary_has_sync_shared_pixmap ent;
  _ ← mwhen has (call_sync_shared_pixmap p);
  ent ← load_dirty p;
  r ← dirty_region ent;
  if RegionNil r then mret false
  else
    c ← load w_crtcs crtc;
    let d := driver_private c in
    _ ← mwhen (tear_free d)
          (let r' := RegionTranslate (crtc_x c) (crtc_y c) r in
           _ ← amdgpu_sync_scanout_pixmaps crtc r' sid;
           _ ← amdgpu_glamor_flush (crtc_scrn c);
           _ ← set_dcrtc crtc (setf scanout_last_region (fun _ => r'));
           dst ← deref (scanout_at d sid);
           set_dirty p (setf secondary_dst (fun _ => dst)));
    _ ← redisplay_dirty p r;
    mret true.

Fixpoint find_dirty (l : list dirty_ptr) (pix : option loc) : D (option dirty_ptr) :=
  match l with
  | [] => mret None
  | p :: r =>
      ent ← load_dirty p;
      if amdgpu_dirty_src_equals ent pix then mret (Some p) else find_dirty r pix
  end.

Definition amdgpu_prime_scanout_do_update (crtc : loc) (sid : Z) : D bool :=
  c ← load w_crtcs crtc;
  info ← load w_scrns (crtc_scrn c);
  p ← find_dirty (dirty_ptrs (crtc_scrn c) info) (prime_scanout_pixmap (driver_private c));
  match p with
  | None => mret false
  | Some p => prime_update_entry crtc sid p
  end.

Definition amdgpu_prime_scanout_update_handler (crtc : loc) (frame usec : Z) (data : cookie) : D unit :=
  _ ← amdgpu_prime_scanout_do_update crtc 0;
  set_dcrtc crtc (setf scanout_update_pending (fun _ => 0)).

Definition amdgpu_prime_scanout_update (fuel : nat) (ent : dirty_update) : D unit :=
  xc ← amdgpu_prime_dirty_to_crtc ent;
  match xc with
  | None => mret tt
  | Some crtc =>
      c ← load w_crtcs crtc;
      let d := driver_private c in
      if negb (enabled c) || negb (scanout_update_pending d =? 0)
         || match scanout_at d (scanout_id d) with Some _ => false | None => true end
         || negb (dpms_mode d =? DPMSModeOn)
      then mret tt
      else
        s ← amdgpu_drm_queue_alloc crtc AMDGPU_DRM_QUEUE_CLIENT_DEFAULT AMDGPU_DRM_QUEUE_ID_DEFAULT NoData
              amdgpu_prime_scanout_update_handler_proc amdgpu_prime_scanout_update_abort_proc false;
        if s =? AMDGPU_DRM_QUEUE_ERROR then amdgpu_prime_scanout_update_handler crtc 0 0 NoData
        else
          _ ← set_dcrtc crtc (setf scanout_update_pending (fun _ => s));
          r ← drmmode_wait_vblank crtc (Z.lor DRM_VBLANK_RELATIVE DRM_VBLANK_EVENT) 1 s;
          match r with
          | inl _ => deliver_now fuel crtc s
          | inr _ => vblank_works sw_cursor fuel crtc
          end
  end.

Definition amdgpu_prime_scanout_flip (ent : dirty_update) : D unit :=
  xc ← amdgpu_prime_dirty_to_crtc ent;
  match xc with
  | None => mret tt
  | Some crtc =>
      c ← load w_crtcs crtc;
      let d := driver_private c in
      let sid := Z.lxor (scanout_id d) 1 in
      if negb (enabled c) || negb (scanout_update_pending d =? 0)
         || match scanout_at d sid with Some _ => false | None => true end
         || negb (dpms_mode d =? DPMSModeOn)
      then mret tt
      else
        ok ← amdgpu_prime_scanout_do_update crtc sid;
        if negb ok then mret tt
        else
          d ← get_dcrtc crtc;
          pix ← deref (scanout_at d sid);
          fb ← amdgpu_pixmap_get_fb pix;
          match fb with
          | None => mret tt
          | Some f =>
              s ← amdgpu_drm_queue_alloc crtc AMDGPU_DRM_QUEUE_CLIENT_DEFAULT AMDGPU_DRM_QUEUE_ID_DEFAULT
                    (FbData f) amdgpu_scanout_flip_handler_proc amdgpu_scanout_flip_abort_proc true;
              if s =? AMDGPU_DRM_QUEUE_ERROR then mret tt
              else
                b ← load w_fbs f;
                r ← drmmode_page_flip_target_relative d (fb_handle b) 0 s 1;
                if negb (r =? 0) then
                  _ ← set_dcrtc crtc (setf scanout_status (fun s => Z.lor s DRMMODE_SCANOUT_FLIP_FAILED));
                  amdgpu_drm_abort_entry s
                else
                  _ ← set_dcrtc crtc (fun d => d
                        <| scanout_status ::= fun s => Z.land s (Z.lnot DRMMODE_SCANOUT_FLIP_FAILED) |>
                        <| scanout_id := sid |> <| scanout_update_pending := s |>);
                  drmmode_fb_reference (SFlipPending crtc) (Some f)
          end
  end.

(** The entry whose damage decides: that of the primary screen's list which feeds
    the source pixmap.  If there is none the loop ends at the list head, which is
    not an entry. *)
Definition region_entry (p : dirty_ptr) (ent : dirty_update) : D dirty_ptr :=
  has ← primary_has_sync_shared_pixmap ent;
  if negb has then mret p
  else
    primary ← amdgpu_dirty_primary ent;
    info ← load w_scrns primary;
    let feeds := fun e => amdgpu_dirty_src_equals ent (Some (secondary_dst e)) = true in
    match list_find feeds (pixmap_dirty_list info) with
    | Some (k, _) => mret (primary, k)
    | None => raise OutOfBounds
    end.

(** One entry of the list of a screen that shows another GPU's image. *)
Definition update_gpu_entry (fuel : nat) (p : dirty_ptr) : D unit :=
  ent ← load_dirty p;
  rp ← region_entry p ent;
  rent ← load_dirty rp;
  r ← dirty_region rent;
  if RegionNil r then set_dirty rp (setf dirty_damage (fun _ => ∅))
  else
    xc ← amdgpu_prime_dirty_to_crtc ent;
    flip ← match xc with
           | Some crtc => d ← get_dcrtc crtc; mret (tear_free d)
           | None => mret false
           end;
    if flip : bool then amdgpu_prime_scanout_flip ent else amdgpu_prime_scanout_update fuel ent.

Definition amdgpu_dirty_update (fuel : nat) (scrn : loc) : D unit :=
  info ← load w_scrns scrn;
  mfor (dirty_ptrs scrn info) (fun p =>
    if is_gpu info then update_gpu_entry fuel p
    else
      ent ← load_dirty p;
      has ← secondary_has_sync_shared_pixmap ent;
      if has : bool then mret tt
      else r ← dirty_region ent; redisplay_dirty p r).

(** The wrapped [BlockHandler] of the server runs first. *)
Definition AMDGPUBlockHandler_KMS (fuel : nat) (scrn : loc) : D unit :=
  _ ← call (Notify "BlockHandler" [Zpos scrn]);
  primary ← load w_scrns (amdgpu_primary_screen scrn);
  if negb (vtSema primary) then mret tt
  else
    info ← load w_scrns scrn;
    _ ← mwhen (negb (is_gpu info))
          (mfor (crtcs info) (fun crtc =>
             d ← get_dcrtc crtc;
             match rotate d with
             | Some _ => mret tt
             | None =>
                 if tear_free d then amdgpu_scanout_flip sw_cursor fuel crtc
                 else match scanout_at d (scanout_id d) with
                      | Some _ => amdgpu_scanout_update sw_cursor fuel crtc
                      | None => mret tt
                      end
             end));
    amdgpu_dirty_update fuel scrn.
End Code.

(** ** None of it disturbs the event queue *)
Class PrimeSafe `{PrimeServer} : Prop :=
  sync_shared_safe : forall s f p, SyncSharedPixmap s = Some f -> keeps (f p).

Section Safe.
Context `{env : Env} `{srv : XServer} `{psafe : PrimeSafe} `{safe : CallbacksSafe} `{rsafe : RotatorSafe}.

Lemma load_dirty_keeps p : keeps (load_dirty p).
Proof. unfold load_dirty. keeps_auto. Qed.
Lemma set_dirty_keeps p f : keeps (set_dirty p f).
Proof. unfold set_dirty. keeps_auto. Qed.
#[local] Hint Resolve load_dirty_keeps set_dirty_keeps : keeps.
Lemma dirty_region_keeps ent : keeps (dirty_region ent).
Proof. unfold dirty_region. keeps_auto. Qed.
Lemma dirty_primary_keeps ent : keeps (amdgpu_dirty_primary ent).
Proof. unfold amdgpu_dirty_primary. keeps_auto. Qed.
#[local] Hint Resolve dirty_region_keeps dirty_primary_keeps : keeps.
Lemma redisplay_keeps p r : keeps (redisplay_dirty p r).
Proof. unfold redisplay_dirty. keeps_auto. Qed.
#[local] Hint Resolve redisplay_keeps : keeps.
Lemma sync_shared_pixmap_keeps p : keeps (amdgpu_sync_shared_pixmap p).
Proof. unfold amdgpu_sync_shared_pixmap. keeps_auto. Qed.
Lemma call_sync_keeps p : keeps (call_sync_shared_pixmap p).
Proof.
  unfold call_sync_shared_pixmap. do 2 (apply keeps_bind; [keeps_auto |]; intros ?).
  destruct (SyncSharedPixmap _) eqn:Hf; [exact (sync_shared_safe _ _ _ Hf) | apply keeps_raise].
Qed.
#[local] Hint Resolve call_sync_keeps : keeps.
Lemma find_prime_crtc_keeps l ent : keeps (find_prime_crtc l ent).
Proof. induction l; cbn [find_prime_crtc]; keeps_auto. Qed.
#[local] Hint Resolve find_prime_crtc_keeps : keeps.
Lemma dirty_to_crtc_keeps ent : keeps (amdgpu_prime_dirty_to_crtc ent).
Proof. unfold amdgpu_prime_dirty_to_crtc. keeps_auto. Qed.
Lemma find_dirty_keeps l pix : keeps (find_dirty l pix).
Proof. induction l; cbn [find_dirty]; keeps_auto. Qed.
#[local] Hint Resolve dirty_to_crtc_keeps find_dirty_keeps : keeps.
Lemma prime_do_update_keeps crtc sid : keeps (amdgpu_prime_scanout_do_update crtc sid).
Proof. unfold amdgpu_prime_scanout_do_update, prime_update_entry, primary_has_sync_shared_pixmap. keeps_auto. Qed.
#[local] Hint Resolve prime_do_update_keeps : keeps.
Lemma prime_update_handler_keeps crtc frame usec data :
  keeps (amdgpu_prime_scanout_update_handler crtc frame usec data).
Proof. unfold amdgpu_prime_scanout_update_handler. keeps_auto. Qed.
Lemma prime_update_abort_keeps crtc : keeps (amdgpu_prime_scanout_update_abort crtc).
Proof. unfold amdgpu_prime_scanout_update_abort. keeps_auto. Qed.
#[local] Hint Resolve prime_update_handler_keeps deliver_now_keeps vblank_works_keeps kms_scanout_update_keeps
  scanout_flip_keeps page_flip_relative_keeps : keeps.
Lemma prime_scanout_update_keeps' sw fuel ent : keeps (amdgpu_prime_scanout_update sw fuel ent).
Proof. unfold amdgpu_prime_scanout_update. keeps_auto. Qed.
Lemma prime_scanout_flip_keeps ent : keeps (amdgpu_prime_scanout_flip ent).
Proof. unfold amdgpu_prime_scanout_flip. keeps_auto. Qed.
#[local] Hint Resolve prime_scanout_update_keeps' prime_scanout_flip_keeps : keeps.
Lemma dirty_update_keeps sw fuel scrn : keeps (amdgpu_dirty_update sw fuel scrn).
Proof.
  unfold amdgpu_dirty_update, update_gpu_entry, region_entry, primary_has_sync_shared_pixmap,
    secondary_has_sync_shared_pixmap. keeps_auto.
Qed.
#[local] Hint Resolve dirty_update_keeps : keeps.
Lemma block_handler_keeps sw fuel scrn : keeps (AMDGPUBlockHandler_KMS sw fuel scrn).
Proof. unfold AMDGPUBlockHandler_KMS. keeps_auto. Qed.
End Safe.
