(* ===== verification/Present.v ===== *)
(** * The Present extension: src/src/amdgpu_present.c

    Vblank events and page flips on behalf of the server's Present extension, and
    the variable refresh rate of the window that flips. *)
From stdpp Require Import strings.
From S2P Require Import Prelude Modes Region World Fb Queue Bo PixmapFb Crtc Keeps Scanout Modeset Flip.

Definition Success : Z := 0.
Definition BadAlloc : Z := 11.
Definition EBUSY : Z := 16.
Definition DRM_CAP_ASYNC_PAGE_FLIP : Z := 7.

Section Code.
Context `{env : Env} `{srv : XServer} `{callbacks : Callbacks} `{rot : Rotator}.
Context (sw_cursor : bool).

(** [None] is an error code; otherwise [*ust] and [*msc]. *)
Definition amdgpu_present_get_ust_msc (crtc : loc) : D (option (Z * Z)) :=
  d ← get_dcrtc crtc;
  if negb (dpms_mode d =? DPMSModeOn) then mret None
  else drmmode_crtc_get_ust_msc crtc.

Definition amdgpu_present_set_screen_vrr (scrn : loc) (on : bool) : D unit :=
  info ← load w_scrns scrn;
  mfor (crtcs info) (fun crtc => drmmode_crtc_set_vrr crtc on).

Fixpoint poll_loop (fuel : nat) : D Z :=
  match fuel with
  | O => nofuel
  | S fuel' =>
      r ← call PollFd;
      if (r.1 =? -1) && ((r.2 =? EINTR) || (r.2 =? EAGAIN)) then poll_loop fuel' else mret r.1
  end.

Definition amdgpu_present_flush_drm_events (fuel : nat) : D bool :=
  r ← poll_loop fuel;
  if r <=? 0 then mret false
  else
    n ← amdgpu_drm_handle_event fuel;
    mret (0 <=? n).

(** [struct amdgpu_present_vblank_event *event = data] *)
Definition cookie_event (data : cookie) : D loc :=
  match data with EventData l => mret l | _ => raise NullDeref end.

Definition amdgpu_present_vblank_handler (crtc : loc) (msc usec : Z) (data : cookie) : D unit :=
  l ← cookie_event data;
  e ← load w_events l;
  _ ← call (PresentEventNotify (pe_event_id e) usec msc);
  free w_events l.

Definition amdgpu_present_vblank_abort (data : cookie) : D unit :=
  l ← cookie_event data;
  free w_events l.

(** [for (;;)]: asks the kernel until it accepts the request, making room in its
    event queue while that is full. *)
Fixpoint queue_vblank_loop (fuel : nat) (crtc : loc) (msc seq : Z) : D Z :=
  match fuel with
  | O => nofuel
  | S fuel' =>
      r ← drmmode_wait_vblank crtc (Z.lor DRM_VBLANK_ABSOLUTE DRM_VBLANK_EVENT) msc seq;
      match r with
      | inr _ => mret Success
      | inl errno =>
          more ← (if negb (errno =? EBUSY) then mret false else amdgpu_present_flush_drm_events fuel');
          if more : bool then queue_vblank_loop fuel' crtc msc seq
          else _ ← amdgpu_drm_abort_entry seq; mret BadAlloc
      end
  end.

(** [calloc] of an event with its fields set. *)
Definition new_event (e : present_event) : D (option loc) :=
  ok ← call (Calloc "amdgpu_present_vblank_event");
  if negb ok then mret None else l ← new w_events e; mret (Some l).

Definition amdgpu_present_queue_vblank (fuel : nat) (crtc : loc) (event_id msc : Z) : D Z :=
  ev ← new_event (PEvent event_id false);
  match ev with
  | None => mret BadAlloc
  | Some l =>
      seq ← amdgpu_drm_queue_alloc crtc AMDGPU_DRM_QUEUE_CLIENT_DEFAULT event_id (EventData l)
              amdgpu_present_vblank_handler_proc amdgpu_present_vblank_abort_proc false;
      if seq =? AMDGPU_DRM_QUEUE_ERROR then _ ← free w_events l; mret BadAlloc
      else queue_vblank_loop fuel crtc (u32 msc) seq
  end.

Definition amdgpu_present_abort_vblank (event_id : Z) : D unit := amdgpu_drm_abort_id event_id.

Definition amdgpu_present_flush (scrn : loc) : D unit := amdgpu_glamor_flush scrn.

(** The loop of [amdgpu_present_check_unflip]: the CRTCs that are on, or nothing
    if one of them is flipping. *)
Fixpoint count_unflip (l : list loc) (num_crtcs_on : Z) : D (option Z) :=
  match l with
  | [] => mret (Some num_crtcs_on)
  | crtc :: r =>
      can ← drmmode_crtc_can_flip crtc;
      if negb can then count_unflip r num_crtcs_on
      else
        d ← get_dcrtc crtc;
        match flip_pending d with
        | Some _ => mret None
        | None => count_unflip r (if tear_free d then num_crtcs_on else num_crtcs_on + 1)
        end
  end.

Definition amdgpu_present_check_unflip (scrn : loc) : D bool :=
  info ← load w_scrns scrn;
  if negb (vtSema info) then mret false
  else
    n ← count_unflip (crtcs info) 0;
    mret match n with None => false | Some n => n >? 0 end.

(** The loop of [amdgpu_present_check_flip] over the CRTCs. *)
Fixpoint count_flip (l : list loc) (target : loc) (num_crtcs_on : Z) : D (option Z) :=
  match l with
  | [] => mret (Some num_crtcs_on)
  | crtc :: r =>
      can ← drmmode_crtc_can_flip crtc;
      if can : bool then count_flip r target (num_crtcs_on + 1)
      else if bool_decide (crtc = target) then mret None
      else count_flip r target num_crtcs_on
  end.

Definition amdgpu_present_check_flip (crtc : loc) (window : option loc) (pix : loc) : D bool :=
  c ← load w_crtcs crtc;
  let scrn := crtc_scrn c in
  info ← load w_scrns scrn;
  priv ← get_priv pix;
  if negb (vtSema info) then mret false
  else if negb (allowPageFlip info) then mret false
  else if sprites_visible info >? 0 then mret false
  else if dri2_flipping info then mret false
  else if match priv with Some pr => fb_failed pr | None => false end then mret false
  else
    fb ← amdgpu_pixmap_get_fb pix;
    match fb with
    | None =>
        priv ← get_priv pix;
        _ ← match priv with
            | Some pr => mwhen (negb (fb_failed pr)) (set_priv pix (Some (pr <| fb_failed := true |>)))
            | None => mret tt
            end;
        mret false
    | Some _ =>
        let dc_enabled := drmmode_cm_prop_supported info CM_GAMMA_LUT in
        p ← load w_pixmaps pix;
        sp ← load w_pixmaps (screen_pixmap info);
        if (drm_version_minor info <? (if dc_enabled then 31 else 34)) && negb (devKind p =? devKind sp)
        then mret false
        else
          tiling ← (if negb dc_enabled || (drm_version_minor info <? 31) then
                      a ← amdgpu_pixmap_get_tiling_info pix;
                      b ← amdgpu_pixmap_get_tiling_info (screen_pixmap info);
                      mret (a =? b)
                    else mret true);
          if negb tiling then mret false
          else
            n ← count_flip (crtcs info) crtc 0;
            match n with
            | None => mret false
            | Some n =>
                if n =? 0 then mret false
                else _ ← update w_scrns scrn (setf flip_window (fun _ => window)); mret true
            end
    end.

Definition amdgpu_present_flip_event (crtc : loc) (msc ust : Z) (data : cookie) : D unit :=
  c ← load w_crtcs crtc;
  l ← cookie_event data;
  e ← load w_events l;
  _ ← mwhen (pe_unflip e) (update w_scrns (crtc_scrn c) (setf present_flipping (fun _ => false)));
  _ ← call (PresentEventNotify (pe_event_id e) ust msc);
  free w_events l.

Definition amdgpu_present_flip_abort (data : cookie) : D unit :=
  l ← cookie_event data;
  free w_events l.

Definition amdgpu_window_has_variable_refresh (win : option loc) : D bool :=
  l ← deref win;
  gets (fun w => bool_decide (l ∈ w_vrr_windows w)).

Definition amdgpu_vrr_property_update (scrn window : loc) (variable_refresh : bool) : D unit :=
  _ ← modify (setf w_vrr_windows (fun s => if variable_refresh then {[window]} ∪ s else s ∖ {[window]}));
  info ← load w_scrns scrn;
  mwhen (bool_decide (flip_window info = Some window) && present_flipping info)
    (amdgpu_present_set_screen_vrr scrn variable_refresh).

Definition amdgpu_present_flip (fuel : nat) (crtc : loc) (event_id target_msc : Z) (pix : loc)
    (sync_flip : bool) : D bool :=
  c ← load w_crtcs crtc;
  let scrn := crtc_scrn c in
  info ← load w_scrns scrn;
  ok ← amdgpu_present_check_flip crtc (flip_window info) pix;
  if negb ok then mret false
  else
    ev ← new_event (PEvent event_id false);
    match ev with
    | None => mret false
    | Some l =>
        info ← load w_scrns scrn;
        vrr ← (if vrr_support info then amdgpu_window_has_variable_refresh (flip_window info) else mret false);
        _ ← mwhen vrr (amdgpu_present_set_screen_vrr scrn true);
        _ ← amdgpu_glamor_flush scrn;
        ret ← amdgpu_do_pageflip fuel scrn AMDGPU_DRM_QUEUE_CLIENT_DEFAULT pix event_id (EventData l)
                (Some crtc) amdgpu_present_flip_event_proc amdgpu_present_flip_abort_proc (negb sync_flip)
                (u32 target_msc);
        _ ← mwhen ret (update w_scrns scrn (setf present_flipping (fun _ => true)));
        mret ret
    end.

(** The [modeset:] label of [amdgpu_present_unflip]. *)
Definition unflip_modeset (fuel : nat) (scrn : loc) (event_id : Z) : D unit :=
  _ ← amdgpu_glamor_finish scrn;
  info ← load w_scrns scrn;
  _ ← mfor (crtcs info) (fun crtc =>
        c ← load w_crtcs crtc;
        if negb (enabled c) || tear_free (driver_private c) then mret tt
        else if dpms_mode (driver_private c) =? DPMSModeOn then reset_mode sw_cursor fuel crtc
        else set_dcrtc crtc (setf need_modeset (fun _ => true)));
  _ ← call (PresentEventNotify event_id 0 0);
  update w_scrns scrn (setf present_flipping (fun _ => false)).

Definition amdgpu_present_unflip (fuel : nat) (scrn : loc) (event_id : Z) : D unit :=
  info ← load w_scrns scrn;
  async ← gets w_present_async;
  _ ← amdgpu_present_set_screen_vrr scrn false;
  can ← amdgpu_present_check_unflip scrn;
  if negb can then unflip_modeset fuel scrn event_id
  else
    ev ← new_event (PEvent event_id true);
    match ev with
    | None => unflip_modeset fuel scrn event_id
    | Some l =>
        _ ← amdgpu_glamor_flush scrn;
        ok ← amdgpu_do_pageflip fuel scrn AMDGPU_DRM_QUEUE_CLIENT_DEFAULT (screen_pixmap info) event_id
               (EventData l) None amdgpu_present_flip_event_proc amdgpu_present_flip_abort_proc async 0;
        if ok : bool then mret tt else unflip_modeset fuel scrn event_id
    end.

Definition amdgpu_present_has_async_flip : D bool :=
  r ← call (DrmGetCap DRM_CAP_ASYNC_PAGE_FLIP);
  mret match r with Some value => value =? 1 | None => false end.

(** [ok] is the result of the server's [present_screen_init]. *)
Definition amdgpu_present_screen_init (scrn : loc) (ok : bool) : D bool :=
  async ← amdgpu_present_has_async_flip;
  _ ← mwhen async
        (_ ← modify (setf w_present_async (fun _ => true));
         update w_scrns scrn (setf can_async_flip (fun _ => true)));
  mret ok.
End Code.

(** The functions of this file behind their pointers, the others as in [rest]. *)
Definition present_callbacks `{Env} (rest : Callbacks) : Callbacks := {|
  call_handler h crtc msc usec data :=
    match h with
    | amdgpu_present_vblank_handler_proc => amdgpu_present_vblank_handler crtc msc usec data
    | amdgpu_present_flip_event_proc => amdgpu_present_flip_event crtc msc usec data
    | _ => call_handler (Callbacks := rest) h crtc msc usec data
    end;
  call_abort a crtc data :=
    match a with
    | amdgpu_present_vblank_abort_proc => amdgpu_present_vblank_abort data
    | amdgpu_present_flip_abort_proc => amdgpu_present_flip_abort data
    | _ => call_abort (Callbacks := rest) a crtc data
    end
|}.

(** ** Events are owned by the queue or freed *)

(** The law of the callbacks that this part relies on: the abort function of a
    queued vblank event is the one of this file. *)
Class PresentAbort `{Env} `{Callbacks} : Prop :=
  present_abort_law : forall crtc data,
    call_abort amdgpu_present_vblank_abort_proc crtc data = amdgpu_present_vblank_abort data.

#[export] Instance present_abort_of `{Env} (rest : Callbacks) : @PresentAbort _ (present_callbacks rest).
Proof. by intros crtc data. Qed.

Section Events.
Context `{env : Env} `{callbacks : Callbacks} `{law : !PresentAbort}.

(** The number [amdgpu_drm_queue_alloc] gives out. *)
Definition alloc_seq (q : drm_queue) : Z :=
  if amdgpu_drm_queue_seq q =? AMDGPU_DRM_QUEUE_ERROR then u64 (amdgpu_drm_queue_seq q + 1)
  else amdgpu_drm_queue_seq q.

Lemma alloc_seq_fresh w :
  queue_wf w -> seqs_below (w_queue w) -> amdgpu_drm_queue_seq (w_queue w) < 2 ^ 64 - 2 ->
  alloc_seq (w_queue w) <> AMDGPU_DRM_QUEUE_ERROR /\
  forall e, e ∈ entries (w_queue w) -> (q_seq e =? alloc_seq (w_queue w)) = false.
Proof.
  intros Hw Hb Hc. pose proof (qw_counter _ Hw) as Hcnt. unfold seqs_below in Hb. rewrite Forall_forall in Hb.
  assert (Hs : amdgpu_drm_queue_seq (w_queue w) <= alloc_seq (w_queue w) /\ alloc_seq (w_queue w) <> 0).
  { unfold alloc_seq, AMDGPU_DRM_QUEUE_ERROR.
    destruct (Z.eqb_spec (amdgpu_drm_queue_seq (w_queue w)) 0) as [->|?]; [| lia].
    unfold u64. rewrite Z.mod_small; lia. }
  split; [unfold AMDGPU_DRM_QUEUE_ERROR; lia |]. intros e He. specialize (Hb e He). cbn in Hb. lia.
Qed.

Lemma find_entry_none P l : (forall e, e ∈ l -> P e = false) -> list_find_entry P l = None.
Proof.
  intros Hl. unfold list_find_entry. destruct (list_find _ l) as [[i e]|] eqn:Hf; [| done].
  apply list_find_Some in Hf as (Hi & Hp & _). apply list_elem_of_lookup_2 in Hi.
  rewrite (Hl e Hi) in Hp. done.
Qed.
Lemma find_entry_last P l e : (forall x, x ∈ l -> P x = false) -> P e = true -> list_find_entry P (l ++ [e]) = Some e.
Proof.
  intros Hl He. unfold list_find_entry. induction l as [|x l IH].
  - cbn. by rewrite decide_True.
  - cbn. rewrite decide_False by (rewrite (Hl x (list_elem_of_here x l)); done).
    assert (IH' := IH (fun y Hy => Hl y (list_elem_of_further y x l Hy))).
    destruct (list_find _ (l ++ [e])) as [[i y]|]; [| done]. done.
Qed.

(** The entry that was allocated last is the one [amdgpu_drm_abort_entry] finds;
    afterwards the lists are as before. *)
Lemma wp_abort_last s e (Q : unit -> world -> Prop) w q :
  s <> AMDGPU_DRM_QUEUE_ERROR -> q_seq e = s ->
  (forall x, x ∈ entries q -> (q_seq x =? s) = false /\ q_addr x <> q_addr e) ->
  w_queue w = q <| amdgpu_drm_queue_seq := u64 (s + 1) |> <| amdgpu_drm_queue ::= fun l => l ++ [e] |> ->
  wp (call_abort (q_abort e) (Some (q_crtc e)) (q_data e)) Q
     (w <| w_queue := q <| amdgpu_drm_queue_seq := u64 (s + 1) |> |>) ->
  wp (amdgpu_drm_abort_entry s) Q w.
Proof.
  intros Hs He Hx Hq HQ. unfold amdgpu_drm_abort_entry. apply Z.eqb_neq in Hs. rewrite Hs.
  apply wp_bind, wp_gets. rewrite Hq. set (q' := setf amdgpu_drm_queue _ _).
  change (amdgpu_drm_vblank_signalled q') with (amdgpu_drm_vblank_signalled q).
  change (amdgpu_drm_vblank_deferred q') with (amdgpu_drm_vblank_deferred q).
  change (amdgpu_drm_queue q') with (amdgpu_drm_queue q ++ [e]).
  assert (Hin : forall x, x ∈ amdgpu_drm_queue q \/ x ∈ amdgpu_drm_flip_signalled q \/
    x ∈ amdgpu_drm_vblank_signalled q \/ x ∈ amdgpu_drm_vblank_deferred q ->
    (q_seq x =? s) = false /\ q_addr x <> q_addr e) by (intros x Hin; apply Hx; by apply in_entries).
  assert (Hnot : forall l : list queue_entry, (forall x, x ∈ l -> q_addr x <> q_addr e) -> q_addr e ∉ (q_addr <$> l)).
  { intros l Hl (y & Hy & Hyl)%list_elem_of_fmap. exact (Hl y Hyl (eq_sym Hy)). }
  rewrite (find_entry_none _ (amdgpu_drm_vblank_signalled q)) by (intros x H; apply Hin; tauto).
  rewrite (find_entry_none _ (amdgpu_drm_vblank_deferred q)) by (intros x H; apply Hin; tauto).
  rewrite (find_entry_last _ _ e) by (done || (intros x H; apply Hin; tauto) || (rewrite He; apply Z.eqb_refl)).
  apply wp_bind, wp_modify. eapply eq_ind; [exact HQ |]. unfold setf. cbn. rewrite Hq.
  unfold queue_del, setf. cbn. rewrite list_del_mid; [| apply Hnot; intros x H; apply Hin; tauto | apply not_elem_of_nil].
  rewrite !list_del_id by (apply Hnot; intros x H; apply Hin; tauto). by rewrite app_nil_r.
Qed.

(** The event waits in the queue for its CRTC. *)
Definition event_queued (crtc : loc) (event_id : Z) (w w' : world) : Prop :=
  exists l e, w_events w !! l = None /\ w_events w' = <[l := PEvent event_id false]> (w_events w) /\
    amdgpu_drm_queue (w_queue w') = amdgpu_drm_queue (w_queue w) ++ [e] /\
    q_data e = EventData l /\ q_crtc e = crtc /\ q_id e = event_id /\
    q_handler e = Some amdgpu_present_vblank_handler_proc /\ q_abort e = amdgpu_present_vblank_abort_proc.

(** Nothing is left of it. *)
Definition event_gone (w w' : world) : Prop :=
  w_events w' = w_events w /\ entries (w_queue w') = entries (w_queue w).

(** [amdgpu_present_queue_vblank] returns [Success] with the event in the DRM
    queue, under its id and with the CRTC it is for, or [BadAlloc] with nothing
    left behind: neither an allocation failure nor a request the kernel refuses
    leaks the event or leaves a queue entry. *)
Theorem queue_vblank_owned fuel crtc c event_id msc w :
  queue_wf w -> seqs_below (w_queue w) -> amdgpu_drm_queue_seq (w_queue w) < 2 ^ 64 - 2 ->
  w_crtcs w !! crtc = Some c -> w_events w !! w_next w = None ->
  (forall t ty s g, reply t (DrmWaitVBlank ty s g) <> inl EBUSY) ->
  wp (amdgpu_present_queue_vblank (S fuel) crtc event_id msc)
     (fun r w' => (r = Success /\ event_queued crtc event_id w w') \/ (r = BadAlloc /\ event_gone w w')) w.
Proof.
  intros Hw Hb Hc Hcr Hfresh Hbusy. unfold amdgpu_present_queue_vblank, new_event.
  apply wp_bind, wp_bind. wp_ext. destruct (reply _ _); cbn [negb]; [| apply wp_ret, wp_ret; by right].
  apply wp_bind, wp_new, wp_ret, wp_bind. set (l := w_next (setf w_trace _ w)).
  change (w_next (setf w_trace _ w)) with (w_next w) in l.
  set (w1 := setf w_events _ _). unfold amdgpu_drm_queue_alloc. apply wp_bind. wp_ext.
  destruct (reply _ _); cbn [negb]; cycle 1.
  { apply wp_ret. change (AMDGPU_DRM_QUEUE_ERROR =? AMDGPU_DRM_QUEUE_ERROR) with true.
    eapply wp_bind, wp_free; [apply lookup_insert_eq |]. apply wp_ret. right. split; [done |]. split; [| done].
    cbn. unfold setf. cbn. by rewrite delete_insert_id. }
  apply wp_bind, wp_gets, wp_bind, wp_modify, wp_bind, wp_gets, wp_bind, wp_modify, wp_ret.
  change (w_queue (setf w_next Pos.succ _)) with (w_queue w). fold (alloc_seq (w_queue w)).
  destruct (alloc_seq_fresh w Hw Hb Hc) as [Hne Huniq]. set (s := alloc_seq (w_queue w)) in *.
  destruct (Z.eqb_spec s AMDGPU_DRM_QUEUE_ERROR); [done |].
  set (e := Entry _ _ _ _ _ _ _ _ _ _ _). set (w2 := setf w_queue _ _).
  cbn [queue_vblank_loop]. apply wp_bind. unfold drmmode_wait_vblank, drmmode_get_crtc_id.
  apply wp_bind, wp_bind, (wp_get_dcrtc _ c); [done |]. apply wp_ret, wp_bind. wp_ext. apply wp_ret.
  specialize (Hbusy (w_trace w2)).
  lazymatch goal with |- context [reply (w_trace w2) (DrmWaitVBlank ?ty ?sq ?g)] => specialize (Hbusy ty sq g) end.
  destruct (reply (w_trace w2) _) as [errno|[[sec usec] sq]]; cycle 1.
  { apply wp_ret. left. split; [done |]. by exists l, e. }
  destruct (Z.eqb_spec errno EBUSY) as [->|Hne']; [done |]. cbn [negb]. apply wp_bind, wp_ret, wp_bind.
  eapply (wp_abort_last s e _ _ (w_queue w)); [done | done | | done |].
  { intros x Hx. split; [by apply Huniq |]. pose proof (qw_bound _ Hw) as Hbd. rewrite Forall_forall in Hbd.
    specialize (Hbd x Hx). cbn in Hbd. unfold e. cbn. lia. }
  cbn [q_abort q_crtc q_data e]. rewrite present_abort_law. apply wp_bind, wp_ret.
  eapply wp_free; [apply lookup_insert_eq |]. apply wp_ret. right. split; [done |]. split; [| done].
  cbn. unfold setf. cbn. by rewrite delete_insert_id.
Qed.
End Events.

(** One event for the CRTC of the sample world. *)
Lemma queue_vblank_owned_witness :
  exists w', @amdgpu_present_queue_vblank Sample.env (@present_callbacks Sample.env noting_callbacks) 2 3 7 100 Sample.w = Ok Success w' /\
    event_queued 3 7 Sample.w w'.
Proof.
  set (cb := @present_callbacks Sample.env noting_callbacks).
  pose proof (@queue_vblank_owned Sample.env cb (@present_abort_of Sample.env noting_callbacks) 1 3 Sample.crtc 7 100 Sample.w sample_queue_wf
    ltac:(constructor) ltac:(vm_compute; reflexivity) eq_refl eq_refl ltac:(intros; discriminate)) as Hv.
  assert (Hok : match @amdgpu_present_queue_vblank Sample.env cb 2 3 7 100 Sample.w with
                | Ok r _ => r =? Success | _ => false end = true) by (vm_compute; reflexivity).
  unfold wp in Hv. destruct (amdgpu_present_queue_vblank _ _ _ _ _) as [r w'| |]; [| discriminate Hok..].
  apply Z.eqb_eq in Hok as ->. exists w'. split; [done |]. by destruct Hv as [[_ ?]|[? _]].
Defined.
