(* ===== verification/Dri2.v ===== *)
(** * The DRI2 extension: src/src/amdgpu_dri2.c

    Buffers shared with DRI2 clients, and the swaps and waits they ask for.  A
    request becomes a frame event, which waits in the DRM event queue for a vblank
    of its CRTC, or for a timer while that CRTC is off.  The counters of the kernel
    ([seq]) and of the client ([msc]) differ by the vblanks a CRTC missed while it
    was off and by those a window gained or lost when it moved to another CRTC. *)
From stdpp Require Import strings.
From S2P Require Import Prelude Modes Region World Video Fb DriState Queue Bo PixmapFb Crtc Keeps Scanout Modeset.
From S2P Require Import Flip Present.

Definition FALLBACK_SWAP_DELAY : Z := 16.
Definition DRI2BufferFrontLeft : Z := 0.
Definition DRI2_EXCHANGE_COMPLETE : Z := 1.
Definition DRI2_BLIT_COMPLETE : Z := 2.
Definition DRI2_FLIP_COMPLETE : Z := 3.
Definition DRM_VBLANK_NEXTONMISS : Z := 0x10000000.
Definition DRM_CAP_VBLANK_HIGH_CRTC : Z := 2.
Definition AMDGPU_DRM_QUEUE_ID_DEFAULT : Z := 2 ^ 64 - 1.

(** ** Arithmetic of frame counters *)

(** [amdgpu_get_msc_delta] for a window with the given [vblank_delta]. *)
Definition msc_delta_of (interpolated : Z) (window_delta : option Z) : Z :=
  match window_delta with
  | Some delta => u32 (interpolated + delta)
  | None => interpolated
  end.

(** The extrapolation of a stopped CRTC's counter. *)
Definition stopped_frames (last_ust fps now : Z) : Z := u64 (u64 (now - last_ust) * u64 fps) / 1000000.
Definition stopped_frame (last_ust last_seq fps now : Z) : Z := u64 (last_seq + stopped_frames last_ust fps now).

(** The time and the count [amdgpu_dri2_get_crtc_msc] extrapolates. *)
Definition extrapolated (last_ust last_seq fps now : Z) : Z * Z :=
  (u64 (last_ust + u64 (stopped_frames last_ust fps now * 1000000) / u64 fps), stopped_frame last_ust last_seq fps now).

(** [*target_msc] when the point asked for has passed: the next frame that
    satisfies the divisor and remainder. *)
Definition next_match (current_msc divisor remainder : Z) : Z :=
  let t := u64 (current_msc - current_msc mod divisor + remainder) in
  if current_msc mod divisor >=? remainder then u64 (t + divisor) else t.

(** The delay in milliseconds, with its margin. *)
Definition delay_ms (d : Z) : Z :=
  let d_ms := u32 d / 1000 in
  if u32 (u32 d - d_ms * 1000) >? 0 then u32 (d_ms + 2) else u32 (d_ms + 1).

(** The rest of [amdgpu_dri2_extrapolate_msc_delay] once the time is known: the
    new [*target_msc] and the delay. *)
Definition extrapolate_delay (fps last_ust last_seq now target_msc divisor remainder : Z) : Z * Z :=
  let target_time t := u64 (last_ust + Z.quot (s64 (s64 (t - last_seq) * 1000000)) fps) in
  let d := s64 (target_time target_msc - now) in
  if d <? 0 then
    let current_msc := u32 (last_seq + Z.quot (s64 (u64 (now - last_ust) * fps)) 1000000) in
    if divisor =? 0 then (current_msc, delay_ms 0)
    else
      let t := u32 (next_match current_msc divisor remainder) in
      (t, delay_ms (s64 (target_time t - now)))
  else (target_msc, delay_ms d).

(** The frame [amdgpu_dri2_schedule_wait_msc] asks the kernel for: the argument
    of the ioctl, for a client counter that is [msc_delta] ahead of the kernel's. *)
Definition wait_target (current_msc target_msc divisor remainder msc_delta : Z) : Z :=
  if (divisor =? 0) || (current_msc <? target_msc)
  then u32 ((if current_msc >=? target_msc then current_msc else target_msc) - msc_delta)
  else
    let t := u64 (current_msc - current_msc mod divisor + remainder - msc_delta) in
    u32 (if current_msc mod divisor >=? remainder then u64 (t + divisor) else t).

(** The same of [amdgpu_dri2_schedule_swap]; [flip] is 1 for a page flip. *)
Definition swap_target (current_msc target_msc divisor remainder msc_delta flip : Z) : Z :=
  let target_msc := if target_msc >? 0 then target_msc - flip else target_msc in
  if (divisor =? 0) || (current_msc <? target_msc)
  then u32 ((if current_msc >=? target_msc then current_msc else target_msc) - msc_delta)
  else
    let event_msc := u64 (current_msc - current_msc mod divisor + remainder - msc_delta) in
    let event_msc := if event_msc <=? current_msc then u64 (event_msc + divisor) else event_msc in
    u32 (event_msc - flip).

Definition optimal_flip_target (fps : Z) (allow : bool) (current_msc target_msc : Z) : Z :=
  if (u32 fps >? 0) && allow then
    if target_msc <=? current_msc then u64 (current_msc + 1)
    else if target_msc >? u64 (current_msc + 1 + 2) then u64 (current_msc + 1)
    else target_msc
  else target_msc.

(** ** The code *)

(** The position of a window pixmap on the screen (Composite). *)
Class Composite := pixmap_screen_origin : world -> loc -> Z * Z.

Section Code.
Context `{env : Env} `{srv : XServer} `{randr : RandR} `{comp : Composite} `{callbacks : Callbacks}.

(** [dixLookupDrawable]; [None] is an error code. *)
Definition dixLookupDrawable (id : Z) : D (option drawable) :=
  gets (fun w => dri_drawables (w_dri w) !! id).

(** A drawable the caller passed. *)
Definition load_drawable (id : Z) : D drawable :=
  d ← dixLookupDrawable id; some_or UseAfterFree d.

Definition set_drawable (id : Z) (f : drawable -> drawable) : D unit :=
  modify (setf w_dri (setf dri_drawables (alter f id))).

Definition pixmap_ref (pix : loc) : D unit := update w_pixmaps pix (setf pix_refcnt (fun n => n + 1)).

(** *** Buffers *)

Definition amdgpu_get_flink_name (pix : loc) : D (option Z) :=
  bo ← amdgpu_get_pixmap_bo pix;
  exported ← match bo with
             | Some b =>
                 buf ← load w_bos b;
                 if is_gbm buf then mret None else call (AmdgpuBoExportFlink (bo_handle buf))
             | None => mret None
             end;
  match exported with
  | Some name => mret (Some name)
  | None =>
      h ← amdgpu_pixmap_get_handle pix;
      match h with
      | None => mret None
      | Some handle => call (DrmGemFlink handle)
      end
  end.

(** amdgpu_glamor.c: the pixmap of the drawable takes over the buffer of [pixmap],
    which is destroyed. *)
Definition amdgpu_glamor_set_pixmap_bo (dep : Z) (old pixmap : loc) : D loc :=
  priv ← get_priv pixmap;
  o ← load w_pixmaps old;
  gc ← call (GetScratchGC dep);
  _ ← mwhen gc (call (CopyArea old pixmap None 0 0 (pix_width o) (pix_height o) 0 0));
  _ ← call (Notify "glamor_egl_exchange_buffers" [Zpos old; Zpos pixmap]);
  old_priv ← get_priv old;
  _ ← set_priv pixmap old_priv;
  _ ← set_priv old priv;
  p ← load w_pixmaps pixmap;
  _ ← modify_pixmap_header old (pix_width o) (pix_height o) 0 0 (devKind p) 0;
  _ ← update w_pixmaps old (setf devPrivate_ptr (fun _ => 0));
  _ ← dixDestroyPixmap pixmap;
  mret old.

(** Depth and bytes per pixel of a new buffer. *)
Definition buffer_format (format draw_depth draw_bpp : Z) : Z * Z :=
  if negb (format =? 0) then
    let dep := s32 format in
    (dep, if dep =? 15 then 2 else if (dep =? 24) || (dep =? 30) then 4 else Z.quot dep 8)
  else (draw_depth, draw_bpp / 8).

Inductive front_pixmap : Type :=
| FrontShared (pix : loc)
| FrontGlamor (width height : Z)
| FrontNone.

(** The pixmap behind the front buffer: it can be shared as it is, or glamor has
    to give it a buffer first, or it is on another screen. *)
Definition find_front (scrn : loc) (info : scrn_info) (d : drawable) : D front_pixmap :=
  p ← load w_pixmaps (draw_pixmap d);
  if negb (bool_decide (pix_scrn p = scrn)) then mret FrontNone
  else
    glamor ← (if use_glamor info then
                h ← amdgpu_pixmap_get_handle (draw_pixmap d);
                mret match h with Some _ => false | None => true end
              else mret false);
    if glamor : bool then mret (FrontGlamor (pix_width p) (pix_height p))
    else _ ← pixmap_ref (draw_pixmap d); mret (FrontShared (draw_pixmap d)).

Definition amdgpu_dri2_create_buffer2 (scrn : loc) (draw attachment format : Z) : D (option loc) :=
  info ← load w_scrns scrn;
  d ← load_drawable draw;
  let '(dep, cpp) := buffer_format format (draw_depth d) (draw_bpp d) in
  sp ← load w_pixmaps (screen_pixmap info);
  let front_width := pix_width sp in
  front ← (if attachment =? DRI2BufferFrontLeft then find_front scrn info d else mret FrontNone);
  let create w h :=
    screen_CreatePixmap scrn (if w =? front_width then virtualX info else w) h dep AMDGPU_CREATE_PIXMAP_DRI2 in
  pixmap ← match front with
           | FrontShared pix => mret (Some pix)
           | FrontGlamor w h => create w h
           | FrontNone =>
               if attachment =? DRI2BufferFrontLeft then mret None
               else create (draw_width d) (draw_height d)
           end;
  match pixmap with
  | None => mret None
  | Some pix =>
      ok ← call (Calloc "DRI2BufferRec");
      if negb ok then _ ← dixDestroyPixmap pix; mret None
      else
        pix ← match front with
              | FrontGlamor _ _ =>
                  pix ← amdgpu_glamor_set_pixmap_bo (draw_depth d) (draw_pixmap d) pix;
                  _ ← pixmap_ref pix;
                  _ ← amdgpu_glamor_flush scrn;
                  mret pix
              | _ => mret pix
              end;
        name ← amdgpu_get_flink_name pix;
        match name with
        | None => _ ← dixDestroyPixmap pix; mret None
        | Some name =>
            ok ← call (Calloc "dri2_buffer_priv");
            if negb ok then _ ← dixDestroyPixmap pix; mret None
            else
              p ← load w_pixmaps pix;
              l ← new w_dri2_buffers (Dri2Buffer attachment name (devKind p) cpp format (Some pix) attachment 1);
              mret (Some l)
        end
  end.

Definition amdgpu_dri2_destroy_buffer2 (buffers : option loc) : D unit :=
  match buffers with
  | None => mret tt
  | Some l =>
      b ← load w_dri2_buffers l;
      if bp_refcnt b =? 0 then mret tt
      else
        let n := u32 (bp_refcnt b - 1) in
        _ ← store w_dri2_buffers l (b <| bp_refcnt := n |>);
        if n =? 0 then
          _ ← match bp_pixmap b with Some pix => dixDestroyPixmap pix | None => mret tt end;
          free w_dri2_buffers l
        else mret tt
  end.

Definition amdgpu_dri2_ref_buffer (buffer : loc) : D unit :=
  update w_dri2_buffers buffer (setf bp_refcnt (fun n => u32 (n + 1))).

Definition amdgpu_dri2_unref_buffer (buffer : option loc) : D unit :=
  match buffer with
  | None => mret tt
  | Some l =>
      b ← load w_dri2_buffers l;
      pix ← deref (bp_pixmap b);
      _ ← load w_pixmaps pix;
      amdgpu_dri2_destroy_buffer2 buffer
  end.

(** The drawable one end of a copy uses, and whether it is not the window
    itself. *)
Definition copy_end (scrn : loc) (draw : Z) (d : drawable) (buffer : loc) : D (option (drawable_ref * bool)) :=
  b ← load w_dri2_buffers buffer;
  if bp_attachment b =? DRI2BufferFrontLeft then
    if negb (bool_decide (draw_scrn d = scrn)) then
      r ← call (DRI2UpdatePrime draw buffer);
      mret ((fun x => (x, negb (bool_decide (x = DrawRef draw)))) <$> r)
    else mret (Some (DrawRef draw, false))
  else pix ← deref (bp_pixmap b); mret (Some (PixmapRef pix, false)).

Definition ref_depth (r : drawable_ref) : D Z :=
  match r with
  | DrawRef id => d ← load_drawable id; mret (draw_depth d)
  | PixmapRef l => p ← load w_pixmaps l; mret (pix_depth p)
  end.

Definition amdgpu_dri2_copy_region2 (scrn : loc) (draw : Z) (r : region) (dest src : loc) : D unit :=
  d ← load_drawable draw;
  s ← copy_end scrn draw d src;
  match s with
  | None => mret tt
  | Some (src_drawable, _) =>
      t ← copy_end scrn draw d dest;
      match t with
      | None => mret tt
      | Some (dst_drawable, translate) =>
          origin ← gets (fun w => pixmap_screen_origin w (draw_pixmap d));
          let '(off_x, off_y) := if translate && draw_is_window d
                                 then (draw_x d - origin.1, draw_y d - origin.2) else (0, 0) in
          dep ← ref_depth dst_drawable;
          gc ← call (GetScratchGC dep);
          if negb gc then raise NullDeref
          else
            let copy_clip := if translate then RegionTranslate off_x off_y r else r in
            call (CopyRegion src_drawable dst_drawable copy_clip (draw_width d) (draw_height d) off_x off_y)
      end
  end.

(** *** Frame counters *)

Definition window_delta (d : option drawable) : option Z :=
  match d with Some d => if draw_is_window d then Some (vblank_delta d) else None | None => None end.

Definition amdgpu_get_msc_delta (draw : option drawable) (crtc : loc) : D Z :=
  dc ← get_dcrtc crtc;
  mret (msc_delta_of (interpolated_vblanks dc) (window_delta draw)).

(** [Some (ust, msc)] is [TRUE]. *)
Definition amdgpu_dri2_get_crtc_msc (crtc : loc) : D (option (Z * Z)) :=
  c ← load w_crtcs crtc;
  r ← (if amdgpu_crtc_is_enabled c then drmmode_crtc_get_ust_msc crtc else mret None);
  r ← match r with
      | Some t => mret (Some t)
      | None =>
          dc ← get_dcrtc crtc;
          if dpms_last_ust dc =? 0 then mret None
          else
            now ← drmmode_get_current_ust;
            match now with
            | None => mret None
            | Some now =>
                if dpms_last_fps dc =? 0 then raise DivByZero
                else mret (Some (extrapolated (dpms_last_ust dc) (dpms_last_seq dc) (dpms_last_fps dc) now))
            end
      end;
  match r with
  | None => mret None
  | Some (ust, msc) =>
      dc ← get_dcrtc crtc;
      mret (Some (ust, u64 (msc + interpolated_vblanks dc)))
  end.

Definition amdgpu_dri2_drawable_crtc (draw : Z) : D (option loc) :=
  d ← load_drawable draw;
  info ← load w_scrns (draw_scrn d);
  pScreen ← gets (fun w => rr_screen w (draw_scrn d));
  let crtc := amdgpu_pick_best_crtc (vtSema info) pScreen (draw_x d) (draw_x d + draw_width d)
                (draw_y d) (draw_y d + draw_height d) in
  if negb (draw_is_window d) then mret crtc
  else
    match crtc with
    | None => mret (wp_crtc d)
    | Some c =>
        _ ← match wp_crtc d with
            | Some old =>
                if bool_decide (old = c) then mret tt
                else
                  a ← amdgpu_dri2_get_crtc_msc old;
                  match a with
                  | None => mret tt
                  | Some (_, mscold) =>
                      b ← amdgpu_dri2_get_crtc_msc c;
                      match b with
                      | None => mret tt
                      | Some (_, mscnew) =>
                          set_drawable draw (setf vblank_delta (fun v => s32 (v + (mscold - mscnew))))
                      end
                  end
            | None => mret tt
            end;
        _ ← set_drawable draw (setf wp_crtc (fun _ => Some c));
        mret (Some c)
    end.

Definition amdgpu_dri2_get_msc (draw : Z) : D (option (Z * Z)) :=
  crtc ← amdgpu_dri2_drawable_crtc draw;
  match crtc with
  | None => mret (Some (0, 0))
  | Some c =>
      r ← amdgpu_dri2_get_crtc_msc c;
      match r with
      | None => mret None
      | Some (ust, msc) =>
          d ← load_drawable draw;
          let msc := if draw_is_window d then u64 (msc + vblank_delta d) else msc in
          mret (Some (ust, u32 msc))
      end
  end.

Definition amdgpu_get_optimal_flip_target (scrn crtc : loc) (current_msc target_msc : Z) : D Z :=
  info ← load w_scrns scrn;
  dc ← get_dcrtc crtc;
  mret (optimal_flip_target (dpms_last_fps dc) (allowPageFlip info) current_msc target_msc).

Definition amdgpu_update_flip_stats (draw ust : Z) : D unit :=
  d ← load_drawable draw;
  mwhen (draw_is_window d)
    (set_drawable draw (fun d => d <| last_flip_ust := ust |> <| wp_flip_count ::= fun n => u32 (n + 1) |>)).

(** The new target and the delay. *)
Definition amdgpu_dri2_extrapolate_msc_delay (crtc : loc) (target_msc divisor remainder : Z) : D (Z * Z) :=
  dc ← get_dcrtc crtc;
  if dpms_last_ust dc =? 0 then mret (0, FALLBACK_SWAP_DELAY)
  else
    now ← drmmode_get_current_ust;
    match now with
    | None => mret (0, FALLBACK_SWAP_DELAY)
    | Some now =>
        if dpms_last_fps dc =? 0 then raise DivByZero
        else mret (extrapolate_delay (dpms_last_fps dc) (dpms_last_ust dc) (dpms_last_seq dc) now
                     target_msc divisor remainder)
    end.

(** *** Flips and exchanges *)

(** [DRI2FrameEventPtr event = data] *)
Definition cookie_frame (data : cookie) : D loc :=
  match data with FrameData l => mret l | _ => raise NullDeref end.
Definition cookie_flip_event (data : cookie) : D loc :=
  match data with FlipEventData l => mret l | _ => raise NullDeref end.

Definition amdgpu_dri2_flip_event_abort (crtc : option loc) (data : cookie) : D unit :=
  _ ← match crtc with
      | Some c =>
          cr ← load w_crtcs c;
          update w_scrns (crtc_scrn cr) (setf dri2_flipping (fun _ => false))
      | None => mret tt
      end;
  l ← cookie_flip_event data;
  free w_flip_events l.

(** The frame, seconds and microseconds reported for a completed flip: zeros if
    it completed before the frame it was for. *)
Definition flip_report (frame target usec : Z) : Z * Z * Z :=
  if (frame <? target) && (u32 (target - frame) <? 5) then (0, 0, 0)
  else (frame, u32 (usec / 1000000), usec mod 1000000).

Definition amdgpu_dri2_flip_event_handler (crtc : loc) (frame usec : Z) (data : cookie) : D unit :=
  l ← cookie_flip_event data;
  flip ← load w_flip_events l;
  d ← dixLookupDrawable (fv_drawable_id flip);
  _ ← match d with
      | None => mret tt
      | Some _ =>
          delta ← amdgpu_get_msc_delta d crtc;
          let '(f, sec, us) := flip_report (u32 (frame + delta)) (fv_frame flip) usec in
          match fv_type flip with
          | DRI2_SWAP =>
              _ ← call (DRI2SwapComplete (fv_client flip) (fv_drawable_id flip) f sec us DRI2_FLIP_COMPLETE
                          (event_complete flip) (fv_event_data flip));
              amdgpu_update_flip_stats (fv_drawable_id flip) usec
          | _ => mret tt
          end
      end;
  amdgpu_dri2_flip_event_abort (Some crtc) data.

Definition amdgpu_dri2_schedule_flip (fuel : nat) (crtc : loc) (client draw : Z) (front back : loc)
    (func data target_msc : Z) : D bool :=
  c ← load w_crtcs crtc;
  let scrn := crtc_scrn c in
  ok ← call (Calloc "DRI2FrameEventRec");
  if negb ok then mret false
  else
    l ← new w_flip_events (FrameEvent draw client DRI2_SWAP target_msc (Some crtc) None 0 func data None None);
    b ← load w_dri2_buffers back;
    pix ← deref (bp_pixmap b);
    d ← load_drawable draw;
    delta ← amdgpu_get_msc_delta (Some d) crtc;
    ok ← amdgpu_do_pageflip fuel scrn client pix AMDGPU_DRM_QUEUE_ID_DEFAULT (FlipEventData l) (Some crtc)
           amdgpu_dri2_flip_event_handler_proc amdgpu_dri2_flip_event_abort_proc false (u32 (target_msc - delta));
    if ok : bool then _ ← update w_scrns scrn (setf dri2_flipping (fun _ => true)); mret true
    else mret false.

Definition update_front (draw : Z) (front : loc) : D bool :=
  d ← load_drawable draw;
  b ← load w_dri2_buffers front;
  name ← amdgpu_get_flink_name (draw_pixmap d);
  match name with
  | None => mret false
  | Some name =>
      _ ← update w_dri2_buffers front (setf buf_name (fun _ => name));
      old ← deref (bp_pixmap b);
      _ ← dixDestroyPixmap old;
      p ← load w_pixmaps (draw_pixmap d);
      _ ← update w_dri2_buffers front (fun b =>
            b <| buf_pitch := devKind p |> <| buf_cpp := pix_bpp p / 8 |> <| bp_pixmap := Some (draw_pixmap d) |>);
      _ ← pixmap_ref (draw_pixmap d);
      mret true
  end.

Definition can_exchange (draw : Z) (front back : loc) : D bool :=
  bb ← load w_dri2_buffers back;
  ok ← update_front draw front;
  if negb ok then mret false
  else
    fb ← load w_dri2_buffers front;
    front_pixmap ← deref (bp_pixmap fb);
    back_pixmap ← deref (bp_pixmap bb);
    f ← load w_pixmaps front_pixmap;
    b ← load w_pixmaps back_pixmap;
    mret ((pix_width f =? pix_width b) && (pix_height f =? pix_height b) &&
          (pix_bpp f =? pix_bpp b) && (devKind f =? devKind b)).

Definition count_can_flip (l : list loc) : D Z :=
  foldr (fun crtc k n => can ← drmmode_crtc_can_flip crtc; k (if can : bool then n + 1 else n)) mret l 0.

Definition can_flip (crtc : loc) (draw : Z) (front back : loc) : D bool :=
  c ← load w_crtcs crtc;
  info ← load w_scrns (crtc_scrn c);
  d ← load_drawable draw;
  if negb (draw_is_window d) || negb (allowPageFlip info) || (sprites_visible info >? 0) ||
     present_flipping info || negb (vtSema info)
  then mret false
  else
    ok ← call (DRI2CanFlip draw);
    if negb ok then mret false
    else
      n ← count_can_flip (crtcs info);
      if n >? 0 then can_exchange draw front back else mret false.

Definition amdgpu_glamor_exchange_buffers (src dst : loc) : D unit :=
  p ← load w_pixmaps dst;
  info ← load w_scrns (pix_scrn p);
  mwhen (use_glamor info) (call (Notify "glamor_egl_exchange_buffers" [Zpos src; Zpos dst])).

Definition amdgpu_dri2_exchange_buffers (draw : Z) (front back : loc) : D unit :=
  fb ← load w_dri2_buffers front;
  bb ← load w_dri2_buffers back;
  fpix ← deref (bp_pixmap fb);
  f ← load w_pixmaps fpix;
  _ ← call (Notify "DamageRegionAppend" [Zpos fpix; pix_width f; pix_height f]);
  _ ← update w_dri2_buffers front (setf buf_name (fun _ => buf_name bb));
  _ ← update w_dri2_buffers back (setf buf_name (fun _ => buf_name fb));
  front_pix ← get_priv fpix;
  bpix ← deref (bp_pixmap bb);
  back_pix ← get_priv bpix;
  _ ← set_priv fpix back_pix;
  _ ← set_priv bpix front_pix;
  d ← load_drawable draw;
  info ← load w_scrns (draw_scrn d);
  fpr ← some_or NullDeref front_pix;
  _ ← mwhen (bool_decide (priv_bo fpr = front_buffer info))
        (screen_priv ← get_priv (screen_pixmap info);
         bpr ← some_or NullDeref back_pix;
         bo ← deref (priv_bo bpr);
         _ ← amdgpu_bo_ref bo;
         _ ← amdgpu_bo_unref (front_buffer info);
         _ ← update w_scrns (draw_scrn d) (setf front_buffer (fun _ => Some bo));
         _ ← some_or NullDeref screen_priv;
         set_priv (screen_pixmap info) (Some bpr));
  _ ← amdgpu_glamor_exchange_buffers fpix bpix;
  call (Notify "DamageRegionProcessPending" [Zpos fpix]).

(** *** Frame events *)

Definition amdgpu_dri2_frame_event_abort (data : cookie) : D unit :=
  l ← cookie_frame data;
  e ← load w_frame_events l;
  _ ← match fv_timer e with Some t => free w_timers t | None => mret tt end;
  _ ← amdgpu_dri2_unref_buffer (fv_front e);
  _ ← amdgpu_dri2_unref_buffer (fv_back e);
  free w_frame_events l.

Definition whole_drawable (d : drawable) : region := box_region (Box 0 0 (s16 (draw_width d)) (s16 (draw_height d))).

(** The [DRI2_SWAP] case. *)
Definition swap_now (l : loc) (d : drawable) (seq usec : Z) : D unit :=
  e ← load w_frame_events l;
  front ← deref (fv_front e);
  back ← deref (fv_back e);
  exchange ← (ok ← call (DRI2CanExchange (fv_drawable_id e));
              if ok : bool then can_exchange (fv_drawable_id e) front back else mret false);
  swap_type ← (if exchange : bool then
                 _ ← amdgpu_dri2_exchange_buffers (fv_drawable_id e) front back;
                 mret DRI2_EXCHANGE_COMPLETE
               else
                 _ ← amdgpu_dri2_copy_region2 (draw_scrn d) (fv_drawable_id e) (whole_drawable d) front back;
                 mret DRI2_BLIT_COMPLETE);
  call (DRI2SwapComplete (fv_client e) (fv_drawable_id e) seq (u32 (usec / 1000000)) (usec mod 1000000) swap_type
          (event_complete e) (fv_event_data e)).

Definition amdgpu_dri2_frame_event_handler (fuel : nat) (crtc : loc) (seq usec : Z) (data : cookie) : D unit :=
  l ← cookie_frame data;
  e ← load w_frame_events l;
  d ← dixLookupDrawable (fv_drawable_id e);
  _ ← match d with
      | None => mret tt
      | Some d' =>
          delta ← amdgpu_get_msc_delta d crtc;
          let seq := u32 (seq + delta) in
          match fv_type e with
          | DRI2_FLIP =>
              front ← deref (fv_front e);
              back ← deref (fv_back e);
              flipped ← (ok ← can_flip crtc (fv_drawable_id e) front back;
                         if ok : bool then
                           amdgpu_dri2_schedule_flip fuel crtc (fv_client e) (fv_drawable_id e) front back
                             (event_complete e) (fv_event_data e) (fv_frame e)
                         else mret false);
              if flipped : bool then amdgpu_dri2_exchange_buffers (fv_drawable_id e) front back
              else swap_now l d' seq usec
          | DRI2_SWAP => swap_now l d' seq usec
          | DRI2_WAITMSC =>
              call (DRI2WaitMSCComplete (fv_client e) (fv_drawable_id e) seq (u32 (usec / 1000000))
                      (usec mod 1000000))
          end
      end;
  amdgpu_dri2_frame_event_abort data.

(** The event of a CRTC that is off, delivered through the queue. *)
Definition deliver_emulated (fuel : nat) (crtc : loc) (frame sec usec seq : Z) : D unit :=
  _ ← amdgpu_drm_queue_handler frame sec usec seq;
  _ ← set_dcrtc crtc (setf wait_flip_nesting_level (fun n => n + 1));
  amdgpu_drm_queue_handle_deferred fuel crtc.

Definition amdgpu_dri2_deferred_event (fuel : nat) (l : loc) : D unit :=
  e ← load w_frame_events l;
  match fv_crtc e with
  | None =>
      if negb (fv_drm_queue_seq e =? 0) then amdgpu_drm_abort_entry (fv_drm_queue_seq e)
      else amdgpu_dri2_frame_event_abort (FrameData l)
  | Some crtc =>
      dc ← get_dcrtc crtc;
      drm_now ← drmmode_get_current_ust;
      match drm_now with
      | None =>
          if negb (fv_drm_queue_seq e =? 0) then deliver_emulated fuel crtc 0 0 0 (fv_drm_queue_seq e)
          else amdgpu_dri2_frame_event_handler fuel crtc 0 0 (FrameData l)
      | Some drm_now =>
          let frame := stopped_frame (dpms_last_ust dc) (dpms_last_seq dc) (dpms_last_fps dc) drm_now in
          if negb (fv_drm_queue_seq e =? 0)
          then deliver_emulated fuel crtc (u32 frame) (u32 (drm_now / 1000000)) (drm_now mod 1000000)
                 (fv_drm_queue_seq e)
          else amdgpu_dri2_frame_event_handler fuel crtc (u32 frame) drm_now (FrameData l)
      end
  end.

Definition amdgpu_dri2_schedule_event (fuel : nat) (delay : Z) (l : loc) : D unit :=
  ok ← call (TimerSet delay);
  timer ← (if ok : bool then t ← new w_timers l; mret (Some t) else mret None);
  _ ← update w_frame_events l (setf fv_timer (fun _ => timer));
  if delay =? 0 then _ ← call GetTimeInMillis; amdgpu_dri2_deferred_event fuel l
  else mret tt.

(** *** The requests of clients *)

Definition wait_vblank_seq (crtc : loc) (type target signal : Z) : D (option Z) :=
  r ← drmmode_wait_vblank crtc type target signal;
  mret match r with inl _ => None | inr (_, seq) => Some seq end.

Definition new_frame_event (e : DRI2FrameEvent) : D (option loc) :=
  ok ← call (Calloc "DRI2FrameEventRec");
  if negb ok then mret None else l ← new w_frame_events e; mret (Some l).

Definition amdgpu_dri2_schedule_wait_msc (fuel : nat) (client draw target_msc divisor remainder : Z) : D unit :=
  crtc ← amdgpu_dri2_drawable_crtc draw;
  let target_msc := u32 target_msc in
  let divisor := u32 divisor in
  let remainder := u32 remainder in
  match crtc with
  | None => call (DRI2WaitMSCComplete client draw 0 0 0)
  | Some crtc =>
      d ← load_drawable draw;
      msc_delta ← amdgpu_get_msc_delta (Some d) crtc;
      info ← new_frame_event (FrameEvent draw client DRI2_WAITMSC 0 (Some crtc) None 0 0 0 None None);
      match info with
      | None => call (DRI2WaitMSCComplete client draw 0 0 0)
      | Some l =>
          c ← load w_crtcs crtc;
          if negb (amdgpu_crtc_is_enabled c) then
            r ← amdgpu_dri2_extrapolate_msc_delay crtc (u64 (target_msc - msc_delta)) divisor remainder;
            _ ← amdgpu_dri2_schedule_event fuel r.2 l;
            call (DRI2BlockClient client draw)
          else
            seq ← wait_vblank_seq crtc DRM_VBLANK_RELATIVE 0 0;
            match seq with
            | None => amdgpu_dri2_deferred_event fuel l
            | Some seq =>
                let current_msc := u32 (seq + msc_delta) in
                s ← amdgpu_drm_queue_alloc crtc client AMDGPU_DRM_QUEUE_ID_DEFAULT (FrameData l)
                      amdgpu_dri2_frame_event_handler_proc amdgpu_dri2_frame_event_abort_proc false;
                if s =? AMDGPU_DRM_QUEUE_ERROR then amdgpu_dri2_deferred_event fuel l
                else
                  _ ← update w_frame_events l (setf fv_drm_queue_seq (fun _ => s));
                  r ← wait_vblank_seq crtc (Z.lor DRM_VBLANK_ABSOLUTE DRM_VBLANK_EVENT)
                        (wait_target current_msc target_msc divisor remainder msc_delta) s;
                  match r with
                  | None => amdgpu_dri2_deferred_event fuel l
                  | Some _ => call (DRI2BlockClient client draw)
                  end
            end
      end
  end.

(** The [blit_fallback:] label without a frame event. *)
Definition blit_now (client draw : Z) (front back : loc) (func data : Z) : D unit :=
  d ← load_drawable draw;
  _ ← amdgpu_dri2_copy_region2 (draw_scrn d) draw (whole_drawable d) front back;
  _ ← call (DRI2SwapComplete client draw 0 0 0 DRI2_BLIT_COMPLETE func data);
  _ ← amdgpu_dri2_unref_buffer (Some front);
  amdgpu_dri2_unref_buffer (Some back).

(** The same label with one. *)
Definition blit_later (fuel : nat) (l : loc) : D unit :=
  _ ← update w_frame_events l (setf fv_type (fun _ => DRI2_SWAP));
  amdgpu_dri2_schedule_event fuel FALLBACK_SWAP_DELAY l.

(** The result is [*target_msc]. *)
Definition amdgpu_dri2_schedule_swap (fuel : nat) (client draw : Z) (front back : loc)
    (target_msc divisor remainder func data : Z) : D Z :=
  crtc ← amdgpu_dri2_drawable_crtc draw;
  let target_msc := u32 target_msc in
  let divisor := u32 divisor in
  let remainder := u32 remainder in
  _ ← amdgpu_dri2_ref_buffer front;
  _ ← amdgpu_dri2_ref_buffer back;
  match crtc with
  | None => _ ← blit_now client draw front back func data; mret 0
  | Some crtc =>
      d ← load_drawable draw;
      msc_delta ← amdgpu_get_msc_delta (Some d) crtc;
      info ← new_frame_event (FrameEvent draw client DRI2_SWAP 0 (Some crtc) None 0 func data
                                (Some front) (Some back));
      match info with
      | None => _ ← blit_now client draw front back func data; mret 0
      | Some l =>
          s ← amdgpu_drm_queue_alloc crtc client AMDGPU_DRM_QUEUE_ID_DEFAULT (FrameData l)
                amdgpu_dri2_frame_event_handler_proc amdgpu_dri2_frame_event_abort_proc false;
          if s =? AMDGPU_DRM_QUEUE_ERROR then _ ← blit_later fuel l; mret 0
          else
            _ ← update w_frame_events l (setf fv_drm_queue_seq (fun _ => s));
            c ← load w_crtcs crtc;
            if negb (amdgpu_crtc_is_enabled c) then
              r ← amdgpu_dri2_extrapolate_msc_delay crtc (u64 (target_msc - msc_delta)) divisor remainder;
              _ ← amdgpu_dri2_schedule_event fuel r.2 l;
              mret (u32 (r.1 + msc_delta))
            else
              seq ← wait_vblank_seq crtc DRM_VBLANK_RELATIVE 0 0;
              match seq with
              | None => _ ← blit_later fuel l; mret 0
              | Some seq =>
                  let current_msc := u32 (seq + msc_delta) in
                  fl ← can_flip crtc draw front back;
                  target_msc ← (if fl : bool then
                                  _ ← update w_frame_events l (setf fv_type (fun _ => DRI2_FLIP));
                                  amdgpu_get_optimal_flip_target (draw_scrn d) crtc current_msc target_msc
                                else mret target_msc);
                  let flip := if fl : bool then 1 else 0 in
                  let type := Z.lor DRM_VBLANK_ABSOLUTE DRM_VBLANK_EVENT in
                  let type := if flip =? 0 then Z.lor type DRM_VBLANK_NEXTONMISS else type in
                  r ← wait_vblank_seq crtc type
                        (swap_target current_msc target_msc divisor remainder msc_delta flip) s;
                  match r with
                  | None => _ ← blit_later fuel l; mret 0
                  | Some seq =>
                      let target_msc := u32 (seq + flip + msc_delta) in
                      _ ← update w_frame_events l (setf fv_frame (fun _ => target_msc));
                      mret target_msc
                  end
              end
      end
  end.

(** *** Clients and screens *)

(** [gone]: the client's state is [ClientStateRetained] or [ClientStateGone]. *)
Definition amdgpu_dri2_client_state_changed (client : Z) (gone : bool) : D unit :=
  mwhen gone (amdgpu_drm_abort_client client).

Definition amdgpu_dri2_screen_init (scrn : loc) : D bool :=
  info ← load w_scrns scrn;
  if negb (dri2_available info) then mret false
  else
    scheduling_works ← (if count_crtcs info >? 2 then
                          cap ← call (DrmGetCap DRM_CAP_VBLANK_HIGH_CRTC);
                          mret match cap with Some v => negb (v =? 0) | None => false end
                        else mret true);
    ok ← (if scheduling_works : bool then
            n ← gets (fun w => DRI2InfoCnt (w_dri w));
            ok ← (if n =? 0 then
                    ok ← call DixRegisterPrivateKey;
                    _ ← mwhen ok (call (Notify "AddCallback" []));
                    mret ok
                  else mret true);
            _ ← mwhen ok (modify (setf w_dri (setf DRI2InfoCnt (fun n => n + 1))));
            mret ok
          else mret true);
    if negb ok then mret false
    else
      en ← call (DRI2ScreenInit scheduling_works);
      _ ← update w_scrns scrn (setf dri2_enabled (fun _ => en));
      mret en.

Definition amdgpu_dri2_close_screen : D unit :=
  _ ← modify (setf w_dri (setf DRI2InfoCnt (fun n => n - 1)));
  n ← gets (fun w => DRI2InfoCnt (w_dri w));
  _ ← mwhen (n =? 0) (call (Notify "DeleteCallback" []));
  call (Notify "DRI2CloseScreen" []).
End Code.
