(* ===== verification/Exchange.v ===== *)
(** * DRI2: exchanging two buffers

    [amdgpu_dri2_exchange_buffers] (src/src/amdgpu_dri2.c) shows a finished swap without
    copying: the pixmaps of the front and the back buffer exchange their privates, with
    the buffer objects and framebuffers these own, the DRI2 buffers exchange their names,
    and the screen follows when its own buffer took part. *)
From stdpp Require Import strings.
From S2P Require Import Prelude Modes Region World Video Fb DriState Queue Bo PixmapFb Crtc Keeps Dri2.

(** ** Counts while pointers move *)

Lemma msum_exchange {A} (f : A -> Z) (m : gmap loc A) j k a b a' b' :
  j <> k -> m !! j = Some a -> m !! k = Some b -> f a' + f b' = f a + f b ->
  msum f (<[k := b']> (<[j := a']> m)) = msum f m.
Proof.
  intros Hne Hj Hk Hf. rewrite (msum_insert _ _ k b) by (by rewrite lookup_insert_ne). rewrite (msum_insert _ _ j a) by done. lia.
Qed.

(** The pixmaps after an exchange of the privates of [fpix] and [bpix]. *)
Definition exchanged_pixmaps (fpix bpix : loc) (f b : pixmap) (m : gmap loc pixmap) : gmap loc pixmap :=
  <[bpix := b <| pix_priv := pix_priv f |>]> (<[fpix := f <| pix_priv := pix_priv b |>]> m).

Lemma mem_inv_exchange ex w fpix bpix f b :
  mem_inv_with ex w -> fpix <> bpix -> w_pixmaps w !! fpix = Some f -> w_pixmaps w !! bpix = Some b ->
  mem_inv_with ex (w <| w_pixmaps ::= exchanged_pixmaps fpix bpix f b |>).
Proof.
  intros [[Hf Hfb] [Hc Hw Hb] Hp] Hne Hpf Hpb. unfold exchanged_pixmaps. split; [split | split |]; unfold setf; cbn; try done.
  - intros l. specialize (Hf l). unfold fb_refs in *. cbn.
    rewrite (msum_exchange _ _ _ _ f b) by (done || unfold priv_refs; cbn; lia). done.
  - eapply counted_ext; [| exact Hc]. intros l. unfold bo_refs. cbn.
    rewrite (msum_exchange _ _ _ _ f b) by (done || unfold pix_bo_refs; cbn; lia). done.
  - intros l Hl. apply Hp. rewrite !lookup_insert_is_Some' in Hl. destruct Hl as [<- | [<- | Hl]]; eauto.
Qed.

(** The screen's pointer moves from one buffer to another. *)
Lemma mem_inv_front_buffer ex w s info o n :
  mem_inv_with (fun k => ex k + points k n - points k o) w -> w_scrns w !! s = Some info -> front_buffer info = o ->
  mem_inv_with ex (w <| w_scrns ::= <[s := info <| front_buffer := n |>]> |>).
Proof.
  intros [[Hf Hfb] [Hc Hw Hb] Hp] Hs Ho. split; [split | split |]; unfold setf; cbn; try done.
  eapply counted_ext; [| exact Hc]. intros k. unfold bo_refs. cbn. rewrite (msum_insert _ _ s info) by done.
  unfold scrn_bo_refs at 3 4. cbn. rewrite Ho. lia.
Qed.

(** Nothing a pixmap points to is freed. *)
Lemma mem_inv_live w pix p pr l :
  mem_inv w -> w_pixmaps w !! pix = Some p -> pix_priv p = Some pr -> priv_bo pr = Some l -> is_Some (w_bos w !! l).
Proof.
  intros [_ [Hc _ _] _] Hp Hpr Hl. pose proof (bo_refs_pix w pix p pr l Hp Hpr Hl).
  destruct (counted_live _ _ _ l Hc) as (x & Hx & _); [lia | eauto].
Qed.

(** The buffers after an exchange of the names of [front] and [back]. *)
Definition exchanged_names (front back : loc) (fb bb : dri2_buffer) (m : gmap loc dri2_buffer) : gmap loc dri2_buffer :=
  <[back := bb <| buf_name := buf_name fb |>]> (<[front := fb <| buf_name := buf_name bb |>]> m).

(** Two DRI2 buffers of different pixmaps with buffer objects, for a drawable of screen
    [scrn]; only the screen pixmap has the buffer of the screen. *)
Record exchangeable (w : world) (draw : Z) (front back scrn fpix bpix fbo bbo : loc)
    (fb bb : dri2_buffer) (f b : pixmap) (info : scrn_info) : Prop := {
  xc_front : w_dri2_buffers w !! front = Some fb;
  xc_back : w_dri2_buffers w !! back = Some bb;
  xc_buffers : front <> back;
  xc_fpix : bp_pixmap fb = Some fpix;
  xc_bpix : bp_pixmap bb = Some bpix;
  xc_pixmaps : fpix <> bpix;
  xc_f : w_pixmaps w !! fpix = Some f;
  xc_b : w_pixmaps w !! bpix = Some b;
  xc_fbo : pix_priv f ≫= priv_bo = Some fbo;
  xc_bbo : pix_priv b ≫= priv_bo = Some bbo;
  xc_draw : draw_scrn <$> dri_drawables (w_dri w) !! draw = Some scrn;
  xc_scrn : w_scrns w !! scrn = Some info;
  xc_dst : is_Some (w_scrns w !! pix_scrn b);
  xc_screen : front_buffer info = Some fbo -> screen_pixmap info = fpix;
  xc_room : forall x, w_bos w !! bbo = Some x -> ref_count x < 2 ^ 32 - 1
}.

Lemma live_acquire k l m : is_Some (bo_acquire k m !! l) <-> is_Some (m !! l).
Proof. unfold bo_acquire. apply lookup_alter_is_Some. Qed.
Lemma live_release k l m : l <> k -> is_Some (bo_release k m !! l) <-> is_Some (m !! l).
Proof.
  intros Hne. unfold bo_release. destruct (m !! k) as [b|]; [| done]. destruct (_ =? 1).
  - by rewrite lookup_delete_ne.
  - by rewrite lookup_insert_ne.
Qed.

Section Exchange.
Context `{env : Env} `{srv : XServer} `{randr : RandR} `{comp : Composite} `{callbacks : Callbacks}.

(** The screen takes the buffer of the back pixmap, if it showed that of the front one. *)
Definition follow_front (fbo bbo : loc) (info : scrn_info) : scrn_info :=
  if bool_decide (front_buffer info = Some fbo) then info <| front_buffer := Some bbo |> else info.

Lemma exchange_screen w scrn info fbo bbo x (k : D unit) (Q : unit -> world -> Prop) :
  mem_inv w -> w_scrns w !! scrn = Some info -> front_buffer info = Some fbo ->
  w_bos w !! bbo = Some x -> ref_count x < 2 ^ 32 - 1 ->
  (forall t, let w' := w <| w_bos ::= fun m => bo_release fbo (bo_acquire bbo m) |> <| w_trace := t |>
       <| w_scrns ::= <[scrn := info <| front_buffer := Some bbo |>]> |> in mem_inv w' -> wp k Q w') ->
  wp (_ ← amdgpu_bo_ref bbo; _ ← amdgpu_bo_unref (front_buffer info);
      _ ← update w_scrns scrn (setf front_buffer (fun _ => Some bbo)); k) Q w.
Proof.
  intros Hi Hs Hfb Hx Hr HQ. apply wp_bind, (wp_bo_ref bbo x); [done | |].
  { destruct Hi as [_ [Hc _ _] _]. destruct (counted_pos _ _ _ _ _ Hc Hx). lia. }
  pose proof (mem_inv_acquire _ w bbo x Hi Hx Hr) as H1. set (w1 := w <| w_bos ::= bo_acquire bbo |>) in *.
  assert (Hold : exists y, w_bos w1 !! fbo = Some y).
  { destruct H1 as [_ [Hc _ _] _]. destruct (counted_live _ _ _ fbo Hc) as (y & Hy & _); [| eauto].
    assert (1 <= bo_refs w1 fbo); [| pose proof (points_range fbo (Some bbo))].
    - unfold bo_refs. assert (scrn_bo_refs fbo info <= msum (scrn_bo_refs fbo) (w_scrns w1))
        by (apply (msum_pos _ _ scrn); [intros; apply points_range | done]).
      assert (scrn_bo_refs fbo info = 1) by (unfold scrn_bo_refs; rewrite Hfb; apply points_self).
      assert (0 <= msum (pix_bo_refs fbo) (w_pixmaps w1)) by (apply msum_nonneg; intros; apply pix_bo_refs_range).
      assert (0 <= msum (crtc_bo_refs fbo) (w_crtcs w1))
        by (apply msum_nonneg; intros; apply Z.add_nonneg_nonneg; apply points_range). lia.
    - lia. }
  destruct Hold as [y Hy]. rewrite Hfb. apply wp_bind, (wp_bo_unref_owned _ fbo y _ _ H1 Hy). intros t H2.
  apply wp_bind, (wp_update _ _ info); [done |]. apply (HQ t). eapply mem_inv_front_buffer; [| done | exact Hfb].
  eapply mem_inv_ext; [| exact H2]. done.
Qed.

(** What is left of the exchange when the privates have changed places. *)
Lemma exchange_follow w scrn info fpix f fbo bbo bpr :
  mem_inv w -> w_scrns w !! scrn = Some info -> w_pixmaps w !! fpix = Some f -> pix_priv f = Some bpr -> priv_bo bpr = Some bbo ->
  (front_buffer info = Some fbo -> screen_pixmap info = fpix) ->
  (forall x, w_bos w !! bbo = Some x -> ref_count x < 2 ^ 32 - 1) -> 
  (exists pix p pr, w_pixmaps w !! pix = Some p /\ pix_priv p = Some pr /\ priv_bo pr = Some fbo) ->
  wp (mwhen (bool_decide (Some fbo = front_buffer info))
        (screen_priv ← get_priv (screen_pixmap info);
         bpr ← some_or NullDeref (Some bpr);
         bo ← deref (priv_bo bpr);
         _ ← amdgpu_bo_ref bo;
         _ ← amdgpu_bo_unref (front_buffer info);
         _ ← update w_scrns scrn (setf front_buffer (fun _ => Some bo));
         _ ← some_or NullDeref screen_priv;
         set_priv (screen_pixmap info) (Some bpr)))
    (fun _ w' => mem_inv w' /\ w_pixmaps w' = w_pixmaps w /\ w_dri w' = w_dri w /\ w_fbs w' = w_fbs w /\
       w_scrns w' = <[scrn := follow_front fbo bbo info]> (w_scrns w) /\
       forall l, is_Some (w_bos w' !! l) <-> is_Some (w_bos w !! l)) w.
Proof.
  intros Hi Hs Hf Hpr Hbbo Hscr Hroom (pix & p & pr & Hp & Hppr & Hfbo). unfold follow_front.
  case_bool_decide as Hfb; cbn [mwhen]; [| apply wp_ret; rewrite bool_decide_eq_false_2 by done; by rewrite insert_id].
  symmetry in Hfb. rewrite bool_decide_eq_true_2 by done. rewrite (Hscr Hfb).
  destruct (mem_inv_live w fpix f bpr bbo Hi Hf Hpr Hbbo) as [x Hx].
  apply wp_bind, (wp_get_priv _ f); [done |]. apply wp_bind, (wp_some_or _ _ bpr); [done |]. rewrite Hbbo, Hpr.
  apply wp_bind, (wp_deref _ bbo); [done |]. apply (exchange_screen w scrn info fbo bbo x); [done.. | by apply Hroom |].
  intros t w' Hi'. apply wp_bind, (wp_some_or _ _ bpr); [done |]. apply (wp_set_priv _ f); [done |].
  assert (Hsame : setf w_pixmaps <[fpix := f <| pix_priv := Some bpr |>]> w' = w').
  { subst w'. unfold setf. cbn. f_equal. apply insert_id. rewrite Hf. f_equal. rewrite <- Hpr. by destruct f. }
  rewrite Hsame. split_and!; try done. intros l. destruct (decide (l = fbo)) as [-> | Hl].
  - split; intros _; [exact (mem_inv_live w pix p pr fbo Hi Hp Hppr Hfbo) |].
    exact (mem_inv_live w' pix p pr fbo Hi' Hp Hppr Hfbo).
  - subst w'. unfold setf. cbn. by rewrite live_release, live_acquire.
Qed.

Lemma wp_glamor_exchange src dst p (Q : unit -> world -> Prop) w :
  w_pixmaps w !! dst = Some p -> is_Some (w_scrns w !! pix_scrn p) -> (forall t, Q tt (w <| w_trace := t |>)) ->
  wp (amdgpu_glamor_exchange_buffers src dst) Q w.
Proof.
  intros Hp [info Hs] HQ. apply wp_bind, (wp_load _ _ p); [done |]. apply wp_bind, (wp_load _ _ info); [done |].
  destruct (use_glamor info); cbn [mwhen]; [wp_ext; by_trace HQ |]. apply wp_ret. specialize (HQ (w_trace w)). by destruct w.
Qed.

(** C13. Exchanging the buffers of a swap keeps every count of buffers and framebuffers
    right and frees nothing: the pixmaps exchange their privates, the DRI2 buffers their
    names, and the screen's buffer is that of its pixmap again. *)
Theorem exchange_buffers_safe w draw front back scrn fpix bpix fbo bbo fb bb f b info :
  mem_inv w -> exchangeable w draw front back scrn fpix bpix fbo bbo fb bb f b info ->
  wp (amdgpu_dri2_exchange_buffers draw front back)
    (fun _ w' => mem_inv w' /\
       w_pixmaps w' = exchanged_pixmaps fpix bpix f b (w_pixmaps w) /\
       w_dri2_buffers w' = exchanged_names front back fb bb (w_dri2_buffers w) /\
       w_scrns w' = <[scrn := follow_front fbo bbo info]> (w_scrns w) /\
       w_fbs w' = w_fbs w /\ forall l, is_Some (w_bos w' !! l) <-> is_Some (w_bos w !! l)) w.
Proof.
  intros Hi [Hfr Hbk Hne Hfp Hbp Hnp Hf Hb Hfbo Hbbo Hd Hs Hdst Hscr Hroom].
  destruct (pix_priv f) as [fpr|] eqn:Hfpr; [| done]. destruct (pix_priv b) as [bpr|] eqn:Hbpr; [| done]. cbn in Hfbo, Hbbo.
  unfold amdgpu_dri2_exchange_buffers.
  apply wp_bind, (wp_load _ _ fb); [done |]. apply wp_bind, (wp_load _ _ bb); [done |]. rewrite Hfp.
  apply wp_bind, (wp_deref _ fpix); [done |]. apply wp_bind, (wp_load _ _ f); [done |]. apply wp_bind. wp_ext.
  apply wp_bind, (wp_update _ _ fb); [done |].
  apply wp_bind, (wp_update _ _ bb); [unfold setf, w_dri2_buffers; cbn; by rewrite lookup_insert_ne |].
  set (w1 := setf w_dri2_buffers _ _). assert (H1 : mem_inv w1) by (by apply (mem_inv_frame _ w)).
  apply wp_bind, (wp_get_priv _ f); [done |]. rewrite Hbp. apply wp_bind, (wp_deref _ bpix); [done |].
  apply wp_bind, (wp_get_priv _ b); [done |]. apply wp_bind, (wp_set_priv _ f); [done |].
  apply wp_bind, (wp_set_priv _ b); [unfold setf; cbn; by rewrite lookup_insert_ne |].
  set (w2 := setf w_pixmaps _ _).
  assert (H2 : mem_inv w2) by (exact (mem_inv_exchange _ w1 fpix bpix f b H1 Hnp Hf Hb)).
  destruct (dri_drawables (w_dri w) !! draw) as [d|] eqn:Hdr; [| done]. injection Hd as Hd.
  apply wp_bind, wp_bind, wp_gets. apply (wp_some_or _ _ d); [exact Hdr |]. rewrite Hd.
  apply wp_bind, (wp_load _ _ info); [done |]. rewrite Hfpr, Hbpr. apply wp_bind, (wp_some_or _ _ fpr); [done |]. rewrite Hfbo.
  apply wp_bind. eapply wp_mono; [apply (exchange_follow w2 scrn info fpix (f <| pix_priv := pix_priv b |>) fbo bbo bpr) |]; try done.
  - unfold w2, setf. cbn. by rewrite lookup_insert_ne, lookup_insert_eq.
  - exists bpix, (b <| pix_priv := pix_priv f |>), fpr. split_and!; [| done..]. unfold w2, setf. cbn. apply lookup_insert_eq.
  - intros [] w3 (H3 & Hp3 & Hd3 & Hf3 & Hs3 & Hb3).
    apply wp_bind, (wp_glamor_exchange _ _ (b <| pix_priv := pix_priv f |>)).
    + rewrite Hp3. unfold w2, setf. cbn. apply lookup_insert_eq.
    + rewrite Hs3. apply lookup_insert_is_Some'. by right.
    + intros t. wp_ext. split_and!; try done; [by apply (mem_inv_frame _ w3) |].
      unfold w_dri2_buffers, setf in *. cbn. by rewrite Hd3.
Qed.
End Exchange.

(** ** A swap that is shown by exchanging *)
Module SampleExchange.

Definition front_priv : amdgpu_pixmap := Priv 0 0 0 (Some 4%positive) (Some 5%positive) false true 9.
Definition back_priv : amdgpu_pixmap := Priv 0 0 0 (Some 7%positive) (Some 8%positive) false true 11.
(** The screen pixmap (2) has the screen's buffer (4), the back pixmap (6) has buffer 7. *)
Definition front_pix : pixmap := Sample.pix <| pix_priv := Some front_priv |>.
Definition back_pix : pixmap := Sample.pix <| pix_priv := Some back_priv |>.
Definition front_buf : dri2_buffer := Dri2Buffer 0 100 256 4 24 (Some 2%positive) 0 1.
Definition back_buf : dri2_buffer := Dri2Buffer 1 101 256 4 24 (Some 6%positive) 1 1.
Definition bos : gmap loc amdgpu_buffer := {[4%positive := Buffer 21 0 2 0; 7%positive := Buffer 22 0 1 0]}.
Definition fbs : gmap loc drmmode_fb := {[5%positive := Fb 1 77; 8%positive := Fb 1 78]}.
Definition pixmaps : gmap loc pixmap := {[2%positive := front_pix; 6%positive := back_pix]}.
Definition world0 : world :=
  Sample.w <| w_bos := bos |> <| w_fbs := fbs |> <| w_pixmaps := pixmaps |> <| w_next := 20%positive |>
    <| w_dri := Dri {[100 := DrawableRec true 1 0 0 64 64 24 32 2 (Some 3%positive) 0 0 0]}
                   {[12%positive := front_buf; 13%positive := back_buf]} ∅ ∅ ∅ 0 true ∅ |>.

Lemma pixmaps_sum f : msum f pixmaps = f front_pix + f back_pix.
Proof. unfold pixmaps. rewrite msum_insert_fresh by done. by rewrite msum_singleton. Qed.

Lemma world0_inv : mem_inv world0.
Proof.
  split; [split | split |].
  - intros l. change (w_fbs world0) with fbs. unfold fb_refs. change (w_pixmaps world0) with pixmaps.
    change (w_crtcs world0) with (w_crtcs Sample.w). cbn [w_flipdata]. rewrite pixmaps_sum. cbn. rewrite msum_singleton, msum_empty.
    unfold priv_refs, crtc_refs, fbs. cbn. rewrite !points_None.
    destruct (decide (l = 5%positive)) as [-> | H5]; [by vm_compute |]. destruct (decide (l = 8%positive)) as [-> | H8]; [by vm_compute |].
    by rewrite lookup_insert_ne, lookup_singleton_ne, !points_other by congruence.
  - intros l [x Hx]. change (w_fbs world0) with fbs in Hx. unfold fbs in Hx.
    apply lookup_insert_Some in Hx as [[<- _] | [_ [<- _]%lookup_singleton_Some]]; done.
  - intros l. change (w_bos world0) with bos. unfold bo_refs. change (w_pixmaps world0) with pixmaps. rewrite pixmaps_sum. cbn.
    rewrite !msum_singleton. unfold pix_bo_refs, scrn_bo_refs, crtc_bo_refs, bos. cbn. rewrite !points_None.
    destruct (decide (l = 4%positive)) as [-> | H4]; [by vm_compute |]. destruct (decide (l = 7%positive)) as [-> | H7]; [by vm_compute |].
    by rewrite lookup_insert_ne, lookup_singleton_ne, !points_other by congruence.
  - intros l b Hb. change (w_bos world0) with bos in Hb. unfold bos in Hb.
    apply lookup_insert_Some in Hb as [[_ <-] | [_ [_ <-]%lookup_singleton_Some]]; done.
  - intros l [b Hb]. change (w_bos world0) with bos in Hb. unfold bos in Hb.
    apply lookup_insert_Some in Hb as [[<- _] | [_ [<- _]%lookup_singleton_Some]]; done.
  - intros l [p Hp]. change (w_pixmaps world0) with pixmaps in Hp. unfold pixmaps in Hp.
    apply lookup_insert_Some in Hp as [[<- _] | [_ [<- _]%lookup_singleton_Some]]; done.
Qed.

Lemma world0_exchangeable :
  exchangeable world0 100 12 13 1 2 6 4 7 front_buf back_buf front_pix back_pix Sample.scrn.
Proof. split; try done. intros x. by intros [= <-]. Qed.

(** The back buffer's object is the screen's afterwards. *)
Lemma exchange_buffers_safe_witness :
  mem_inv world0 /\
  @wp _ _ (@amdgpu_dri2_exchange_buffers Sample.env 100 12 13)
    (fun _ w' => mem_inv w' /\ front_buffer <$> w_scrns w' !! 1%positive = Some (Some 7%positive) /\
       buf_name <$> w_dri2_buffers w' !! 12%positive = Some 101) world0.
Proof.
  split; [exact world0_inv |].
  eapply wp_mono; [exact (@exchange_buffers_safe Sample.env _ _ _ _ _ _ _ _ _ _ _ _ _ _ world0_inv world0_exchangeable) |].
  intros [] w' (Hi & _ & Hn & Hs & _). split_and!; [done | |].
  - rewrite Hs. reflexivity.
  - rewrite Hn. reflexivity.
Defined.
End SampleExchange.
