(* ===== verification/Dri2Time.v ===== *)
(** * Frame counters and timers of DRI2

    The frames a wait or a swap is scheduled for, and the timers that stand in for
    the vblanks of a CRTC that is off. *)
From S2P Require Import Prelude Modes Region World Video Fb DriState Queue Bo PixmapFb Crtc Keeps Scanout Modeset.
From S2P Require Import Flip Present Dri2.

(** ** Machine arithmetic *)

Lemma u32_u64 x : u32 (u64 x) = u32 x.
Proof. unfold u32, u64. apply Z.mod_mod_divide. by exists (2 ^ 32). Qed.
Lemma u32_of_s32 x : u32 (s32 x) = u32 x.
Proof.
  unfold u32, s32. rewrite Zminus_mod_idemp_l || rewrite Zminus_mod, Zmod_mod, <- Zminus_mod. f_equal. lia.
Qed.
Lemma u32_add_l x y : u32 (u32 x + y) = u32 (x + y).
Proof. unfold u32. apply Zplus_mod_idemp_l. Qed.
Lemma u32_add_r x y : u32 (x + u32 y) = u32 (x + y).
Proof. unfold u32. apply Zplus_mod_idemp_r. Qed.
Lemma u32_u64_add x y : u32 (u64 x + y) = u32 (x + y).
Proof. rewrite <- u32_add_l, u32_u64, u32_add_l. done. Qed.

(** ** Divisor and remainder *)

(** The first frame after [current] that satisfies the equation of the client. *)
Definition first_match (current divisor remainder m : Z) : Prop :=
  current < m /\ m mod divisor = remainder /\
  forall m', current < m' -> m' mod divisor = remainder -> m <= m'.

(** What [target_msc], [divisor] and [remainder] mean: the target if it is still
    to come, else the first matching frame, or, without divisor, the current one. *)
Definition wait_spec (current target divisor remainder m : Z) : Prop :=
  if (divisor =? 0) || (current <? target) then m = Z.max current target
  else first_match current divisor remainder m.

Lemma first_match_exists current divisor remainder :
  0 <= remainder < divisor -> 0 <= current ->
  first_match current divisor remainder
    (current - current mod divisor + remainder + if current mod divisor >=? remainder then divisor else 0).
Proof.
  intros Hr Hc. set (q := current / divisor).
  assert (Hq : current mod divisor = current - divisor * q) by (unfold q; apply Z.mod_eq; lia).
  pose proof (Z.mod_pos_bound current divisor ltac:(lia)) as Hb.
  set (k := if current mod divisor >=? remainder then 1 else 0).
  replace (current - current mod divisor + remainder + _) with (remainder + (q + k) * divisor)
    by (unfold k; destruct (_ >=? _); lia).
  assert (Hk : current < remainder + (q + k) * divisor /\ remainder + (q + k - 1) * divisor <= current)
    by (unfold k; destruct (Z.geb_spec (current mod divisor) remainder); nia).
  split_and!; [lia | rewrite Z_mod_plus_full; by apply Z.mod_small |].
  intros m' Hm Hmod. assert (Hm' : m' = remainder + (m' / divisor) * divisor)
    by (pose proof (Z.div_mod m' divisor); lia).
  assert (m' / divisor >= q + k) by nia. nia.
Qed.



(** [amdgpu_dri2_schedule_swap] compares the kernel's frame number with the
    client's counter.  For a window whose counter lags behind that of its CRTC
    ([msc_delta] is then a large unsigned number), it asks for a matching frame that
    has passed instead of the next one, so that the swap happens at once.
    ([amdgpu_dri2_schedule_wait_msc] decides the same correctly.) *)
Theorem swap_target_misses current divisor remainder lag :
  0 < divisor -> 0 <= remainder <= current mod divisor -> 0 < lag -> 0 <= current -> current + lag < 2 ^ 32 ->
  let msc_delta := 2 ^ 32 - lag in
  exists m, u32 (swap_target current 0 divisor remainder msc_delta 0 + msc_delta) = m /\
    m <= current /\ m mod divisor = remainder.
Proof.
  intros Hdiv Hr Hlag Hc Hb delta. pose proof (Z.mod_pos_bound current divisor Hdiv) as Hm.
  pose proof (Z.mod_le current divisor Hc Hdiv) as Hle.
  exists (current - current mod divisor + remainder). split_and!.
  - unfold swap_target. cbn [Z.gtb Z.compare]. destruct (Z.eqb_spec divisor 0); [lia |].
    destruct (Z.ltb_spec current 0); [lia |]. cbn [orb].
    assert (He : u64 (current - current mod divisor + remainder - delta) =
                 2 ^ 64 - 2 ^ 32 + (current - current mod divisor + remainder + lag)).
    { unfold u64, delta. symmetry. apply Z.mod_unique_pos with (-1); lia. }
    rewrite He. destruct (Z.leb_spec (2 ^ 64 - 2 ^ 32 + (current - current mod divisor + remainder + lag)) current); [lia |].
    rewrite u32_add_l. unfold delta, u32. symmetry. apply Z.mod_unique_pos with (2 ^ 32); lia.
  - lia.
  - rewrite (Z.mod_eq current) by lia.
    replace (current - (current - divisor * (current / divisor)) + remainder)
      with (remainder + (current / divisor) * divisor) by lia.
    rewrite Z_mod_plus_full. apply Z.mod_small. lia.
Qed.

(** Frame 1007 of a window 100 frames behind: the next frame 5 modulo 10 is 1015. *)
Lemma swap_target_misses_witness :
  (exists m, u32 (swap_target 1007 0 10 5 (2 ^ 32 - 100) 0 + (2 ^ 32 - 100)) = m /\ m <= 1007 /\ m mod 10 = 5) /\
  u32 (wait_target 1007 0 10 5 (2 ^ 32 - 100) + (2 ^ 32 - 100)) = 1015.
Proof. split; [apply (swap_target_misses 1007 10 5 100); vm_compute; intuition congruence | reflexivity]. Defined.

(** A flip asked for a frame that is more than three ahead is made at the next
    vblank: [amdgpu_get_optimal_flip_target] pulls the target forward, and the event
    is requested for the current frame. *)
Theorem flip_target_early fps current target :
  0 < fps < 2 ^ 32 -> 0 <= current -> current + 3 < target < 2 ^ 32 ->
  swap_target current (optimal_flip_target fps true current target) 0 0 0 1 = current.
Proof.
  intros Hf Hc Ht. unfold optimal_flip_target. rewrite (u32_id fps) by (unfold in_u32; lia).
  rewrite !u64_id by (unfold in_u64; lia).
  destruct (Z.gtb_spec fps 0); [| lia]. destruct (Z.leb_spec target current); [lia |].
  destruct (Z.gtb_spec target (current + 1 + 2)); [| lia]. cbn [andb].
  unfold swap_target. destruct (Z.gtb_spec (current + 1) 0); [| lia]. cbn [Z.eqb orb].
  destruct (Z.geb_spec current (current + 1 - 1)); [| lia]. rewrite u32_id; [lia |]. unfold in_u32. lia.
Qed.

Lemma flip_target_early_witness : swap_target 1000 (optimal_flip_target 60 true 1000 2000) 0 0 0 1 = 1000.
Proof. apply flip_target_early; lia. Defined.

(** ** Timers for a CRTC that is off *)

(** The frame a CRTC would show at [t] if it had gone on. *)
Definition frame_at (fps last_ust last_seq t : Z) : Z := last_seq + (t - last_ust) * fps / 1000000.

Lemma delay_ms_margin d : 0 <= d < 2 ^ 32 -> d < delay_ms d * 1000.
Proof.
  intros Hd. unfold delay_ms. rewrite (u32_id d) by done.
  pose proof (Z.div_mod d 1000). pose proof (Z.mod_pos_bound d 1000 ltac:(lia)).
  rewrite !u32_id by (unfold in_u32; lia).
  destruct (d - d / 1000 * 1000 >? 0); lia.
Qed.

Lemma delay_ms_nonneg d : 0 <= delay_ms d.
Proof. unfold delay_ms. destruct (_ >? 0); apply u32_range. Qed.

(** When the time computed for a frame has passed, the frame is reached. *)
Lemma frame_reached fps last_ust last_seq target t :
  0 < fps -> last_seq <= target -> last_ust + (target - last_seq) * 1000000 / fps < t ->
  target <= frame_at fps last_ust last_seq t.
Proof.
  intros Hf Hl Ht. unfold frame_at. set (x := (target - last_seq) * 1000000) in *.
  pose proof (Z.div_mod x fps). pose proof (Z.mod_pos_bound x fps Hf).
  assert (target - last_seq <= (t - last_ust) * fps / 1000000); [| lia].
  apply Z.div_le_lower_bound; [lia |]. fold x. nia.
Qed.

(** A CRTC that was switched off at a plausible time, and a request for a frame
    at most [horizon] frames ahead; [target] may lie before the counter's zero. *)
Definition horizon : Z := 4000.
Record stopped (fps last_ust last_seq now target divisor remainder : Z) : Prop := {
  st_fps : 0 < fps < 2 ^ 10;
  st_time : 0 <= last_ust <= now /\ now < 2 ^ 50;
  st_seq : 0 <= last_seq;
  st_frame : frame_at fps last_ust last_seq now + horizon < 2 ^ 32;
  st_target : - 2 ^ 32 < target <= frame_at fps last_ust last_seq now + horizon;
  st_divisor : 0 <= divisor <= horizon;
  st_remainder : divisor = 0 \/ 0 <= remainder < divisor
}.

Section Timer.
Context (fps last_ust last_seq now target divisor remainder : Z).
Context (st : stopped fps last_ust last_seq now target divisor remainder).

(** The time of a frame, counted on from the last vblank. *)
Definition time_of (m : Z) : Z := last_ust + Z.quot ((m - last_seq) * 1000000) fps.

Lemma frame_now_ge : last_seq <= frame_at fps last_ust last_seq now.
Proof.
  destruct st. unfold frame_at. pose proof (Z.div_pos ((now - last_ust) * fps) 1000000). nia.
Qed.

Lemma time_of_bounds m :
  - 2 ^ 32 < m <= frame_at fps last_ust last_seq now + horizon ->
  s64 (s64 (u64 m - last_seq) * 1000000) = (m - last_seq) * 1000000 /\ time_of m - now < 2 ^ 32 /\
  - 2 ^ 54 < time_of m < 2 ^ 63.
Proof.
  intros Hm. pose proof frame_now_ge as Hge. destruct st as [Hf Ht Hs Hfr _ _ _]. unfold horizon in *.
  remember (frame_at fps last_ust last_seq now) as F eqn:HF.
  assert (H1 : s64 (u64 m - last_seq) = m - last_seq).
  { unfold s64, u64. rewrite (Z.mod_eq m) by lia.
    replace (m - 2 ^ 64 * (m / 2 ^ 64) - last_seq + 2 ^ 63)
      with (m - last_seq + 2 ^ 63 + (- (m / 2 ^ 64)) * 2 ^ 64) by lia.
    rewrite Z_mod_plus_full, Z.mod_small; clear - Hm Hge Hs Hfr; lia. }
  assert (H2 : s64 ((m - last_seq) * 1000000) = (m - last_seq) * 1000000) by (apply s64_id; unfold in_s64; lia).
  rewrite H1, H2. split; [done |]. unfold time_of. set (x := (m - last_seq) * 1000000) in *.
  assert (Hx : x <= 4000 * 1000000 + (now - last_ust) * fps).
  { unfold frame_at in HF. pose proof (Z.div_mod ((now - last_ust) * fps) 1000000).
    pose proof (Z.mod_pos_bound ((now - last_ust) * fps) 1000000). lia. }
  pose proof (Z.quot_rem x fps ltac:(lia)) as Hqr. set (q := Z.quot x fps) in *. set (r := Z.rem x fps) in *.
  destruct (Z.le_gt_cases 0 x).
  - assert (0 <= r < fps) by (apply Z.rem_bound_pos; lia). clearbody q r x. nia.
  - assert (- fps < r <= 0) by (apply Z.rem_bound_pos_neg; lia).
    assert (Hq : q <= 0) by nia. assert (Hxq : x <= q) by nia.
    assert (- 2 ^ 33 * 1000000 <= x) by (unfold x; lia). clearbody q r x. lia.
Qed.

Lemma time_reached m t :
  - 2 ^ 32 < m -> now <= t -> time_of m < t -> m <= frame_at fps last_ust last_seq t.
Proof.
  intros Hm Hn Ht. pose proof frame_now_ge as Hge. destruct st as [Hf Hti Hs _ _ _ _].
  destruct (Z.le_gt_cases last_seq m).
  - apply frame_reached; [lia | done |]. revert Ht. unfold time_of. by rewrite Z.quot_div_nonneg by lia.
  - assert (frame_at fps last_ust last_seq now <= frame_at fps last_ust last_seq t); [| lia].
    unfold frame_at. assert ((now - last_ust) * fps / 1000000 <= (t - last_ust) * fps / 1000000); [| lia].
    apply Z.div_le_mono; nia.
Qed.

Lemma time_later m : frame_at fps last_ust last_seq now < m -> now <= time_of m.
Proof.
  intros Hm. pose proof frame_now_ge as Hge. destruct st as [Hf Hti Hs _ _ _ _]. unfold time_of.
  rewrite Z.quot_div_nonneg by lia. unfold frame_at in Hm.
  pose proof (Z.div_mod ((now - last_ust) * fps) 1000000). pose proof (Z.mod_pos_bound ((now - last_ust) * fps) 1000000).
  assert (now - last_ust <= (m - last_seq) * 1000000 / fps); [| lia]. apply Z.div_le_lower_bound; lia.
Qed.

(** The frame the timer is set for. *)
Definition timer_frame (m : Z) : Prop :=
  if time_of target <? now then
    if divisor =? 0 then m = frame_at fps last_ust last_seq now
    else first_match (frame_at fps last_ust last_seq now) divisor remainder m
  else m = target.

Lemma next_match_first c :
  0 <= c -> 0 < divisor -> 0 <= remainder < divisor -> c + divisor < 2 ^ 32 ->
  first_match c divisor remainder (u32 (next_match c divisor remainder)) /\
  u32 (next_match c divisor remainder) <= c + divisor.
Proof.
  intros Hc Hd Hr Hb. pose proof (first_match_exists c divisor remainder Hr Hc) as Hm.
  pose proof (Z.mod_pos_bound c divisor Hd). pose proof (Z.mod_le c divisor Hc Hd).
  assert (He : u32 (next_match c divisor remainder) =
    c - c mod divisor + remainder + if c mod divisor >=? remainder then divisor else 0).
  { unfold next_match. rewrite (u64_id (c - _ + _)) by (unfold in_u64; lia).
    destruct (Z.geb_spec (c mod divisor) remainder); rewrite ?u64_id by (unfold in_u64; lia);
      rewrite u32_id by (unfold in_u32; lia); lia. }
  rewrite He. split; [done |]. destruct (Z.geb_spec (c mod divisor) remainder); lia.
Qed.

(** The delay of a frame whose time has not come. *)
Lemma delay_reaches m t :
  - 2 ^ 32 < m <= frame_at fps last_ust last_seq now + horizon -> now <= time_of m ->
  now + delay_ms (time_of m - now) * 1000 <= t -> m <= frame_at fps last_ust last_seq t.
Proof.
  intros Hm Hn Ht. destruct (time_of_bounds m Hm) as (_ & Hd & _).
  pose proof (delay_ms_margin (time_of m - now)). apply time_reached; lia.
Qed.

Lemma target_time_exact m :
  - 2 ^ 32 < m <= frame_at fps last_ust last_seq now + horizon ->
  s64 (u64 (last_ust + Z.quot (s64 (s64 (u64 m - last_seq) * 1000000)) fps) - now) = time_of m - now.
Proof.
  intros Hm. destruct (time_of_bounds m Hm) as (-> & Hd & Hr). fold (time_of m). destruct st as [_ Ht _ _ _ _ _].
  unfold s64, u64. rewrite (Z.mod_eq (time_of m)) by lia.
  replace (time_of m - 2 ^ 64 * (time_of m / 2 ^ 64) - now + 2 ^ 63)
    with (time_of m - now + 2 ^ 63 + (- (time_of m / 2 ^ 64)) * 2 ^ 64) by lia.
  rewrite Z_mod_plus_full, Z.mod_small; lia.
Qed.

Lemma stopped_frame_exact t :
  now <= t < 2 ^ 50 -> stopped_frame last_ust last_seq fps t = frame_at fps last_ust last_seq t.
Proof.
  intros Ht. pose proof frame_now_ge as Hge. destruct st as [Hf Hti Hs Hfr _ _ _].
  unfold stopped_frame, stopped_frames. rewrite (u64_id (t - last_ust)), (u64_id fps) by (unfold in_u64; lia).
  assert (Hp : 0 <= (t - last_ust) * fps < 2 ^ 60) by nia. rewrite (u64_id (_ * fps)) by (unfold in_u64; lia).
  pose proof (Z.div_pos _ 1000000 (proj1 Hp) ltac:(lia)). assert ((t - last_ust) * fps / 1000000 < 2 ^ 60)
    by (apply Z.div_lt_upper_bound; lia).
  unfold horizon in Hfr. rewrite u64_id; [done |]. unfold in_u64. lia.
Qed.

(** C14. The timer that stands in for a vblank of a CRTC that is off does not fire
    early, for requests the 32-bit delay has room for ([stopped]): fewer than 1024 frames
    a second, a frame at most 4000 frames ahead of the extrapolated counter, a divisor of
    at most 4000 with a smaller remainder, a counter that does not wrap 32 bits.  Then
    [amdgpu_dri2_extrapolate_msc_delay] answers with the frame asked for, or, if its time
    has passed, with the next one that satisfies the divisor and remainder (without a
    divisor, the current one), and when the delay is over, the counter that
    [amdgpu_dri2_deferred_event] extrapolates has reached that frame.  Longer waits can
    end early: [timer_truncated]. *)
Theorem timer_not_early :
  let r := extrapolate_delay fps last_ust last_seq now (u64 target) divisor remainder in
  exists m, r.1 = u64 m /\ timer_frame m /\
    forall t, now + r.2 * 1000 <= t < 2 ^ 50 -> m <= stopped_frame last_ust last_seq fps t.
Proof.
  cbv zeta. set (r := extrapolate_delay _ _ _ _ _ _ _).
  assert (Hr : 0 <= r.2) by (unfold r, extrapolate_delay; repeat case_match; apply delay_ms_nonneg).
  enough (He : exists m, r.1 = u64 m /\ timer_frame m /\
    forall t, now + r.2 * 1000 <= t -> m <= frame_at fps last_ust last_seq t).
  { destruct He as (m & H1 & H2 & H3). exists m. split_and!; [done | done |]. intros t Ht.
    rewrite stopped_frame_exact by lia. apply H3. lia. }
  unfold r. clear r Hr. pose proof frame_now_ge as Hge. destruct st as [Hf Hti Hs Hfr Hta Hdi Hre].
  unfold extrapolate_delay, timer_frame. rewrite (target_time_exact target Hta).
  destruct (Z.ltb_spec (time_of target - now) 0) as [Hlt|Hlt];
    destruct (Z.ltb_spec (time_of target) now); try lia; cycle 1.
  { exists target. split_and!; [done | done |]. intros t. cbn. apply delay_reaches; lia. }
  assert (Hcur : u32 (last_seq + Z.quot (s64 (u64 (now - last_ust) * fps)) 1000000) =
    frame_at fps last_ust last_seq now).
  { rewrite (u64_id (now - last_ust)) by (unfold in_u64; lia).
    rewrite s64_id by (unfold in_s64; nia). rewrite Z.quot_div_nonneg by nia. apply u32_id.
    fold (frame_at fps last_ust last_seq now). unfold in_u32, horizon in *. lia. }
  rewrite Hcur. set (F := frame_at fps last_ust last_seq now) in *.
  destruct (Z.eqb_spec divisor 0) as [Hz|Hz].
  - exists F. cbn. split_and!; [by rewrite u64_id by (unfold in_u64, horizon in *; lia) | done |].
    intros t Ht. unfold F, frame_at. assert ((now - last_ust) * fps / 1000000 <= (t - last_ust) * fps / 1000000); [| lia].
    change (delay_ms 0) with 1 in Ht. apply Z.div_le_mono; nia.
  - destruct Hre as [?|Hre]; [done |].
    destruct (next_match_first F) as [Hfm Hle]; [lia | lia | done | unfold horizon in *; lia |].
    set (m := u32 (next_match F divisor remainder)) in *.
    assert (Hm : in_u32 m) by (apply u32_range). unfold in_u32 in Hm. destruct Hfm as (Hlo & Hmod & Hmin).
    exists m. cbn [fst snd].
    assert (Hid : u64 m = m) by (apply u64_id; unfold in_u64; lia).
    assert (Hran : - 2 ^ 32 < m <= F + horizon) by lia.
    pose proof (target_time_exact m Hran) as Htt. rewrite Hid in Htt. rewrite Htt. split_and!; [done | done |].
    intros t. apply delay_reaches; [done | by apply time_later].
Qed.
End Timer.

(** 60 Hz, off since 1 s, now 3 s: frame 160 of a counter that stopped at 100 has
    passed; the timer is set for the next frame that is 0 modulo 50. *)
Lemma timer_not_early_witness :
  exists m, (extrapolate_delay 60 1000000 100 3000000 (u64 160) 50 0).1 = u64 m /\
    timer_frame 60 1000000 100 3000000 160 50 0 m.
Proof.
  destruct (timer_not_early 60 1000000 100 3000000 160 50 0) as (m & H1 & H2 & _); [| by exists m].
  split; vm_compute; intuition congruence.
Defined.

(** The delay is cut to 32 bits: at 60 Hz, 300000 frames (5000 seconds) from the last
    vblank, the timer is set for 705 seconds. *)
Theorem timer_truncated : extrapolate_delay 60 1000000 100 1000000 (u64 300100) 0 0 = (300100, 705034).
Proof. vm_compute. reflexivity. Qed.

(** ** Windows that move to another CRTC *)
Section Moving.
Context `{env : Env} `{randr : RandR}.

Lemma crtc_msc_leaves crtc : leaves w_dri (amdgpu_dri2_get_crtc_msc crtc).
Proof.
  unfold amdgpu_dri2_get_crtc_msc, drmmode_crtc_get_ust_msc, drmmode_wait_vblank, drmmode_get_crtc_id,
    drmmode_get_current_ust, get_dcrtc. leaves_auto.
Qed.

(** C28. A window that moves to another CRTC keeps its frame count: the new offset
    takes the count of the new CRTC to the number the window had on the old one, so
    that no client sees its counter jump, however far the CRTCs' own counters are
    apart. *)
Theorem msc_continuous draw d info old c ua a ub b w w1 w2 :
  dri_drawables (w_dri w) !! draw = Some d -> draw_is_window d = true -> w_scrns w !! draw_scrn d = Some info ->
  amdgpu_pick_best_crtc (vtSema info) (rr_screen w (draw_scrn d)) (draw_x d) (draw_x d + draw_width d)
    (draw_y d) (draw_y d + draw_height d) = Some c ->
  wp_crtc d = Some old -> old <> c ->
  amdgpu_dri2_get_crtc_msc old w = Ok (Some (ua, a)) w1 -> amdgpu_dri2_get_crtc_msc c w1 = Ok (Some (ub, b)) w2 ->
  exists d' w', amdgpu_dri2_drawable_crtc draw w = Ok (Some c) w' /\
    dri_drawables (w_dri w') !! draw = Some d' /\ wp_crtc d' = Some c /\
    u32 (u64 (b + vblank_delta d')) = u32 (u64 (a + vblank_delta d)).
Proof.
  intros Hd Hwin Hi Hpick Hold Hne Ha Hb.
  pose proof (crtc_msc_leaves old w) as L1. unfold pwp in L1. rewrite Ha in L1.
  pose proof (crtc_msc_leaves c w1) as L2. unfold pwp in L2. rewrite Hb in L2.
  assert (H2 : dri_drawables (w_dri w2) !! draw = Some d) by (rewrite L2, L1; exact Hd).
  set (f := fun x : drawable => setf wp_crtc (fun _ => Some c) (setf vblank_delta (fun v => s32 (v + (a - b))) x)).
  exists (f d).
  exists (setf w_dri (setf dri_drawables (alter (setf wp_crtc (fun _ => Some c)) draw))
           (setf w_dri (setf dri_drawables (alter (setf vblank_delta (fun v => s32 (v + (a - b)))) draw)) w2)).
  split_and!.
  - unfold amdgpu_dri2_drawable_crtc.
    rewrite (bind_ok _ _ w d w) by (unfold load_drawable, dixLookupDrawable, mbind, M_bind, gets; by rewrite Hd).
    rewrite (bind_ok _ _ w info w) by (unfold load, mbind, M_bind, gets; by rewrite Hi).
    rewrite (bind_ok _ _ w (rr_screen w (draw_scrn d)) w) by done. cbv zeta. rewrite Hpick, Hwin. cbn [negb].
    rewrite Hold, bool_decide_eq_false_2 by done. erewrite bind_ok; [done |].
    rewrite (bind_ok _ _ _ _ _ Ha), (bind_ok _ _ _ _ _ Hb). done.
  - change (alter (setf wp_crtc (fun _ => Some c)) draw
      (alter (setf vblank_delta (fun v => s32 (v + (a - b)))) draw (dri_drawables (w_dri w2))) !! draw = Some (f d)).
    by rewrite !lookup_alter_eq, H2.
  - done.
  - change (vblank_delta (f d)) with (s32 (vblank_delta d + (a - b))). rewrite !u32_u64.
    rewrite <- (u32_add_r b), u32_of_s32, u32_add_r. f_equal. lia.
Qed.
End Moving.

(** CRTC 3 counts 9000 frames, CRTC 5 only 500; window 100 is moved from the first
    to the second. *)
Definition sample_crtc5 : xf86Crtc := Sample.crtc <| driver_private ::= setf hw_id (fun _ => 1) |>.
Definition sample_moving : RandR := {|
  rrPrivKey_registered := true; RRFirstOutput _ := None;
  rr_screen _ _ := mkScreen false false
    (Some [Some (RR 2 0 0 (Some (64, 64)) RR_Rotate_0 (Some (5%positive, sample_crtc5)))]) [] |}.
Definition moving_env : Env := fun history e =>
  match e as e return answer e with
  | DrmWaitVBlank ty _ _ => inr (1, 0, if Z.testbit ty 29 then 500 else 9000)
  | e => Sample.env history e
  end.
Definition sample_window : drawable := DrawableRec true 1 0 0 64 64 24 32 2 (Some 3%positive) 7 0 0.
Definition sample_moving_w : world :=
  Sample.w <| w_crtcs := {[3%positive := Sample.crtc; 5%positive := sample_crtc5]} |>
    <| w_dri := Dri {[100 := sample_window]} ∅ ∅ ∅ ∅ 0 true ∅ |>.

Lemma msc_continuous_witness :
  exists d', dri_drawables (w_dri (after (@amdgpu_dri2_drawable_crtc moving_env sample_moving 100) sample_moving_w)) !! 100 = Some d' /\
    u32 (u64 (500 + vblank_delta d')) = 9007.
Proof.
  set (w1 := after (@amdgpu_dri2_get_crtc_msc moving_env 3) sample_moving_w).
  set (w2 := after (@amdgpu_dri2_get_crtc_msc moving_env 5) w1).
  destruct (@msc_continuous moving_env sample_moving 100 sample_window Sample.scrn 3 5 1000000 9000 1000000 500
    sample_moving_w w1 w2 eq_refl eq_refl eq_refl eq_refl eq_refl ltac:(done)
    ltac:(vm_compute; reflexivity) ltac:(vm_compute; reflexivity)) as (d' & w' & Hr & Hd & _ & Hm).
  exists d'. split; [| exact Hm]. unfold after. rewrite Hr. exact Hd.
Defined.
