(* ===== verification/Dri2Safe.v ===== *)
(** * DRI2: buffers, events and timers are owned

    Every function of amdgpu_dri2.c respects the ownership invariant of DriState.v
    and keeps the event queue well-formed, whatever runs in between. *)
From stdpp Require Import strings.
From S2P Require Import Prelude Modes Region World Video Fb DriState Queue Bo PixmapFb Crtc Keeps Scanout Modeset.
From S2P Require Import Flip Present Dri2.

(** ** What leaves the DRI state alone *)
Section Leaves.
Context `{env : Env} `{srv : XServer}.

Lemma read_slot_leaves s : leaves w_dri (read_slot s).
Proof. destruct s; unfold read_slot; leaves_auto. Qed.
Lemma write_slot_leaves s v : leaves w_dri (write_slot s v).
Proof. destruct s; unfold write_slot; leaves_auto. Qed.
#[local] Hint Resolve read_slot_leaves write_slot_leaves : leaves.
Lemma fb_reference_leaves s n : leaves w_dri (drmmode_fb_reference s n).
Proof. unfold drmmode_fb_reference. leaves_auto. Qed.
Lemma get_priv_leaves pix : leaves w_dri (get_priv pix).
Proof. unfold get_priv. leaves_auto. Qed.
Lemma set_priv_leaves pix v : leaves w_dri (set_priv pix v).
Proof. unfold set_priv. leaves_auto. Qed.
Lemma bo_unmap_leaves bo : leaves w_dri (amdgpu_bo_unmap bo).
Proof. unfold amdgpu_bo_unmap. leaves_auto. Qed.
#[local] Hint Resolve fb_reference_leaves get_priv_leaves set_priv_leaves bo_unmap_leaves : leaves.
Lemma bo_unref_leaves bo : leaves w_dri (amdgpu_bo_unref bo).
Proof. unfold amdgpu_bo_unref. leaves_auto. Qed.
Lemma bo_ref_leaves bo : leaves w_dri (amdgpu_bo_ref bo).
Proof. unfold amdgpu_bo_ref. leaves_auto. Qed.
#[local] Hint Resolve bo_unref_leaves bo_ref_leaves : leaves.
Lemma set_pixmap_bo_leaves pix bo : leaves w_dri (amdgpu_set_pixmap_bo pix bo).
Proof. unfold amdgpu_set_pixmap_bo. leaves_auto. Qed.
Lemma drop_pixmap_leaves pix freed : leaves w_dri (drop_pixmap pix freed).
Proof. unfold drop_pixmap. leaves_auto. Qed.
#[local] Hint Resolve set_pixmap_bo_leaves drop_pixmap_leaves : leaves.
Lemma get_bo_leaves pix : leaves w_dri (amdgpu_get_pixmap_bo pix).
Proof. unfold amdgpu_get_pixmap_bo. leaves_auto. Qed.
#[local] Hint Resolve get_bo_leaves : leaves.
Lemma fbDestroyPixmap_leaves pix : leaves w_dri (fbDestroyPixmap pix).
Proof. unfold fbDestroyPixmap. leaves_auto. Qed.
#[local] Hint Resolve fbDestroyPixmap_leaves : leaves.
Lemma dixDestroyPixmap_leaves pix : leaves w_dri (dixDestroyPixmap pix).
Proof. unfold dixDestroyPixmap, amdgpu_glamor_destroy_pixmap, amdgpu_pixmap_destroy. leaves_auto. Qed.

Lemma bo_get_handle_leaves bo : leaves w_dri (amdgpu_bo_get_handle bo).
Proof. unfold amdgpu_bo_get_handle. leaves_auto. Qed.
Lemma do_tiling_leaves pix : leaves w_dri (amdgpu_pixmap_do_get_tiling_info pix).
Proof. unfold amdgpu_pixmap_do_get_tiling_info. leaves_auto. Qed.
#[local] Hint Resolve bo_get_handle_leaves do_tiling_leaves : leaves.
Lemma get_handle_leaves pix : leaves w_dri (amdgpu_pixmap_get_handle pix).
Proof. unfold amdgpu_pixmap_get_handle. leaves_auto. Qed.
#[local] Hint Resolve get_handle_leaves : leaves.
Lemma flink_leaves pix : leaves w_dri (amdgpu_get_flink_name pix).
Proof. unfold amdgpu_get_flink_name. leaves_auto. Qed.

Lemma get_dcrtc_leaves crtc : leaves w_dri (get_dcrtc crtc).
Proof. unfold get_dcrtc. leaves_auto. Qed.
#[local] Hint Resolve get_dcrtc_leaves : leaves.
Lemma wait_vblank_leaves crtc type target signal : leaves w_dri (wait_vblank_seq crtc type target signal).
Proof. unfold wait_vblank_seq, drmmode_wait_vblank, drmmode_get_crtc_id. leaves_auto. Qed.
Lemma current_ust_leaves : leaves w_dri drmmode_get_current_ust.
Proof. unfold drmmode_get_current_ust. leaves_auto. Qed.
#[local] Hint Resolve current_ust_leaves : leaves.
Lemma extrapolate_leaves crtc target divisor remainder :
  leaves w_dri (amdgpu_dri2_extrapolate_msc_delay crtc target divisor remainder).
Proof. unfold amdgpu_dri2_extrapolate_msc_delay. leaves_auto. Qed.
Lemma alloc_leaves crtc client id data h a flip :
  leaves w_dri (amdgpu_drm_queue_alloc crtc client id data h a flip).
Proof. unfold amdgpu_drm_queue_alloc. leaves_auto. Qed.
Lemma msc_delta_leaves d crtc : leaves w_dri (amdgpu_get_msc_delta d crtc).
Proof. unfold amdgpu_get_msc_delta. leaves_auto. Qed.
Lemma load_drawable_leaves draw : leaves w_dri (load_drawable draw).
Proof. unfold load_drawable, dixLookupDrawable. leaves_auto. Qed.
End Leaves.

#[export] Hint Resolve dixDestroyPixmap_leaves flink_leaves get_dcrtc_leaves wait_vblank_leaves current_ust_leaves
  extrapolate_leaves alloc_leaves msc_delta_leaves load_drawable_leaves : leaves.

(** ** Steps on the DRI state *)
Section Steps.
Context `{env : Env}.

(** Only the DRI state changes, as the invariant allows. *)
Lemma kept_dri w w' :
  w_queue w' = w_queue w -> w_crtcs w' = w_crtcs w -> w_scrns w' = w_scrns w ->
  (w_next w <= w_next w')%positive ->
  (forall own, dri_inv own w -> room own w' -> dri_inv own w') -> queue_wf w -> kept w w'.
Proof.
  intros Hq Hc Hs Hn Hi Hw. assert (Hnest : forall c, nest_of w' c = nest_of w c)
    by (intros c; unfold nest_of; by rewrite Hc).
  split_and!; [| by apply nest_le_eq | by split]. apply (queue_wf_frame w); [done | done | done | | done].
  intros s. unfold crtcs_of. by rewrite Hs.
Qed.

(** The parts of the DRI state the invariant does not read. *)
Lemma dri_inv_same own w w' :
  w_dri2_buffers w' = w_dri2_buffers w -> w_frame_events w' = w_frame_events w ->
  w_timers w' = w_timers w -> (w_next w <= w_next w')%positive -> dri_inv own w -> dri_inv own w'.
Proof.
  intros Hb He Ht Hn [H1 H2 H3 H4 H5 H6 H7]. split; unfold frame_refs; rewrite ?He, ?Hb, ?Ht; try done.
  - intros l Hl. specialize (H5 l Hl). lia.
  - intros l Hl. specialize (H6 l Hl). lia.
  - intros l Hl. specialize (H7 l Hl). lia.
Qed.

Lemma set_drawable_keeps draw f : keeps (set_drawable draw f).
Proof. apply keeps_modify. intros w Hw. apply kept_dri; try done. intros own Hi _. by apply (dri_inv_same own w). Qed.

Lemma new_flip_event_keeps e : keeps (new w_flip_events e).
Proof.
  apply keeps_bind; [apply keeps_gets |]. intros l. apply keeps_bind; [| intros; apply keeps_ret].
  apply keeps_modify. intros w Hw. apply kept_dri; try done; [unfold setf; cbn; lia |].
  intros own Hi _. apply (dri_inv_same own w); [done | done | done | unfold setf; cbn; lia | done].
Qed.
Lemma free_flip_event_keeps l : keeps (free w_flip_events l).
Proof.
  apply keeps_bind; [apply keeps_load |]. intros _. apply keeps_modify. intros w Hw. apply kept_dri; try done.
  intros own Hi _. by apply (dri_inv_same own w).
Qed.

(** A change of an event that keeps its references and its timer. *)
Lemma update_event_keeps l g :
  (forall e, fv_front (g e) = fv_front e /\ fv_back (g e) = fv_back e /\ fv_timer (g e) = fv_timer e) ->
  keeps (update w_frame_events l g).
Proof.
  intros Hg w Hw. apply pwp_update. intros e He. destruct (Hg e) as (Hf & Hb & Ht).
  apply kept_dri; try done. intros own [H1 H2 H3 H4 H5 H6 H7] _.
  change (w_frame_events w) with (w_frame_events w) in He.
  set (w' := setf w_frame_events <[l := g e]> w).
  assert (Hev : w_frame_events w' = <[l := g e]> (w_frame_events w)) by done.
  split; try done; rewrite ?Hev.
  - eapply counted_ext; [| exact H1]. intros b. unfold frame_refs. rewrite Hev, (msum_insert _ _ _ e) by done.
    unfold event_refs. rewrite Hf, Hb. lia.
  - intros t l' Hl. destruct (H3 t l' Hl) as (e' & He' & Hte). destruct (decide (l' = l)) as [->|Hne].
    + exists (g e). rewrite lookup_insert_eq. split; [done |]. rewrite He in He'. injection He' as <-. by rewrite Ht.
    + exists e'. by rewrite lookup_insert_ne.
  - intros l' e' t. destruct (decide (l' = l)) as [->|Hne].
    + rewrite lookup_insert_eq. intros [= <-]. rewrite Ht. by apply H4.
    + rewrite lookup_insert_ne by done. apply H4.
  - intros l'. destruct (decide (l' = l)) as [->|Hne]; [intros _; by apply H5; eauto |].
    rewrite lookup_insert_ne by done. apply H5.
Qed.

(** A change of a buffer that keeps its count. *)
Lemma update_buffer_keeps l g :
  (forall b, bp_refcnt (g b) = bp_refcnt b) -> keeps (update w_dri2_buffers l g).
Proof.
  intros Hg w Hw. apply pwp_update. intros b Hb. apply kept_dri; try done.
  intros own [H1 H2 H3 H4 H5 H6 H7] _. set (w' := setf w_dri2_buffers <[l := g b]> w).
  assert (Hbf : w_dri2_buffers w' = <[l := g b]> (w_dri2_buffers w)) by done.
  split; try done; rewrite ?Hbf.
  - intros l'. destruct (decide (l' = l)) as [->|Hne].
    + rewrite lookup_insert_eq, Hg. specialize (H1 l). by rewrite Hb in H1.
    + rewrite lookup_insert_ne by done. apply H1.
  - intros l'. destruct (decide (l' = l)) as [->|Hne]; [intros _; by apply H6; eauto |].
    rewrite lookup_insert_ne by done. apply H6.
Qed.

(** A new event that holds nothing. *)
Lemma dri_inv_new_event own own' w e :
  dri_inv own w -> fv_timer e = None -> (forall b, own b = own' b + event_refs b e) -> (forall b, 0 <= own' b) ->
  dri_inv own' (setf w_frame_events <[w_next w := e]> (w <| w_next ::= Pos.succ |>)).
Proof.
  intros [H1 H2 H3 H4 H5 H6 H7] Ht Ho Hp. set (w' := setf w_frame_events _ _).
  assert (Hev : w_frame_events w' = <[w_next w := e]> (w_frame_events w)) by done.
  assert (Hfresh : w_frame_events w !! w_next w = None).
  { destruct (w_frame_events w !! w_next w) eqn:Hl; [| done]. specialize (H5 _ (mk_is_Some _ _ Hl)). lia. }
  assert (Hnx : w_next w' = Pos.succ (w_next w)) by done.
  split; rewrite ?Hev, ?Hnx; try done.
  - eapply counted_ext; [| exact H1]. intros b. unfold frame_refs. rewrite Hev, msum_insert_fresh by done.
    rewrite Ho. lia.
  - intros t l Hl. destruct (H3 t l Hl) as (e' & He' & Hte). exists e'.
    rewrite lookup_insert_ne by congruence. done.
  - intros l e' t. destruct (decide (l = w_next w)) as [->|Hne].
    + rewrite lookup_insert_eq. intros [= <-]. by rewrite Ht.
    + rewrite lookup_insert_ne by done. apply H4.
  - intros l. destruct (decide (l = w_next w)) as [->|Hne]; [lia |].
    rewrite lookup_insert_ne by done. intros Hl. specialize (H5 _ Hl). lia.
  - intros l Hl. specialize (H6 l Hl). lia.
  - intros l Hl. specialize (H7 l Hl). lia.
Qed.

Lemma new_event_keeps e :
  fv_timer e = None -> fv_front e = None -> fv_back e = None -> keeps (new w_frame_events e).
Proof.
  intros Ht Hf Hb w Hw. apply pwp_bind, pwp_gets, pwp_bind, pwp_modify, pwp_ret.
  apply kept_dri; try done; [unfold setf; cbn; lia |]. intros own Hi _.
  apply (dri_inv_new_event own own); [done | done | | apply Hi].
  intros b. unfold event_refs. rewrite Hf, Hb, !points_None. lia.
Qed.

(** A new buffer is the server's. *)
Definition own_new (own : loc -> Z) (l : loc) : loc -> Z := fun b => own b + points b (Some l).

Lemma dri_inv_new_buffer own w b :
  dri_inv own w -> bp_refcnt b = 1 ->
  dri_inv (own_new own (w_next w)) (setf w_dri2_buffers <[w_next w := b]> (w <| w_next ::= Pos.succ |>)).
Proof.
  intros [H1 H2 H3 H4 H5 H6 H7] Hb. set (w' := setf w_dri2_buffers _ _).
  assert (Hbf : w_dri2_buffers w' = <[w_next w := b]> (w_dri2_buffers w)) by done.
  assert (Hfresh : w_dri2_buffers w !! w_next w = None).
  { destruct (w_dri2_buffers w !! w_next w) eqn:Hl; [| done]. specialize (H6 _ (mk_is_Some _ _ Hl)). lia. }
  assert (Hnx : w_next w' = Pos.succ (w_next w)) by done.
  split; rewrite ?Hbf, ?Hnx; try done.
  - pose proof (H1 (w_next w)) as H0. rewrite Hfresh in H0.
    eapply counted_ext; [| apply (counted_insert _ _ _ (w_next w) b 1 H1); lia].
    intros x. unfold own_new, frame_refs. change (w_frame_events w') with (w_frame_events w). lia.
  - intros x. unfold own_new. pose proof (points_range x (Some (w_next w))). specialize (H2 x). lia.
  - intros l Hl. specialize (H5 l Hl). lia.
  - intros l. destruct (decide (l = w_next w)) as [->|Hne]; [lia |].
    rewrite lookup_insert_ne by done. intros Hl. specialize (H6 _ Hl). lia.
  - intros l Hl. specialize (H7 l Hl). lia.
Qed.

(** One more reference in a local variable. *)
Lemma dri_inv_ref own w l b :
  dri_inv own w -> own l + 2 * Zpos (w_next w) < 2 ^ 32 -> w_dri2_buffers w !! l = Some b ->
  dri_inv (own_new own l) (setf w_dri2_buffers <[l := b <| bp_refcnt ::= fun n => u32 (n + 1) |>]> w).
Proof.
  intros Hi Hr Hl. pose proof (frame_refs_bound own w l Hi) as Hfr.
  destruct Hi as [H1 H2 H3 H4 H5 H6 H7]. set (b' := setf bp_refcnt _ b). set (w' := setf w_dri2_buffers _ w).
  assert (Hbf : w_dri2_buffers w' = <[l := b']> (w_dri2_buffers w)) by done.
  destruct (counted_pos _ _ _ _ _ H1 Hl) as [Hrc Hpos].
  assert (Hb' : bp_refcnt b' = bp_refcnt b + 1)
    by (change (u32 (bp_refcnt b + 1) = bp_refcnt b + 1); apply u32_id; unfold in_u32; lia).
  split; rewrite ?Hbf; try done.
  - eapply counted_ext; [| apply (counted_insert _ _ _ l b' 1 H1); lia].
    intros x. unfold own_new, frame_refs. change (w_frame_events w') with (w_frame_events w). lia.
  - intros x. unfold own_new. pose proof (points_range x (Some l)). specialize (H2 x). lia.
  - intros x. destruct (decide (x = l)) as [->|Hne]; [intros _; by apply H6; eauto |].
    rewrite lookup_insert_ne by done. apply H6.
Qed.
End Steps.

(** ** Giving up references *)
Section Release.
Context `{env : Env} `{srv : XServer}.

(** The queue is kept; nothing is said of the DRI state. *)
Definition qkept (w w' : world) : Prop := queue_wf w' /\ nest_le w w' /\ (w_next w <= w_next w')%positive.

Lemma kept_qkept w w' : kept w w' -> qkept w w'.
Proof. intros (Hw & Hn & Hg). split_and!; [done | done | apply Hg]. Qed.
Lemma qkept_trans w1 w2 w3 : qkept w1 w2 -> qkept w2 w3 -> qkept w1 w3.
Proof. intros (_ & H1 & N1) (Hw & H2 & N2). split_and!; [done | exact (nest_le_trans _ _ _ H1 H2) | lia]. Qed.
Lemma qkept_dri w f : queue_wf w -> qkept w (setf w_dri f w).
Proof. intros Hw. split_and!; [| by apply nest_le_eq | done]. by apply (queue_wf_frame w). Qed.

(** What unreferencing a buffer does: the counts given by [n] are right before
    and, less the reference, after. *)
Definition released (n : loc -> Z) (l : option loc) (w w' : world) : Prop :=
  qkept w w' /\ counted bp_refcnt (w_dri2_buffers w') (fun b => n b - points b l) /\
  w_frame_events w' = w_frame_events w /\ w_timers w' = w_timers w /\
  (forall b, is_Some (w_dri2_buffers w' !! b) -> is_Some (w_dri2_buffers w !! b)).

Lemma destroy_buffer_released n l w :
  queue_wf w -> counted bp_refcnt (w_dri2_buffers w) n -> n l < 2 ^ 32 ->
  pwp (amdgpu_dri2_destroy_buffer2 (Some l)) (fun _ => released n (Some l) w) w.
Proof.
  intros Hw Hc Hn. apply pwp_bind, pwp_load. intros b Hb. destruct (counted_pos _ _ _ _ _ Hc Hb) as [Hrc Hpos].
  destruct (Z.eqb_spec (bp_refcnt b) 0); [lia |].
  rewrite (u32_id (bp_refcnt b - 1)) by (unfold in_u32; lia).
  apply pwp_bind, pwp_modify. set (b' := setf bp_refcnt _ b). set (w1 := setf w_dri2_buffers _ w).
  assert (Hq1 : qkept w w1) by (by apply qkept_dri).
  assert (Hb1 : w_dri2_buffers w1 = <[l := b']> (w_dri2_buffers w)) by done.
  assert (Hsome : forall x, is_Some (w_dri2_buffers w1 !! x) -> is_Some (w_dri2_buffers w !! x)).
  { intros x. rewrite Hb1. destruct (decide (x = l)) as [->|Hne]; [by rewrite Hb |]. by rewrite lookup_insert_ne. }
  destruct (Z.eqb_spec (bp_refcnt b - 1) 0) as [Hz|Hz].
  - apply pwp_bind. eapply (pwp_mono _ (fun _ w' => kept w1 w' /\ w_dri w' = w_dri w1)).
    { apply pwp_and.
      - pose proof dixDestroyPixmap_keeps. destruct (bp_pixmap b); [| by apply pwp_ret, kept_refl, Hq1].
        by apply H, Hq1.
      - destruct (bp_pixmap b); [apply dixDestroyPixmap_leaves | done]. }
    intros _ w2 [Hk Hd]. apply pwp_bind, pwp_load. intros _ _. apply pwp_modify.
    assert (Hb2 : w_dri2_buffers w2 = w_dri2_buffers w1) by (unfold w_dri2_buffers; by rewrite Hd).
    split_and!.
    + apply (qkept_trans _ w1); [done |]. apply (qkept_trans _ w2); [by apply kept_qkept |].
      apply qkept_dri, Hk.
    + change (w_dri2_buffers (setf w_dri2_buffers (delete l) w2)) with (delete l (w_dri2_buffers w2)).
      rewrite Hb2, Hb1, delete_insert_eq. apply counted_delete; [done | lia].
    + change (w_frame_events w2 = w_frame_events w1). unfold w_frame_events. by rewrite Hd.
    + change (w_timers w2 = w_timers w1). unfold w_timers. by rewrite Hd.
    + intros x Hx. apply Hsome. rewrite <- Hb2. destruct Hx as [y Hy].
      change (delete l (w_dri2_buffers w2) !! x = Some y) in Hy. apply lookup_delete_Some in Hy as [_ Hy]. eauto.
  - apply pwp_ret. split_and!; try done. rewrite Hb1.
    eapply counted_ext; [| apply (counted_insert _ _ _ l b' (-1) Hc)]; [intros; cbn; lia | |];
      change (bp_refcnt b') with (bp_refcnt b - 1); lia.
Qed.

Lemma unref_released n o w :
  queue_wf w -> counted bp_refcnt (w_dri2_buffers w) n -> (forall l, n l < 2 ^ 32) ->
  pwp (amdgpu_dri2_unref_buffer o) (fun _ => released n o w) w.
Proof.
  intros Hw Hc Hn. destruct o as [l|]; cbn [amdgpu_dri2_unref_buffer].
  - apply pwp_bind, pwp_load. intros b Hb. apply pwp_bind. destruct (bp_pixmap b) as [pix|]; [| done].
    apply pwp_ret, pwp_bind, pwp_load. intros p _. by apply destroy_buffer_released.
  - apply pwp_ret. split_and!; try done; [by apply kept_qkept, kept_refl |].
    eapply counted_ext; [| exact Hc]. intros b. cbn. rewrite points_None. lia.
Qed.

(** ** The end of a frame event *)

(** The world without the event [l], whose references are now loose. *)
Lemma dri_inv_counts own w l e :
  dri_inv own w -> w_frame_events w !! l = Some e ->
  counted bp_refcnt (w_dri2_buffers w)
    (fun b => own b + event_refs b e + msum (event_refs b) (delete l (w_frame_events w))).
Proof.
  intros Hi He. eapply counted_ext; [| apply (di_refs _ _ Hi)]. intros b. cbn. unfold frame_refs.
  rewrite (msum_delete _ _ _ _ He). lia.
Qed.

(** The state after an event, its timer and its references are gone. *)
Lemma dri_inv_end own w w' l e :
  dri_inv own w -> w_frame_events w !! l = Some e ->
  counted bp_refcnt (w_dri2_buffers w') (fun b => own b + msum (event_refs b) (delete l (w_frame_events w))) ->
  w_frame_events w' = delete l (w_frame_events w) ->
  w_timers w' = match fv_timer e with Some t => delete t (w_timers w) | None => w_timers w end ->
  (forall b, is_Some (w_dri2_buffers w' !! b) -> is_Some (w_dri2_buffers w !! b)) ->
  (w_next w <= w_next w')%positive -> dri_inv own w'.
Proof.
  intros [H1 H2 H3 H4 H5 H6 H7] He Hc Hev Ht Hb Hn.
  assert (Hev' : forall x y, w_frame_events w' !! x = Some y -> x <> l /\ w_frame_events w !! x = Some y).
  { intros x y. rewrite Hev. intros [? ?]%lookup_delete_Some. done. }
  assert (Ht' : forall t x, w_timers w' !! t = Some x -> fv_timer e <> Some t /\ w_timers w !! t = Some x).
  { intros t x. rewrite Ht. destruct (fv_timer e) as [t0|]; [| done].
    intros [Hne ?]%lookup_delete_Some. split; congruence. }
  split.
  - eapply counted_ext; [| exact Hc]. intros b. unfold frame_refs. by rewrite Hev.
  - done.
  - intros t x Hx. destruct (Ht' _ _ Hx) as [Hne Hx']. destruct (H3 _ _ Hx') as (e' & He' & Hte).
    exists e'. split; [| done]. rewrite Hev. apply lookup_delete_Some. split; [| done]. intros ->.
    rewrite He in He'. injection He' as <-. done.
  - intros x e' t Hx Hte. destruct (Hev' _ _ Hx) as [Hne Hx']. pose proof (H4 _ _ _ Hx' Hte) as Hw. rewrite Ht.
    destruct (fv_timer e) as [t0|] eqn:Ht0; [| done]. apply lookup_delete_Some. split; [| done]. intros ->.
    pose proof (H4 _ _ _ He Ht0). congruence.
  - intros x [y Hx]. destruct (Hev' _ _ Hx) as [_ Hx']. specialize (H5 _ (mk_is_Some _ _ Hx')). lia.
  - intros x Hx. specialize (H6 _ (Hb _ Hx)). lia.
  - intros x [y Hx]. destruct (Ht' _ _ Hx) as [_ Hx']. specialize (H7 _ (mk_is_Some _ _ Hx')). lia.
Qed.

(** The two halves of [keeps]. *)
Definition qkeeps {A} (m : D A) : Prop := forall w, queue_wf w -> pwp m (fun _ => qkept w) w.

Lemma keeps_split {A} (m : D A) :
  qkeeps m ->
  (forall own w, queue_wf w -> dri_inv own w -> room own w -> pwp m (fun _ => dri_inv own) w) -> keeps m.
Proof.
  intros Hq Hd w Hw. pose proof (Hq w Hw) as Hq'. pose proof (fun own => Hd own w Hw) as Hd'. unfold pwp in *.
  destruct (m w) as [a w'| |]; [| done | done]. destruct Hq' as (Hw' & Hn & Hx). split_and!; [done | done |].
  split; [done |]. intros own Hi Hr. apply Hd'; [done | exact (room_mono _ _ _ Hx Hr)].
Qed.

Lemma qkeeps_keeps {A} (m : D A) : keeps m -> qkeeps m.
Proof. intros Hm w Hw. eapply pwp_mono; [by apply Hm |]. intros a w'. apply kept_qkept. Qed.
Lemma qkeeps_bind {A B} (m : D A) (k : A -> D B) : qkeeps m -> (forall a, qkeeps (k a)) -> qkeeps (mbind k m).
Proof.
  intros Hm Hk w Hw. apply pwp_bind. eapply pwp_mono; [by apply Hm |]. intros a w1 H1.
  eapply pwp_mono; [apply Hk, H1 |]. intros b w2 H2. exact (qkept_trans _ _ _ H1 H2).
Qed.
Lemma qkeeps_modify f : qkeeps (modify (setf w_dri f)).
Proof. intros w Hw. by apply pwp_modify, qkept_dri. Qed.
Lemma qkeeps_free_event l : qkeeps (free w_frame_events l).
Proof. apply qkeeps_bind; [apply qkeeps_keeps, keeps_load |]. intros _. apply qkeeps_modify. Qed.
Lemma qkeeps_destroy o : qkeeps (amdgpu_dri2_destroy_buffer2 o).
Proof.
  destruct o as [l|]; [| apply qkeeps_keeps, keeps_ret]. cbn [amdgpu_dri2_destroy_buffer2].
  apply qkeeps_bind; [apply qkeeps_keeps, keeps_load |]. intros b.
  destruct (_ =? 0); [apply qkeeps_keeps, keeps_ret |]. apply qkeeps_bind; [apply qkeeps_modify |]. intros _.
  destruct (_ =? 0); [| apply qkeeps_keeps, keeps_ret]. apply qkeeps_bind.
  - apply qkeeps_keeps. destruct (bp_pixmap b); [apply dixDestroyPixmap_keeps | apply keeps_ret].
  - intros _. apply qkeeps_bind; [apply qkeeps_keeps, keeps_load |]. intros _. apply qkeeps_modify.
Qed.
Lemma qkeeps_unref o : qkeeps (amdgpu_dri2_unref_buffer o).
Proof.
  destruct o as [l|]; [| apply qkeeps_keeps, keeps_ret]. cbn [amdgpu_dri2_unref_buffer].
  apply qkeeps_bind; [apply qkeeps_keeps, keeps_load |]. intros b.
  apply qkeeps_bind; [apply qkeeps_keeps, keeps_deref |]. intros pix.
  apply qkeeps_bind; [apply qkeeps_keeps, keeps_load |]. intros p. apply qkeeps_destroy.
Qed.

Lemma frame_event_abort_keeps data : keeps (amdgpu_dri2_frame_event_abort data).
Proof.
  apply keeps_split.
  { apply qkeeps_bind; [apply qkeeps_keeps; destruct data; solve [apply keeps_raise | apply keeps_ret] |]. intros l.
    apply qkeeps_bind; [apply qkeeps_keeps, keeps_load |]. intros e. apply qkeeps_bind.
    - destruct (fv_timer e); [| apply qkeeps_keeps, keeps_ret].
      apply qkeeps_bind; [apply qkeeps_keeps, keeps_load |]. intros _. apply qkeeps_modify.
    - intros _. do 2 (apply qkeeps_bind; [apply qkeeps_unref |]; intros _). apply qkeeps_free_event. }
  intros own w Hw Hi Hr. apply pwp_bind. destruct data; try done. apply pwp_ret, pwp_bind, pwp_load. intros e He.
  set (n b := own b + event_refs b e + msum (event_refs b) (delete l (w_frame_events w))).
  assert (Hc : counted bp_refcnt (w_dri2_buffers w) n) by (by apply dri_inv_counts).
  assert (Hn : forall b, n b < 2 ^ 32).
  { intros b. pose proof (frame_refs_bound own w b Hi) as Hfr. specialize (Hr b). unfold frame_refs in Hfr.
    rewrite (msum_delete _ _ _ _ He) in Hfr. unfold n. lia. }
  (* the timer *)
  apply pwp_bind. eapply (pwp_mono _ (fun _ w1 => qkept w w1 /\ w_dri2_buffers w1 = w_dri2_buffers w /\
    w_frame_events w1 = w_frame_events w /\
    w_timers w1 = match fv_timer e with Some t => delete t (w_timers w) | None => w_timers w end)).
  { destruct (fv_timer e) as [t|]; [| apply pwp_ret; split_and!; [by apply kept_qkept, kept_refl | done..]].
    apply pwp_bind, pwp_load. intros _ _. apply pwp_modify. split_and!; [by apply qkept_dri | done..]. }
  intros _ w1 (Q1 & B1 & E1 & T1).
  (* the references *)
  apply pwp_bind. eapply pwp_mono; [apply (unref_released n); [apply Q1 | by rewrite B1 | done] |].
  intros _ w2 (Q2 & C2 & E2 & T2 & B2). apply pwp_bind. eapply pwp_mono; [apply unref_released; [apply Q2 | exact C2 |] |].
  { intros b. cbn. pose proof (points_range b (fv_front e)). specialize (Hn b). lia. }
  intros _ w3 (Q3 & C3 & E3 & T3 & B3).
  apply pwp_bind, pwp_load. intros _ _. apply pwp_modify.
  apply (dri_inv_end own w _ l e Hi He).
  - eapply counted_ext; [| exact C3]. intros b. unfold n, event_refs. cbn. lia.
  - change (delete l (w_frame_events w3) = delete l (w_frame_events w)). by rewrite E3, E2, E1.
  - change (w_timers w3 = match fv_timer e with Some t => delete t (w_timers w) | None => w_timers w end).
    by rewrite T3, T2, T1.
  - intros b Hb. rewrite <- B1. apply B2, B3, Hb.
  - change (w_next w <= w_next w3)%positive. pose proof (proj2 (proj2 Q1)). pose proof (proj2 (proj2 Q2)).
    pose proof (proj2 (proj2 Q3)). lia.
Qed.
End Release.

(** ** Two references in local variables *)
Section Holding.
Context `{env : Env} `{srv : XServer} `{comp : Composite}.

(** Since [w0], one reference each to [f] and [b] has been taken. *)
Definition holding (f b : loc) (w0 w : world) : Prop :=
  qkept w0 w /\ forall own, dri_inv own w0 -> room own w -> dri_inv (own_new (own_new own f) b) w.

Lemma ref_buffers_holding f b w :
  queue_wf w ->
  pwp (_ ← amdgpu_dri2_ref_buffer f; amdgpu_dri2_ref_buffer b) (fun _ => holding f b w) w.
Proof.
  intros Hw. apply pwp_bind, pwp_update. intros bf Hf. set (w1 := setf w_dri2_buffers _ w).
  apply pwp_update. intros bb Hb. set (w2 := setf w_dri2_buffers _ w1). split.
  - apply (qkept_trans _ w1); [by apply qkept_dri |]. apply qkept_dri. exact (proj1 (qkept_dri w _ Hw)).
  - intros own Hi Hr. assert (Hn : w_next w2 = w_next w) by done. unfold room in Hr. rewrite Hn in Hr.
    apply dri_inv_ref; [apply dri_inv_ref; [done | specialize (Hr f); lia | done] | | done].
    change (w_next w1) with (w_next w). unfold own_new. pose proof (points_range b (Some f)). specialize (Hr b). lia.
Qed.

Lemma holding_step {A B} f b w0 w (m : D A) (k : A -> D B) (Q : B -> world -> Prop) :
  keeps m -> leaves w_dri m -> holding f b w0 w ->
  (forall a w1, holding f b w0 w1 -> pwp (k a) Q w1) -> pwp (mbind k m) Q w.
Proof.
  intros Hm Hl (Hq & Hi) Hk. apply pwp_bind.
  eapply pwp_mono; [apply pwp_and; [apply Hm, Hq | apply Hl] |]. intros a w1 [Hk1 Hd]. apply Hk.
  split; [exact (qkept_trans _ _ _ Hq (kept_qkept _ _ Hk1)) |]. intros own Ho Hr.
  pose proof (proj1 (proj2 (proj2 Hk1))) as Hn.
  apply (dri_inv_frame _ w); [done | done |]. apply Hi; [done | exact (room_mono _ _ _ Hn Hr)].
Qed.

(** The references become those of a new event. *)
Lemma holding_event f b w0 w e :
  holding f b w0 w -> fv_timer e = None -> fv_front e = Some f -> fv_back e = Some b ->
  kept w0 (setf w_frame_events <[w_next w := e]> (w <| w_next ::= Pos.succ |>)).
Proof.
  intros (Hq & Hi) Ht Hf Hb. set (w' := setf w_frame_events _ _).
  assert (Hq' : qkept w w').
  { split_and!; [| by apply nest_le_eq | unfold w', setf; cbn; lia].
    apply (queue_wf_frame w); [done | unfold w', setf; cbn; lia | done | done | apply Hq]. }
  pose proof (qkept_trans _ _ _ Hq Hq') as (Hw & Hn & Hx). split_and!; [done | done |]. split; [done |].
  intros own Ho Hr. apply (dri_inv_new_event (own_new (own_new own f) b)); [| done | | apply Ho].
  - apply Hi; [done |]. exact (room_mono _ _ _ (proj2 (proj2 Hq')) Hr).
  - intros x. unfold own_new, event_refs. rewrite Hf, Hb. lia.
Qed.

Lemma dri_inv_buffers own own2 w w' :
  dri_inv own2 w -> (forall b, 0 <= own b) ->
  counted bp_refcnt (w_dri2_buffers w') (fun b => own b + frame_refs w b) ->
  w_frame_events w' = w_frame_events w -> w_timers w' = w_timers w ->
  (forall b, is_Some (w_dri2_buffers w' !! b) -> is_Some (w_dri2_buffers w !! b)) ->
  (w_next w <= w_next w')%positive -> dri_inv own w'.
Proof.
  intros [H1 H2 H3 H4 H5 H6 H7] Hp Hc He Ht Hb Hn. split; unfold frame_refs; rewrite ?He, ?Ht; try done.
  - intros l Hl. specialize (H5 l Hl). lia.
  - intros l Hl. specialize (H6 l (Hb l Hl)). lia.
  - intros l Hl. specialize (H7 l Hl). lia.
Qed.

Lemma release_both f b w0 w :
  holding f b w0 w ->
  pwp (_ ← amdgpu_dri2_unref_buffer (Some f); amdgpu_dri2_unref_buffer (Some b)) (fun _ => kept w0) w.
Proof.
  intros (Hq & Hi). set (m := mbind _ _).
  assert (Hqm : pwp m (fun _ => qkept w) w) by (apply qkeeps_bind; [apply qkeeps_unref | intros; apply qkeeps_unref | apply Hq]).
  assert (Hdm : forall own, dri_inv own w0 -> room own w -> pwp m (fun _ => dri_inv own) w).
  { intros own Ho Hr. specialize (Hi own Ho Hr). set (own2 := own_new _ b) in *.
    assert (Hn : forall l, own2 l + frame_refs w l < 2 ^ 32).
    { intros l. pose proof (frame_refs_bound _ w l Hi) as Hfr. specialize (Hr l). unfold own2, own_new.
      pose proof (points_range l (Some f)). pose proof (points_range l (Some b)). lia. }
    apply pwp_bind. eapply pwp_mono; [apply unref_released; [apply Hq | apply Hi | done] |].
    intros _ w1 (Q1 & C1 & E1 & T1 & B1).
    eapply pwp_mono; [apply unref_released; [apply Q1 | exact C1 |] |].
    { intros l. cbn. pose proof (points_range l (Some f)). specialize (Hn l). lia. }
    intros _ w2 (Q2 & C2 & E2 & T2 & B2). apply (dri_inv_buffers own own2 w); [done | apply Ho | | | | |].
    - eapply counted_ext; [| exact C2]. intros l. cbn. unfold own2, own_new. lia.
    - by rewrite E2, E1.
    - by rewrite T2, T1.
    - intros l Hl. apply B1, B2, Hl.
    - pose proof (proj2 (proj2 Q1)). pose proof (proj2 (proj2 Q2)). lia. }
  unfold pwp in *. destruct (m w) as [a w'| |]; [| done | done].
  destruct (qkept_trans _ _ _ Hq Hqm) as (Hw & Hn & Hx). split_and!; [done | done |]. split; [done |].
  intros own Ho Hr. apply Hdm; [done |]. exact (room_mono _ _ _ (proj2 (proj2 Hqm)) Hr).
Qed.
End Holding.

(** ** All of amdgpu_dri2.c *)
Section Functions.
Context `{env : Env} `{srv : XServer} `{randr : RandR} `{comp : Composite} `{safe : CallbacksSafe}.

Lemma lookup_drawable_keeps id : keeps (dixLookupDrawable id).
Proof. apply keeps_gets. Qed.
#[local] Hint Resolve lookup_drawable_keeps set_drawable_keeps new_flip_event_keeps free_flip_event_keeps
  dixDestroyPixmap_keeps frame_event_abort_keeps : keeps.
#[local] Hint Extern 1 (keeps (update w_dri2_buffers _ _)) => apply update_buffer_keeps; done : keeps.
#[local] Hint Extern 1 (keeps (update w_frame_events _ _)) => apply update_event_keeps; done : keeps.
Lemma load_drawable_keeps id : keeps (load_drawable id).
Proof. unfold load_drawable. keeps_auto. Qed.
Lemma pixmap_ref_keeps pix : keeps (pixmap_ref pix).
Proof. unfold pixmap_ref. keeps_auto. Qed.
#[local] Hint Resolve load_drawable_keeps pixmap_ref_keeps : keeps.
Lemma flink_keeps pix : keeps (amdgpu_get_flink_name pix).
Proof. unfold amdgpu_get_flink_name. keeps_auto. Qed.
#[local] Hint Resolve flink_keeps : keeps.
Lemma copy_end_keeps scrn draw d b : keeps (copy_end scrn draw d b).
Proof. unfold copy_end. keeps_auto. Qed.
Lemma ref_depth_keeps r : keeps (ref_depth r).
Proof. unfold ref_depth. keeps_auto. Qed.
#[local] Hint Resolve copy_end_keeps ref_depth_keeps : keeps.
Lemma copy_region_keeps scrn draw r dest src : keeps (amdgpu_dri2_copy_region2 scrn draw r dest src).
Proof. unfold amdgpu_dri2_copy_region2. keeps_auto. Qed.
Lemma copy_region_leaves scrn draw r dest src : leaves w_dri (amdgpu_dri2_copy_region2 scrn draw r dest src).
Proof. unfold amdgpu_dri2_copy_region2, copy_end, ref_depth. leaves_auto. Qed.
Lemma msc_delta_keeps d crtc : keeps (amdgpu_get_msc_delta d crtc).
Proof. unfold amdgpu_get_msc_delta. keeps_auto. Qed.
#[local] Hint Resolve copy_region_keeps msc_delta_keeps : keeps.
Lemma crtc_msc_keeps crtc : keeps (amdgpu_dri2_get_crtc_msc crtc).
Proof. unfold amdgpu_dri2_get_crtc_msc, drmmode_crtc_get_ust_msc. keeps_auto. Qed.
#[local] Hint Resolve crtc_msc_keeps : keeps.
Lemma drawable_crtc_keeps draw : keeps (amdgpu_dri2_drawable_crtc draw).
Proof. unfold amdgpu_dri2_drawable_crtc. keeps_auto. Qed.
#[local] Hint Resolve drawable_crtc_keeps : keeps.
Lemma get_msc_keeps draw : keeps (amdgpu_dri2_get_msc draw).
Proof. unfold amdgpu_dri2_get_msc. keeps_auto. Qed.
Lemma extrapolate_keeps crtc target divisor remainder :
  keeps (amdgpu_dri2_extrapolate_msc_delay crtc target divisor remainder).
Proof. unfold amdgpu_dri2_extrapolate_msc_delay. keeps_auto. Qed.
Lemma flip_event_abort_keeps crtc data : keeps (amdgpu_dri2_flip_event_abort crtc data).
Proof. unfold amdgpu_dri2_flip_event_abort, cookie_flip_event. keeps_auto. Qed.
#[local] Hint Resolve extrapolate_keeps flip_event_abort_keeps : keeps.
Lemma flip_event_handler_keeps crtc frame usec data : keeps (amdgpu_dri2_flip_event_handler crtc frame usec data).
Proof. unfold amdgpu_dri2_flip_event_handler, cookie_flip_event, amdgpu_update_flip_stats. keeps_auto. Qed.
Lemma schedule_flip_keeps fuel crtc client draw front back func data target :
  keeps (amdgpu_dri2_schedule_flip fuel crtc client draw front back func data target).
Proof. unfold amdgpu_dri2_schedule_flip. keeps_auto. Qed.
Lemma update_front_keeps draw front : keeps (update_front draw front).
Proof. unfold update_front. keeps_auto. Qed.
#[local] Hint Resolve schedule_flip_keeps update_front_keeps : keeps.
Lemma can_exchange_keeps draw front back : keeps (can_exchange draw front back).
Proof. unfold can_exchange. keeps_auto. Qed.
Lemma count_can_flip_keeps l : keeps (count_can_flip l).
Proof.
  unfold count_can_flip. generalize 0. induction l as [|crtc l IH]; intros n; [apply keeps_ret |]. cbn.
  unfold drmmode_crtc_can_flip. keeps_auto.
Qed.
#[local] Hint Resolve can_exchange_keeps count_can_flip_keeps : keeps.
Lemma can_flip_keeps crtc draw front back : keeps (can_flip crtc draw front back).
Proof. unfold can_flip. keeps_auto. Qed.
Lemma exchange_buffers_keeps draw front back : keeps (amdgpu_dri2_exchange_buffers draw front back).
Proof. unfold amdgpu_dri2_exchange_buffers, amdgpu_glamor_exchange_buffers. keeps_auto. Qed.
#[local] Hint Resolve can_flip_keeps exchange_buffers_keeps : keeps.
Lemma swap_now_keeps l d seq usec : keeps (swap_now l d seq usec).
Proof. unfold swap_now. keeps_auto. Qed.
#[local] Hint Resolve swap_now_keeps : keeps.
Lemma frame_event_handler_keeps fuel crtc seq usec data :
  keeps (amdgpu_dri2_frame_event_handler fuel crtc seq usec data).
Proof. unfold amdgpu_dri2_frame_event_handler, cookie_frame. keeps_auto. Qed.
Lemma deliver_emulated_keeps fuel crtc frame sec usec seq : keeps (deliver_emulated fuel crtc frame sec usec seq).
Proof.
  unfold deliver_emulated. apply keeps_bind; [keeps_auto |]. intros _. apply keeps_raised. intros _. apply ends_deferred.
Qed.
#[local] Hint Resolve frame_event_handler_keeps deliver_emulated_keeps : keeps.
Lemma deferred_event_keeps fuel l : keeps (amdgpu_dri2_deferred_event fuel l).
Proof. unfold amdgpu_dri2_deferred_event. keeps_auto. Qed.
#[local] Hint Resolve deferred_event_keeps : keeps.

(** *** Timers *)

(** The event waits and has no timer yet. *)
Definition untimed (l : loc) (w : world) : Prop :=
  exists e, w_frame_events w !! l = Some e /\ fv_timer e = None.

Lemma dri_inv_set_timer own w l e :
  dri_inv own w -> w_frame_events w !! l = Some e -> fv_timer e = None ->
  dri_inv own (setf w_frame_events <[l := e <| fv_timer := Some (w_next w) |>]>
                 (setf w_timers <[w_next w := l]> (w <| w_next ::= Pos.succ |>))).
Proof.
  intros [H1 H2 H3 H4 H5 H6 H7] He Ht. set (e' := setf fv_timer _ e). set (w' := setf w_frame_events _ _).
  assert (Hev : w_frame_events w' = <[l := e']> (w_frame_events w)) by done.
  assert (Htm : w_timers w' = <[w_next w := l]> (w_timers w)) by done.
  assert (Hnx : w_next w' = Pos.succ (w_next w)) by done.
  assert (Hfresh : w_timers w !! w_next w = None).
  { destruct (w_timers w !! w_next w) eqn:Hl; [| done]. specialize (H7 _ (mk_is_Some _ _ Hl)). lia. }
  split; rewrite ?Hev, ?Htm, ?Hnx; try done.
  - eapply counted_ext; [| exact H1]. intros b. unfold frame_refs. rewrite Hev, (msum_insert _ _ _ e) by done.
    unfold event_refs, e'. cbn. lia.
  - intros t x. destruct (decide (t = w_next w)) as [->|Hne].
    + rewrite lookup_insert_eq. intros [= <-]. exists e'. by rewrite lookup_insert_eq.
    + rewrite lookup_insert_ne by done. intros Hx. destruct (H3 _ _ Hx) as (y & Hy & Hty). exists y.
      rewrite lookup_insert_ne; [done |]. intros ->. rewrite He in Hy. injection Hy as <-. congruence.
  - intros x y t. destruct (decide (x = l)) as [->|Hne].
    + rewrite lookup_insert_eq. intros [= <-]. cbn. intros [= <-]. apply lookup_insert_eq.
    + rewrite lookup_insert_ne by done. intros Hx Hty. pose proof (H4 _ _ _ Hx Hty) as Hw.
      rewrite lookup_insert_ne; [done |]. congruence.
  - intros x. destruct (decide (x = l)) as [->|Hne].
    + intros _. specialize (H5 _ (mk_is_Some _ _ He)). lia.
    + rewrite lookup_insert_ne by done. intros Hx. specialize (H5 _ Hx). lia.
  - intros x Hx. specialize (H6 _ Hx). lia.
  - intros x. destruct (decide (x = w_next w)) as [->|Hne]; [lia |]. rewrite lookup_insert_ne by done.
    intros Hx. specialize (H7 _ Hx). lia.
Qed.

Lemma schedule_event_kept fuel delay l w :
  queue_wf w -> untimed l w -> pwp (amdgpu_dri2_schedule_event fuel delay l) (fun _ => kept w) w.
Proof.
  intros Hw (e & He & Ht). apply pwp_bind. wp_ext. set (w1 := setf w_trace _ w).
  assert (H1 : kept w w1) by (by apply kept_frame).
  set (k := fun _ : unit => if delay =? 0 then _ else _ : D unit).
  assert (Hk : forall w2, kept w w2 -> pwp (k tt) (fun _ => kept w) w2).
  { intros w2 H2. eapply pwp_mono; [apply (ltac:(unfold k; keeps_auto) : keeps (k tt)), H2 |].
    intros [] w3 H3. exact (kept_trans _ _ _ H2 H3). }
  destruct (reply _ _).
  - apply pwp_bind, pwp_bind, pwp_bind, pwp_gets, pwp_bind, pwp_modify, pwp_ret, pwp_ret, pwp_bind, pwp_update.
    intros e' He'. change (w_frame_events w !! l = Some e') in He'. rewrite He in He'. injection He' as <-.
    apply Hk. apply (kept_trans _ _ _ H1). apply kept_dri; try done; [unfold setf; cbn; lia | | apply H1].
    intros own Hi _. by apply (dri_inv_set_timer own w1 l e).
  - apply pwp_bind, pwp_ret, pwp_bind, pwp_update. intros e' He'.
    change (w_frame_events w !! l = Some e') in He'. rewrite He in He'. injection He' as <-. apply Hk.
    apply (kept_trans _ _ _ H1). apply kept_dri; try done; [| apply H1]. intros own Hi _.
    apply (dri_inv_same own w1); try done. change (<[l := setf fv_timer (fun _ => None) e]> (w_frame_events w) = w_frame_events w).
    apply insert_id. rewrite He. f_equal. destruct e. cbn in Ht. by subst.
Qed.

(** *** Requests of clients *)

Lemma leaves_events {A} (m : D A) : leaves w_dri m -> leaves w_frame_events m.
Proof. exact (leaves_part dri_frame_events w_dri m). Qed.

Lemma untimed_step {A B} l w0 w (m : D A) (k : A -> D B) :
  keeps m -> leaves w_frame_events m -> kept w0 w -> untimed l w ->
  (forall a w1, kept w0 w1 -> untimed l w1 -> pwp (k a) (fun _ => kept w0) w1) ->
  pwp (mbind k m) (fun _ => kept w0) w.
Proof.
  intros Hm Hl Hk (e & He & Ht) Hc. apply pwp_bind.
  eapply pwp_mono; [apply pwp_and; [apply Hm, Hk | apply Hl] |]. intros a w1 [Hk1 Hd]. apply Hc.
  - exact (kept_trans _ _ _ Hk Hk1).
  - exists e. by rewrite Hd.
Qed.

(** A change of the event itself. *)
Lemma untimed_update {B} l w0 w g (k : unit -> D B) :
  (forall e, fv_front (g e) = fv_front e /\ fv_back (g e) = fv_back e /\ fv_timer (g e) = fv_timer e) ->
  kept w0 w -> untimed l w ->
  (forall w1, kept w0 w1 -> untimed l w1 -> pwp (k tt) (fun _ => kept w0) w1) ->
  pwp (mbind k (update w_frame_events l g)) (fun _ => kept w0) w.
Proof.
  intros Hg Hk (e & He & Ht) Hc. apply pwp_bind.
  eapply (pwp_mono _ (fun _ w1 => kept w w1 /\ untimed l w1)).
  { apply pwp_and; [by apply update_event_keeps, Hk |]. apply pwp_update. intros e' He'. exists (g e').
    rewrite He in He'. injection He' as <-. split; [apply lookup_insert_eq |]. destruct (Hg e) as (_ & _ & ->). done. }
  intros [] w1 [Hk1 Hu]. apply Hc; [exact (kept_trans _ _ _ Hk Hk1) | done].
Qed.

Lemma untimed_keeps {A B} w0 w (m : D A) (k : A -> D B) :
  kept w0 w -> pwp m (fun _ => kept w) w -> (forall a, keeps (k a)) -> pwp (mbind k m) (fun _ => kept w0) w.
Proof.
  intros Hk Hm Hc. apply pwp_bind. eapply pwp_mono; [exact Hm |]. intros a w1 H1.
  eapply pwp_mono; [apply Hc, H1 |]. intros b w2 H2. exact (kept_trans _ _ _ Hk (kept_trans _ _ _ H1 H2)).
Qed.

Lemma kept_run {A} w0 w (m : D A) : keeps m -> kept w0 w -> pwp m (fun _ => kept w0) w.
Proof. intros Hm Hk. eapply pwp_mono; [apply Hm, Hk |]. intros a w1 H1. exact (kept_trans _ _ _ Hk H1). Qed.

Lemma wait_vblank_seq_keeps crtc type target signal : keeps (wait_vblank_seq crtc type target signal).
Proof. unfold wait_vblank_seq. keeps_auto. Qed.
#[local] Hint Resolve wait_vblank_seq_keeps : keeps.
#[local] Hint Extern 2 (leaves w_frame_events _) => apply leaves_events; solve [auto 2 with leaves nocore] : leaves.

(** [new_frame_event] of an event that holds nothing. *)
Lemma new_plain_event w e :
  queue_wf w -> fv_timer e = None -> fv_front e = None -> fv_back e = None ->
  pwp (new_frame_event e) (fun o w1 => kept w w1 /\ match o with Some l => untimed l w1 | None => True end) w.
Proof.
  intros Hw Ht Hf Hb. apply pwp_bind. wp_ext. set (w1 := setf w_trace _ w).
  assert (H1 : kept w w1) by (by apply kept_frame). destruct (negb _); [by apply pwp_ret |].
  apply pwp_bind. eapply (pwp_mono _ (fun l w2 => kept w1 w2 /\ untimed l w2)).
  - apply pwp_and; [by apply new_event_keeps, H1 |]. apply pwp_bind, pwp_gets, pwp_bind, pwp_modify, pwp_ret.
    exists e. split; [apply lookup_insert_eq | done].
  - intros l w2 [H2 Hu]. apply pwp_ret. split; [exact (kept_trans _ _ _ H1 H2) | done].
Qed.

Lemma schedule_wait_msc_keeps fuel client draw target divisor remainder :
  keeps (amdgpu_dri2_schedule_wait_msc fuel client draw target divisor remainder).
Proof.
  apply keeps_bind; [keeps_auto |]. intros [crtc|]; cbv zeta; [| keeps_auto].
  apply keeps_bind; [keeps_auto |]. intros d. apply keeps_bind; [keeps_auto |]. intros delta.
  intros w Hw. apply pwp_bind. eapply pwp_mono; [by apply new_plain_event |]. intros [l|] w1 [H1 Hu]; cycle 1.
  { apply kept_run; [keeps_auto | done]. }
  apply (untimed_step l); [keeps_auto | leaves_auto | done | done |]. intros c w2 H2 Hu2.
  destruct (negb _).
  - apply (untimed_step l); [keeps_auto | leaves_auto | done | done |]. intros r w3 H3 Hu3.
    apply (untimed_keeps w w3); [done | apply schedule_event_kept; [apply H3 | done] | keeps_auto].
  - apply kept_run; [| done]. apply keeps_bind; [keeps_auto |]. intros [seq|]; cbv zeta; keeps_auto.
Qed.

(** *** Swaps *)

Lemma blit_now_kept client draw f b func data w0 w :
  holding f b w0 w -> pwp (blit_now client draw f b func data) (fun _ => kept w0) w.
Proof.
  intros Hh. apply (holding_step f b w0 w); [keeps_auto | leaves_auto | done |]. intros d w1 H1.
  apply (holding_step f b w0 w1); [keeps_auto | apply copy_region_leaves | done |]. intros _ w2 H2.
  apply (holding_step f b w0 w2); [keeps_auto | leaves_auto | done |]. intros _ w3 H3. by apply release_both.
Qed.

Lemma blit_later_kept fuel l w0 w :
  kept w0 w -> untimed l w -> pwp (_ ← blit_later fuel l; mret 0) (fun _ => kept w0) w.
Proof.
  intros Hk Hu. apply pwp_bind. eapply (pwp_mono _ (fun _ => kept w0)); [| intros [] w' H'; by apply pwp_ret].
  apply untimed_update; [done | done | done |]. intros w1 H1 Hu1.
  eapply pwp_mono; [apply schedule_event_kept; [apply H1 | done] |]. intros [] w2 H2. exact (kept_trans _ _ _ H1 H2).
Qed.

Lemma update_front_leaves draw front : leaves w_frame_events (update_front draw front).
Proof.
  unfold update_front, pixmap_ref. leaves_auto.
Qed.
Lemma can_flip_leaves crtc draw front back : leaves w_frame_events (can_flip crtc draw front back).
Proof.
  pose proof update_front_leaves. unfold can_flip, can_exchange, count_can_flip, drmmode_crtc_can_flip.
  apply leaves_bind; [leaves_auto |]. intros c. apply leaves_bind; [leaves_auto |]. intros info.
  apply leaves_bind; [leaves_auto |]. intros d. destruct (_ || _); [leaves_auto |].
  apply leaves_bind; [leaves_auto |]. intros ok. destruct (negb ok); [leaves_auto |].
  apply leaves_bind; [| intros n; leaves_auto]. generalize 0. induction (crtcs info) as [|x l IH]; intros n; cbn; leaves_auto.
Qed.

Section Swap.
Context (fuel : nat) (client draw : Z) (front back crtc l : loc) (target divisor remainder msc_delta : Z) (d : drawable).

(** The part of [amdgpu_dri2_schedule_swap] after the event is made. *)
Lemma schedule_swap_tail w0 w :
  kept w0 w -> untimed l w ->
  pwp (s ← amdgpu_drm_queue_alloc crtc client AMDGPU_DRM_QUEUE_ID_DEFAULT (FrameData l)
            amdgpu_dri2_frame_event_handler_proc amdgpu_dri2_frame_event_abort_proc false;
       if s =? AMDGPU_DRM_QUEUE_ERROR then _ ← blit_later fuel l; mret 0
       else
         _ ← update w_frame_events l (setf fv_drm_queue_seq (fun _ => s));
         c ← load w_crtcs crtc;
         if negb (amdgpu_crtc_is_enabled c) then
           r ← amdgpu_dri2_extrapolate_msc_delay crtc (u64 (target - msc_delta)) divisor remainder;
           _ ← amdgpu_dri2_schedule_event fuel r.2 l;
           mret (u32 (r.1 + msc_delta))
         else
           seq ← wait_vblank_seq crtc DRM_VBLANK_RELATIVE 0 0;
           match seq with
           | None => _ ← blit_later fuel l; mret 0
           | Some seq =>
               let current_msc := u32 (seq + msc_delta) in
               fl ← can_flip crtc draw front back;
               target_msc ← (if fl : bool then
                               _ ← update w_frame_events l (setf fv_type (fun _ => DRI2_FLIP));
                               amdgpu_get_optimal_flip_target (draw_scrn d) crtc current_msc target
                             else mret target);
               let flip := if fl : bool then 1 else 0 in
               let type := Z.lor DRM_VBLANK_ABSOLUTE DRM_VBLANK_EVENT in
               let type := if flip =? 0 then Z.lor type DRM_VBLANK_NEXTONMISS else type in
               r ← wait_vblank_seq crtc type
                     (swap_target current_msc target_msc divisor remainder msc_delta flip) s;
               match r with
               | None => _ ← blit_later fuel l; mret 0
               | Some seq =>
                   let target_msc := u32 (seq + flip + msc_delta) in
                   _ ← update w_frame_events l (setf fv_frame (fun _ => target_msc));
                   mret target_msc
               end
           end) (fun _ => kept w0) w.
Proof.
  intros Hk Hu. apply (untimed_step l); [keeps_auto | leaves_auto | done | done |]. intros s w1 H1 U1.
  destruct (s =? _); [by apply blit_later_kept |].
  apply untimed_update; [done | done | done |]. intros w2 H2 U2.
  apply (untimed_step l); [keeps_auto | leaves_auto | done | done |]. intros c w3 H3 U3.
  destruct (negb _).
  { apply (untimed_step l); [keeps_auto | leaves_auto | done | done |]. intros r w4 H4 U4.
    apply (untimed_keeps w0 w4); [done | apply schedule_event_kept; [apply H4 | done] | keeps_auto]. }
  apply (untimed_step l); [keeps_auto | leaves_auto | done | done |]. intros [seq|] w4 H4 U4; [| by apply blit_later_kept].
  apply (untimed_step l); [keeps_auto | apply can_flip_leaves | done | done |]. intros fl w5 H5 U5.
  apply pwp_bind. eapply (pwp_mono _ (fun _ w6 => kept w0 w6 /\ untimed l w6)).
  { unfold amdgpu_get_optimal_flip_target. destruct fl; [| by apply pwp_ret]. destruct U5 as (e & He & Ht).
    apply pwp_and; [apply kept_run; [keeps_auto | done] |]. apply pwp_bind, pwp_update. intros e' He'.
    rewrite He in He'. injection He' as <-.
    apply pwp_bind, pwp_load. intros i _. apply pwp_bind, pwp_bind, pwp_load. intros x _. apply pwp_ret, pwp_ret.
    eexists. split; [apply lookup_insert_eq | done]. }
  intros target' w6 [H6 U6].
  apply (untimed_step l); [keeps_auto | leaves_auto | done | done |]. intros [seq'|] w7 H7 U7; [| by apply blit_later_kept].
  apply kept_run; [keeps_auto | done].
Qed.
End Swap.

Lemma schedule_swap_keeps fuel client draw front back target divisor remainder func data :
  keeps (amdgpu_dri2_schedule_swap fuel client draw front back target divisor remainder func data).
Proof.
  apply keeps_bind; [keeps_auto |]. intros crtc w Hw.
  assert (Hassoc : forall A (k : unit -> D A) (Q : A -> world -> Prop),
    pwp (_ ← amdgpu_dri2_ref_buffer front; amdgpu_dri2_ref_buffer back) (fun u => pwp (k u) Q) w ->
    pwp (_ ← amdgpu_dri2_ref_buffer front; u ← amdgpu_dri2_ref_buffer back; k u) Q w).
  { intros A k Q. unfold pwp, mbind, M_bind. destruct (amdgpu_dri2_ref_buffer front w) as [? w1| |]; [| done | done].
    by destruct (amdgpu_dri2_ref_buffer back w1). }
  apply Hassoc. eapply pwp_mono; [by apply ref_buffers_holding |]. intros [] w1 H1.
  assert (Hblit : forall w2, holding front back w w2 ->
    pwp (_ ← blit_now client draw front back func data; mret 0) (fun _ => kept w) w2).
  { intros w2 H2. apply pwp_bind. eapply pwp_mono; [by apply blit_now_kept |]. intros [] w3 H3. by apply pwp_ret. }
  destruct crtc as [crtc|]; [| by apply Hblit].
  apply (holding_step front back w w1); [keeps_auto | leaves_auto | done |]. intros d w2 H2.
  apply (holding_step front back w w2); [keeps_auto | leaves_auto | done |]. intros delta w3 H3.
  apply pwp_bind. unfold new_frame_event.
  apply (holding_step front back w w3); [keeps_auto | leaves_auto | done |]. intros ok w4 H4.
  destruct (negb ok); [by apply pwp_ret, Hblit |].
  apply pwp_bind, pwp_bind, pwp_gets, pwp_bind, pwp_modify, pwp_ret, pwp_ret.
  apply schedule_swap_tail; [by apply (holding_event front back) |].
  eexists. split; [apply lookup_insert_eq | done].
Qed.

(** *** Buffers of the server *)

(** [own_of own o]: the owners after the server was handed the buffer [o]. *)
Definition own_of (own : loc -> Z) (o : option loc) : loc -> Z :=
  match o with Some l => own_new own l | None => own end.

(** The server got a reference to [o], a new buffer; nothing else changed. *)
Definition granted (o : option loc) (w w' : world) : Prop :=
  qkept w w' /\ (forall l, o = Some l -> w_next w <= l)%positive /\
  forall own, dri_inv own w -> room own w' -> dri_inv (own_of own o) w'.

Lemma granted_none w w' : kept w w' -> granted None w w'.
Proof. intros Hk. split_and!; [by apply kept_qkept | done | apply Hk]. Qed.

Definition grants (m : D (option loc)) : Prop := forall w, queue_wf w -> pwp m (fun o => granted o w) w.

Lemma grants_none (m : D (option loc)) : keeps m -> (forall w, pwp m (fun o _ => o = None) w) -> grants m.
Proof.
  intros Hk Hn w Hw. eapply pwp_mono; [apply pwp_and; [by apply Hk | apply Hn] |].
  intros o w' [H1 ->]. by apply granted_none.
Qed.

Lemma grants_bind {A} (m : D A) (k : A -> D (option loc)) : keeps m -> (forall a, grants (k a)) -> grants (mbind k m).
Proof.
  intros Hm Hk w Hw. apply pwp_bind. eapply pwp_mono; [by apply Hm |]. intros a w1 H1.
  eapply pwp_mono; [apply Hk, H1 |]. intros o w2 (Hq & Hl & Hg). apply kept_qkept in H1 as Hq1. split_and!.
  - exact (qkept_trans _ _ _ Hq1 Hq).
  - intros l Ho. specialize (Hl l Ho). destruct Hq1 as (_ & _ & ?). lia.
  - intros own Hi Hr. apply Hg; [| done]. apply H1; [done |]. apply (room_mono own w1 w2); [apply Hq | done].
Qed.

Lemma grants_ret_none : grants (mret None).
Proof. apply grants_none; [keeps_auto | done]. Qed.

Lemma grants_new b : bp_refcnt b = 1 -> grants (l ← new w_dri2_buffers b; mret (Some l)).
Proof.
  intros Hb w Hw. apply pwp_bind, pwp_bind, pwp_gets, pwp_bind, pwp_modify, pwp_ret, pwp_ret. split_and!.
  - split_and!; [| by apply nest_le_eq | unfold setf; cbn; lia]. apply (queue_wf_frame w); try done. unfold setf; cbn; lia.
  - intros l [= <-]. done.
  - intros own Hi _. by apply (dri_inv_new_buffer own w b).
Qed.

Lemma find_front_keeps scrn info d : keeps (find_front scrn info d).
Proof. unfold find_front. keeps_auto. Qed.
Lemma glamor_set_bo_keeps dep old pixmap : keeps (amdgpu_glamor_set_pixmap_bo dep old pixmap).
Proof. unfold amdgpu_glamor_set_pixmap_bo, modify_pixmap_header. keeps_auto. Qed.
#[local] Hint Resolve find_front_keeps glamor_set_bo_keeps : keeps.

Lemma create_buffer_grants scrn draw attachment format : grants (amdgpu_dri2_create_buffer2 scrn draw attachment format).
Proof.
  apply grants_bind; [keeps_auto |]. intros info. apply grants_bind; [keeps_auto |]. intros d.
  destruct (buffer_format _ _ _) as [dep cpp].
  apply grants_bind; [keeps_auto |]. intros sp. apply grants_bind; [keeps_auto |]. intros front. cbv zeta.
  apply grants_bind; [keeps_auto |]. intros [pix|]; [| apply grants_ret_none].
  apply grants_bind; [keeps_auto |]. intros ok.
  assert (Hdrop : forall x, grants (_ ← dixDestroyPixmap x; mret None))
    by (intros x; apply grants_bind; [keeps_auto | intros _; apply grants_ret_none]).
  destruct (negb ok); [apply Hdrop |].
  apply grants_bind; [keeps_auto |]. intros pix'. apply grants_bind; [keeps_auto |].
  intros [name|]; [| apply Hdrop]. apply grants_bind; [keeps_auto |]. intros ok'. destruct (negb ok'); [apply Hdrop |].
  apply grants_bind; [keeps_auto |]. intros p. by apply grants_new.
Qed.

(** The server gives up the buffer. *)
Lemma destroy_buffer_revokes l own w :
  queue_wf w -> dri_inv own w -> room own w -> 0 < own l ->
  pwp (amdgpu_dri2_destroy_buffer2 (Some l))
    (fun _ w' => qkept w w' /\ dri_inv (fun b => own b - points b (Some l)) w') w.
Proof.
  intros Hw Hi Hr Hl. eapply pwp_mono; [apply (destroy_buffer_released _ l w Hw (di_refs _ _ Hi)) |].
  - pose proof (frame_refs_bound own w l Hi). specialize (Hr l). lia.
  - intros _ w' (Hq & Hc & He & Ht & Hb). split; [done |]. destruct Hi as [H1 H2 H3 H4 H5 H6 H7].
    assert (Hn : (w_next w <= w_next w')%positive) by apply Hq. split; rewrite ?He, ?Ht; try done.
    + eapply counted_ext; [| exact Hc]. intros b. cbn. unfold frame_refs. rewrite He. lia.
    + intros b. pose proof (points_range b (Some l)). specialize (H2 b).
      destruct (decide (b = l)) as [->|Hne]; [lia |]. rewrite points_other by congruence. lia.
    + intros x Hx. specialize (H5 x Hx). lia.
    + intros x Hx. specialize (H6 x (Hb x Hx)). lia.
    + intros x Hx. specialize (H7 x Hx). lia.
Qed.

(** *** Screens *)

Lemma info_count_keeps g : keeps (modify (setf w_dri (setf DRI2InfoCnt g))).
Proof.
  apply keeps_modify. intros w Hw. apply kept_dri; try done. intros own Hi _. by apply (dri_inv_same own w).
Qed.
#[local] Hint Resolve info_count_keeps : keeps.
Lemma client_state_changed_keeps client gone : keeps (amdgpu_dri2_client_state_changed client gone).
Proof. unfold amdgpu_dri2_client_state_changed. keeps_auto. Qed.
Lemma screen_init_keeps scrn : keeps (amdgpu_dri2_screen_init scrn).
Proof. unfold amdgpu_dri2_screen_init. keeps_auto. Qed.
Lemma close_screen_keeps : keeps amdgpu_dri2_close_screen.
Proof. unfold amdgpu_dri2_close_screen. keeps_auto. Qed.
End Functions.
