(* ===== verification/Names.v ===== *)
(** * Names of outputs: src/src/drmmode_display.c

    Which outputs a screen of a shared device takes ([AMDGPUZaphodStringMatches],
    for the option "ZaphodHeads"), and how outputs are named ([parse_path_blob],
    [drmmode_create_name]).  C strings are strings without the final NUL. *)
From stdpp Require Import strings.
From Stdlib Require Import Ascii.
From S2P Require Import Prelude.

(** ** Decimal numbers *)

Definition digit (n : Z) : ascii := ascii_of_nat (Z.to_nat (48 + n)).
Definition is_digit (c : ascii) : bool := (48 <=? Z.of_nat (nat_of_ascii c)) && (Z.of_nat (nat_of_ascii c) <=? 57).
Definition digit_value (c : ascii) : Z := Z.of_nat (nat_of_ascii c) - 48.
Definition is_space (c : ascii) : bool :=
  (Z.of_nat (nat_of_ascii c) =? 32) || (9 <=? Z.of_nat (nat_of_ascii c)) && (Z.of_nat (nat_of_ascii c) <=? 13).

(** [printf] of a number below 2{^32}; ten digits are enough. *)
Fixpoint print_digits (fuel : nat) (n : Z) (rest : string) : string :=
  match fuel with
  | O => rest
  | S fuel' =>
      let s := String (digit (n mod 10)) rest in
      if n <? 10 then s else print_digits fuel' (n / 10) s
  end.
Definition print_nat (n : Z) : string := print_digits 10 n "".
Definition print_int (n : Z) : string := if n <? 0 then String "-" (print_nat (- n)) else print_nat n.

(** [strtoul] with base 10. *)
Fixpoint scan_digits (s : string) (acc : Z) : Z :=
  match s with
  | String c r => if is_digit c then scan_digits r (acc * 10 + digit_value c) else acc
  | EmptyString => acc
  end.
Fixpoint skip_space (s : string) : string :=
  match s with String c r => if is_space c then skip_space r else s | EmptyString => s end.
Definition strtoul (s : string) : Z :=
  match skip_space s with
  | String c r =>
      if Ascii.eqb c "-" then u64 (- scan_digits r 0)
      else if Ascii.eqb c "+" then scan_digits r 0
      else scan_digits (String c r) 0
  | EmptyString => 0
  end.

(** ** The option "ZaphodHeads" *)

(** [s1] is an array of 20 characters. *)
Definition zaphod_buffer : nat := 20.

(** The loop of [AMDGPUZaphodStringMatches]: [word] is what [s1] holds up to index
    [i].  At the end of the string the NUL takes the [default:] branch, and the loop
    is followed by another store.  [None]: a store outside of [s1]. *)
Fixpoint zaphod_loop (s word output_name : string) : option bool :=
  match s with
  | EmptyString =>
      if bool_decide (String.length word + 1 < zaphod_buffer)%nat then Some (String.eqb word output_name) else None
  | String c r =>
      if Ascii.eqb c "," then
        if bool_decide (String.length word < zaphod_buffer)%nat then
          if String.eqb word output_name then Some true else zaphod_loop r "" output_name
        else None
      else if Ascii.eqb c " " || Ascii.eqb c "009" || Ascii.eqb c "010" || Ascii.eqb c "013" then
        zaphod_loop r word output_name
      else if bool_decide (String.length word < zaphod_buffer)%nat then
        zaphod_loop r (word +:+ String c "") output_name
      else None
  end.

Definition AMDGPUZaphodStringMatches (s output_name : string) : option bool := zaphod_loop s "" output_name.

(** ** The path of a connector behind a DisplayPort hub *)

Fixpoint find_dash (s : string) : option (string * string) :=
  match s with
  | EmptyString => None
  | String c r =>
      if Ascii.eqb c "-" then Some ("", r)
      else match find_dash r with Some (a, b) => Some (String c a, b) | None => None end
  end%string.

(** The identifier and the rest of a path, or [None] for the result -1. *)
Definition parse_path_blob (path_blob : option string) : option (Z * string) :=
  match path_blob with
  | None => None
  | Some data =>
      if negb (String.prefix "mst:" data) then None
      else
        match find_dash (String.substring 4 (String.length data - 4) data) with
        | None => None
        | Some (conn_id, path) =>
            if bool_decide (5 < String.length conn_id + 1)%nat then None
            else Some (s32 (strtoul conn_id), path)
        end
  end.

(** ** Names *)

Definition output_names : list string :=
  ["None"; "VGA"; "DVI-I"; "DVI-D"; "DVI-A"; "Composite"; "S-video"; "LVDS"; "CTV"; "DIN"; "DisplayPort"; "HDMI-A";
   "HDMI-B"; "TV"; "eDP"; "Virtual"; "DSI"]%string.
Definition DRM_MODE_CONNECTOR_VGA : Z := 1.
Definition DRM_MODE_CONNECTOR_DVII : Z := 2.
Definition DRM_MODE_CONNECTOR_DVID : Z := 3.
Definition DRM_MODE_CONNECTOR_DVIA : Z := 4.
Definition DRM_MODE_CONNECTOR_DisplayPort : Z := 10.
Definition DRM_MODE_CONNECTOR_HDMIA : Z := 11.
Definition DRM_MODE_CONNECTOR_HDMIB : Z := 12.
Definition GPU_SCREEN_OFFSET : Z := 256.

(** [snprintf] into 32 bytes. *)
Definition snprintf32 (s : string) : string := String.substring 0 31 s.

(** The name when the connector is not behind another output, and the two
    counters. *)
Definition plain_name (is_gpu : bool) (scrnIndex connector_type type_id num_dvi num_hdmi : Z) : string * Z * Z :=
  let base := default ""%string (output_names !! Z.to_nat connector_type) in
  let dashed n := (base +:+ "-" +:+ print_int n)%string in
  if connector_type >=? Z.of_nat (length output_names) then
    ("Unknown" +:+ print_int connector_type +:+ "-" +:+ print_int (type_id - 1), num_dvi, num_hdmi)%string
  else if is_gpu then
    ((base +:+ "-" +:+ print_int (scrnIndex - GPU_SCREEN_OFFSET + 1) +:+ "-" +:+ print_int (type_id - 1))%string, num_dvi, num_hdmi)
  else if type_id =? 1 then
    if (connector_type =? DRM_MODE_CONNECTOR_DVII) || (connector_type =? DRM_MODE_CONNECTOR_DVID) ||
       (connector_type =? DRM_MODE_CONNECTOR_DVIA) then (dashed num_dvi, num_dvi + 1, num_hdmi)
    else if (connector_type =? DRM_MODE_CONNECTOR_HDMIA) || (connector_type =? DRM_MODE_CONNECTOR_HDMIB) then
      (dashed num_hdmi, num_dvi, num_hdmi + 1)
    else if (connector_type =? DRM_MODE_CONNECTOR_VGA) || (connector_type =? DRM_MODE_CONNECTOR_DisplayPort) then
      (dashed (type_id - 1), num_dvi, num_hdmi)
    else (base, num_dvi, num_hdmi)
  else (dashed (type_id - 1), num_dvi, num_hdmi).

(** [find_output] looks an identifier up among the existing outputs; here they are
    given as pairs of identifier and name. *)
Fixpoint find_output (outputs : list (Z * string)) (id : Z) : option string :=
  match outputs with
  | [] => None
  | (i, name) :: r => if i =? id then Some name else find_output r id
  end.

Definition drmmode_create_name (outputs : list (Z * string)) (is_gpu : bool) (scrnIndex connector_type type_id : Z)
    (path_blob : option string) (num_dvi num_hdmi : Z) : string * Z * Z :=
  match ('(conn_id, extra_path) ← parse_path_blob path_blob; name ← find_output outputs conn_id; Some (name, extra_path)) with
  | Some (name, extra_path) => (snprintf32 (name +:+ "-" +:+ extra_path)%string, num_dvi, num_hdmi)
  | None =>
      let '(s, d, h) := plain_name is_gpu scrnIndex connector_type type_id num_dvi num_hdmi in (snprintf32 s, d, h)
  end.

(** ** Strings *)

Lemma str_app_nil (s : string) : (s +:+ "")%string = s.
Proof. induction s as [|c s IH]; [done |]. change (String c (s +:+ "") = String c s). by rewrite IH. Qed.
Lemma str_app_cons c (a b : string) : (String c a +:+ b)%string = String c (a +:+ b)%string.
Proof. done. Qed.
Lemma str_app_assoc (a b c : string) : (a +:+ (b +:+ c) = (a +:+ b) +:+ c)%string.
Proof. induction a as [|x a IH]; [done |]. by rewrite !str_app_cons, IH. Qed.
Lemma str_length_app (a b : string) : String.length (a +:+ b) = (String.length a + String.length b)%nat.
Proof. induction a as [|x a IH]; [done |]. rewrite str_app_cons. cbn. by rewrite IH. Qed.

(** ** The words of the option *)

Definition is_blank (c : ascii) : bool := Ascii.eqb c " " || Ascii.eqb c "009" || Ascii.eqb c "010" || Ascii.eqb c "013".

Fixpoint split_commas (s : string) : list string :=
  match s with
  | EmptyString => [""%string]
  | String c r =>
      if Ascii.eqb c "," then ""%string :: split_commas r
      else match split_commas r with [] => [] | f :: fs => String c f :: fs end
  end.
Fixpoint strip (s : string) : string :=
  match s with EmptyString => ""%string | String c r => if is_blank c then strip r else String c (strip r) end.
Definition words (s : string) : list string := strip <$> split_commas s.

Lemma split_commas_cons s : exists f fs, split_commas s = f :: fs.
Proof. induction s as [|c r (f & fs & IH)]; cbn; [eauto |]. destruct (Ascii.eqb c ","); [eauto |]. rewrite IH. eauto. Qed.

(** The words with a prefix of the first one read already. *)
Definition prefixed (w : string) (l : list string) : list string :=
  match l with [] => [] | f :: fs => (w +:+ f)%string :: fs end.

Lemma prefixed_comma w r : prefixed w (words (String "," r)) = w :: prefixed "" (words r).
Proof.
  unfold words. cbn. rewrite str_app_nil. destruct (split_commas_cons r) as (f & fs & ->). done.
Qed.
Lemma prefixed_char w c r :
  Ascii.eqb c "," = false ->
  prefixed w (words (String c r)) = if is_blank c then prefixed w (words r) else prefixed (w +:+ String c "") (words r).
Proof.
  intros Hc. unfold words. cbn. rewrite Hc. destruct (split_commas_cons r) as (f & fs & ->). cbn.
  destruct (is_blank c); [done |]. cbn. by rewrite <- str_app_assoc.
Qed.

Lemma zaphod_loop_exact name s : forall w,
  Forall (fun x => String.length x + 1 < zaphod_buffer)%nat (prefixed w (words s)) ->
  zaphod_loop s w name = Some (bool_decide (name ∈ prefixed w (words s))).
Proof.
  induction s as [|c r IH]; intros w Hf.
  - cbn in *. rewrite str_app_nil in *. apply Forall_cons in Hf as [Hw _]. rewrite bool_decide_eq_true_2 by done.
    f_equal. destruct (String.eqb_spec w name) as [->|Hne]; symmetry; [apply bool_decide_eq_true_2 | apply bool_decide_eq_false_2]; set_solver.
  - destruct (Ascii.eqb_spec c ",") as [->|Hc].
    + rewrite prefixed_comma in *. apply Forall_cons in Hf as [Hw Hf]. cbn.
      rewrite bool_decide_eq_true_2 by lia. destruct (String.eqb_spec w name) as [->|Hne].
      * by rewrite bool_decide_eq_true_2 by set_solver.
      * rewrite IH by done. f_equal. apply bool_decide_ext. set_solver.
    + apply Ascii.eqb_neq in Hc. rewrite prefixed_char in * by done. cbn. rewrite Hc.
      change (_ || _ || _ || _) with (is_blank c). destruct (is_blank c); [by apply IH |].
      rewrite bool_decide_eq_true_2; [by apply IH |].
      destruct (split_commas_cons r) as (f & fs & Hr). unfold words in Hf. rewrite Hr in Hf. cbn in Hf.
      apply Forall_cons in Hf as [Hw _]. rewrite !str_length_app in Hw. cbn in Hw. lia.
Qed.

Lemma words_prefixed s : prefixed "" (words s) = words s.
Proof. unfold words. destruct (split_commas_cons s) as (f & fs & ->). done. Qed.

(** C38. [AMDGPUZaphodStringMatches] decides whether an output is among the words of
    the option "ZaphodHeads", which are separated by commas, with blanks ignored,
    as long as no word is longer than 18 characters. *)
Theorem zaphod_matches_exact s name :
  Forall (fun x => String.length x + 1 < zaphod_buffer)%nat (words s) ->
  AMDGPUZaphodStringMatches s name = Some (bool_decide (name ∈ words s)).
Proof.
  intros Hf. unfold AMDGPUZaphodStringMatches. rewrite zaphod_loop_exact by (by rewrite words_prefixed). by rewrite words_prefixed.
Qed.

Lemma zaphod_matches_exact_witness :
  AMDGPUZaphodStringMatches "DVI-0, HDMI-A-0" "HDMI-A-0" = Some true /\
  words "DVI-0, HDMI-A-0" = ["DVI-0"; "HDMI-A-0"]%string.
Proof.
  split; [| reflexivity]. rewrite zaphod_matches_exact; [by rewrite bool_decide_eq_true_2 by (vm_compute; set_solver) |].
  unfold zaphod_buffer. vm_compute. repeat constructor.
Defined.

(** A word that does not fit is stored beyond the end of the array, unless the name
    was found before it. *)
Lemma zaphod_loop_overflow name s : forall w pre long post,
  prefixed w (words s) = pre ++ long :: post ->
  Forall (fun x => String.length x < zaphod_buffer)%nat pre -> name ∉ pre ->
  (zaphod_buffer <= String.length long)%nat -> zaphod_loop s w name = None.
Proof.
  induction s as [|c r IH]; intros w pre long post Hw Hpre Hn Hl.
  - cbn in Hw. rewrite str_app_nil in Hw. destruct pre as [|x pre]; [| by destruct pre].
    injection Hw as ->. cbn. rewrite bool_decide_eq_false_2; [done | lia].
  - destruct (Ascii.eqb_spec c ",") as [->|Hc].
    + rewrite prefixed_comma in Hw. cbn. destruct pre as [|x pre].
      * injection Hw as -> _. by rewrite bool_decide_eq_false_2 by lia.
      * injection Hw as -> Hw. apply Forall_cons in Hpre as [Hx Hpre]. rewrite bool_decide_eq_true_2 by done.
        destruct (String.eqb_spec x name) as [->|Hne]; [set_solver |]. eapply IH; [exact Hw | done | set_solver | done].
    + apply Ascii.eqb_neq in Hc. rewrite prefixed_char in Hw by done. cbn. rewrite Hc.
      change (_ || _ || _ || _) with (is_blank c). destruct (is_blank c); [by eapply IH |].
      case_bool_decide; [by eapply IH | done].
Qed.

(** A word of 20 or more characters in "ZaphodHeads" overruns the array [s1] of
    [AMDGPUZaphodStringMatches]. *)
Theorem zaphod_overflow s name pre long post :
  words s = pre ++ long :: post ->
  Forall (fun x => String.length x < zaphod_buffer)%nat pre -> name ∉ pre ->
  (zaphod_buffer <= String.length long)%nat -> AMDGPUZaphodStringMatches s name = None.
Proof. intros Hw. apply zaphod_loop_overflow with post. by rewrite words_prefixed. Qed.

Lemma zaphod_overflow_witness : AMDGPUZaphodStringMatches "DisplayPort-0000000000" "DVI-0" = None.
Proof. apply (zaphod_overflow _ _ [] "DisplayPort-0000000000" []); [reflexivity | constructor | set_solver | unfold zaphod_buffer; cbn; lia]. Defined.

(** ** Numbers are read back *)

Lemma digit_code n : 0 <= n < 10 -> Z.of_nat (nat_of_ascii (digit n)) = 48 + n.
Proof. intros Hn. unfold digit. rewrite nat_ascii_embedding by lia. lia. Qed.
Lemma digit_is n : 0 <= n < 10 -> is_digit (digit n) = true /\ digit_value (digit n) = n.
Proof.
  intros Hn. unfold is_digit, digit_value. rewrite digit_code by done.
  split; [apply andb_true_intro; split; apply Z.leb_le; lia | lia].
Qed.

Lemma scan_print fuel : forall n rest acc,
  0 <= n < 10 ^ Z.of_nat fuel ->
  exists k, scan_digits (print_digits fuel n rest) acc = scan_digits rest (acc * 10 ^ k + n) /\ 0 <= k.
Proof.
  induction fuel as [|fuel IH]; intros n rest acc Hn.
  - exists 0. cbn in *. replace n with 0 by lia. split; [f_equal; lia | done].
  - cbn [print_digits]. pose proof (Z.mod_pos_bound n 10 ltac:(lia)) as Hm. destruct (Z.ltb_spec n 10).
    + exists 1. cbn [scan_digits]. destruct (digit_is (n mod 10) ltac:(lia)) as [-> ->].
      rewrite Z.mod_small by lia. split; [f_equal; lia | lia].
    + rewrite Nat2Z.inj_succ, Z.pow_succ_r in Hn by lia.
      destruct (IH (n / 10) (String (digit (n mod 10)) rest) acc) as (k & -> & Hk).
      { split; [apply Z.div_pos; lia | apply Z.div_lt_upper_bound; lia]. }
      exists (k + 1). cbn [scan_digits]. destruct (digit_is (n mod 10) ltac:(lia)) as [-> ->]. split; [| lia].
      f_equal. rewrite Z.pow_add_r by lia. pose proof (Z.div_mod n 10 ltac:(lia)). lia.
Qed.

(** A string of digits. *)
Fixpoint all_digits (s : string) : Prop :=
  match s with EmptyString => True | String c r => is_digit c = true /\ all_digits r end.

Lemma print_all_digits fuel : forall n rest, 0 <= n -> all_digits rest -> all_digits (print_digits fuel n rest).
Proof.
  induction fuel as [|fuel IH]; intros n rest Hn Hr; cbn; [done |].
  assert (all_digits (String (digit (n mod 10)) rest)) by (split; [apply digit_is, Z.mod_pos_bound; lia | done]).
  destruct (n <? 10); [done |]. apply IH; [apply Z.div_pos; lia | done].
Qed.
Lemma print_length fuel : forall n rest k, 0 <= n < 10 ^ Z.of_nat (S k) ->
  (String.length (print_digits fuel n rest) <= S k + String.length rest)%nat.
Proof.
  induction fuel as [|fuel IH]; intros n rest k Hn; cbn [print_digits]; [lia |].
  destruct (Z.ltb_spec n 10); [cbn; lia |]. destruct k as [|k]; [cbn in Hn; lia |].
  etrans; [apply (IH _ _ k) |]; [| cbn; lia].
  rewrite Nat2Z.inj_succ, Z.pow_succ_r in Hn by lia. split; [apply Z.div_pos; lia | apply Z.div_lt_upper_bound; lia].
Qed.
Lemma print_nonempty fuel n rest : exists c r, print_digits (S fuel) n rest = String c r.
Proof.
  revert n rest. induction fuel as [|fuel IH]; intros n rest; cbn [print_digits]; destruct (n <? 10); eauto.
Qed.

Lemma digits_code c : is_digit c = true -> 48 <= Z.of_nat (nat_of_ascii c) <= 57.
Proof. unfold is_digit. rewrite andb_true_iff, !Z.leb_le. done. Qed.
Lemma digit_not c d : is_digit c = true -> ~ 48 <= Z.of_nat (nat_of_ascii d) <= 57 -> Ascii.eqb c d = false.
Proof. intros Hc Hd. apply Ascii.eqb_neq. intros ->. by apply Hd, digits_code. Qed.
Lemma digit_not_space c : is_digit c = true -> is_space c = false.
Proof.
  intros Hc%digits_code. unfold is_space. destruct (Z.eqb_spec (Z.of_nat (nat_of_ascii c)) 32); [lia |].
  destruct (Z.leb_spec (Z.of_nat (nat_of_ascii c)) 13); [lia |]. by rewrite andb_false_r.
Qed.

Lemma strtoul_print n : 0 <= n < 10 ^ 10 -> strtoul (print_nat n) = n.
Proof.
  intros Hn. unfold strtoul, print_nat. pose proof (print_all_digits 10 n "" ltac:(lia) I) as Hd.
  destruct (print_nonempty 9 n "") as (c & r & Hp). destruct (scan_print 10 n "" 0 Hn) as (k & Hs & _).
  rewrite Hp in *. destruct Hd as [Hc Hd]. cbn [skip_space]. rewrite (digit_not_space c Hc).
  rewrite (digit_not c "-" Hc), (digit_not c "+" Hc) by (intros [H _]; by apply H). rewrite Hs. cbn. lia.
Qed.

Lemma find_dash_digits s path : all_digits s -> find_dash (s +:+ String "-" path) = Some (s, path).
Proof.
  induction s as [|c r IH]; [done |]. intros [Hc Hr]. rewrite str_app_cons. cbn.
  by rewrite (digit_not c "-" Hc), IH by (done || (intros [H _]; by apply H)).
Qed.

Lemma substring_all s : String.substring 0 (String.length s) s = s.
Proof. induction s as [|c r IH]; [done |]. cbn. by rewrite IH. Qed.

(** The path of a connector behind a hub is read back: "mst:", the number of the
    connector it hangs on and the rest, for every number of at most four digits. *)
Theorem path_roundtrip id path :
  0 <= id < 10000 -> parse_path_blob (Some ("mst:" +:+ print_nat id +:+ "-" +:+ path)%string) = Some (id, path).
Proof.
  intros Hid. unfold parse_path_blob. set (s := (print_nat id +:+ "-" +:+ path)%string).
  change ("mst:" +:+ s)%string with (String "m" (String "s" (String "t" (String ":" s)))). cbn [String.prefix].
  cbn. rewrite Nat.sub_0_r, substring_all. unfold s. change ("-" +:+ path)%string with (String "-" path).
  rewrite find_dash_digits by (apply print_all_digits; [lia | done]).
  assert (Hl : (String.length (print_nat id) <= 4 + 0)%nat) by (apply (print_length 10 id "" 3); cbn; lia).
  rewrite bool_decide_eq_false_2 by lia. rewrite strtoul_print by lia. rewrite s32_id by (unfold in_s32; lia). by destruct (_ +:+ _)%string.
Qed.

Lemma path_roundtrip_witness : parse_path_blob (Some "mst:42-1-8"%string) = Some (42, "1-8"%string).
Proof. apply (path_roundtrip 42 "1-8"). lia. Defined.
