(* ===== verification/Color.v ===== *)
(** * Color management: src/src/drmmode_display.c

    The tables and the matrix that a client sets through RandR are staged in the
    private data of the CRTC and pushed to the kernel as property blobs; the gamma
    table is composed with the legacy gamma ramp of the server on the way. *)
From stdpp Require Import strings.
From S2P Require Import Prelude Modes Region World Lut Fb DriState Queue Bo PixmapFb Crtc Keeps.

Definition Success : Z := 0.
Definition BadRequest : Z := 1.
Definition BadAlloc : Z := 11.
Definition BadName : Z := 15.
Definition BadLength : Z := 16.
Definition XA_ATOM : Z := 4.
Definition XA_INTEGER : Z := 19.

(** [RRPropertyValueRec]: [rr_data] are the elements in units of the format;
    [rr_atom] is the name of the atom an element of type [XA_ATOM] stands for. *)
Record RRPropertyValue := RRValue {
  rr_type : Z;
  rr_format : Z;
  rr_size : Z;
  rr_data : list Z;
  rr_atom : option string
}.

(** ** Names *)

Definition cm_props : list drmmode_cm_prop := [CM_DEGAMMA_LUT; CM_CTM; CM_GAMMA_LUT; CM_DEGAMMA_LUT_SIZE; CM_GAMMA_LUT_SIZE].

Definition cm_prop_names (p : drmmode_cm_prop) : string :=
  match p with
  | CM_DEGAMMA_LUT => "DEGAMMA_LUT"
  | CM_CTM => "CTM"
  | CM_GAMMA_LUT => "GAMMA_LUT"
  | CM_DEGAMMA_LUT_SIZE => "DEGAMMA_LUT_SIZE"
  | CM_GAMMA_LUT_SIZE => "GAMMA_LUT_SIZE"
  | CM_INVALID_PROP => ""
  end.

Definition get_cm_enum_from_str (prop_name : string) : drmmode_cm_prop :=
  default CM_INVALID_PROP (list_find (fun p => cm_prop_names p = prop_name) cm_props ≫= fun ip => Some ip.2).

(** ** Memory layout

    [struct drm_color_lut] is four 16-bit words, [struct drm_color_ctm] nine 64-bit
    numbers, which RandR passes as eighteen 32-bit words. *)
Fixpoint lut_of_words (l : list Z) : list drm_color_lut :=
  match l with r :: g :: b :: x :: rest => Lut r g b x :: lut_of_words rest | _ => [] end.
Definition words_of_lut (l : list drm_color_lut) : list Z :=
  l ≫= fun e => [red e; green e; blue e; reserved e].
Fixpoint ctm_of_words (l : list Z) : list Z :=
  match l with lo :: hi :: rest => lo + Z.shiftl hi 32 :: ctm_of_words rest | _ => [] end.
Definition words_of_ctm (l : list Z) : list Z := l ≫= fun v => [u32 v; Z.shiftr v 32].

Section Code.
Context `{env : Env}.

(** ** Reporting to RandR *)

(** Format, whether a range is configured, and the value that is reported. *)
Definition cm_report (info : scrn_info) (crtc : option drmmode_crtc) (p : drmmode_cm_prop) : option (Z * option (list Z) * list Z) :=
  match p with
  | CM_GAMMA_LUT_SIZE => Some (32, Some [0; -1], [gamma_lut_size info])
  | CM_DEGAMMA_LUT_SIZE => Some (32, Some [0; -1], [degamma_lut_size info])
  | CM_GAMMA_LUT =>
      Some (16, Some [0; Z.shiftl 1 16 - 1],
            match crtc ≫= gamma_lut with Some lut => take (Z.to_nat (4 * gamma_lut_size info)) (words_of_lut lut) | None => [0] end)
  | CM_DEGAMMA_LUT =>
      Some (16, Some [0; Z.shiftl 1 16 - 1],
            match crtc ≫= degamma_lut with Some lut => take (Z.to_nat (4 * degamma_lut_size info)) (words_of_lut lut) | None => [0] end)
  | CM_CTM => Some (32, None, match crtc ≫= ctm with Some m => words_of_ctm m | None => [0] end)
  | CM_INVALID_PROP => None
  end.

Definition rr_configure_and_change_cm_property (output : loc) (info : scrn_info) (crtc : option drmmode_crtc)
    (p : drmmode_cm_prop) : D Z :=
  match cm_report info crtc p with
  | None => mret BadName
  | Some (format, range, data) =>
      ok ← call (MakeAtom (cm_prop_names p));
      if negb ok then mret BadAlloc
      else
        err ← match range with
              | Some r => call (RRConfigureOutputProperty output (Some (cm_prop_names p)) true false (Ints r))
              | None => mret 0
              end;
        if negb (err =? 0) then mret err
        else call (RRChangeOutputProperty output (Some (cm_prop_names p)) format (Ints data))
  end.

(** ** Staging *)

(** Whether a value is accepted: [Some true] for the default. *)
Definition lut_value (lut_size : Z) (v : RRPropertyValue) : option bool :=
  if rr_size v =? 1 then Some true
  else if negb (rr_type v =? XA_INTEGER) || negb (rr_format v =? 16) || negb (rr_size v * 2 =? 8 * lut_size) then None
  else Some false.
Definition ctm_value (v : RRPropertyValue) : option bool :=
  let use_default := rr_size v =? 1 in
  if negb (rr_type v =? XA_INTEGER) || negb (rr_format v =? 32) || negb (rr_size v * 4 =? 72) then None
  else Some use_default.

(** Replacing the staged value: the old one is freed first. *)
Definition stage_blob {A} (put : option A -> drmmode_crtc -> drmmode_crtc) (crtc : loc) (use_default : bool) (value : A) : D Z :=
  if use_default then _ ← set_dcrtc crtc (put None); mret Success
  else
    ok ← call (Calloc "color property");
    if negb ok then _ ← set_dcrtc crtc (put None); mret BadAlloc
    else _ ← set_dcrtc crtc (put (Some value)); mret Success.

Definition drmmode_crtc_stage_cm_prop (crtc : loc) (p : drmmode_cm_prop) (v : RRPropertyValue) : D Z :=
  c ← load w_crtcs crtc;
  info ← load w_scrns (crtc_scrn c);
  match p with
  | CM_GAMMA_LUT =>
      match lut_value (gamma_lut_size info) v with
      | None => mret BadLength
      | Some d => stage_blob (fun x => setf gamma_lut (fun _ => x)) crtc d (lut_of_words (rr_data v))
      end
  | CM_DEGAMMA_LUT =>
      match lut_value (degamma_lut_size info) v with
      | None => mret BadLength
      | Some d => stage_blob (fun x => setf degamma_lut (fun _ => x)) crtc d (lut_of_words (rr_data v))
      end
  | CM_CTM =>
      match ctm_value v with
      | None => mret BadLength
      | Some d => stage_blob (fun x => setf ctm (fun _ => x)) crtc d (ctm_of_words (rr_data v))
      end
  | _ => mret BadName
  end.

(** ** Pushing *)

(** What the gamma table becomes: the legacy ramp alone or composed with the table
    the client set. *)
Definition pushed_gamma (c : xf86Crtc) (lut_size : Z) : option (list drm_color_lut) :=
  match gamma_lut (driver_private c) with
  | Some lut => drmmode_lut_compose (gamma_red c) (gamma_green c) (gamma_blue c) lut (gamma_size c) lut_size
  | None => drmmode_lut_interpolate (gamma_red c) (gamma_green c) (gamma_blue c) (gamma_size c) lut_size
  end.

(** From the label [do_push:]. *)
Definition do_push (c : xf86Crtc) (info : scrn_info) (p : drmmode_cm_prop) (blob : option (list Z)) : D Z :=
  let set id := call (DrmModeObjectSetProperty (mode_crtc_id (driver_private c)) (cm_prop_ids info p) id) in
  match blob with
  | None =>
      r ← set 0;
      mret (if r =? 0 then Success else BadRequest)
  | Some data =>
      b ← call (DrmModeCreatePropertyBlob data);
      match b with
      | None => mret BadRequest
      | Some id =>
          r ← set id;
          _ ← call (DrmModeDestroyPropertyBlob id);
          mret (if r =? 0 then Success else BadRequest)
      end
  end.

Definition drmmode_crtc_push_cm_prop (crtc : loc) (p : drmmode_cm_prop) : D Z :=
  c ← load w_crtcs crtc;
  info ← load w_scrns (crtc_scrn c);
  let d := driver_private c in
  if negb (drmmode_cm_prop_supported info p) then mret BadName
  else
    match p with
    | CM_GAMMA_LUT =>
        if negb (has_gamma_set c) then do_push c info p (words_of_lut <$> gamma_lut d)
        else
          ok ← call (Calloc "gamma blob");
          if negb ok then mret BadAlloc
          else
            lut ← some_or OutOfBounds (pushed_gamma c (gamma_lut_size info));
            do_push c info p (Some (words_of_lut lut))
    | CM_DEGAMMA_LUT => do_push c info p (words_of_lut <$> degamma_lut d)
    | CM_CTM => do_push c info p (ctm d)
    | _ => mret BadName
    end.

(** ** The legacy gamma ramp *)

(** The ramp that is passed is the one of the CRTC where it is not a legacy one. *)
Definition drmmode_crtc_gamma_do_set (crtc : loc) (r g b : list Z) (size : Z) : D unit :=
  c ← load w_crtcs crtc;
  info ← load w_scrns (crtc_scrn c);
  if negb (drmmode_cm_prop_supported info CM_GAMMA_LUT) then
    call (DrmModeCrtcSetGamma (mode_crtc_id (driver_private c)) size r g b)
  else _ ← drmmode_crtc_push_cm_prop crtc CM_GAMMA_LUT; mret tt.

Definition index_of (crtc : loc) (l : list loc) : option nat := fst <$> list_find (fun x => x = crtc) l.

(** The loop that computes the index of the CRTC runs off the list if it is not
    there. *)
Definition drmmode_crtc_gamma_set (crtc : loc) (r g b : list Z) (size : Z) : D unit :=
  c ← load w_crtcs crtc;
  _ ← drmmode_crtc_gamma_do_set crtc r g b size;
  info ← load w_scrns (crtc_scrn c);
  i ← some_or OutOfBounds (index_of crtc (crtcs info));
  if negb (Z.land (hwcursor_disabled info) (Z.shiftl 1 (Z.of_nat i)) =? 0) then mret tt
  else call (Notify "xf86CursorResetCursor" []).

(** ** A new CRTC *)

Definition identity_ctm : list Z :=
  let one := Z.shiftl 1 32 in [one; 0; 0; 0; one; 0; 0; 0; one].

Definition drmmode_crtc_cm_init (crtc : loc) : D unit :=
  c ← load w_crtcs crtc;
  info ← load w_scrns (crtc_scrn c);
  go ← (if drmmode_cm_prop_supported info CM_CTM then
          ok ← call (Calloc "ctm");
          if negb ok then mret false else _ ← set_dcrtc crtc (setf ctm (fun _ => Some identity_ctm)); mret true
        else mret true);
  mwhen go (mfor [CM_DEGAMMA_LUT; CM_CTM; CM_GAMMA_LUT] (fun p => _ ← drmmode_crtc_push_cm_prop crtc p; mret tt)).

(** ** What a client asks for (the color properties of [drmmode_output_set_property]
    and [drmmode_output_get_property]) *)

Definition set_cm_property (output : loc) (out : xf86Output) (p : drmmode_cm_prop) (v : RRPropertyValue) : D bool :=
  match out_crtc out with
  | None => mret false
  | Some crtc =>
      c ← load w_crtcs crtc;
      info ← load w_scrns (crtc_scrn c);
      if negb (drmmode_cm_prop_supported info p) then mret false
      else
        r ← drmmode_crtc_stage_cm_prop crtc p v;
        if negb (r =? 0) then mret false
        else r ← drmmode_crtc_push_cm_prop crtc p; mret (r =? 0)
  end.

Definition get_cm_property (output : loc) (crtc : loc) (p : drmmode_cm_prop) : D bool :=
  c ← load w_crtcs crtc;
  info ← load w_scrns (crtc_scrn c);
  if negb (drmmode_cm_prop_supported info p) then mret false
  else ret ← rr_configure_and_change_cm_property output info (Some (driver_private c)) p; mret (ret =? 0).
End Code.

(** ** Blobs do not leak *)
Section Blobs.
Context `{env : Env}.

(** The property blobs of the kernel that the driver has created and not destroyed,
    according to the calls it made and the answers it got. *)
Fixpoint live_blobs (trace : list ext) : list Z :=
  match trace with
  | [] => []
  | e :: history =>
      match e with
      | DrmModeCreatePropertyBlob data =>
          match reply history (DrmModeCreatePropertyBlob data) with
          | Some id => id :: live_blobs history
          | None => live_blobs history
          end
      | DrmModeDestroyPropertyBlob id =>
          match live_blobs history with x :: r => if x =? id then r else x :: r | [] => [] end
      | _ => live_blobs history
      end
  end.
Definition blobs (w : world) : list Z := live_blobs (w_trace w).

Definition no_blob (e : ext) : bool :=
  match e with DrmModeCreatePropertyBlob _ | DrmModeDestroyPropertyBlob _ => false | _ => true end.

Lemma call_blobs e : no_blob e = true -> leaves blobs (call e).
Proof. intros He w. wp_ext. unfold blobs. change (w_trace (setf w_trace _ w)) with (e :: w_trace w). by destruct e. Qed.
Lemma set_dcrtc_blobs crtc f : leaves blobs (set_dcrtc crtc f).
Proof. unfold set_dcrtc. apply leaves_update. done. Qed.

#[local] Hint Extern 0 (leaves blobs (call _)) => (apply call_blobs; reflexivity) : leaves.
#[local] Hint Resolve set_dcrtc_blobs : leaves.

Lemma do_push_blobs c info p blob : leaves blobs (do_push c info p blob).
Proof.
  unfold do_push. destruct blob as [data|]; [| leaves_auto].
  intros w. apply pwp_bind. wp_ext. destruct (reply _ _) as [id|] eqn:Hid; cycle 1.
  { apply pwp_ret. unfold blobs. change (w_trace (setf w_trace _ w)) with (DrmModeCreatePropertyBlob data :: w_trace w).
    cbn. by rewrite Hid. }
  apply pwp_bind. wp_ext. apply pwp_bind. wp_ext. apply pwp_ret. unfold blobs.
  match goal with |- live_blobs (w_trace ?v) = _ =>
    change (w_trace v) with
      (DrmModeDestroyPropertyBlob id :: DrmModeObjectSetProperty (mode_crtc_id (driver_private c)) (cm_prop_ids info p) id
         :: DrmModeCreatePropertyBlob data :: w_trace w) end.
  cbn. rewrite Hid. by rewrite Z.eqb_refl.
Qed.
#[local] Hint Resolve do_push_blobs : leaves.

Lemma push_blobs crtc p : leaves blobs (drmmode_crtc_push_cm_prop crtc p).
Proof. unfold drmmode_crtc_push_cm_prop. leaves_auto. Qed.
Lemma stage_blobs crtc p v : leaves blobs (drmmode_crtc_stage_cm_prop crtc p v).
Proof. unfold drmmode_crtc_stage_cm_prop, stage_blob. leaves_auto. Qed.
#[local] Hint Resolve push_blobs stage_blobs : leaves.

(** C37. Whatever fails on the way, setting a color property, setting the gamma ramp
    and initialising a CRTC leave no property blob behind in the kernel. *)
Theorem color_blobs_balanced output out crtc p v r g b size w :
  pwp (set_cm_property output out p v) (fun _ w' => blobs w' = blobs w) w /\
  pwp (drmmode_crtc_gamma_set crtc r g b size) (fun _ w' => blobs w' = blobs w) w /\
  pwp (drmmode_crtc_cm_init crtc) (fun _ w' => blobs w' = blobs w) w.
Proof.
  assert (Hdo : leaves blobs (drmmode_crtc_gamma_do_set crtc r g b size)) by (unfold drmmode_crtc_gamma_do_set; leaves_auto).
  enough (H : leaves blobs (set_cm_property output out p v) /\ leaves blobs (drmmode_crtc_gamma_set crtc r g b size) /\
    leaves blobs (drmmode_crtc_cm_init crtc)) by (split_and!; apply H).
  unfold set_cm_property, drmmode_crtc_gamma_set, drmmode_crtc_cm_init. split_and!; leaves_auto.
Qed.
End Blobs.

(** ** What was set is what is reported *)

Lemma lut_words_roundtrip l n : length l = (4 * n)%nat -> words_of_lut (lut_of_words l) = l.
Proof.
  revert l. induction n as [|n IH]; intros l Hl; [by destruct l |].
  do 4 (destruct l as [|? l]; [cbn in Hl; lia |]). cbn. do 4 f_equal. apply IH. cbn in Hl. lia.
Qed.
Lemma ctm_words_roundtrip l n : length l = (2 * n)%nat -> Forall in_u32 l -> words_of_ctm (ctm_of_words l) = l.
Proof.
  revert l. induction n as [|n IH]; intros l Hl Hr; [by destruct l |].
  destruct l as [|lo l]; [cbn in Hl; lia |]. destruct l as [|hi l]; [cbn in Hl; lia |].
  apply Forall_cons in Hr as [H1 Hr]. apply Forall_cons in Hr as [H2 Hr]. unfold in_u32 in *. cbn. f_equal; [| f_equal].
  - unfold u32. rewrite Z.shiftl_mul_pow2, Z_mod_plus_full by lia. by apply Z.mod_small.
  - rewrite Z.shiftl_mul_pow2, Z.shiftr_div_pow2, Z.div_add by lia. rewrite (Z.div_small lo) by done. lia.
  - apply IH; [cbn in Hl; lia | done].
Qed.

Section Report.
Context `{env : Env}.

(** Pushing a property changes nothing in the driver. *)
Lemma push_leaves {X} (proj : world -> X) crtc p :
  (forall f w, proj (setf w_trace f w) = proj w) -> leaves proj (drmmode_crtc_push_cm_prop crtc p).
Proof.
  intros Hp. assert (Hc : forall e, leaves proj (call e)) by (intros e; by apply leaves_call).
  unfold drmmode_crtc_push_cm_prop, do_push. repeat first [apply Hc | solve [auto 2 with leaves nocore] | leaves_step].
Qed.

(** The staged value a client's value becomes; one element stands for the default. *)
Definition staged_value {A} (v : RRPropertyValue) (value : A) : option A := if rr_size v =? 1 then None else Some value.
Definition staged (p : drmmode_cm_prop) (v : RRPropertyValue) (d : drmmode_crtc) : drmmode_crtc :=
  match p with
  | CM_GAMMA_LUT => d <| gamma_lut := staged_value v (lut_of_words (rr_data v)) |>
  | CM_DEGAMMA_LUT => d <| degamma_lut := staged_value v (lut_of_words (rr_data v)) |>
  | CM_CTM => d <| ctm := staged_value v (ctm_of_words (rr_data v)) |>
  | _ => d
  end.

Definition accepted (info : scrn_info) (p : drmmode_cm_prop) (v : RRPropertyValue) : bool :=
  match p with
  | CM_GAMMA_LUT => bool_decide (lut_value (gamma_lut_size info) v = Some (rr_size v =? 1))
  | CM_DEGAMMA_LUT => bool_decide (lut_value (degamma_lut_size info) v = Some (rr_size v =? 1))
  | CM_CTM => bool_decide (ctm_value v = Some (rr_size v =? 1))
  | _ => false
  end.

Lemma stage_ok crtc c info p v w :
  w_crtcs w !! crtc = Some c -> w_scrns w !! crtc_scrn c = Some info ->
  pwp (drmmode_crtc_stage_cm_prop crtc p v)
      (fun r w' => r = Success -> accepted info p v = true /\ w_scrns w' = w_scrns w /\
         w_crtcs w' !! crtc = Some (setf driver_private (staged p v) c)) w.
Proof.
  intros Hc Hi. unfold drmmode_crtc_stage_cm_prop. apply pwp_bind, pwp_load. intros c' Hc'.
  rewrite Hc in Hc'. injection Hc' as <-. apply pwp_bind, pwp_load. intros i' Hi'. rewrite Hi in Hi'. injection Hi' as <-.
  assert (Hdef : forall n d, lut_value n v = Some d -> d = (rr_size v =? 1)).
  { intros n d. unfold lut_value. destruct (rr_size v =? 1); [by intros [= <-] |]. destruct (_ || _ || _); [done | by intros [= <-]]. }
  assert (Hctm : forall d, ctm_value v = Some d -> d = (rr_size v =? 1)).
  { intros d. unfold ctm_value. destruct (_ || _ || _); [done | by intros [= <-]]. }
  assert (Hset : forall (f : drmmode_crtc -> drmmode_crtc) w0, w_crtcs w0 = w_crtcs w -> w_scrns w0 = w_scrns w ->
    pwp (set_dcrtc crtc f) (fun _ w' => w_scrns w' = w_scrns w /\ w_crtcs w' !! crtc = Some (setf driver_private f c)) w0).
  { intros f w0 Hw Hs0. unfold set_dcrtc. apply pwp_update. intros c' Hc'. rewrite Hw, Hc in Hc'. injection Hc' as <-. split; [done |]. apply lookup_insert_eq. }
  assert (Hblob : forall A (put : option A -> drmmode_crtc -> drmmode_crtc) (value : A),
    pwp (stage_blob put crtc (rr_size v =? 1) value) (fun r w' => r = Success -> w_scrns w' = w_scrns w /\
      w_crtcs w' !! crtc = Some (setf driver_private (put (staged_value v value)) c)) w).
  { intros A put value. unfold stage_blob, staged_value. destruct (rr_size v =? 1).
    - apply pwp_bind. eapply pwp_mono; [by apply Hset |]. intros [] w' H. by apply pwp_ret.
    - apply pwp_bind. wp_ext. destruct (reply _ _); cbn [negb]; apply pwp_bind; (eapply pwp_mono; [by apply Hset |]);
        intros [] w' H; by apply pwp_ret. }
  destruct p; try by apply pwp_ret; intros [=].
  - destruct (lut_value _ v) as [d|] eqn:Hv; [| by apply pwp_ret]. pose proof (Hdef _ _ Hv) as ->.
    eapply pwp_mono; [apply Hblob |]. intros r w' H Hr. specialize (H Hr) as [? ?]. split_and!; [by apply bool_decide_eq_true_2 | done | done].
  - destruct (ctm_value v) as [d|] eqn:Hv; [| by apply pwp_ret]. pose proof (Hctm _ eq_refl) as ->.
    eapply pwp_mono; [apply Hblob |]. intros r w' H Hr. specialize (H Hr) as [? ?]. split_and!; [by apply bool_decide_eq_true_2 | done | done].
  - destruct (lut_value _ v) as [d|] eqn:Hv; [| by apply pwp_ret]. pose proof (Hdef _ _ Hv) as ->.
    eapply pwp_mono; [apply Hblob |]. intros r w' H Hr. specialize (H Hr) as [? ?]. split_and!; [by apply bool_decide_eq_true_2 | done | done].
Qed.

Lemma lut_value_exact n v :
  lut_value n v = Some false -> rr_format v = 16 /\ rr_size v = 4 * n.
Proof.
  unfold lut_value. destruct (_ =? 1); [done |]. destruct (_ || _ || _) eqn:H; [done |].
  rewrite !orb_false_iff, !negb_false_iff, !Z.eqb_eq in H. intros _. lia.
Qed.
Lemma ctm_value_exact v : ctm_value v = Some false -> rr_format v = 32 /\ rr_size v = 18.
Proof.
  unfold ctm_value. destruct (_ || _ || _) eqn:H; [done |].
  rewrite !orb_false_iff, !negb_false_iff, !Z.eqb_eq in H. intros _. lia.
Qed.

(** What a client that set [v] is told: the value, or a single zero for the default. *)
Definition cm_answer (v : RRPropertyValue) : Z * list Z := if rr_size v =? 1 then (16, [0]) else (rr_format v, rr_data v).

Lemma ctm_value_default v : ctm_value v <> Some true.
Proof.
  unfold ctm_value. destruct (_ || _ || _) eqn:H; [done |]. rewrite !orb_false_iff, !negb_false_iff, !Z.eqb_eq in H. intros [= Hs].
  apply Z.eqb_eq in Hs. lia.
Qed.

(** The report of a staged value is the value. *)
Lemma staged_report info p v d :
  accepted info p v = true -> Z.of_nat (length (rr_data v)) = rr_size v -> Forall in_u32 (rr_data v) ->
  0 <= gamma_lut_size info -> 0 <= degamma_lut_size info ->
  exists range, cm_report info (Some (staged p v d)) p = Some ((cm_answer v).1, range, (cm_answer v).2).
Proof.
  intros Ha Hl Hr Hg Hdg. unfold cm_answer.
  destruct p; try done; apply bool_decide_eq_true in Ha; eexists; unfold cm_report; cbn [mbind option_bind staged setf];
    unfold setf; cbn; unfold staged_value; destruct (rr_size v =? 1) eqn:H1.
  - reflexivity.
  - apply lut_value_exact in Ha as [-> Hs].
    rewrite (lut_words_roundtrip _ (Z.to_nat (degamma_lut_size info))), take_ge by lia. done.
  - by apply ctm_value_default in Ha.
  - apply ctm_value_exact in Ha as [-> Hs]. by rewrite (ctm_words_roundtrip _ 9) by (done || lia).
  - reflexivity.
  - apply lut_value_exact in Ha as [-> Hs].
    rewrite (lut_words_roundtrip _ (Z.to_nat (gamma_lut_size info))), take_ge by lia. done.
Qed.

(** C19. A color property that was set is kept and reported as it was set: after
    [drmmode_output_set_property] succeeded with a table or a matrix, the CRTC has it
    staged and [drmmode_output_get_property] gives RandR the very same elements; after
    it succeeded with a single element, which is possible for the two tables, the CRTC
    has no table of the client any more and a single zero is reported.  The output is on
    a CRTC, the sizes of the tables are not negative, the elements are 32-bit words, and
    the server makes the atom and configures the property. *)
Theorem cm_set_get output out crtc c info p v w w1 :
  out_crtc out = Some crtc -> w_crtcs w !! crtc = Some c -> w_scrns w !! crtc_scrn c = Some info ->
  0 <= gamma_lut_size info -> 0 <= degamma_lut_size info ->
  Z.of_nat (length (rr_data v)) = rr_size v -> Forall in_u32 (rr_data v) ->
  set_cm_property output out p v w = Ok true w1 ->
  (forall history, reply history (MakeAtom (cm_prop_names p)) = true) ->
  (forall history n r i d, reply history (RRConfigureOutputProperty output n r i d) = 0) ->
  w_crtcs w1 !! crtc = Some (setf driver_private (staged p v) c) /\
  wp (get_cm_property output crtc p)
     (fun _ w2 => exists tr, w_trace w2 =
        RRChangeOutputProperty output (Some (cm_prop_names p)) (cm_answer v).1 (Ints (cm_answer v).2) :: tr) w1.
Proof.
  intros Hout Hc Hi Hg Hd Hl Hr Hset Hatom Hconf.
  assert (Hw1 : drmmode_cm_prop_supported info p = true /\ accepted info p v = true /\ w_scrns w1 = w_scrns w /\
    w_crtcs w1 !! crtc = Some (setf driver_private (staged p v) c)).
  { assert (H : pwp (set_cm_property output out p v) (fun ok w' => ok = true -> drmmode_cm_prop_supported info p = true /\
      accepted info p v = true /\ w_scrns w' = w_scrns w /\ w_crtcs w' !! crtc = Some (setf driver_private (staged p v) c)) w);
      [| unfold pwp in H; rewrite Hset in H; by apply H].
    unfold set_cm_property. rewrite Hout. apply pwp_bind, pwp_load. intros c' Hc'. rewrite Hc in Hc'. injection Hc' as <-.
    apply pwp_bind, pwp_load. intros i' Hi'. rewrite Hi in Hi'. injection Hi' as <-.
    destruct (drmmode_cm_prop_supported info p); cbn [negb]; [| by apply pwp_ret].
    apply pwp_bind. eapply pwp_mono; [by apply stage_ok |]. intros r w' H. destruct (Z.eqb_spec r 0) as [->|]; cbn [negb]; [| by apply pwp_ret].
    specialize (H eq_refl) as (Ha & Hsc & Hcr). apply pwp_bind. eapply pwp_mono;
      [apply (push_leaves (fun w => (w_scrns w, w_crtcs w))); done |]. intros r' w'' [= H1 H2]. apply pwp_ret. intros _.
    rewrite H1, H2. done. }
  destruct Hw1 as (Hsup & Ha & Hsc & Hcr). split; [exact Hcr |].
  unfold get_cm_property. apply wp_bind, (wp_load _ _ (setf driver_private (staged p v) c)); [done |].
  apply wp_bind, (wp_load _ _ info); [by rewrite Hsc |]. rewrite Hsup. cbn [negb].
  destruct (staged_report info p v (driver_private c) Ha Hl Hr Hg Hd) as [range Hrep].
  unfold rr_configure_and_change_cm_property. change (driver_private (setf driver_private (staged p v) c)) with (staged p v (driver_private c)).
  rewrite Hrep. apply wp_bind, wp_bind. wp_ext. rewrite Hatom. cbn [negb]. apply wp_bind. destruct range as [rg|].
  - wp_ext. rewrite Hconf. change (0 =? 0) with true. cbn [negb]. wp_ext. apply wp_ret. eexists. reflexivity.
  - apply wp_ret. change (0 =? 0) with true. cbn [negb]. wp_ext. apply wp_ret. eexists. reflexivity.
Qed.

(** The color matrix cannot be reset: a value of one element, which restores the
    default of the other color properties, is rejected for the matrix. *)
Theorem ctm_reset_rejected output out crtc c info v w :
  out_crtc out = Some crtc -> w_crtcs w !! crtc = Some c -> w_scrns w !! crtc_scrn c = Some info -> rr_size v = 1 ->
  set_cm_property output out CM_CTM v w = Ok false w.
Proof.
  intros Hout Hc Hi Hs. apply wp_run. unfold set_cm_property. rewrite Hout. apply wp_bind, (wp_load _ _ c); [done |].
  apply wp_bind, (wp_load _ _ info); [done |]. destruct (negb _); [by apply wp_ret |]. apply wp_bind.
  unfold drmmode_crtc_stage_cm_prop. apply wp_bind, (wp_load _ _ c); [done |]. apply wp_bind, (wp_load _ _ info); [done |].
  unfold ctm_value. rewrite Hs, !orb_true_r. by apply wp_ret, wp_ret.
Qed.
End Report.

(** ** A CRTC with a color table of two entries *)
Definition color_scrn : scrn_info := Sample.scrn <| cm_prop_ids := fun _ => 7 |> <| gamma_lut_size := 2 |>.
Definition color_world : world := Sample.w <| w_scrns := {[1%positive := color_scrn]} |>.
Definition color_output : xf86Output := Output (Some 3%positive) "HDMI-A-0" 0 None [] 0 [] 0 0 0 0 0 false.
Definition color_value : RRPropertyValue := RRValue XA_INTEGER 16 8 [0; 1; 2; 0; 65535; 65534; 65533; 0] None.
Definition color_set : world := after (set_cm_property (env := Sample.env) 6 color_output CM_GAMMA_LUT color_value) color_world.

Lemma cm_set_get_witness :
  wp (get_cm_property (env := Sample.env) 6 3 CM_GAMMA_LUT)
     (fun _ w2 => exists tr, w_trace w2 =
        RRChangeOutputProperty 6 (Some "GAMMA_LUT"%string) 16 (Ints [0; 1; 2; 0; 65535; 65534; 65533; 0]) :: tr) color_set.
Proof.
  apply (cm_set_get (env := Sample.env) 6 color_output 3 Sample.crtc color_scrn CM_GAMMA_LUT color_value color_world color_set);
    [done | done | done | done | done | done | | | done | done].
  - unfold color_value, in_u32. cbn. repeat (constructor; [lia |]). constructor.
  - vm_compute. reflexivity.
Defined.

Lemma ctm_reset_rejected_witness :
  set_cm_property (env := Sample.env) 6 color_output CM_CTM (RRValue XA_INTEGER 32 1 [0] None) color_world = Ok false color_world.
Proof. by apply (ctm_reset_rejected (env := Sample.env) 6 color_output 3 Sample.crtc color_scrn). Defined.

(** ** None of it disturbs the queue *)
Section Keeps.
Context `{env : Env}.

Lemma configure_cm_keeps output info crtc p : keeps (rr_configure_and_change_cm_property output info crtc p).
Proof. unfold rr_configure_and_change_cm_property. keeps_auto. Qed.
#[local] Hint Resolve configure_cm_keeps : keeps.
Lemma push_cm_keeps crtc p : keeps (drmmode_crtc_push_cm_prop crtc p).
Proof. unfold drmmode_crtc_push_cm_prop, do_push. keeps_auto. Qed.
#[local] Hint Resolve push_cm_keeps : keeps.
Lemma stage_cm_keeps crtc p v : keeps (drmmode_crtc_stage_cm_prop crtc p v).
Proof. unfold drmmode_crtc_stage_cm_prop, stage_blob. keeps_auto. Qed.
#[local] Hint Resolve stage_cm_keeps : keeps.
Lemma gamma_do_set_keeps crtc r g b size : keeps (drmmode_crtc_gamma_do_set crtc r g b size).
Proof. unfold drmmode_crtc_gamma_do_set. keeps_auto. Qed.
#[local] Hint Resolve gamma_do_set_keeps : keeps.
Lemma gamma_set_keeps crtc r g b size : keeps (drmmode_crtc_gamma_set crtc r g b size).
Proof. unfold drmmode_crtc_gamma_set. keeps_auto. Qed.
Lemma cm_init_keeps crtc : keeps (drmmode_crtc_cm_init crtc).
Proof. unfold drmmode_crtc_cm_init. keeps_auto. Qed.
Lemma set_cm_keeps output out p v : keeps (set_cm_property output out p v).
Proof. unfold set_cm_property. keeps_auto. Qed.
Lemma get_cm_keeps output crtc p : keeps (get_cm_property output crtc p).
Proof. unfold get_cm_property. keeps_auto. Qed.
End Keeps.
#[export] Hint Resolve configure_cm_keeps gamma_do_set_keeps gamma_set_keeps cm_init_keeps set_cm_keeps get_cm_keeps : keeps.
