(* ===== verification/Outputs.v ===== *)
(** * Outputs: src/src/drmmode_display.c

    Connectors of the kernel become outputs of the server: how they are found,
    named and combined, and how their properties travel between the kernel and
    RandR. *)
From stdpp Require Import strings.
From S2P Require Import Prelude Modes Region World Lut Fb DriState Queue Bo PixmapFb Crtc Keeps Scanout Modeset.
From S2P Require Import Flip Prime Names Color.

Definition DRM_MODE_PROP_RANGE : Z := 2.
Definition DRM_MODE_PROP_IMMUTABLE : Z := 4.
Definition DRM_MODE_PROP_ENUM : Z := 8.
Definition DRM_MODE_PROP_BLOB : Z := 16.
Definition DRM_MODE_PROP_EXTENDED_TYPE : Z := 0xffc0.
Definition DRM_MODE_CONNECTED : Z := 1.
Definition DRM_MODE_DISCONNECTED : Z := 2.

Inductive xf86OutputStatus : Type :=
| XF86OutputStatusConnected
| XF86OutputStatusDisconnected
| XF86OutputStatusUnknown.

(** libdrm's inline function. *)
Definition drm_property_type_is (p : drmModeProperty) (type : Z) : bool :=
  if has_bit (prop_flags p) DRM_MODE_PROP_EXTENDED_TYPE then Z.land (prop_flags p) DRM_MODE_PROP_EXTENDED_TYPE =? type
  else has_bit (prop_flags p) type.

Section Code.
Context `{env : Env} `{srv : XServer} `{callbacks : Callbacks} `{rot : Rotator} (sw_cursor : bool).

Definition make_atom (name : string) : D (option string) :=
  ok ← call (MakeAtom name); mret (if ok : bool then Some name else None).

(** [p->atoms[k]] *)
Definition atom_at (p : drmmode_prop) (k : nat) : D (option string) :=
  l ← some_or NullDeref (atoms p); some_or OutOfBounds (l !! k).

(** ** Properties of a connector *)

Fixpoint koutput_get_prop_idx (props : list (Z * Z)) (type : Z) (name : string) : D (option (Z * Z)) :=
  match props with
  | [] => mret None
  | (id, v) :: r =>
      p ← call (DrmModeGetProperty id);
      match p with
      | Some prop =>
          if drm_property_type_is prop type && String.eqb (prop_name prop) name then mret (Some (id, v))
          else koutput_get_prop_idx r type name
      | None => koutput_get_prop_idx r type name
      end
  end.

Definition koutput_get_prop_id (k : drmModeConnector) (type : Z) (name : string) : D Z :=
  r ← koutput_get_prop_idx (conn_props k) type name;
  mret (match r with Some (id, _) => id | None => -1 end).

Definition koutput_get_prop_blob (k : drmModeConnector) (name : string) : D (option string) :=
  r ← koutput_get_prop_idx (conn_props k) DRM_MODE_PROP_BLOB name;
  match r with Some (_, v) => call (DrmModeGetPropertyBlob v) | None => mret None end.

(** One property of an output is brought up to date. *)
Definition update_property (output : loc) (kprops : list (Z * Z)) (p : drmmode_prop) : D drmmode_prop :=
  match list_find (fun kv => kv.1 = prop_id (mode_prop p)) kprops with
  | None => mret p
  | Some (_, (_, v)) =>
      if v =? out_value p then mret p
      else
        _ ← (if has_bit (prop_flags (mode_prop p)) DRM_MODE_PROP_RANGE then
               a ← atom_at p 0;
               _ ← call (RRChangeOutputProperty output a 32 (Ints [s32 v])); mret tt
             else if has_bit (prop_flags (mode_prop p)) DRM_MODE_PROP_ENUM then
               match list_find (fun e => e.1 = v) (prop_enums (mode_prop p)) with
               | Some (k, _) =>
                   a ← atom_at p 0;
                   b ← atom_at p (S k);
                   _ ← call (RRChangeOutputProperty output a 32 (Atoms [b])); mret tt
               | None => mret tt
               end
             else mret tt);
        mret (p <| out_value := v |>)
  end.

Fixpoint update_each (output : loc) (kprops : list (Z * Z)) (l : list drmmode_prop) : D (list drmmode_prop) :=
  match l with
  | [] => mret []
  | p :: r => p' ← update_property output kprops p; r' ← update_each output kprops r; mret (p' :: r')
  end.

Definition drmmode_output_update_properties (output : loc) : D unit :=
  out ← load w_outputs output;
  match mode_output out with
  | None => mret tt
  | Some k =>
      l ← update_each output (conn_props k) (out_props out);
      update w_outputs output (setf out_props (fun _ => l))
  end.

Definition drmmode_output_detect (output : loc) : D xf86OutputStatus :=
  out ← load w_outputs output;
  k ← call (DrmModeGetConnector (output_id out));
  _ ← update w_outputs output (setf mode_output (fun _ => k));
  match k with
  | None =>
      _ ← update w_outputs output (setf output_id (fun _ => -1));
      mret XF86OutputStatusDisconnected
  | Some kc =>
      _ ← drmmode_output_update_properties output;
      mret (if connection kc =? DRM_MODE_CONNECTED then XF86OutputStatusConnected
            else if connection kc =? DRM_MODE_DISCONNECTED then XF86OutputStatusDisconnected
            else XF86OutputStatusUnknown)
  end.

(** [None] stands for a [NULL] property. *)
Definition drmmode_property_ignore (p : option drmModeProperty) : bool :=
  match p with
  | None => true
  | Some prop =>
      has_bit (prop_flags prop) DRM_MODE_PROP_BLOB || String.eqb (prop_name prop) "EDID" || String.eqb (prop_name prop) "DPMS"
  end.

Fixpoint collect_props (kprops : list (Z * Z)) : D (list drmmode_prop) :=
  match kprops with
  | [] => mret []
  | (id, v) :: r =>
      p ← call (DrmModeGetProperty id);
      l ← collect_props r;
      mret (match p with
            | Some prop => if drmmode_property_ignore p then l else OutProp prop v 0 None :: l
            | None => l
            end)
  end.

Definition tearfree_prop : drmModeProperty :=
  KProp 0 DRM_MODE_PROP_ENUM "TearFree" [] [(0, "off"); (1, "on"); (2, "auto")]%string.

Fixpoint make_atoms (names : list string) : D (list (option string)) :=
  match names with [] => mret [] | n :: r => a ← make_atom n; l ← make_atoms r; mret (a :: l) end.

(** One property is announced to RandR. *)
Definition configure_property (output : loc) (p : drmmode_prop) : D drmmode_prop :=
  let prop := mode_prop p in
  let immutable := has_bit (prop_flags prop) DRM_MODE_PROP_IMMUTABLE in
  if has_bit (prop_flags prop) DRM_MODE_PROP_RANGE then
    ok ← call (Calloc "atoms");
    if negb ok then mret (p <| num_atoms := 1 |>)
    else
      a ← make_atom (prop_name prop);
      lo ← some_or OutOfBounds (prop_values prop !! 0%nat);
      hi ← some_or OutOfBounds (prop_values prop !! 1%nat);
      _ ← call (RRConfigureOutputProperty output a true immutable (Ints [s32 lo; s32 hi]));
      _ ← call (RRChangeOutputProperty output a 32 (Ints [s32 (out_value p)]));
      mret (p <| num_atoms := 1 |> <| atoms := Some [a] |>)
  else if has_bit (prop_flags prop) DRM_MODE_PROP_ENUM then
    let n := Z.of_nat (length (prop_enums prop)) + 1 in
    ok ← call (Calloc "atoms");
    if negb ok then mret (p <| num_atoms := n |>)
    else
      a ← make_atom (prop_name prop);
      l ← make_atoms (snd <$> prop_enums prop);
      _ ← call (RRConfigureOutputProperty output a false immutable (Atoms l));
      b ← some_or OutOfBounds ((a :: l) !! S (match list_find (fun e => e.1 = out_value p) (prop_enums prop) with
                                                   | Some (j, _) => j
                                                   | None => length (prop_enums prop)
                                                   end));
      _ ← call (RRChangeOutputProperty output a 32 (Atoms [b]));
      mret (p <| num_atoms := n |> <| atoms := Some (a :: l) |>)
  else mret p.

Fixpoint configure_each (output : loc) (l : list drmmode_prop) : D (list drmmode_prop) :=
  match l with
  | [] => mret []
  | p :: r => p' ← configure_property output p; r' ← configure_each output r; mret (p' :: r')
  end.

(** [scrn] is [output->scrn]. *)
Definition drmmode_output_create_resources (scrn output : loc) : D unit :=
  info ← load w_scrns scrn;
  out ← load w_outputs output;
  k ← some_or NullDeref (mode_output out);
  name ← make_atom "CONNECTOR_ID";
  _ ← match name with
      | Some _ =>
          _ ← call (RRConfigureOutputProperty output name false true (Ints [s32 (conn_id k)]));
          _ ← call (RRChangeOutputProperty output name 32 (Ints [s32 (conn_id k)])); mret tt
      | None => mret tt
      end;
  ok ← call (Calloc "props");
  mwhen ok
    (l ← collect_props (conn_props k);
     ok1 ← call (Calloc "tearfree_prop");
     ok2 ← call (Calloc "tearfree enums");
     if negb (ok1 && ok2) then raise NullDeref
     else
       props ← configure_each output (l ++ [OutProp tearfree_prop (info_tear_free info) 0 None]);
       _ ← update w_outputs output (fun o => o <| out_props := props |> <| out_tear_free := info_tear_free info |>);
       crtc ← match out_crtc out with Some crtc => c ← load w_crtcs crtc; mret (Some (driver_private c)) | None => mret None end;
       mfor cm_props (fun p =>
         mwhen (drmmode_cm_prop_supported info p)
           (_ ← rr_configure_and_change_cm_property output info crtc p; mret tt))).

(** ** Setting a property *)

Definition drmmode_output_set_tear_free (fuel : nat) (output : loc) (tear_free' : Z) : D unit :=
  out ← load w_outputs output;
  if out_tear_free out =? tear_free' then mret tt
  else
    _ ← update w_outputs output (setf out_tear_free (fun _ => tear_free'));
    match out_crtc out with Some crtc => reset_mode sw_cursor fuel crtc | None => mret tt end.

(** The loop over the properties; the last one is the TearFree property. *)
Fixpoint set_property_loop (fuel : nat) (output : loc) (out : xf86Output) (l : list drmmode_prop) (property : string)
    (v : RRPropertyValue) : D bool :=
  match l with
  | [] => mret true
  | p :: r =>
      other ← (if num_atoms p =? 0 then mret false
               else a ← atom_at p 0; mret (negb (bool_decide (a = Some property))));
      if other : bool then set_property_loop fuel output out r property v
      else if has_bit (prop_flags (mode_prop p)) DRM_MODE_PROP_RANGE then
        if negb (rr_type v =? XA_INTEGER) || negb (rr_format v =? 32) || negb (rr_size v =? 1) then mret false
        else
          val ← some_or OutOfBounds (rr_data v !! 0%nat);
          _ ← call (DrmModeConnectorSetProperty (output_id out) (prop_id (mode_prop p)) (u32 val));
          mret true
      else if has_bit (prop_flags (mode_prop p)) DRM_MODE_PROP_ENUM then
        if negb (rr_type v =? XA_ATOM) || negb (rr_format v =? 32) || negb (rr_size v =? 1) then mret false
        else
          match rr_atom v with
          | None => mret false
          | Some name =>
              match list_find (fun e => e.2 = name) (prop_enums (mode_prop p)) with
              | Some (j, (value, _)) =>
                  _ ← match r with
                      | [] => drmmode_output_set_tear_free fuel output (Z.of_nat j)
                      | _ => call (DrmModeConnectorSetProperty (output_id out) (prop_id (mode_prop p)) value)
                      end;
                  mret true
              | None => set_property_loop fuel output out r property v
              end
          end
      else set_property_loop fuel output out r property v
  end.

Definition drmmode_output_set_property (fuel : nat) (output : loc) (property : string) (v : RRPropertyValue) : D bool :=
  out ← load w_outputs output;
  match get_cm_enum_from_str property with
  | (CM_DEGAMMA_LUT | CM_CTM | CM_GAMMA_LUT) as p => set_cm_property output out p v
  | _ => set_property_loop fuel output out (out_props out) property v
  end.

Definition drmmode_output_get_property (output : loc) (property : string) : D bool :=
  out ← load w_outputs output;
  match out_crtc out, get_cm_enum_from_str property with
  | None, _ | _, CM_INVALID_PROP => mret true
  | Some crtc, p => get_cm_property output crtc p
  end.

(** ** Modes *)

Fixpoint tile_blob (props : list (Z * Z)) (acc : option string) : D (option string) :=
  match props with
  | [] => mret acc
  | (id, v) :: r =>
      p ← call (DrmModeGetProperty id);
      match p with
      | Some prop =>
          if has_bit (prop_flags prop) DRM_MODE_PROP_BLOB && String.eqb (prop_name prop) "TILE" then
            b ← call (DrmModeGetPropertyBlob v); tile_blob r b
          else tile_blob r acc
      | None => tile_blob r acc
      end
  end.

Definition drmmode_output_attach_tile (output : loc) : D unit :=
  out ← load w_outputs output;
  match mode_output out with
  | None => call (Notify "xf86OutputSetTile" [])
  | Some k => _ ← tile_blob (conn_props k) None; call (Notify "xf86OutputSetTile" [Zpos output])
  end.

Definition drmmode_output_get_modes (strdup : string -> option string) (xf86SetModeCrtc : DisplayModeRec -> Z -> DisplayModeRec)
    (adjustFlags : Z) (output : loc) : D (list DisplayModeRec) :=
  out ← load w_outputs output;
  match mode_output out with
  | None => mret []
  | Some k =>
      _ ← koutput_get_prop_blob k "EDID";
      _ ← call (Notify "xf86OutputSetEDID" [Zpos output]);
      _ ← drmmode_output_attach_tile output;
      mret (drmmode_ConvertFromKMode strdup xf86SetModeCrtc adjustFlags <$> conn_modes k)
  end.

(** ** A new output *)

Fixpoint get_encoders (ids : list Z) : D (option (list drmModeEncoder)) :=
  match ids with
  | [] => mret (Some [])
  | id :: r =>
      e ← call (DrmModeGetEncoder id);
      match e with
      | None => mret None
      | Some enc => l ← get_encoders r; mret (cons enc <$> l)
      end
  end.

Fixpoint named_outputs (l : list loc) : D (list (Z * string)) :=
  match l with
  | [] => mret []
  | o :: r => out ← load w_outputs o; n ← named_outputs r; mret ((output_id out, out_name out) :: n)
  end.

(** An existing output of that name, whose connector is then replaced. *)
Fixpoint rehook (l : list loc) (name : string) (id : Z) (k : drmModeConnector) (nonDesktop : bool) : D bool :=
  match l with
  | [] => mret false
  | o :: r =>
      out ← load w_outputs o;
      if negb (String.eqb (String.substring 0 32 (out_name out)) (String.substring 0 32 name)) then rehook r name id k nonDesktop
      else
        _ ← store w_outputs o (out <| output_id := id |> <| mode_output := Some k |> <| non_desktop := nonDesktop |>);
        mret true
  end.

(** [shared]: the device is shared by several screens; [zaphod]: the option
    "ZaphodHeads".  The result is whether an output was made or found, and the two
    counters. *)
Definition drmmode_output_init (scrn : loc) (id num scrnIndex instance_id : Z) (shared : bool) (zaphod : option string)
    (num_dvi num_hdmi : Z) (dynamic : bool) : D (bool * Z * Z) :=
  info ← load w_scrns scrn;
  k ← call (DrmModeGetConnector id);
  match k with
  | None => mret (false, num_dvi, num_hdmi)
  | Some kc =>
      path ← koutput_get_prop_blob kc "PATH";
      nd ← koutput_get_prop_idx (conn_props kc) DRM_MODE_PROP_RANGE "non-desktop";
      let nonDesktop := match nd with Some (_, v) => negb (v =? 0) | None => false end in
      ok ← call (Calloc "kencoders");
      encs ← (if ok : bool then get_encoders (conn_encoders kc) else mret None);
      match encs with
      | None => mret (false, num_dvi, num_hdmi)
      | Some kencoders =>
          existing ← named_outputs (outputs info);
          let '(name, dvi, hdmi) := drmmode_create_name existing (is_gpu info) scrnIndex (connector_type kc)
                                      (connector_type_id kc) path num_dvi num_hdmi in
          found ← (if bool_decide (is_Some path) && dynamic then rehook (outputs info) name id kc nonDesktop else mret false);
          if found : bool then mret (true, dvi, hdmi)
          else
            mine ← (if negb shared then mret true
                    else match zaphod with
                         | Some s => some_or OutOfBounds (AMDGPUZaphodStringMatches s name)
                         | None => mret (instance_id =? num)
                         end);
            if negb mine then mret (false, dvi, hdmi)
            else
              made ← call (Xf86OutputCreate name);
              if negb made then mret (false, dvi, hdmi)
              else
                priv ← call (Calloc "drmmode_output");
                if negb priv then mret (false, dvi, hdmi)
                else
                  dpms ← koutput_get_prop_id kc DRM_MODE_PROP_ENUM "DPMS";
                  let crtcs' := foldl (fun m e => Z.land m (enc_possible_crtcs e)) 0xffffffff kencoders in
                  o ← new w_outputs (Output None name id (Some kc) kencoders dpms [] 0 0 0 0 crtcs' nonDesktop);
                  _ ← update w_scrns scrn (setf outputs (fun l => l ++ [o]));
                  _ ← mwhen dynamic (drmmode_output_create_resources scrn o);
                  mret (true, dvi, hdmi)
      end
  end.

(** ** Clones *)

(** The bits of the encoders of a connector among those of the device. *)
Fixpoint encoder_bits (encs : list Z) (i : nat) (id : Z) : Z :=
  match encs with
  | [] => 0
  | e :: r => Z.lor (if e =? id then Z.shiftl 1 (Z.of_nat i) else 0) (encoder_bits r (S i) id)
  end.

Definition clone_masks (mode_res_encoders : list Z) (o : xf86Output) : xf86Output :=
  o <| enc_clone_mask := foldl (fun m e => Z.land m (enc_possible_clones e)) 0xff (mode_encoders o) |>
    <| enc_mask := foldl (fun m e => Z.lor m (encoder_bits mode_res_encoders 0 (encoder_id e))) (enc_mask o) (mode_encoders o) |>.

(** The loop of [find_clones] from index [i] on. *)
Fixpoint clone_loop (output : loc) (clone_mask : Z) (l : list loc) (i : nat) : D Z :=
  match l with
  | [] => mret 0
  | o :: r =>
      c ← load w_outputs o;
      rest ← clone_loop output clone_mask r (S i);
      mret (if bool_decide (output = o) || (enc_mask c =? 0) || negb (clone_mask =? enc_mask c) then rest
            else Z.lor (Z.shiftl 1 (Z.of_nat i)) rest)
  end.

Definition find_clones (scrn output : loc) : D Z :=
  info ← load w_scrns scrn;
  out ← load w_outputs output;
  if enc_clone_mask out =? 0 then mret 0 else clone_loop output (enc_clone_mask out) (outputs info) 0.

Definition drmmode_clones_init (scrn : loc) (mode_res_encoders : list Z) : D unit :=
  info ← load w_scrns scrn;
  _ ← mfor (outputs info) (fun o => update w_outputs o (clone_masks mode_res_encoders));
  mfor (outputs info) (fun o => m ← find_clones scrn o; update w_outputs o (setf possible_clones (fun _ => m))).

(** ** A new CRTC *)

Definition drmmode_crtc_hw_id (crtc : loc) : D unit :=
  d ← get_dcrtc crtc;
  r ← call (AmdgpuQueryCrtcFromId (mode_crtc_id d));
  set_dcrtc crtc (setf hw_id (fun _ => match r with Some id => id | None => -1 end)).

(** ** Scanning out the pixmap of another GPU *)

(** [PixmapStopDirtyTracking] of the first update from that pixmap. *)
Definition stop_tracking (pix : option loc) (l : list dirty_update) : list dirty_update :=
  match list_find (fun ent => amdgpu_dirty_src_equals ent pix = true) l with Some (i, _) => delete i l | None => l end.

Definition drmmode_set_scanout_pixmap (fuel : nat) (crtc : loc) (ppix : option loc) : D bool :=
  c ← load w_crtcs crtc;
  let d := driver_private c in
  _ ← update w_scrns (crtc_scrn c) (setf pixmap_dirty_list (stop_tracking (prime_scanout_pixmap d)));
  _ ← drmmode_crtc_scanout_free fuel crtc;
  _ ← set_dcrtc crtc (setf prime_scanout_pixmap (fun _ => None));
  match ppix with
  | None => mret true
  | Some pix =>
      p ← load w_pixmaps pix;
      ok ← drmmode_crtc_scanout_create crtc 0 (pix_width p) (pix_height p);
      if negb ok then mret false
      else
        ok ← (if tear_free d then drmmode_crtc_scanout_create crtc 1 (pix_width p) (pix_height p) else mret true);
        if negb ok then _ ← drmmode_crtc_scanout_free fuel crtc; mret false
        else
          _ ← set_dcrtc crtc (setf prime_scanout_pixmap (fun _ => Some pix));
          d' ← get_dcrtc crtc;
          dst ← deref (scanout_at d' (scanout_id d));
          _ ← update w_scrns (crtc_scrn c) (setf pixmap_dirty_list (cons (Dirty pix dst ∅ RR_Rotate_0 0 0 0)));
          mret true
  end.
End Code.

(** ** The TearFree property *)
Section TearFree.
Context `{env : Env} `{srv : XServer} `{callbacks : Callbacks} `{rot : Rotator} (sw_cursor : bool).

Hypothesis memory : forall history what, reply history (Calloc what) = true.
Hypothesis atoms_made : forall history name, reply history (MakeAtom name) = true.
(** The kernel has no property of that name. *)
Hypothesis no_kernel_property : forall history id p,
  reply history (DrmModeGetProperty id) = Some p -> prop_name p <> "TearFree"%string.

(** A property that is announced to RandR under its own name. *)
Definition announced (p p' : drmmode_prop) : Prop :=
  mode_prop p' = mode_prop p /\
  (num_atoms p' = 0 /\ has_bit (prop_flags (mode_prop p)) DRM_MODE_PROP_RANGE = false /\
     has_bit (prop_flags (mode_prop p)) DRM_MODE_PROP_ENUM = false \/
   num_atoms p' <> 0 /\ exists l, atoms p' = Some (Some (prop_name (mode_prop p)) :: l)).

Lemma make_atom_some name w : pwp (make_atom name) (fun a _ => a = Some name) w.
Proof. unfold make_atom. apply pwp_bind. wp_ext. rewrite atoms_made. by apply pwp_ret. Qed.

Lemma configure_announced output p w : num_atoms p = 0 -> pwp (configure_property output p) (fun p' _ => announced p p') w.
Proof.
  intros Hn. unfold configure_property. destruct (has_bit _ DRM_MODE_PROP_RANGE) eqn:Hr;
    [| destruct (has_bit _ DRM_MODE_PROP_ENUM) eqn:He; [| by apply pwp_ret; split; [| left]]].
  - apply pwp_bind. wp_ext. rewrite memory. cbn [negb]. apply pwp_bind. eapply pwp_mono; [apply make_atom_some |]. intros a w' ->.
    apply pwp_bind, pwp_some_or. intros lo _. apply pwp_bind, pwp_some_or. intros hi _.
    apply pwp_bind. wp_ext. apply pwp_bind. wp_ext. apply pwp_ret. split; [done |]. right. split; [done | by eexists].
  - apply pwp_bind. wp_ext. rewrite memory. cbn [negb]. apply pwp_bind. eapply pwp_mono; [apply make_atom_some |]. intros a w' ->.
    apply pwp_bind. unfold pwp at 1. destruct (make_atoms _ _) as [l w''| |]; [| done | done]. apply pwp_bind. wp_ext. apply pwp_bind, pwp_some_or. intros b _.
    apply pwp_bind. wp_ext. apply pwp_ret. split; [done |]. right. split; [cbn; lia | by eexists].
Qed.

Lemma configure_each_announced output l w :
  Forall (fun p => num_atoms p = 0) l -> pwp (configure_each output l) (fun l' _ => Forall2 announced l l') w.
Proof.
  revert w. induction l as [|p l IH]; intros w Hl; [by apply pwp_ret |]. apply Forall_cons in Hl as [Hp Hl]. cbn [configure_each].
  apply pwp_bind. eapply pwp_mono; [by apply configure_announced |]. intros p' w' Hp'.
  apply pwp_bind. eapply pwp_mono; [by apply IH |]. intros l' w'' Hl'. apply pwp_ret. by constructor.
Qed.

Lemma collect_fresh kprops w :
  pwp (collect_props kprops) (fun l _ => Forall (fun p => num_atoms p = 0 /\ prop_name (mode_prop p) <> "TearFree"%string) l) w.
Proof.
  revert w. induction kprops as [|[id v] r IH]; intros w; [by apply pwp_ret |]. cbn [collect_props].
  apply pwp_bind. wp_ext. destruct (reply _ _) as [prop|] eqn:Hp; apply pwp_bind; (eapply pwp_mono; [apply IH |]); intros l w' Hl; apply pwp_ret; [| done].
  destruct (drmmode_property_ignore _); [done |]. constructor; [| done]. split; [done |]. by eapply no_kernel_property.
Qed.

(** A property [drmmode_output_set_property] passes over when it looks for TearFree. *)
Definition passed_over (p : drmmode_prop) : Prop :=
  num_atoms p = 0 /\ has_bit (prop_flags (mode_prop p)) DRM_MODE_PROP_RANGE = false /\
    has_bit (prop_flags (mode_prop p)) DRM_MODE_PROP_ENUM = false \/
  num_atoms p <> 0 /\ exists a l, atoms p = Some (a :: l) /\ a <> Some "TearFree"%string.

Definition selects (v : RRPropertyValue) (name : string) : Prop :=
  rr_type v = XA_ATOM /\ rr_format v = 32 /\ rr_size v = 1 /\ rr_atom v = Some name.

Lemma set_loop_last fuel output out init last l name j v w :
  Forall passed_over init -> mode_prop last = tearfree_prop -> num_atoms last <> 0 ->
  atoms last = Some (Some "TearFree"%string :: l) -> selects v name ->
  list_find (fun e => e.2 = name) (prop_enums tearfree_prop) = Some (j, (Z.of_nat j, name)) ->
  set_property_loop sw_cursor fuel output out (init ++ [last]) "TearFree" v w =
  (_ ← drmmode_output_set_tear_free sw_cursor fuel output (Z.of_nat j); mret true) w.
Proof.
  intros Hinit Hlast Hn Ha (Ht & Hf & Hs & Hat) Hj. induction Hinit as [|p init Hp _ IH].
  - cbn [app set_property_loop]. destruct (Z.eqb_spec (num_atoms last) 0); [done |]. unfold atom_at. rewrite Ha.
    erewrite bind_ok; [| reflexivity]. rewrite bool_decide_eq_true_2 by done. cbn [negb]. rewrite Hlast.
    change (has_bit (prop_flags tearfree_prop) DRM_MODE_PROP_RANGE) with false.
    change (has_bit (prop_flags tearfree_prop) DRM_MODE_PROP_ENUM) with true. cbv beta iota.
    rewrite Ht, Hf, Hs, Hat. change (negb (XA_ATOM =? XA_ATOM) || negb (32 =? 32) || negb (1 =? 1)) with false. cbv beta iota.
    by rewrite Hj.
  - cbn [app set_property_loop]. destruct Hp as [(Hz & Hr & He)|(Hnz & a & r & Hpa & Hne)].
    + rewrite Hz. change (0 =? 0) with true. cbv beta iota. erewrite bind_ok; [| reflexivity]. by rewrite Hr, He.
    + destruct (Z.eqb_spec (num_atoms p) 0); [done |]. unfold atom_at. rewrite Hpa. erewrite bind_ok; [| reflexivity].
      rewrite bool_decide_eq_false_2 by done. cbn [negb]. exact IH.
Qed.

Lemma create_resources_props scrn output w :
  pwp (drmmode_output_create_resources scrn output)
      (fun _ w' => forall out, w_outputs w' !! output = Some out ->
         exists init last l, out_props out = init ++ [last] /\ Forall passed_over init /\
           mode_prop last = tearfree_prop /\ num_atoms last <> 0 /\ atoms last = Some (Some "TearFree"%string :: l)) w.
Proof.
  unfold drmmode_output_create_resources. apply pwp_bind, pwp_load. intros info _. apply pwp_bind, pwp_load. intros out _.
  apply pwp_bind, pwp_some_or. intros k _. apply pwp_bind. eapply pwp_mono; [apply make_atom_some |]. intros ? w1 ->.
  apply pwp_bind, pwp_bind. wp_ext. apply pwp_bind. wp_ext. apply pwp_ret, pwp_bind. wp_ext. rewrite memory. cbn [mwhen].
  apply pwp_bind. eapply pwp_mono; [apply collect_fresh |]. intros l w2 Hl.
  apply pwp_bind. wp_ext. rewrite memory. apply pwp_bind. wp_ext. rewrite memory. cbn [andb negb].
  apply pwp_bind. eapply pwp_mono; [apply configure_each_announced |].
  { apply Forall_app. split; [eapply Forall_impl; [exact Hl | by intros p [? _]] | by constructor]. }
  intros props w3 Hprops. apply pwp_bind, pwp_update. intros o Ho. set (w4 := setf w_outputs _ w3).
  assert (H4 : exists o', w_outputs w4 !! output = Some o' /\ out_props o' = props)
    by (eexists; split; [apply lookup_insert_eq | reflexivity]). clearbody w4. destruct H4 as (o' & Ho' & Hpr).
  set (rest := mbind _ _). assert (Hrest : leaves w_outputs rest).
  { unfold rest, rr_configure_and_change_cm_property. leaves_auto. }
  eapply pwp_mono; [apply Hrest |]. intros [] w5 H5 out' Hout'. rewrite H5, Ho' in Hout'. injection Hout' as <-. rewrite Hpr.
  apply Forall2_app_inv_l in Hprops as (init & last & Hinit & Hlast & ->). apply Forall2_cons_inv_l in Hlast as (lst & ? & [Hm Hlst] & Hnil & ->).
  apply Forall2_nil_inv_l in Hnil as ->. exists init, lst. destruct Hlst as [(_ & _ & He)|(Hn & r & Ha)]; [done |].
  exists r. split_and!; [done | | done | done | done].
  clear -Hinit Hl. induction Hinit as [|p p' l init [Hm Hp] _ IH]; [done |]. apply Forall_cons in Hl as [[_ Hne] Hl].
  constructor; [| by apply IH]. destruct Hp as [(Hz & Hr & He)|(Hn & r & Ha)]; [left; by rewrite Hm | right].
  split; [done |]. exists (Some (prop_name (mode_prop p))), r. split; [done | congruence].
Qed.

(** C26. Once the resources of an output are created, setting its property
    "TearFree" to "off", "on" or "auto" stores 0, 1 or 2 as the output's mode of TearFree
    and, if that is a change and the output is on a CRTC, sets that CRTC's current mode,
    rotation and position anew; nothing else is done, however many properties the kernel
    has: the driver's own property is the last one, and no other is mistaken for it.
    Memory and atoms are available and no property of the kernel has the name
    "TearFree". *)
Theorem tear_free_property scrn fuel output out v name j w w1 :
  drmmode_output_create_resources scrn output w = Ok tt w1 -> w_outputs w1 !! output = Some out ->
  list_find (fun e => e.2 = name) (prop_enums tearfree_prop) = Some (j, (Z.of_nat j, name)) -> selects v name ->
  let w2 := w1 <| w_outputs ::= <[output := out <| out_tear_free := Z.of_nat j |>]> |> in
  drmmode_output_set_property sw_cursor fuel output "TearFree" v w1 =
  if out_tear_free out =? Z.of_nat j then Ok true w1
  else match out_crtc out with
       | None => Ok true w2
       | Some crtc =>
           (c ← load w_crtcs crtc;
            _ ← drmmode_set_mode_major sw_cursor fuel crtc (Some (crtc_mode c)) (rotation c) (crtc_x c) (crtc_y c);
            mret true) w2
       end.
Proof.
  intros Hc Hout Hj Hv w2. pose proof (create_resources_props scrn output w) as H. unfold pwp in H. rewrite Hc in H.
  destruct (H out Hout) as (init & last & l & Hp & Hi & Hm & Hn & Ha). unfold drmmode_output_set_property.
  rewrite (bind_ok _ _ w1 out w1) by (by apply load_ok). change (get_cm_enum_from_str "TearFree") with CM_INVALID_PROP. cbv beta iota.
  rewrite Hp, (set_loop_last _ _ _ _ _ l name j) by done. unfold drmmode_output_set_tear_free.
  unfold mbind at 1, M_bind at 1. rewrite (bind_ok _ _ w1 out w1) by (by apply load_ok).
  destruct (_ =? _); [done |].
  rewrite (bind_ok _ _ w1 tt w2) by (unfold update; by rewrite (bind_ok _ _ w1 out w1) by (by apply load_ok)).
  destruct (out_crtc out) as [crtc|]; [| done]. unfold reset_mode, mbind, M_bind.
  destruct (load w_crtcs crtc w2) as [c w3| |]; [| done..]. by destruct (drmmode_set_mode_major _ _ _ _ _ _ _ _).
Qed.
End TearFree.

(** ** Outputs that can show the same image *)
Section Clones.
Context `{env : Env}.

Definition clone_of (w : world) (output : loc) (mask : Z) (l : list loc) (i : nat) : Prop :=
  exists o c, l !! i = Some o /\ w_outputs w !! o = Some c /\ o <> output /\ enc_mask c <> 0 /\ enc_mask c = mask.

Lemma testbit_lor_shift i k rest :
  Z.testbit (Z.lor (Z.shiftl 1 (Z.of_nat k)) rest) (Z.of_nat i) = bool_decide (i = k) || Z.testbit rest (Z.of_nat i).
Proof.
  rewrite Z.lor_spec, Z.shiftl_spec by lia. f_equal. case_bool_decide as H; [subst; by rewrite Z.sub_diag |].
  destruct (decide (i < k)%nat); [apply Z.testbit_neg_r; lia |].
  change 1 with (2 ^ 0). rewrite Z.pow2_bits_eqb by lia. apply Z.eqb_neq. lia.
Qed.

Lemma wp_clone_loop output mask l w : forall k (Q : Z -> world -> Prop),
  Forall (fun o => is_Some (w_outputs w !! o)) l ->
  (forall m, (forall i, Z.testbit m (Z.of_nat i) = true <-> (k <= i)%nat /\ clone_of w output mask l (i - k)) -> Q m w) ->
  wp (clone_loop output mask l k) Q w.
Proof.
  induction l as [|o r IH]; intros k Q Hl HQ.
  { apply wp_ret, HQ. intros i. rewrite Z.bits_0. split; [done |]. intros [_ (o & c & Ho & _)]. by rewrite lookup_nil in Ho. }
  apply Forall_cons in Hl as [[c Hc] Hl]. cbn [clone_loop]. apply wp_bind, (wp_load _ _ c); [done |].
  apply wp_bind, IH; [done |]. intros m Hm. apply wp_ret, HQ. intros i.
  assert (Hhead : clone_of w output mask (o :: r) 0 <->
    bool_decide (output = o) || (enc_mask c =? 0) || negb (mask =? enc_mask c) = false).
  { rewrite !orb_false_iff, bool_decide_eq_false, negb_false_iff, Z.eqb_neq, Z.eqb_eq. split.
    - intros (o' & c' & [= <-] & Hc' & ?). rewrite Hc in Hc'. injection Hc' as <-. naive_solver.
    - intros [[? ?] ?]. exists o, c. naive_solver. }
  assert (Htail : (k < i)%nat -> clone_of w output mask (o :: r) (i - k) <-> clone_of w output mask r (i - S k)).
  { intros Hi. unfold clone_of. replace (i - k)%nat with (S (i - S k)) by lia. done. }
  destruct (decide (i = k)) as [->|Hne].
  - rewrite Nat.sub_diag, Hhead. destruct (_ || _ || _).
    + rewrite Hm. split; [lia | by intros [_ ?]].
    + rewrite testbit_lor_shift, bool_decide_eq_true_2 by done. split; [intros _; split; [lia | done] | done].
  - destruct (_ || _ || _); rewrite ?testbit_lor_shift, ?bool_decide_eq_false_2 by done; cbn [orb]; rewrite Hm;
      (split; [intros [? H]; split; [lia | apply Htail; [lia | exact H]] | intros [? H]; split; [lia | apply Htail in H; [exact H | lia]]]).
Qed.

(** [find_clones] computes exactly the other outputs whose encoders are those
    this output's encoders can be cloned with. *)
Theorem clones_exact scrn output info out w :
  w_scrns w !! scrn = Some info -> w_outputs w !! output = Some out ->
  Forall (fun o => is_Some (w_outputs w !! o)) (outputs info) ->
  wp (find_clones scrn output)
     (fun m w' => w' = w /\ forall i, Z.testbit m (Z.of_nat i) = true <-> clone_of w output (enc_clone_mask out) (outputs info) i) w.
Proof.
  intros Hs Ho Hl. unfold find_clones. apply wp_bind, (wp_load _ _ info); [done |]. apply wp_bind, (wp_load _ _ out); [done |].
  destruct (Z.eqb_spec (enc_clone_mask out) 0) as [Hz|Hz].
  - apply wp_ret. split; [done |]. intros i. rewrite Z.bits_0. split; [done |]. intros (o & c & _ & _ & _ & ? & ?). congruence.
  - apply wp_clone_loop; [done |]. intros m Hm. split; [done |]. intros i. rewrite Hm, Nat.sub_0_r. split; [by intros [_ ?] | intros; split; [lia | done]].
Qed.
End Clones.

(** ** A machine with two outputs; the first has a property of the kernel *)
Definition out_env : Env := fun history e =>
  match e return answer e with
  | DrmModeGetProperty id => Some (KProp id DRM_MODE_PROP_RANGE "audio" [0; 3] [])
  | e' => Sample.env history e'
  end.
Definition sample_output (mask clones : Z) : xf86Output :=
  Output None "HDMI-A-0" 0 (Some (Connector 50 11 1 1 1 [(9, 2)] [] [])) [] 0 [] mask clones 0 0 0 false.
Definition outputs_world : world :=
  Sample.w <| w_outputs := {[6%positive := sample_output 1 2; 7%positive := sample_output 2 1]} |>
           <| w_scrns := {[1%positive := Sample.scrn <| outputs := [6%positive; 7%positive] |>]} |>.
Definition announced_world : world := after (drmmode_output_create_resources (env := out_env) 1 6) outputs_world.
Definition select_auto : RRPropertyValue := RRValue XA_ATOM 32 1 [77] (Some "auto"%string).

Lemma clones_exact_witness :
  wp (find_clones 1 6) (fun m w' => w' = outputs_world /\ forall i, Z.testbit m (Z.of_nat i) = true <->
      clone_of outputs_world 6 2 [6%positive; 7%positive] i) outputs_world /\
  wp (find_clones 1 6) (fun m _ => m = 2) outputs_world.
Proof.
  split; [| vm_compute; reflexivity].
  change 2 with (enc_clone_mask (sample_output 1 2)).
  change [6%positive; 7%positive] with (outputs (Sample.scrn <| outputs := [6%positive; 7%positive] |>)).
  refine (clones_exact 1 6 _ (sample_output 1 2) outputs_world eq_refl eq_refl _).
  constructor; [eexists; vm_compute; reflexivity | constructor; [eexists; vm_compute; reflexivity | constructor]].
Defined.


Definition out_callbacks : Callbacks := {| call_handler _ _ _ _ _ := mret tt; call_abort _ _ _ := mret tt |}.
Definition out_rotator : Rotator := fun _ => mret true.

Lemma tear_free_property_witness :
  exists w', drmmode_output_set_property (env := out_env) (srv := sample_server) (callbacks := out_callbacks) (rot := out_rotator)
    false 1 6 "TearFree" select_auto announced_world = Ok true w' /\
  out_tear_free <$> w_outputs w' !! 6%positive = Some 2.
Proof.
  rewrite (tear_free_property (env := out_env) (srv := sample_server) (callbacks := out_callbacks) (rot := out_rotator)
    false (fun _ _ => eq_refl) (fun _ _ => eq_refl) ltac:(intros history id p [= <-]; done) 1 1 6
    (default (sample_output 1 2) (w_outputs announced_world !! 6%positive)) select_auto "auto" 2 outputs_world announced_world);
    [| vm_compute; reflexivity | vm_compute; reflexivity | reflexivity | done].
  eexists. split; [vm_compute; reflexivity |]. vm_compute. reflexivity.
Defined.

(** ** None of it disturbs the queue *)
Section Keeps.
Context `{env : Env} `{srv : XServer} `{psafe : PrimeSafe} `{safe : CallbacksSafe} `{rsafe : RotatorSafe}.

Lemma get_prop_idx_keeps props type name : keeps (koutput_get_prop_idx props type name).
Proof. induction props as [|[]]; cbn [koutput_get_prop_idx]; keeps_auto. Qed.
#[local] Hint Resolve get_prop_idx_keeps : keeps.
Lemma get_prop_id_keeps k type name : keeps (koutput_get_prop_id k type name).
Proof. unfold koutput_get_prop_id. keeps_auto. Qed.
Lemma get_prop_blob_keeps k name : keeps (koutput_get_prop_blob k name).
Proof. unfold koutput_get_prop_blob. keeps_auto. Qed.
#[local] Hint Resolve get_prop_id_keeps get_prop_blob_keeps : keeps.
Lemma update_each_keeps output kprops l : keeps (update_each output kprops l).
Proof. induction l; cbn [update_each]; unfold update_property, atom_at; keeps_auto. Qed.
#[local] Hint Resolve update_each_keeps : keeps.
Lemma output_update_keeps output : keeps (drmmode_output_update_properties output).
Proof. unfold drmmode_output_update_properties. keeps_auto. Qed.
#[local] Hint Resolve output_update_keeps : keeps.
Lemma output_detect_keeps output : keeps (drmmode_output_detect output).
Proof. unfold drmmode_output_detect. keeps_auto. Qed.
Lemma collect_props_keeps l : keeps (collect_props l).
Proof. induction l as [|[]]; cbn [collect_props]; keeps_auto. Qed.
Lemma make_atoms_keeps l : keeps (make_atoms l).
Proof. induction l; cbn [make_atoms]; unfold make_atom; keeps_auto. Qed.
#[local] Hint Resolve collect_props_keeps make_atoms_keeps : keeps.
Lemma configure_each_keeps output l : keeps (configure_each output l).
Proof. induction l; cbn [configure_each]; unfold configure_property, make_atom; keeps_auto. Qed.
#[local] Hint Resolve configure_each_keeps : keeps.
Lemma create_resources_keeps scrn output : keeps (drmmode_output_create_resources scrn output).
Proof. unfold drmmode_output_create_resources, make_atom. keeps_auto. Qed.
#[local] Hint Resolve create_resources_keeps : keeps.
Lemma get_encoders_keeps ids : keeps (get_encoders ids).
Proof. induction ids; cbn [get_encoders]; keeps_auto. Qed.
Lemma named_outputs_keeps l : keeps (named_outputs l).
Proof. induction l; cbn [named_outputs]; keeps_auto. Qed.
Lemma rehook_keeps l name id k nd : keeps (rehook l name id k nd).
Proof. induction l; cbn [rehook]; keeps_auto. Qed.
#[local] Hint Resolve get_encoders_keeps named_outputs_keeps rehook_keeps : keeps.
Lemma output_init_keeps scrn id num si ii shared z dvi hdmi dyn : keeps (drmmode_output_init scrn id num si ii shared z dvi hdmi dyn).
Proof. unfold drmmode_output_init. keeps_auto. Qed.
Lemma set_property_loop_keeps sw fuel output out l property v : keeps (set_property_loop sw fuel output out l property v).
Proof.
  induction l; cbn [set_property_loop]; [keeps_auto |].
  unfold drmmode_output_set_tear_free, atom_at. keeps_auto.
Qed.
#[local] Hint Resolve set_property_loop_keeps : keeps.
Lemma set_property_keeps sw fuel output property v : keeps (drmmode_output_set_property sw fuel output property v).
Proof. unfold drmmode_output_set_property. keeps_auto. Qed.
Lemma get_property_keeps output property : keeps (drmmode_output_get_property output property).
Proof. unfold drmmode_output_get_property. keeps_auto. Qed.
End Keeps.
#[export] Hint Resolve output_detect_keeps create_resources_keeps output_init_keeps set_property_keeps get_property_keeps : keeps.
