(* ===== verification/Dri3.v ===== *)
(** * The DRI3 extension: src/src/amdgpu_dri3.c

    Buffers are passed as file descriptors together with a DRM format modifier that
    describes their layout; clients wait for each other through sync objects of the
    kernel.  The constants are those of libdrm's drm_fourcc.h and amdgpu_drm.h.
    [gfx12] says whether the macro [HAVE_AMD_FMT_MOD_TILE_VER_GFX12] is defined. *)
From stdpp Require Import strings.
From S2P Require Import Prelude Modes Region World Fb DriState Queue Bo PixmapFb Crtc Keeps Scanout Modeset Present Dri2.

Definition AMDGPU_FAMILY_AI : Z := 141.
Definition AMDGPU_FAMILY_NV : Z := 143.
Definition AMDGPU_FAMILY_GC_11_0_0 : Z := 145.
Definition AMDGPU_FAMILY_GC_12_0_0 : Z := 152.
Definition DRM_FORMAT_MOD_INVALID : Z := 2 ^ 56 - 1.
Definition AMD_FMT_MOD : Z := Z.shiftl 2 56.
Definition AMD_FMT_MOD_TILE_VER_GFX9 : Z := 1.
Definition AMD_FMT_MOD_TILE_VER_GFX10 : Z := 2.
Definition AMD_FMT_MOD_TILE_VER_GFX11 : Z := 4.
Definition AMD_FMT_MOD_TILE_VER_GFX12 : Z := 5.
Definition AMD_FMT_MOD_TILE_GFX9_64K_S : Z := 9.
Definition AMD_FMT_MOD_TILE_GFX9_64K_D : Z := 10.
Definition AMD_FMT_MOD_TILE_GFX12_256B_2D : Z := 1.
Definition AMD_FMT_MOD_TILE_GFX12_4K_2D : Z := 2.
Definition AMD_FMT_MOD_TILE_GFX12_64K_2D : Z := 3.
Definition AMD_FMT_MOD_TILE_GFX12_256K_2D : Z := 4.
(** [AMD_FMT_MOD_SET(TILE_VERSION, v)] and [AMD_FMT_MOD_SET(TILE, t)] *)
Definition set_tile_version (v : Z) : Z := v.
Definition set_tile (t : Z) : Z := Z.shiftl t 8.
(** The fields back: [AMD_FMT_MOD_GET]. *)
Definition get_tile_version (m : Z) : Z := Z.land m 0xff.
Definition get_tile (m : Z) : Z := Z.land (Z.shiftr m 8) 0x1f.
(** [AMDGPU_TILING_GET] of the fields [SWIZZLE_MODE], [GFX12_SWIZZLE_MODE] and [ARRAY_MODE]. *)
Definition tiling_swizzle_mode (t : Z) : Z := Z.land t 0x1f.
Definition tiling_gfx12_swizzle_mode (t : Z) : Z := Z.land t 7.
Definition tiling_array_mode (t : Z) : Z := Z.land t 0xf.

(** ** Modifiers *)

Definition gfx12_modifier (swizzle_mode : Z) : Z :=
  let modifier := Z.lor AMD_FMT_MOD (set_tile_version AMD_FMT_MOD_TILE_VER_GFX12) in
  match swizzle_mode with
  | 1 => Z.lor modifier (set_tile AMD_FMT_MOD_TILE_GFX12_256B_2D)
  | 2 => Z.lor modifier (set_tile AMD_FMT_MOD_TILE_GFX12_4K_2D)
  | 3 => Z.lor modifier (set_tile AMD_FMT_MOD_TILE_GFX12_64K_2D)
  | 4 => Z.lor modifier (set_tile AMD_FMT_MOD_TILE_GFX12_256K_2D)
  | _ => DRM_FORMAT_MOD_INVALID
  end.

Definition tile_version (asic_family : Z) : Z :=
  if asic_family >=? AMDGPU_FAMILY_GC_11_0_0 then AMD_FMT_MOD_TILE_VER_GFX11
  else if asic_family >=? AMDGPU_FAMILY_NV then AMD_FMT_MOD_TILE_VER_GFX10
  else AMD_FMT_MOD_TILE_VER_GFX9.

Definition amdgpu_tiling_info_to_modifier (gfx12 : bool) (tiling_info asic_family : Z) : Z :=
  if tiling_info =? 0 then DRM_FORMAT_MOD_INVALID
  else if asic_family >=? AMDGPU_FAMILY_GC_12_0_0 then
    if gfx12 then gfx12_modifier (tiling_gfx12_swizzle_mode tiling_info) else DRM_FORMAT_MOD_INVALID
  else if asic_family >=? AMDGPU_FAMILY_AI then
    let modifier := Z.lor AMD_FMT_MOD (set_tile_version (tile_version asic_family)) in
    match tiling_swizzle_mode tiling_info with
    | 9 => Z.lor modifier (set_tile AMD_FMT_MOD_TILE_GFX9_64K_S)
    | 10 => Z.lor modifier (set_tile AMD_FMT_MOD_TILE_GFX9_64K_D)
    | _ => DRM_FORMAT_MOD_INVALID
    end
  else DRM_FORMAT_MOD_INVALID.

(** The static tables. *)
Definition amd_tiled_modifiers : list Z :=
  [DRM_FORMAT_MOD_INVALID;
   Z.lor (Z.lor AMD_FMT_MOD AMD_FMT_MOD_TILE_VER_GFX9) AMD_FMT_MOD_TILE_GFX9_64K_S;
   Z.lor (Z.lor AMD_FMT_MOD AMD_FMT_MOD_TILE_VER_GFX9) AMD_FMT_MOD_TILE_GFX9_64K_D].
Definition amd_tiled_modifiers_gfx10 : list Z :=
  [DRM_FORMAT_MOD_INVALID;
   Z.lor (Z.lor AMD_FMT_MOD AMD_FMT_MOD_TILE_VER_GFX10) AMD_FMT_MOD_TILE_GFX9_64K_S;
   Z.lor (Z.lor AMD_FMT_MOD AMD_FMT_MOD_TILE_VER_GFX10) AMD_FMT_MOD_TILE_GFX9_64K_D].
Definition amd_tiled_modifiers_gfx12 : list Z :=
  [DRM_FORMAT_MOD_INVALID;
   Z.lor (Z.lor AMD_FMT_MOD AMD_FMT_MOD_TILE_VER_GFX12) AMD_FMT_MOD_TILE_GFX12_64K_2D].

Definition screen_modifiers (gfx12 : bool) (asic_family : Z) : list Z :=
  if asic_family >=? AMDGPU_FAMILY_GC_12_0_0 then
    if gfx12 then amd_tiled_modifiers_gfx12 else amd_tiled_modifiers_gfx10
  else if asic_family >=? AMDGPU_FAMILY_NV then amd_tiled_modifiers_gfx10
  else if asic_family >=? AMDGPU_FAMILY_AI then amd_tiled_modifiers
  else [DRM_FORMAT_MOD_INVALID].

Definition drawable_modifiers (gfx12 : bool) (asic_family : Z) : list Z :=
  if asic_family >=? AMDGPU_FAMILY_GC_12_0_0 then
    if gfx12 then amd_tiled_modifiers_gfx12 else [DRM_FORMAT_MOD_INVALID]
  else if asic_family >=? AMDGPU_FAMILY_NV then amd_tiled_modifiers_gfx10
  else if asic_family >=? AMDGPU_FAMILY_AI then amd_tiled_modifiers
  else [DRM_FORMAT_MOD_INVALID].

(** The formats with modifiers, as fourcc codes. *)
Definition formats_arr : list Z :=
  [fourcc 65 82 50 52; fourcc 88 82 50 52; fourcc 66 65 50 52; fourcc 66 88 50 52;
   fourcc 82 71 50 52; fourcc 66 71 50 52; fourcc 82 71 49 54; fourcc 66 71 49 54;
   fourcc 78 86 49 50; fourcc 89 85 49 50; fourcc 80 48 49 48; fourcc 78 86 49 54;
   fourcc 89 85 49 54; fourcc 89 85 50 52; fourcc 88 89 85 86;
   fourcc 65 82 51 48; fourcc 88 82 51 48; fourcc 66 65 51 48; fourcc 66 88 51 48;
   fourcc 82 65 49 53; fourcc 82 65 49 50; fourcc 82 71 66 56; fourcc 66 71 82 56].

Definition gbm_format_from_depth (dep : Z) : option Z :=
  match dep with
  | 15 => Some GBM_FORMAT_ARGB1555
  | 16 => Some GBM_FORMAT_RGB565
  | 24 => Some GBM_FORMAT_XRGB8888
  | 30 => Some (fourcc 65 82 51 48)
  | 32 => Some GBM_FORMAT_ARGB8888
  | _ => None
  end.

(** [GBM_MAX_PLANES]: the length of the arrays of [struct gbm_import_fd_modifier_data]. *)
Definition GBM_MAX_PLANES : Z := 4.
Definition EACCES : Z := 13.
Definition ENOENT : Z := 2.
Definition EINVAL : Z := 22.
Definition BadMatch : Z := 8.

(** [screen->SetSharedPixmapBacking] as the server left it; [None] is [NULL]. *)
Class ServerBacking := server_set_backing : option (loc -> Z -> D bool).

Section Code.
Context `{env : Env} `{srv : XServer} `{callbacks : Callbacks} `{backing : ServerBacking}.
Context (gfx12 : bool).

(** ** Sync objects *)

Definition amdgpu_dri3_syncobj_free (l : loc) : D unit :=
  s ← load w_syncobjs l;
  _ ← mwhen (owns_handle s && negb (syncobj_handle s =? 0)) (call (DrmSyncobjDestroy (syncobj_handle s)));
  free w_syncobjs l.

Definition amdgpu_dri3_syncobj_has_fence (l : loc) : D bool :=
  s ← load w_syncobjs l;
  r ← call (DrmSyncobjHandleToFd (syncobj_handle s));
  match r with
  | Some fd => _ ← call (CloseFd fd); mret true
  | None => mret false
  end.

Definition amdgpu_dri3_syncobj_is_signaled (l : loc) : D bool :=
  s ← load w_syncobjs l;
  r ← call (DrmSyncobjWait (syncobj_handle s));
  if r.1 =? 0 then mret true
  else mret ((r.1 =? -1) && ((r.2 =? ENOENT) || (r.2 =? EINVAL))).

Definition amdgpu_dri3_syncobj_export_fence (l : loc) : D Z :=
  s ← load w_syncobjs l;
  r ← call (DrmSyncobjHandleToFd (syncobj_handle s));
  mret match r with Some fd => fd | None => -1 end.

Definition amdgpu_dri3_syncobj_import_fence (l : loc) (fd : Z) : D unit :=
  s ← load w_syncobjs l;
  _ ← call (DrmSyncobjReset (syncobj_handle s));
  _ ← call (DrmSyncobjFdToHandle (syncobj_handle s) fd);
  mret tt.

Definition amdgpu_dri3_syncobj_signal (l : loc) : D unit :=
  s ← load w_syncobjs l;
  call (DrmSyncobjSignal (syncobj_handle s)).

Definition amdgpu_dri3_import_syncobj (fd : Z) : D (option loc) :=
  r ← call DrmSyncobjCreate;
  match r with
  | None => mret None
  | Some handle =>
      ret ← (if 0 <=? fd then call (DrmSyncobjFdToHandle handle fd) else mret 0);
      if negb (ret =? 0) then _ ← call (DrmSyncobjDestroy handle); mret None
      else
        ok ← call (Calloc "amdgpu_dri3_syncobj");
        if negb ok then _ ← call (DrmSyncobjDestroy handle); mret None
        else l ← new w_syncobjs (Syncobj handle true); mret (Some l)
  end.

(** ** Opening the device; the result is an error code or the descriptor *)

Definition open_card_node : D (Z + Z) :=
  fd ← call (OpenNode false);
  if fd <? 0 then mret (inl BadAlloc)
  else
    m ← call (DrmGetMagic fd);
    match m with
    | inl errno =>
        if errno =? EACCES then mret (inr fd)
        else _ ← call (CloseFd fd); mret (inl BadMatch)
    | inr magic =>
        r ← call (DrmAuthMagic magic);
        if r <? 0 then _ ← call (CloseFd fd); mret (inl BadMatch) else mret (inr fd)
    end.

Definition open_render_node : D (Z + Z) :=
  fd ← call (OpenNode true);
  if fd <? 0 then mret (inl BadAlloc) else mret (inr fd).

Definition amdgpu_dri3_open : D (Z + Z) :=
  node ← gets (fun w => render_node (w_dri w));
  r ← (if node : bool then open_render_node else mret (inl BadAlloc));
  match r with
  | inr fd => mret (inr fd)
  | inl _ => open_card_node
  end.

(** ** Pixmaps from descriptors *)

(** The driver's private data and the usage of a pixmap made by glamor, or the
    pixmap is given back. *)
Definition adopt_pixmap (pix : loc) : D (option loc) :=
  ok ← call (Calloc "amdgpu_pixmap");
  if negb ok then _ ← dixDestroyPixmap pix; mret None
  else
    _ ← set_priv pix (Some priv0);
    _ ← update w_pixmaps pix (setf usage_hint (fun u => Z.lor u AMDGPU_CREATE_PIXMAP_DRI2));
    mret (Some pix).

Definition set_shared_backing (scrn pix : loc) (fd : Z) : D bool :=
  info ← load w_scrns scrn;
  if use_glamor info then amdgpu_glamor_set_shared_pixmap_backing pix fd
  else f ← some_or NullDeref server_set_backing; f pix fd.

Definition header_ok (pix : loc) (w h dep bpp kind : Z) : D bool :=
  r ← call (ModifyPixmapHeader pix w h dep bpp kind 0);
  _ ← update w_pixmaps pix (fun p =>
        p <| pix_width := nh_width r |> <| pix_height := nh_height r |>
          <| pix_depth := nh_depth r |> <| pix_bpp := nh_bpp r |>
          <| devKind := nh_devKind r |> <| devPrivate_ptr := nh_ptr r |>);
  mret (nh_ok r).

(** The part both functions share: one plane, without glamor's import. *)
Definition import_single (scrn : loc) (fd width height stride dep bpp : Z) : D (option loc) :=
  if dep <? 8 then mret None
  else if negb ((bpp =? 8) || (bpp =? 16) || (bpp =? 32)) then mret None
  else
    r ← screen_CreatePixmap scrn 0 0 dep AMDGPU_CREATE_PIXMAP_DRI2;
    match r with
    | None => mret None
    | Some pix =>
        ok ← header_ok pix width height 0 bpp stride;
        ok ← (if ok : bool then set_shared_backing scrn pix fd else mret false);
        if ok : bool then mret (Some pix)
        else _ ← fbDestroyPixmap pix; mret None
    end.

Definition amdgpu_dri3_pixmap_from_fd (scrn : loc) (fd width height stride dep bpp : Z) : D (option loc) :=
  info ← load w_scrns scrn;
  pixmap ← (if use_glamor info then
              r ← call (GlamorPixmapFromFd fd width height stride dep bpp);
              new_pixmap_from r scrn width height dep 0
            else mret None);
  match pixmap with
  | Some pix => adopt_pixmap pix
  | None => import_single scrn fd width height stride dep bpp
  end.

(** The import through gbm: several planes with a modifier, or one without. *)
Definition gbm_import (width height format : Z) (fds strides offsets : list Z) (modifier : Z) : D (option Z) :=
  let num_fds := Z.of_nat (length fds) in
  if negb (modifier =? DRM_FORMAT_MOD_INVALID) && (num_fds >? 1) then
    if num_fds >? GBM_MAX_PLANES then raise OutOfBounds
    else call (GbmBoImportModifier width height format fds strides offsets modifier)
  else
    match fds with
    | [fd] =>
        stride ← some_or OutOfBounds (head strides);
        call (GbmBoImport fd width height stride format GBM_BO_USE_RENDERING)
    | _ => mret None
    end.

Definition amdgpu_dri3_pixmap_from_fds (scrn : loc) (fds : list Z) (width height : Z) (strides offsets : list Z)
    (dep bpp modifier : Z) : D (option loc) :=
  info ← load w_scrns scrn;
  gbm ← (if use_glamor info then call GlamorEglGetGbmDevice else mret false);
  if gbm : bool then
    r ← screen_CreatePixmap scrn 0 0 dep 0;
    match r with
    | None => mret None
    | Some pix =>
        let error : D (option loc) := _ ← dixDestroyPixmap pix; mret None in
        match gbm_format_from_depth dep with
        | None => error
        | Some format =>
            bo ← gbm_import width height format fds strides offsets modifier;
            match bo with
            | None => error
            | Some bo =>
                stride ← some_or OutOfBounds (head strides);
                _ ← modify_pixmap_header pix width height 0 0 stride 0;
                ok ← call (GlamorTexturedFromGbm pix bo);
                _ ← call (GbmBoDestroy bo);
                if ok : bool then adopt_pixmap pix else error
            end
        end
    end
  else
    match fds with
    | [fd] => stride ← some_or OutOfBounds (head strides); import_single scrn fd width height stride dep bpp
    | _ => mret None
    end.

(** ** Descriptors from pixmaps *)

(** The descriptor with [*stride] and [*size], or a negative result.
    [amdgpu_bo_query_info] and [amdgpu_bo_export] get the handle of the buffer
    whatever its kind. *)
Definition amdgpu_dri3_fd_from_pixmap (scrn pix : loc) : D (Z + Z * Z * Z) :=
  info ← load w_scrns scrn;
  if use_glamor info then
    r ← call (GlamorFdStride pix);
    let '(ret, stride, size) := r in
    if 0 <=? ret then _ ← amdgpu_glamor_flush scrn; mret (inr (ret, stride, size))
    else mret (inl ret)
  else
    bo ← amdgpu_get_pixmap_bo pix;
    match bo with
    | None => mret (inl (-1))
    | Some bo =>
        p ← load w_pixmaps pix;
        if devKind p >? 2 ^ 16 - 1 then mret (inl (-1))
        else
          b ← load w_bos bo;
          q ← call (AmdgpuBoQueryInfo (bo_handle b));
          match q with
          | None => mret (inl (-1))
          | Some (alloc_size, _) =>
              r ← call (AmdgpuBoExportDmaBuf (bo_handle b));
              mret match r with Some fd => inr (fd, u16 (devKind p), u32 alloc_size) | None => inl (-1) end
          end
    end.

(** The descriptor, its stride and modifier; [None] is -1. *)
Definition amdgpu_dri3_fds_from_pixmap (scrn pix : loc) : D (option (Z * Z * Z)) :=
  info ← load w_scrns scrn;
  if use_glamor info then
    r ← call (GlamorFdStride pix);
    let '(ret, stride, _) := r in
    if ret <? 0 then mret None
    else
      _ ← amdgpu_glamor_flush scrn;
      mret (Some (ret, stride, DRM_FORMAT_MOD_INVALID))
  else
    bo ← amdgpu_get_pixmap_bo pix;
    match bo with
    | None => mret None
    | Some bo =>
        p ← load w_pixmaps pix;
        b ← load w_bos bo;
        q ← call (AmdgpuBoQueryInfo (bo_handle b));
        match q with
        | None => mret None
        | Some (_, tiling_info) =>
            r ← call (AmdgpuBoExportDmaBuf (bo_handle b));
            match r with
            | None => mret None
            | Some fd =>
                let legacy := amdgpu_tiling_info_to_modifier gfx12 tiling_info (family info) in
                m ← (if is_gbm b then
                       g ← call (GbmBoGetModifier (bo_handle b));
                       mret (if negb (g =? DRM_FORMAT_MOD_INVALID) then g else legacy)
                     else mret legacy);
                mret (Some (fd, u32 (devKind p), m))
            end
        end
    end.

Definition amdgpu_dri3_get_formats : list Z := formats_arr.

(** [None]: the copy could not be allocated. *)
Definition amdgpu_dri3_get_modifiers (scrn : loc) : D (option (list Z)) :=
  info ← load w_scrns scrn;
  ok ← call (Calloc "modifiers");
  mret (if ok : bool then Some (screen_modifiers gfx12 (family info)) else None).

Definition amdgpu_dri3_get_drawable_modifiers (draw : Z) : D (option (list Z)) :=
  d ← load_drawable draw;
  info ← load w_scrns (draw_scrn d);
  ok ← call (Calloc "modifiers");
  mret (if ok : bool then Some (drawable_modifiers gfx12 (family info)) else None).

(** [node] is the result of [drmGetRenderDeviceNameFromFd], [ok] that of the
    server's [dri3_screen_init]. *)
Definition amdgpu_dri3_screen_init (node ok : bool) : D bool :=
  _ ← modify (setf w_dri (setf render_node (fun _ => node)));
  mret ok.

(** ** Sharing a pixmap with another GPU: amdgpu_glamor.c *)

Definition is_linear (info : scrn_info) (tiling_info : Z) : bool :=
  if family info >=? AMDGPU_FAMILY_GC_12_0_0 then
    if gfx12 then tiling_gfx12_swizzle_mode tiling_info =? 0 else false
  else if family info >=? AMDGPU_FAMILY_AI then tiling_swizzle_mode tiling_info =? 0
  else tiling_array_mode tiling_info =? 1.

Definition amdgpu_glamor_share_pixmap_backing (pix : loc) : D (option Z) :=
  p ← load w_pixmaps pix;
  info ← load w_scrns (pix_scrn p);
  tiling_info ← amdgpu_pixmap_get_tiling_info pix;
  ok ← (if is_linear info tiling_info then mret true
        else if bool_decide (screen_pixmap info = pix) then mret false
        else
          r ← screen_CreatePixmap (pix_scrn p) (pix_width p) (pix_height p) (pix_depth p) CREATE_PIXMAP_USAGE_SHARED;
          match r with
          | None => mret false
          | Some linear => _ ← amdgpu_glamor_set_pixmap_bo (pix_depth p) pix linear; mret true
          end);
  if negb ok then mret None
  else
    fd ← call (GlamorFdFromPixmap pix);
    mret (if fd <? 0 then None else Some fd).
End Code.

(** ** Exported and advertised modifiers *)

Lemma match_swizzle {A} (x : Z) (a b c : A) :
  match x with 9 => a | 10 => b | _ => c end = if x =? 9 then a else if x =? 10 then b else c.
Proof. destruct x as [|p|p]; try done. do 4 (destruct p; try done). Qed.

Lemma match_gfx12 {A} (x : Z) (a b c d e : A) :
  match x with 1 => a | 2 => b | 3 => c | 4 => d | _ => e end =
  if x =? 1 then a else if x =? 2 then b else if x =? 3 then c else if x =? 4 then d else e.
Proof. destruct x as [|p|p]; try done. do 3 (destruct p; try done). Qed.

(** What the exporting side can produce. *)
Lemma modifier_cases gfx12 t family :
  let m := amdgpu_tiling_info_to_modifier gfx12 t family in
  m = DRM_FORMAT_MOD_INVALID \/
  (AMDGPU_FAMILY_GC_12_0_0 <= family /\ gfx12 = true /\ 1 <= tiling_gfx12_swizzle_mode t <= 4 /\
   m = Z.lor (Z.lor AMD_FMT_MOD (set_tile_version AMD_FMT_MOD_TILE_VER_GFX12)) (set_tile (tiling_gfx12_swizzle_mode t))) \/
  (AMDGPU_FAMILY_AI <= family < AMDGPU_FAMILY_GC_12_0_0 /\ (tiling_swizzle_mode t = 9 \/ tiling_swizzle_mode t = 10) /\
   m = Z.lor (Z.lor AMD_FMT_MOD (set_tile_version (tile_version family))) (set_tile (tiling_swizzle_mode t))).
Proof.
  cbv zeta. unfold amdgpu_tiling_info_to_modifier, gfx12_modifier. rewrite match_swizzle, match_gfx12.
  destruct (t =? 0); [by left |]. destruct (Z.geb_spec family AMDGPU_FAMILY_GC_12_0_0).
  - destruct gfx12; [| by left]. generalize (tiling_gfx12_swizzle_mode t). intros s.
    assert (Hok : forall k, s = k -> 1 <= k <= 4 -> AMDGPU_FAMILY_GC_12_0_0 <= family /\ true = true /\ 1 <= s <= 4 /\
      Z.lor (Z.lor AMD_FMT_MOD (set_tile_version AMD_FMT_MOD_TILE_VER_GFX12)) (set_tile k) =
      Z.lor (Z.lor AMD_FMT_MOD (set_tile_version AMD_FMT_MOD_TILE_VER_GFX12)) (set_tile s)) by (intros k -> ?; auto).
    destruct (Z.eqb_spec s 1); [right; left; apply Hok; [done | split; vm_compute; discriminate] |].
    destruct (Z.eqb_spec s 2); [right; left; apply Hok; [done | split; vm_compute; discriminate] |].
    destruct (Z.eqb_spec s 3); [right; left; apply Hok; [done | split; vm_compute; discriminate] |].
    destruct (Z.eqb_spec s 4); [right; left; apply Hok; [done | split; vm_compute; discriminate] |]. by left.
  - destruct (Z.geb_spec family AMDGPU_FAMILY_AI); [| by left]. generalize (tiling_swizzle_mode t). intros s.
    destruct (Z.eqb_spec s 9) as [->|?]; [right; right; auto |].
    destruct (Z.eqb_spec s 10) as [->|?]; [right; right; auto |]. by left.
Qed.

Lemma tile_version_cases family : tile_version family = 1 \/ tile_version family = 2 \/ tile_version family = 4.
Proof. unfold tile_version. repeat case_match; auto. Qed.

(** A modifier that is exported describes the buffer: its tile version is that
    of the GPU and its tile mode the swizzle mode of the buffer. *)
Theorem modifier_describes_tiling gfx12 t family :
  family < AMDGPU_FAMILY_GC_12_0_0 -> amdgpu_tiling_info_to_modifier gfx12 t family <> DRM_FORMAT_MOD_INVALID ->
  get_tile_version (amdgpu_tiling_info_to_modifier gfx12 t family) = tile_version family /\
  get_tile (amdgpu_tiling_info_to_modifier gfx12 t family) = tiling_swizzle_mode t.
Proof.
  intros Hf Hv. destruct (modifier_cases gfx12 t family) as [?|[(? & _)|(_ & Hs & ->)]]; [done | lia |].
  destruct Hs as [-> | ->], (tile_version_cases family) as [-> | [-> | ->]]; done.
Qed.

Lemma modifier_describes_tiling_witness :
  get_tile_version (amdgpu_tiling_info_to_modifier false 9 AMDGPU_FAMILY_AI) = AMD_FMT_MOD_TILE_VER_GFX9 /\
  get_tile (amdgpu_tiling_info_to_modifier false 9 AMDGPU_FAMILY_AI) = AMD_FMT_MOD_TILE_GFX9_64K_S.
Proof. apply (modifier_describes_tiling false 9 AMDGPU_FAMILY_AI); vm_compute; congruence. Defined.

(** No tiled modifier the driver exports is among those it advertises: the
    tables are made without the shifts that place the tile mode in its field, so the
    modifiers in them mean something else (a tile mode of 0). *)
Theorem exported_not_advertised gfx12 t family :
  amdgpu_tiling_info_to_modifier gfx12 t family <> DRM_FORMAT_MOD_INVALID ->
  (amdgpu_tiling_info_to_modifier gfx12 t family ∉ screen_modifiers gfx12 family) /\
  Forall (fun m => m = DRM_FORMAT_MOD_INVALID \/ get_tile m = 0) (screen_modifiers gfx12 family).
Proof.
  intros Hv. assert (Hall : Forall (fun m => m = DRM_FORMAT_MOD_INVALID \/ get_tile m = 0) (screen_modifiers gfx12 family)).
  { unfold screen_modifiers. repeat case_match; repeat (apply Forall_cons; split; [(by left) || (by right) |]); apply Forall_nil_2. }
  split; [| done]. intros Hin. rewrite Forall_forall in Hall. destruct (Hall _ Hin) as [?|Ht]; [done |].
  destruct (modifier_cases gfx12 t family) as [?|[(_ & _ & Hs & Hm)|(_ & Hs & Hm)]]; [done | |]; rewrite Hm in Ht.
  - assert (Hc : tiling_gfx12_swizzle_mode t = 1 \/ tiling_gfx12_swizzle_mode t = 2 \/
      tiling_gfx12_swizzle_mode t = 3 \/ tiling_gfx12_swizzle_mode t = 4) by lia.
    by destruct Hc as [He|[He|[He|He]]]; rewrite He in Ht.
  - by destruct Hs as [He|He], (tile_version_cases family) as [Hf|[Hf|Hf]]; rewrite He, Hf in Ht.
Qed.

Lemma exported_not_advertised_witness :
  amdgpu_tiling_info_to_modifier false 9 AMDGPU_FAMILY_NV ∉ screen_modifiers false AMDGPU_FAMILY_NV.
Proof. apply exported_not_advertised. vm_compute. congruence. Defined.

(** ** The life of a sync object *)

Definition destroys (e : ext) : bool := match e with DrmSyncobjDestroy _ => true | _ => false end.
Definition closes (e : ext) : bool := match e with CloseFd _ => true | _ => false end.

Lemma filter_keep (P : ext -> bool) e es : P e = true -> filter P (e :: es) = e :: filter P es.
Proof. intros He. apply filter_cons_True. by rewrite He. Qed.
Lemma filter_skip (P : ext -> bool) e es : P e = false -> filter P (e :: es) = filter P es.
Proof. intros He. apply filter_cons_False. rewrite He. by intros []. Qed.

(** C40. A sync object that is imported and freed leaves nothing behind: the kernel
    object [amdgpu_dri3_import_syncobj] made is destroyed exactly once, whether the
    import fails half-way or the object is freed later, and no other is. *)
Theorem syncobj_lifecycle `{env : Env} fd w :
  w_syncobjs w !! w_next w = None -> reply (w_trace w) DrmSyncobjCreate <> Some 0 ->
  wp (r ← amdgpu_dri3_import_syncobj fd; match r with Some l => amdgpu_dri3_syncobj_free l | None => mret tt end)
     (fun _ w' => w_syncobjs w' = w_syncobjs w /\
        exists es, w_trace w' = es ++ w_trace w /\
          filter destroys es = match reply (w_trace w) DrmSyncobjCreate with
                               | Some h => [DrmSyncobjDestroy h] | None => [] end) w.
Proof.
  intros Hfresh Hz. apply wp_bind, wp_bind. wp_ext. destruct (reply _ _) as [h|]; cycle 1.
  { apply wp_ret, wp_ret. split; [done |]. by exists [DrmSyncobjCreate]. }
  assert (Hh : (h =? 0) = false) by (apply Z.eqb_neq; congruence).
  set (w1 := setf w_trace _ w). apply wp_bind.
  eapply (wp_mono _ (fun _ w2 => w_syncobjs w2 = w_syncobjs w /\ w_next w2 = w_next w /\
    exists es, w_trace w2 = es ++ w_trace w /\ filter destroys es = [])).
  { destruct (0 <=? fd); [wp_ext | apply wp_ret]; (split_and!; [done | done |]).
    - by exists [DrmSyncobjFdToHandle h fd; DrmSyncobjCreate].
    - by exists [DrmSyncobjCreate]. }
  intros ret w2 (Hs & Hn & es & Ht & Hd).
  assert (Hfail : wp (_ ← call (DrmSyncobjDestroy h); mret (None : option loc)) (fun r w' => r = None /\ w_syncobjs w' = w_syncobjs w /\
    exists es, w_trace w' = es ++ w_trace w /\ filter destroys es = [DrmSyncobjDestroy h]) w2).
  { apply wp_bind. wp_ext. apply wp_ret. split_and!; [done | exact Hs |].
    exists (DrmSyncobjDestroy h :: es). split; [cbn; by rewrite Ht |]. by rewrite filter_keep, Hd. }
  destruct (negb (ret =? 0)).
  { eapply wp_mono; [exact Hfail |]. intros r w3 (-> & H3 & H4). by apply wp_ret. }
  apply wp_bind. wp_ext. destruct (negb _).
  { apply wp_bind. wp_ext. apply wp_ret, wp_ret. split; [exact Hs |].
    exists (DrmSyncobjDestroy h :: Calloc "amdgpu_dri3_syncobj" :: es). split; [cbn; by rewrite Ht |].
    by rewrite filter_keep, filter_skip, Hd. }
  apply wp_bind, wp_new, wp_ret. set (w3 := setf w_syncobjs _ _).
  assert (H3 : w_syncobjs w3 = <[w_next w := Syncobj h true]> (w_syncobjs w)).
  { change (<[w_next w2 := Syncobj h true]> (w_syncobjs w2) = <[w_next w := Syncobj h true]> (w_syncobjs w)).
    by rewrite Hs, Hn. }
  change (w_next (setf w_trace _ w2)) with (w_next w2). rewrite Hn.
  apply wp_bind. eapply wp_load; [rewrite H3; apply lookup_insert_eq |]. cbn [owns_handle syncobj_handle].
  rewrite Hh. cbn [andb negb mwhen]. apply wp_bind. wp_ext.
  assert (Hl : w_syncobjs w3 !! w_next w = Some (Syncobj h true)) by (rewrite H3; apply lookup_insert_eq).
  eapply wp_free; [exact Hl |].
  split.
  - change (delete (w_next w) (w_syncobjs w3) = w_syncobjs w). rewrite H3. by apply delete_insert_id.
  - exists (DrmSyncobjDestroy h :: Calloc "amdgpu_dri3_syncobj" :: es). split; [cbn; by rewrite Ht |].
    by rewrite filter_keep, filter_skip, Hd.
Qed.

Lemma syncobj_lifecycle_witness :
  let m := r ← @amdgpu_dri3_import_syncobj Sample.env 5;
           match r with Some l => @amdgpu_dri3_syncobj_free Sample.env l | None => mret tt end in
  wp m (fun _ w' => w_syncobjs w' = ∅ /\ exists es, w_trace w' = es ++ [] /\ filter destroys es = [DrmSyncobjDestroy 35]) Sample.w.
Proof. apply (@syncobj_lifecycle Sample.env 5 Sample.w); [reflexivity | cbn; congruence]. Defined.

(** [amdgpu_dri3_open] keeps no descriptor: one that cannot be authenticated is
    closed, the one that is handed out is not, and nothing else is closed. *)
Theorem dri3_open_closes `{env : Env} w :
  wp amdgpu_dri3_open (fun r w' => exists es, w_trace w' = es ++ w_trace w /\
      match r with
      | inr fd => filter closes es = [] /\ exists render, OpenNode render ∈ es
      | inl _ => filter closes es = [] \/ exists fd, filter closes es = [CloseFd fd]
      end) w.
Proof.
  assert (Hcard : forall w1 es0, w_trace w1 = es0 ++ w_trace w -> filter closes es0 = [] ->
    wp open_card_node (fun r w' => exists es, w_trace w' = es ++ w_trace w /\
      match r with
      | inr fd => filter closes es = [] /\ exists render, OpenNode render ∈ es
      | inl _ => filter closes es = [] \/ exists fd, filter closes es = [CloseFd fd]
      end) w1).
  { intros w1 es0 Ht Hc. apply wp_bind. wp_ext. set (fd := reply _ _). destruct (fd <? 0).
    { apply wp_ret. exists (OpenNode false :: es0). split; [cbn; by rewrite Ht |]. left. by rewrite filter_skip. }
    apply wp_bind. wp_ext. destruct (reply _ (DrmGetMagic fd)) as [errno|magic].
    - destruct (errno =? EACCES).
      + apply wp_ret. exists (DrmGetMagic fd :: OpenNode false :: es0). split; [cbn; by rewrite Ht |].
        split; [by rewrite !filter_skip |]. exists false. set_solver.
      + apply wp_bind. wp_ext. apply wp_ret. exists (CloseFd fd :: DrmGetMagic fd :: OpenNode false :: es0).
        split; [cbn; by rewrite Ht |]. right. exists fd. by rewrite filter_keep, !filter_skip, Hc.
    - apply wp_bind. wp_ext. destruct (_ <? 0).
      + apply wp_bind. wp_ext. apply wp_ret.
        exists (CloseFd fd :: DrmAuthMagic magic :: DrmGetMagic fd :: OpenNode false :: es0).
        split; [cbn; by rewrite Ht |]. right. exists fd. by rewrite filter_keep, !filter_skip, Hc.
      + apply wp_ret. exists (DrmAuthMagic magic :: DrmGetMagic fd :: OpenNode false :: es0).
        split; [cbn; by rewrite Ht |]. split; [by rewrite !filter_skip |]. exists false. set_solver. }
  apply wp_bind, wp_gets. destruct (render_node (w_dri w)); [| apply wp_bind, wp_ret; by apply (Hcard w [])].
  apply wp_bind, wp_bind. wp_ext. destruct (_ <? 0).
  - apply wp_ret. by apply (Hcard _ [OpenNode true]).
  - apply wp_ret, wp_ret. exists [OpenNode true]. split_and!; [done | done |]. exists true. set_solver.
Qed.
