(* ===== verification/Wrappers.v ===== *)
(** * Drawing with the CPU and the GPU: src/src/amdgpu_glamor_wrappers.c

    With a shadow primary screen the driver wraps the drawing operations of the
    server: some run on the GPU through glamor, the others on the CPU through fb.
    Two counters per pixmap and two per screen say whether the GPU may still be
    working on a pixmap; before the CPU touches it, the GPU's work is submitted and
    waited for. *)
From stdpp Require Import strings.
From S2P Require Import Prelude Modes Region World Fb DriState Queue Bo PixmapFb Crtc Keeps Scanout.

(** The part of a GC the wrappers read; [gc_tile] is the tile of the fill style
    [FillTiled]. *)
Record gc := GC { gc_stipple : option loc; gc_tile : option loc; gc_lineWidth : Z }.

(** A picture: the pixmap behind its drawable (none for a gradient or solid
    picture), whether the drawable is that pixmap, and the one of its alpha map. *)
Record picture := Picture { pict_pixmap : option loc; pict_is_pixmap : bool; pict_alpha : option loc }.

Definition amdgpu_glamor_gpu_pending (gpu_synced gpu_access : Z) : bool := s64 (u64 (gpu_access - gpu_synced)) >? 0.

Section Code.
Context `{env : Env}.

(** ** Access by the CPU *)

Definition set_synced (scrn : loc) : D unit :=
  update w_scrns scrn (fun i => i <| gpu_synced := gpu_flushed i |>).

Definition amdgpu_glamor_prepare_access_cpu (scrn pix : loc) (priv : amdgpu_pixmap) (need_sync : bool) : D bool :=
  _ ← mwhen need_sync (amdgpu_glamor_flush scrn);
  p ← load w_pixmaps pix;
  if devPrivate_ptr p =? 0 then
    bo ← deref (priv_bo priv);
    ret ← amdgpu_bo_map bo;
    if negb (ret =? 0) then mret false
    else
      b ← load w_bos bo;
      _ ← update w_pixmaps pix (setf devPrivate_ptr (fun _ => cpu_ptr b));
      _ ← set_synced scrn;
      mret true
  else if need_sync then
    _ ← call (SavedGetImage pix);
    _ ← set_synced scrn;
    mret true
  else mret true.

Definition amdgpu_glamor_prepare_access_cpu_ro (scrn pix : loc) : D bool :=
  priv ← get_priv pix;
  match priv with
  | None => mret true
  | Some pr =>
      info ← load w_scrns scrn;
      amdgpu_glamor_prepare_access_cpu scrn pix pr (amdgpu_glamor_gpu_pending (gpu_synced info) (gpu_write pr))
  end.

Definition amdgpu_glamor_prepare_access_cpu_rw (scrn pix : loc) : D bool :=
  priv ← get_priv pix;
  match priv with
  | None => mret true
  | Some pr =>
      info ← load w_scrns scrn;
      amdgpu_glamor_prepare_access_cpu scrn pix pr
        (amdgpu_glamor_gpu_pending (gpu_synced info) (gpu_write pr) ||
         amdgpu_glamor_gpu_pending (gpu_synced info) (gpu_read pr))
  end.

(** ** Access by the GPU *)

Definition amdgpu_glamor_use_gpu (p : pixmap) : bool :=
  has_bit (usage_hint p) (Z.lor AMDGPU_CREATE_PIXMAP_SCANOUT AMDGPU_CREATE_PIXMAP_DRI2) ||
  match pix_priv p with Some pr => bool_decide (priv_bo pr = None) | None => false end.

Definition amdgpu_glamor_prepare_access_gpu (p : pixmap) : bool := bool_decide (is_Some (pix_priv p)).

Definition amdgpu_glamor_finish_access_gpu_ro (scrn pix : loc) : D unit :=
  info ← load w_scrns scrn;
  priv ← get_priv pix;
  pr ← some_or NullDeref priv;
  set_priv pix (Some (pr <| gpu_read := u64 (gpu_flushed info + 1) |>)).

Definition amdgpu_glamor_finish_access_gpu_rw (scrn pix : loc) : D unit :=
  info ← load w_scrns scrn;
  priv ← get_priv pix;
  pr ← some_or NullDeref priv;
  set_priv pix (Some (pr <| gpu_read := u64 (gpu_flushed info + 1) |> <| gpu_write := u64 (gpu_flushed info + 1) |>)).

(** ** GCs and pictures *)

Definition gc_reads (g : gc) : list loc := option_list (gc_stipple g) ++ option_list (gc_tile g).

Definition prepare_opt (prepare : loc -> D bool) (o : option loc) : D bool :=
  match o with Some pix => prepare pix | None => mret true end.

Definition amdgpu_glamor_prepare_access_gc (scrn : loc) (g : gc) : D bool :=
  ok ← prepare_opt (amdgpu_glamor_prepare_access_cpu_ro scrn) (gc_stipple g);
  if negb ok then mret false
  else prepare_opt (amdgpu_glamor_prepare_access_cpu_ro scrn) (gc_tile g).

Definition pict_reads (p : picture) : list loc := option_list (pict_pixmap p) ++ option_list (pict_alpha p).

Definition amdgpu_glamor_picture_prepare_access_cpu_ro (scrn : loc) (p : picture) : D bool :=
  match pict_pixmap p with
  | None => mret true
  | Some pix =>
      ok ← amdgpu_glamor_prepare_access_cpu_ro scrn pix;
      if negb ok then mret false else prepare_opt (amdgpu_glamor_prepare_access_cpu_ro scrn) (pict_alpha p)
  end.

Definition amdgpu_glamor_picture_prepare_access_cpu_rw (scrn : loc) (p : picture) : D bool :=
  pix ← some_or NullDeref (pict_pixmap p);
  ok ← amdgpu_glamor_prepare_access_cpu_rw scrn pix;
  if negb ok then mret false else prepare_opt (amdgpu_glamor_prepare_access_cpu_rw scrn) (pict_alpha p).

(** ** GC operations *)

(** An operation of fb that draws to a pixmap with a GC, or without its pixmaps. *)
Definition fb_with_gc (what : string) (scrn pix : loc) (g : gc) : D unit :=
  ok ← amdgpu_glamor_prepare_access_cpu_rw scrn pix;
  mwhen ok
    (ok ← amdgpu_glamor_prepare_access_gc scrn g;
     mwhen ok (call (FbDraw what pix (gc_reads g)))).
Definition fb_without_gc (what : string) (scrn pix : loc) : D unit :=
  ok ← amdgpu_glamor_prepare_access_cpu_rw scrn pix;
  mwhen ok (call (FbDraw what pix [])).
(** One that reads a pixmap. *)
Definition fb_reading (what : string) (scrn pix : loc) : D unit :=
  ok ← amdgpu_glamor_prepare_access_cpu_ro scrn pix;
  mwhen ok (call (FbRead what pix)).

Definition amdgpu_glamor_fill_spans (scrn pix : loc) (g : gc) : D unit := fb_with_gc "FillSpans" scrn pix g.
Definition amdgpu_glamor_set_spans (scrn pix : loc) : D unit := fb_without_gc "SetSpans" scrn pix.
Definition amdgpu_glamor_put_image (scrn pix : loc) : D unit := fb_without_gc "PutImage" scrn pix.

Definition amdgpu_glamor_copy_plane (scrn src dst : loc) : D unit :=
  ok ← amdgpu_glamor_prepare_access_cpu_rw scrn dst;
  mwhen ok
    (ok ← amdgpu_glamor_prepare_access_cpu_ro scrn src;
     mwhen ok (call (FbDraw "CopyPlane" dst [src]))).

Definition amdgpu_glamor_copy_plane_nodstbo (scrn src dst : loc) : D unit :=
  ok ← amdgpu_glamor_prepare_access_cpu_ro scrn src;
  mwhen ok (call (FbDraw "CopyPlane" dst [src])).

Definition amdgpu_glamor_poly_point (scrn pix : loc) : D unit := fb_without_gc "PolyPoint" scrn pix.

(** Wide lines are drawn by other operations of the GC. *)
Definition amdgpu_glamor_poly_lines (scrn pix : loc) (g : gc) : D unit :=
  if gc_lineWidth g =? 0 then fb_with_gc "PolyLine" scrn pix g
  else call (Notify "fbPolyLine" [Zpos pix]).
Definition amdgpu_glamor_poly_segment (scrn pix : loc) (g : gc) : D unit :=
  if gc_lineWidth g =? 0 then fb_with_gc "PolySegment" scrn pix g
  else call (Notify "fbPolySegment" [Zpos pix]).

Definition amdgpu_glamor_poly_fill_rect (scrn pix : loc) (g : gc) : D unit :=
  info ← load w_scrns scrn;
  p ← load w_pixmaps pix;
  if (force_accel info || amdgpu_glamor_use_gpu p) && amdgpu_glamor_prepare_access_gpu p then
    _ ← call (GlamorDraw "PolyFillRect" pix (gc_reads g));
    amdgpu_glamor_finish_access_gpu_rw scrn pix
  else fb_with_gc "PolyFillRect" scrn pix g.

Definition amdgpu_glamor_image_glyph_blt (scrn pix : loc) (g : gc) : D unit := fb_with_gc "ImageGlyphBlt" scrn pix g.
Definition amdgpu_glamor_poly_glyph_blt (scrn pix : loc) (g : gc) : D unit := fb_with_gc "PolyGlyphBlt" scrn pix g.

Definition amdgpu_glamor_push_pixels (scrn bitmap pix : loc) (g : gc) : D unit :=
  ok ← amdgpu_glamor_prepare_access_cpu_rw scrn pix;
  mwhen ok
    (ok ← amdgpu_glamor_prepare_access_cpu_ro scrn bitmap;
     mwhen ok
       (ok ← amdgpu_glamor_prepare_access_gc scrn g;
        mwhen ok (call (FbDraw "PushPixels" pix (bitmap :: gc_reads g))))).

Definition amdgpu_glamor_push_pixels_nodstbo (scrn bitmap pix : loc) : D unit :=
  ok ← amdgpu_glamor_prepare_access_cpu_ro scrn bitmap;
  mwhen ok (call (FbDraw "PushPixels" pix [bitmap])).

(** [same]: both drawables are the same. *)
Definition amdgpu_glamor_copy_area (scrn src dst : loc) (same : bool) : D unit :=
  s ← load w_pixmaps src;
  d ← load w_pixmaps dst;
  if (amdgpu_glamor_use_gpu d || amdgpu_glamor_use_gpu s) && amdgpu_glamor_prepare_access_gpu d &&
     (bool_decide (src = dst) || amdgpu_glamor_prepare_access_gpu s) then
    _ ← call (GlamorDraw "CopyArea" dst [src]);
    _ ← amdgpu_glamor_finish_access_gpu_rw scrn dst;
    mwhen (negb (bool_decide (src = dst))) (amdgpu_glamor_finish_access_gpu_ro scrn src)
  else
    ok ← amdgpu_glamor_prepare_access_cpu_rw scrn dst;
    mwhen ok
      (ok ← (if same then mret true else amdgpu_glamor_prepare_access_cpu_ro scrn src);
       mwhen ok (call (FbDraw "CopyArea" dst [src]))).

Definition amdgpu_glamor_copy_area_nodstbo (scrn src dst : loc) : D unit :=
  ok ← (if bool_decide (src = dst) then mret true else amdgpu_glamor_prepare_access_cpu_ro scrn src);
  mwhen ok (call (FbDraw "CopyArea" dst [src])).

(** Whether the operations for pixmaps with a buffer are chosen. *)
Definition has_priv (pix : loc) : D bool := priv ← get_priv pix; mret (bool_decide (is_Some priv)).
Definition amdgpu_glamor_validate_gc (pix : loc) (g : gc) : D bool :=
  _ ← call (Notify "glamor_validate_gc" [Zpos pix]);
  a ← has_priv pix;
  b ← match gc_stipple g with Some s => has_priv s | None => mret false end;
  c ← match gc_tile g with Some t => has_priv t | None => mret false end;
  mret (a || b || c).

(** ** Screen operations *)
Definition amdgpu_glamor_bitmap_to_region (scrn pix : loc) : D unit := fb_reading "PixmapToRegion" scrn pix.
Definition amdgpu_glamor_copy_window (scrn pix : loc) : D unit := fb_without_gc "CopyWindow" scrn pix.
Definition amdgpu_glamor_get_image (scrn pix : loc) : D unit := fb_reading "GetImage" scrn pix.
Definition amdgpu_glamor_get_spans (scrn pix : loc) : D unit := fb_reading "GetSpans" scrn pix.

(** ** Picture operations *)

(** Glamor composites pictures without alpha maps onto a scanout pixmap itself;
    [None] sends the caller to the [fallback:] label. *)
Definition composite_gpu (src : picture) (mask : option picture) (dst : picture) : D (option (loc * list loc)) :=
  let has_alpha p := bool_decide (is_Some (pict_alpha p)) in
  if has_alpha dst || has_alpha src || match mask with Some m => has_alpha m | None => false end then mret None
  else
    pix ← some_or NullDeref (pict_pixmap dst);
    p ← load w_pixmaps pix;
    if negb (pict_is_pixmap dst) || negb (usage_hint p =? AMDGPU_CREATE_PIXMAP_SCANOUT) then mret None
    else if negb (amdgpu_glamor_prepare_access_gpu p) then mret None
    else mret (Some (pix, option_list (pict_pixmap src) ++
                          match mask with Some m => option_list (pict_pixmap m) | None => [] end)).

(** A picture the GPU can read: it has no pixmap, or one of the driver. *)
Definition gpu_readable (o : option loc) : D bool :=
  match o with None => mret true | Some pix => has_priv pix end.

Definition composite_fallback (scrn : loc) (src : picture) (mask : option picture) (dst : picture) : D unit :=
  ok ← amdgpu_glamor_picture_prepare_access_cpu_rw scrn dst;
  mwhen ok
    (ok ← amdgpu_glamor_picture_prepare_access_cpu_ro scrn src;
     mwhen ok
       (ok ← match mask with None => mret true | Some m => amdgpu_glamor_picture_prepare_access_cpu_ro scrn m end;
        mwhen ok
          (pix ← some_or NullDeref (pict_pixmap dst);
           call (FbDraw "Composite" pix (option_list (pict_alpha dst) ++ pict_reads src ++
                                         match mask with Some m => pict_reads m | None => [] end))))).

Definition amdgpu_glamor_composite (scrn : loc) (src : picture) (mask : option picture) (dst : picture) : D unit :=
  t ← composite_gpu src mask dst;
  match t with
  | None => composite_fallback scrn src mask dst
  | Some (pix, reads) =>
      let mask_pixmap := m ← mask; pict_pixmap m in
      s ← gpu_readable (pict_pixmap src);
      done ← (if s : bool then
                m ← gpu_readable mask_pixmap;
                _ ← mwhen m
                      (_ ← call (GlamorDraw "Composite" pix reads);
                       match mask_pixmap with Some x => amdgpu_glamor_finish_access_gpu_ro scrn x | None => mret tt end);
                _ ← match pict_pixmap src with Some x => amdgpu_glamor_finish_access_gpu_ro scrn x | None => mret tt end;
                mret m
              else mret false);
      _ ← amdgpu_glamor_finish_access_gpu_rw scrn pix;
      if done : bool then mret tt else composite_fallback scrn src mask dst
  end.

Definition amdgpu_glamor_add_traps (scrn : loc) (p : picture) : D unit :=
  ok ← amdgpu_glamor_picture_prepare_access_cpu_rw scrn p;
  mwhen ok (pix ← some_or NullDeref (pict_pixmap p); call (FbDraw "AddTraps" pix (option_list (pict_alpha p)))).

(** [SavedGlyphs], [SavedTrapezoids] and [SavedTriangles] are the server's. *)
Definition saved_render (what : string) (scrn : loc) (src dst : picture) : D unit :=
  ok ← amdgpu_glamor_picture_prepare_access_cpu_rw scrn dst;
  mwhen ok
    (ok ← amdgpu_glamor_picture_prepare_access_cpu_ro scrn src;
     mwhen ok
       (pix ← some_or NullDeref (pict_pixmap dst);
        call (FbDraw what pix (option_list (pict_alpha dst) ++ pict_reads src)))).
Definition amdgpu_glamor_glyphs (scrn : loc) (src dst : picture) : D unit := saved_render "Glyphs" scrn src dst.
Definition amdgpu_glamor_trapezoids (scrn : loc) (src dst : picture) : D unit := saved_render "Trapezoids" scrn src dst.
Definition amdgpu_glamor_triangles (scrn : loc) (src dst : picture) : D unit := saved_render "Triangles" scrn src dst.
End Code.

(** ** None of it disturbs the queue *)
Section Keeps.
Context `{env : Env}.

Lemma wrap_flush_keeps scrn : keeps (amdgpu_glamor_flush scrn).
Proof. unfold amdgpu_glamor_flush. keeps_auto. Qed.
#[local] Hint Resolve wrap_flush_keeps : keeps.
Lemma prepare_cpu_keeps scrn pix pr sync : keeps (amdgpu_glamor_prepare_access_cpu scrn pix pr sync).
Proof. unfold amdgpu_glamor_prepare_access_cpu, set_synced. keeps_auto. Qed.
#[local] Hint Resolve prepare_cpu_keeps : keeps.
Lemma prepare_ro_keeps scrn pix : keeps (amdgpu_glamor_prepare_access_cpu_ro scrn pix).
Proof. unfold amdgpu_glamor_prepare_access_cpu_ro. keeps_auto. Qed.
Lemma prepare_rw_keeps scrn pix : keeps (amdgpu_glamor_prepare_access_cpu_rw scrn pix).
Proof. unfold amdgpu_glamor_prepare_access_cpu_rw. keeps_auto. Qed.
#[local] Hint Resolve prepare_ro_keeps prepare_rw_keeps : keeps.
Lemma finish_gpu_ro_keeps scrn pix : keeps (amdgpu_glamor_finish_access_gpu_ro scrn pix).
Proof. unfold amdgpu_glamor_finish_access_gpu_ro. keeps_auto. Qed.
Lemma finish_gpu_rw_keeps scrn pix : keeps (amdgpu_glamor_finish_access_gpu_rw scrn pix).
Proof. unfold amdgpu_glamor_finish_access_gpu_rw. keeps_auto. Qed.
#[local] Hint Resolve finish_gpu_ro_keeps finish_gpu_rw_keeps : keeps.
Lemma prepare_gc_keeps scrn g : keeps (amdgpu_glamor_prepare_access_gc scrn g).
Proof. unfold amdgpu_glamor_prepare_access_gc, prepare_opt. keeps_auto. Qed.
Lemma picture_ro_keeps scrn p : keeps (amdgpu_glamor_picture_prepare_access_cpu_ro scrn p).
Proof. unfold amdgpu_glamor_picture_prepare_access_cpu_ro, prepare_opt. keeps_auto. Qed.
Lemma picture_rw_keeps scrn p : keeps (amdgpu_glamor_picture_prepare_access_cpu_rw scrn p).
Proof. unfold amdgpu_glamor_picture_prepare_access_cpu_rw, prepare_opt. keeps_auto. Qed.
#[local] Hint Resolve prepare_gc_keeps picture_ro_keeps picture_rw_keeps : keeps.
Lemma fb_with_gc_keeps what scrn pix g : keeps (fb_with_gc what scrn pix g).
Proof. unfold fb_with_gc. keeps_auto. Qed.
Lemma fb_without_gc_keeps what scrn pix : keeps (fb_without_gc what scrn pix).
Proof. unfold fb_without_gc. keeps_auto. Qed.
Lemma fb_reading_keeps what scrn pix : keeps (fb_reading what scrn pix).
Proof. unfold fb_reading. keeps_auto. Qed.
Lemma validate_gc_keeps pix g : keeps (amdgpu_glamor_validate_gc pix g).
Proof. unfold amdgpu_glamor_validate_gc, has_priv. keeps_auto. Qed.
Lemma poly_fill_rect_keeps scrn pix g : keeps (amdgpu_glamor_poly_fill_rect scrn pix g).
Proof. pose proof fb_with_gc_keeps. unfold amdgpu_glamor_poly_fill_rect. keeps_auto. Qed.
Lemma composite_keeps scrn src mask dst : keeps (amdgpu_glamor_composite scrn src mask dst).
Proof. unfold amdgpu_glamor_composite, composite_gpu, gpu_readable, composite_fallback, has_priv. keeps_auto. Qed.
Lemma saved_render_keeps what scrn src dst : keeps (saved_render what scrn src dst).
Proof. unfold saved_render. keeps_auto. Qed.
End Keeps.
#[export] Hint Resolve prepare_ro_keeps prepare_rw_keeps finish_gpu_ro_keeps finish_gpu_rw_keeps prepare_gc_keeps picture_ro_keeps
  picture_rw_keeps fb_with_gc_keeps fb_without_gc_keeps fb_reading_keeps validate_gc_keeps poly_fill_rect_keeps composite_keeps
  saved_render_keeps : keeps.
