(* ===== verification/Coherence.v ===== *)
(** * The CPU never sees what the GPU is working on

    The counters [gpu_read], [gpu_write], [gpu_flushed] and [gpu_synced] of
    amdgpu_glamor_wrappers.c stand for the state of the GPU.  [gpu] is that state
    itself, computed from the calls the driver made: which pixmaps are accessed by
    commands that glamor has queued, and by commands that were sent to the GPU and
    may still run.  A hazard is an access of the CPU to a pixmap such a command
    writes, or a write of the CPU to one such a command reads.

    The model of the GPU: commands run in the order they are sent, so that reading
    back a pixel ([SavedGetImage]) waits for all that were sent.  [map_waits] says
    whether mapping a buffer waits for them too. *)
From stdpp Require Import strings.
From S2P Require Import Prelude Modes Region World Fb DriState Queue Bo PixmapFb Crtc Keeps Scanout Wrappers.

(** [Rd] is any access, [Wr] a write, as in the counters. *)
Inductive access : Type := Rd | Wr.
#[export] Instance access_eq_dec : EqDecision access.
Proof. solve_decision. Defined.

Record gpu := Gpu { queued : access -> gset loc; sent : access -> gset loc; hazard : bool }.

Definition gpu_idle : gpu := Gpu (fun _ => ∅) (fun _ => ∅) false.
Definition busy (g : gpu) (a : access) : gset loc := queued g a ∪ sent g a.
Definition touched (dst : loc) (reads : list loc) (a : access) : gset loc :=
  match a with Wr => {[dst]} | Rd => {[dst]} ∪ list_to_set reads end.

Definition gpu_waits (g : gpu) : gpu := Gpu (queued g) (fun _ => ∅) (hazard g).

Definition gpu_step (map_waits : bool) (e : ext) (g : gpu) : gpu :=
  match e with
  | GlamorDraw _ dst reads => Gpu (fun a => touched dst reads a ∪ queued g a) (sent g) (hazard g)
  | Notify what _ =>
      if bool_decide (what = "glamor_block_handler"%string) then Gpu (fun _ => ∅) (busy g) (hazard g) else g
  | SavedGetImage _ => gpu_waits g
  | Mmap _ _ | AmdgpuBoCpuMap _ => if map_waits then gpu_waits g else g
  | FbDraw _ dst reads =>
      Gpu (queued g) (sent g)
          (hazard g || bool_decide (dst ∈ busy g Rd) || bool_decide (Exists (fun x => x ∈ busy g Wr) reads))
  | FbRead _ pix => Gpu (queued g) (sent g) (hazard g || bool_decide (pix ∈ busy g Wr))
  | _ => g
  end.

Definition gpu_of (map_waits : bool) (trace : list ext) : gpu := foldr (gpu_step map_waits) gpu_idle trace.

Definition counter (a : access) (pr : amdgpu_pixmap) : Z :=
  match a with Rd => gpu_read pr | Wr => gpu_write pr end.
Definition priv_of (pm : gmap loc pixmap) (pix : loc) : option amdgpu_pixmap := pm !! pix ≫= pix_priv.

(** ** The invariant

    [X a pix]: an access that was made but is not recorded in the counters yet. *)
Definition unrecorded : Type := access -> loc -> Prop.
Definition nothing : unrecorded := fun _ _ => False.

Record coherent (map_waits : bool) (X : unrecorded) (info : scrn_info) (pm : gmap loc pixmap) (tr : list ext) : Prop := {
  coh_glamor : use_glamor info = true;
  coh_synced : 0 <= gpu_synced info <= gpu_flushed info;
  coh_flushed : gpu_flushed info <= Z.of_nat (length tr);
  coh_counter pix pr a : priv_of pm pix = Some pr -> 0 <= counter a pr <= gpu_flushed info + 1;
  coh_queued pix a : pix ∈ queued (gpu_of map_waits tr) a ->
    X a pix \/ exists pr, priv_of pm pix = Some pr /\ counter a pr = gpu_flushed info + 1;
  coh_sent pix a : pix ∈ sent (gpu_of map_waits tr) a ->
    exists pr, priv_of pm pix = Some pr /\ gpu_synced info < counter a pr;
  coh_map : map_waits = true \/
    forall pix p, pm !! pix = Some p -> is_Some (pix_priv p) -> devPrivate_ptr p <> 0;
  coh_safe : hazard (gpu_of map_waits tr) = false
}.

(** The counters are 64 bits wide; no run is long enough to wrap them around. *)
Definition fits (w : world) : Prop := Z.of_nat (length (w_trace w)) < 2 ^ 62.

Lemma pending_exact synced n :
  0 <= synced < 2 ^ 62 -> 0 <= n <= 2 ^ 62 -> amdgpu_glamor_gpu_pending synced n = (synced <? n).
Proof.
  intros Hs Hn. unfold amdgpu_glamor_gpu_pending.
  assert (He : s64 (u64 (n - synced)) = n - synced).
  { unfold s64, u64. rewrite Zplus_mod_idemp_l, Z.mod_small by lia. lia. }
  rewrite He. destruct (Z.gtb_spec (n - synced) 0), (Z.ltb_spec synced n); try done; lia.
Qed.

Lemma coherent_weaken mw (X Y : unrecorded) info pm tr :
  (forall a pix, X a pix -> Y a pix) -> coherent mw X info pm tr -> coherent mw Y info pm tr.
Proof. intros H []. split; try done. intros pix a Hq. destruct (coh_queued0 pix a Hq); auto. Qed.

(** A pixmap whose counter the GPU has passed is idle. *)
Lemma coherent_idle mw info pm tr pix a :
  coherent mw nothing info pm tr ->
  (forall pr, priv_of pm pix = Some pr -> counter a pr <= gpu_synced info) ->
  pix ∉ busy (gpu_of mw tr) a.
Proof.
  intros C H Hin. unfold busy in Hin. apply elem_of_union in Hin as [Hq|Hs].
  - destruct (coh_queued _ _ _ _ _ C _ _ Hq) as [[]|(pr & Hp & Hc)]. pose proof (H _ Hp). pose proof (coh_synced _ _ _ _ _ C). lia.
  - destruct (coh_sent _ _ _ _ _ C _ _ Hs) as (pr & Hp & Hc). pose proof (H _ Hp). lia.
Qed.

Lemma coherent_step mw X Y info info' pm pm' e tr :
  coherent mw X info pm tr ->
  use_glamor info' = use_glamor info -> 0 <= gpu_synced info' <= gpu_flushed info' ->
  gpu_flushed info' <= gpu_flushed info + 1 ->
  (forall pix pr a, priv_of pm' pix = Some pr -> 0 <= counter a pr <= gpu_flushed info' + 1) ->
  (forall pix a, pix ∈ queued (gpu_step mw e (gpu_of mw tr)) a ->
     Y a pix \/ exists pr, priv_of pm' pix = Some pr /\ counter a pr = gpu_flushed info' + 1) ->
  (forall pix a, pix ∈ sent (gpu_step mw e (gpu_of mw tr)) a ->
     exists pr, priv_of pm' pix = Some pr /\ gpu_synced info' < counter a pr) ->
  (mw = true \/ forall pix p, pm' !! pix = Some p -> is_Some (pix_priv p) -> devPrivate_ptr p <> 0) ->
  hazard (gpu_step mw e (gpu_of mw tr)) = false ->
  coherent mw Y info' pm' (e :: tr).
Proof. intros C Hg Hs Hf Hc Hq Hse Hm Hh. destruct C. split; try done; [congruence |]. cbn [length]. lia. Qed.

(** A call the GPU has nothing to do with. *)
Lemma coherent_skip mw X info pm e tr :
  gpu_step mw e (gpu_of mw tr) = gpu_of mw tr -> coherent mw X info pm tr -> coherent mw X info pm (e :: tr).
Proof.
  intros He C. pose proof C as []. eapply coherent_step; try exact C; rewrite ?He; try done. lia.
Qed.

(** The GPU is waited for. *)
Lemma coherent_wait mw X info pm e tr :
  gpu_step mw e (gpu_of mw tr) = gpu_waits (gpu_of mw tr) ->
  coherent mw X info pm tr -> coherent mw X info pm (e :: tr).
Proof.
  intros He C. pose proof C as []. eapply coherent_step; try exact C; rewrite ?He; try done; lia.
Qed.

(** After that, everything that was flushed is synced. *)
Lemma coherent_synced mw X info info' pm pm' tr :
  coherent mw X info pm tr -> (forall a, sent (gpu_of mw tr) a = ∅) ->
  use_glamor info' = use_glamor info -> gpu_flushed info' = gpu_flushed info -> gpu_synced info' = gpu_flushed info ->
  (forall pix, priv_of pm' pix = priv_of pm pix) ->
  (mw = true \/ forall pix p, pm' !! pix = Some p -> is_Some (pix_priv p) -> devPrivate_ptr p <> 0) ->
  coherent mw X info' pm' tr.
Proof.
  intros C Hsent Hg Hf Hs Hp Hm. destruct C. split; rewrite ?Hg, ?Hf, ?Hs; try done; [lia | | |].
  - intros pix pr a. rewrite Hp. by apply coh_counter0.
  - intros pix a. rewrite Hp. by apply coh_queued0.
  - intros pix a H. rewrite Hsent in H. by apply elem_of_empty in H.
Qed.

Lemma gpu_step_flush mw args g :
  gpu_step mw (Notify "glamor_block_handler" args) g = Gpu (fun _ => ∅) (busy g) (hazard g).
Proof. reflexivity. Qed.

(** What is queued is sent. *)
Lemma coherent_flush mw info info' pm args tr :
  coherent mw nothing info pm tr -> Z.of_nat (length tr) < 2 ^ 62 ->
  use_glamor info' = use_glamor info -> gpu_synced info' = gpu_synced info ->
  gpu_flushed info' = u64 (gpu_flushed info + 1) ->
  coherent mw nothing info' pm (Notify "glamor_block_handler" args :: tr).
Proof.
  intros C Hfit Hg Hs Hf. pose proof C as []. rewrite u64_id in Hf by (unfold in_u64; lia).
  eapply coherent_step; try exact C; rewrite ?gpu_step_flush, ?Hf, ?Hs; try done; try lia.
  - intros pix pr a H. specialize (coh_counter0 pix pr a H). lia.
  - intros pix a H. cbn in H. unfold busy in H. apply elem_of_union in H as [H|H]; [| by apply coh_sent0].
    destruct (coh_queued0 pix a H) as [[]|(pr & Hp & Hc)]. exists pr. split; [done | lia].
Qed.

(** Access by the CPU. *)
Lemma coherent_fb_draw mw info pm what dst reads tr :
  coherent mw nothing info pm tr -> dst ∉ busy (gpu_of mw tr) Rd ->
  Forall (fun x => x ∉ busy (gpu_of mw tr) Wr) reads ->
  coherent mw nothing info pm (FbDraw what dst reads :: tr).
Proof.
  intros C Hd Hr. pose proof C as []. eapply coherent_step; try exact C; try done; [lia |].
  cbn. rewrite coh_safe0, (bool_decide_eq_false_2 _ Hd), bool_decide_eq_false_2; [done |].
  intros (x & Hx & Hb)%Exists_exists. rewrite Forall_forall in Hr. by apply (Hr x).
Qed.

Lemma coherent_fb_read mw info pm what pix tr :
  coherent mw nothing info pm tr -> pix ∉ busy (gpu_of mw tr) Wr ->
  coherent mw nothing info pm (FbRead what pix :: tr).
Proof.
  intros C Hd. pose proof C as []. eapply coherent_step; try exact C; try done; [lia |].
  cbn. by rewrite coh_safe0, (bool_decide_eq_false_2 _ Hd).
Qed.

(** Access by the GPU, and its record in the counters. *)
Lemma coherent_gpu_draw mw info pm what dst reads tr :
  coherent mw nothing info pm tr ->
  coherent mw (fun a pix => pix ∈ touched dst reads a) info pm (GlamorDraw what dst reads :: tr).
Proof.
  intros C. pose proof C as []. eapply coherent_step; try exact C; try done; [lia |].
  intros pix a H. cbn in H. apply elem_of_union in H as [H|H]; [by left |].
  destruct (coh_queued0 pix a H) as [[]|?]. by right.
Qed.

Lemma coherent_recorded mw X info pm pix p pr (acc : access -> bool) pr' tr :
  coherent mw X info pm tr -> pm !! pix = Some p -> pix_priv p = Some pr ->
  (forall a, counter a pr' = if acc a then gpu_flushed info + 1 else counter a pr) ->
  coherent mw (fun a x => X a x /\ (x = pix -> acc a = false)) info (<[pix := setf pix_priv (fun _ => Some pr') p]> pm) tr.
Proof.
  intros C Hp Hpr Hc. pose proof C as []. set (pm' := <[pix := _]> pm).
  assert (Hsame : priv_of pm pix = Some pr) by (unfold priv_of; by rewrite Hp).
  assert (Hnew : priv_of pm' pix = Some pr') by (unfold priv_of, pm'; by rewrite lookup_insert_eq).
  assert (Hother : forall x, x <> pix -> priv_of pm' x = priv_of pm x)
    by (intros x Hx; unfold priv_of, pm'; by rewrite lookup_insert_ne).
  split; try done.
  - intros x q a. destruct (decide (x = pix)) as [->|Hx]; [| rewrite Hother by done; apply coh_counter0].
    rewrite Hnew. intros [= <-]. rewrite Hc. destruct (acc a); [lia | by apply (coh_counter0 pix)].
  - intros x a Hq. destruct (coh_queued0 x a Hq) as [HX|(q & Hx1 & Hx2)].
    + destruct (decide (x = pix)) as [->|Hx]; [| by left]. destruct (acc a) eqn:Ha; [right | left; by split].
      exists pr'. by rewrite Hc, Ha.
    + right. destruct (decide (x = pix)) as [->|Hx]; [| exists q; by rewrite Hother].
      exists pr'. split; [done |]. rewrite Hc. destruct (acc a); [done |]. congruence.
  - intros x a Hs. destruct (coh_sent0 x a Hs) as (q & Hx1 & Hx2).
    destruct (decide (x = pix)) as [->|Hx]; [| exists q; by rewrite Hother].
    exists pr'. split; [done |]. rewrite Hc. destruct (acc a); [lia |]. congruence.
  - destruct coh_map0 as [?|Hm]; [by left | right]. intros x q. unfold pm'.
    destruct (decide (x = pix)) as [->|Hx]; [rewrite lookup_insert_eq; intros [= <-] _; by apply (Hm pix p) |].
    rewrite lookup_insert_ne by done. apply Hm.
Qed.

(** ** The wrappers keep it *)
Section Wrappers.
Context `{env : Env} (map_waits : bool) (scrn : loc).
Implicit Types (w : world) (pix : loc).

Definition gpu_now (w : world) : gpu := gpu_of map_waits (w_trace w).

Definition inv (X : unrecorded) (w : world) : Prop :=
  fits w -> exists info, w_scrns w !! scrn = Some info /\ coherent map_waits X info (w_pixmaps w) (w_trace w).

Definition idle (a : access) (w : world) (pix : loc) : Prop := fits w -> pix ∉ busy (gpu_now w) a.

(** The CPU only ever waits for the GPU: fewer pixmaps are busy afterwards. *)
Definition shrinks (w w' : world) : Prop :=
  (length (w_trace w) <= length (w_trace w'))%nat /\
  forall a, busy (gpu_now w') a ⊆ busy (gpu_now w) a /\ queued (gpu_now w') a ⊆ queued (gpu_now w) a.
Definition waited (w w' : world) : Prop := inv nothing w' /\ shrinks w w'.

Lemma waited_refl w : inv nothing w -> waited w w.
Proof. intros H. split; [done |]. split; [lia | done]. Qed.
Lemma waited_trans w1 w2 w3 : waited w1 w2 -> waited w2 w3 -> waited w1 w3.
Proof. 
  intros [_ [H1 H2]] [H3 [H4 H5]]. split; [done |]. split; [lia |]. intros a.
  destruct (H2 a), (H5 a). split; by etrans.
Qed.

Lemma shrinks_fits w w' : shrinks w w' -> fits w' -> fits w.
Proof. unfold fits. intros [? _]. lia. Qed.
Lemma idle_mono a w w' pix : shrinks w w' -> idle a w pix -> idle a w' pix.
Proof. intros Hs Hi Hf. pose proof (shrinks_fits _ _ Hs Hf) as Hf0. specialize (Hi Hf0). destruct Hs as [_ Hs]. intros Hin%(proj1 (Hs a)). done. Qed.

Lemma inv_weaken (X Y : unrecorded) w : (forall a pix, X a pix -> Y a pix) -> inv X w -> inv Y w.
Proof. intros H Hi Hf. destruct (Hi Hf) as (info & ? & ?). exists info. split; [done |]. by eapply coherent_weaken. Qed.

Lemma fits_call e w : fits (w <| w_trace ::= cons e |>) -> fits w.
Proof. unfold fits. change (w_trace (w <| w_trace ::= cons e |>)) with (e :: w_trace w). cbn [length]. lia. Qed.

(** Calls that at most wait for the GPU. *)
Definition harmless (e : ext) : Prop := forall g, gpu_step map_waits e g = g \/ gpu_step map_waits e g = gpu_waits g.

Lemma call_waited e w : harmless e -> inv nothing w -> waited w (w <| w_trace ::= cons e |>).
Proof.
  intros He Hi. split.
  - intros Hf. destruct (Hi (fits_call _ _ Hf)) as (info & Hs & C). exists info. split; [done |].
    change (w_trace (w <| w_trace ::= cons e |>)) with (e :: w_trace w).
    destruct (He (gpu_now w)); [by apply coherent_skip | by apply coherent_wait].
  - split; [apply Nat.le_succ_diag_r |]. intros a. change (gpu_now (w <| w_trace ::= cons e |>)) with (gpu_step map_waits e (gpu_now w)).
    destruct (He (gpu_now w)) as [-> | ->]; [done |]. unfold busy, gpu_waits. cbn. split; set_solver.
Qed.

Lemma map_harmless e : (forall g, gpu_step map_waits e g = if map_waits then gpu_waits g else g) -> harmless e.
Proof. intros H g. rewrite H. destruct map_waits; auto. Qed.

(** A change of the world that neither the counters nor the GPU notice. *)
Lemma waited_frame w w0 w' :
  waited w w0 -> w_scrns w' = w_scrns w0 -> w_pixmaps w' = w_pixmaps w0 -> w_trace w' = w_trace w0 -> waited w w'.
Proof. unfold waited, inv, shrinks, gpu_now, fits. by intros H -> -> ->. Qed.

Definition framed (w w' : world) : Prop := w_scrns w' = w_scrns w /\ w_pixmaps w' = w_pixmaps w.
Definition all_done (w : world) : Prop := fits w -> forall a, sent (gpu_now w) a = ∅.

Lemma flush_waited w :
  inv nothing w ->
  pwp (amdgpu_glamor_flush scrn)
      (fun _ w' => waited w w' /\ w_pixmaps w' = w_pixmaps w /\ (fits w' -> forall a, queued (gpu_now w') a = ∅)) w.
Proof.
  intros Hi. unfold amdgpu_glamor_flush. apply pwp_bind, pwp_load. intros info Hinfo.
  set (info' := setf gpu_flushed (fun n => u64 (n + 1)) info).
  destruct (use_glamor info) eqn:Hg; apply pwp_bind.
  - change (pwp (mwhen true ?m) ?Q w) with (pwp m Q w). wp_ext. apply pwp_update. intros i Hi'.
    change (w_scrns _ !! scrn) with (w_scrns w !! scrn) in Hi'. rewrite Hinfo in Hi'. injection Hi' as <-.
    fold info'. set (w' := setf w_scrns _ _).
    assert (Ht : w_trace w' = Notify "glamor_block_handler" [Zpos scrn] :: w_trace w) by reflexivity.
    assert (Hn : gpu_now w' = Gpu (fun _ => ∅) (busy (gpu_now w)) (hazard (gpu_now w))) by reflexivity.
    assert (Hs : w_scrns w' !! scrn = Some info') by (change (w_scrns w') with (<[scrn := info']> (w_scrns w)); apply lookup_insert_eq).
    assert (Hp : w_pixmaps w' = w_pixmaps w) by reflexivity. clearbody w'.
    split_and!; [split; [| split] | done | by rewrite Hn].
    + intros Hf. assert (Hfw : fits w) by (unfold fits in *; rewrite Ht in Hf; cbn [length] in Hf; lia).
      destruct (Hi Hfw) as (i & Hi1 & C). rewrite Hinfo in Hi1. injection Hi1 as <-.
      exists info'. split; [done |]. rewrite Hp, Ht. by apply coherent_flush with info.
    + rewrite Ht. cbn [length]. lia.
    + intros a. rewrite Hn. unfold busy. cbn. split; set_solver.
  - change (pwp (mwhen false ?m) ?Q w) with (Q tt w). apply pwp_update. intros i Hi'.
    set (w' := setf w_scrns _ _). assert (Ht : w_trace w' = w_trace w) by reflexivity.
    assert (Hno : ~ fits w).
    { intros Hf. destruct (Hi Hf) as (i' & Hi1 & C). rewrite Hinfo in Hi1. injection Hi1 as <-.
      pose proof (coh_glamor _ _ _ _ _ C). congruence. }
    assert (Hno' : ~ fits w') by (unfold fits in *; by rewrite Ht).
    split_and!; [split; [by intros ? | split] | done | by intros ?].
    + by rewrite Ht.
    + intros a. unfold gpu_now. by rewrite Ht.
Qed.

(** A call whose answer is then used. *)
Lemma pwp_harmless {B} e w0 w (k : answer e -> D B) (Q : B -> world -> Prop) :
  harmless e -> waited w0 w -> framed w0 w ->
  (forall r, waited w0 (w <| w_trace ::= cons e |>) -> framed w0 (w <| w_trace ::= cons e |>) ->
     pwp (k r) Q (w <| w_trace ::= cons e |>)) -> pwp (call e ≫= k) Q w.
Proof.
  intros He Hw Hf HQ. apply pwp_bind. wp_ext. apply HQ; [| exact Hf].
  eapply waited_trans; [exact Hw |]. apply call_waited; [done | apply Hw].
Qed.

Ltac harmless_call w0 :=
  lazymatch goal with |- pwp (mbind ?k (call ?e)) ?Q ?w => apply (pwp_harmless e w0 w k Q) end.

Lemma bo_map_waited bo w :
  inv nothing w ->
  pwp (amdgpu_bo_map bo)
      (fun ret w' => waited w w' /\ framed w w' /\ (ret = 0 -> (fits w' -> map_waits = true) -> all_done w')) w.
Proof.
  intros Hi. pose proof (waited_refl _ Hi) as H0. assert (F0 : framed w w) by done.
  unfold amdgpu_bo_map. apply pwp_bind, pwp_load. intros b Hb. destruct (is_gbm b).
  - harmless_call w; [by left | done | done | intros r1 H1 F1].
    harmless_call w; [by left | done | done | intros r2 H2 F2].
    harmless_call w; [by left | done | done | intros r3 H3 F3].
    harmless_call w; [by left | done | done | intros [ret addr] H4 F4].
    destruct (Z.eqb_spec ret 0) as [->|Hr]; cbn [negb]; cycle 1.
    { apply pwp_ret. split_and!; [done | done | done]. }
    harmless_call w; [by apply map_harmless | done | done | intros ptr H5 F5].
    destruct (Z.eqb_spec ptr 0); [apply pwp_ret; split_and!; [done | done | done] |].
    apply pwp_bind, pwp_update. intros b' Hb'. apply pwp_ret.
    split_and!; [eapply waited_frame; [exact H5 | reflexivity..] | exact F5 |].
    intros _ Hm Hf a. unfold gpu_now. cbn [w_trace]. rewrite (Hm Hf). reflexivity.
  - harmless_call w; [by apply map_harmless | done | done | intros [ret ptr] H1 F1].
    destruct (Z.eqb_spec ret 0) as [->|Hr]; apply pwp_bind.
    + change (pwp (mwhen true ?m) ?Q ?v) with (pwp m Q v). apply pwp_update. intros b' Hb'. apply pwp_ret.
      split_and!; [eapply waited_frame; [exact H1 | reflexivity..] | exact F1 |].
      intros _ Hm Hf a. unfold gpu_now. cbn [w_trace]. rewrite (Hm Hf). reflexivity.
    + apply pwp_ret, pwp_ret. split_and!; [done | done | done].
Qed.

(** Setting [gpu_synced] after the GPU was waited for; [pm] are the pixmaps, one of
    which may have been mapped meanwhile. *)
Lemma set_synced_waited w0 w :
  waited w0 w -> all_done w ->
  pwp (set_synced scrn) (fun _ w' => waited w0 w' /\ w_trace w' = w_trace w) w.
Proof.
  intros H Hd. unfold set_synced. apply pwp_update. intros info Hinfo. set (info' := setf gpu_synced _ info).
  set (w' := setf w_scrns _ w). assert (Ht : w_trace w' = w_trace w) by reflexivity.
  assert (Hp : w_pixmaps w' = w_pixmaps w) by reflexivity.
  assert (Hs : w_scrns w' !! scrn = Some info') by (change (w_scrns w') with (<[scrn := info']> (w_scrns w)); apply lookup_insert_eq).
  clearbody w'. split; [| done]. destruct H as [Hi [H1 H2]]. split; [| split].
  - intros Hf. destruct (Hi ltac:(unfold fits in *; by rewrite <- Ht)) as (i & Hi1 & C).
    rewrite Hinfo in Hi1. injection Hi1 as <-. exists info'. split; [done |]. rewrite Hp, Ht.
    apply (coherent_synced _ _ info _ (w_pixmaps w)); try done; [by apply Hd; unfold fits in *; rewrite <- Ht |]. apply (coh_map _ _ _ _ _ C).
  - by rewrite Ht.
  - intros a. unfold gpu_now. rewrite Ht. apply H2.
Qed.

(** A pixmap gets its address; the GPU does not care where it is. *)
Lemma mapped_waited w0 w pix p ptr :
  waited w0 w -> w_pixmaps w !! pix = Some p -> (fits w -> map_waits = true) ->
  waited w0 (setf w_pixmaps <[pix := setf devPrivate_ptr (fun _ => ptr) p]> w).
Proof.
  intros [Hi Hs] Hp Hm. split; [| exact Hs]. intros Hf. destruct (Hi Hf) as (info & Hinfo & C). exists info.
  split; [done |]. change (w_pixmaps (setf w_pixmaps ?f w)) with (f (w_pixmaps w)). change (w_trace (setf w_pixmaps ?f w)) with (w_trace w).
  assert (Hpr : forall x, priv_of (<[pix := setf devPrivate_ptr (fun _ => ptr) p]> (w_pixmaps w)) x = priv_of (w_pixmaps w) x).
  { intros x. unfold priv_of. destruct (decide (x = pix)) as [->|Hx]; [by rewrite lookup_insert_eq, Hp | by rewrite lookup_insert_ne]. }
  destruct C. split; try done.
  - intros x pr a. rewrite Hpr. apply coh_counter0.
  - intros x a. rewrite Hpr. apply coh_queued0.
  - intros x a. rewrite Hpr. apply coh_sent0.
  - left. by apply Hm.
Qed.

Lemma idle_all w pix : (fits w -> forall a, queued (gpu_now w) a = ∅) -> all_done w -> forall a, idle a w pix.
Proof. intros Hq Hs a Hf Hin. unfold busy in Hin. rewrite (Hq Hf), (Hs Hf) in Hin. set_solver. Qed.

Lemma idle_trace a w w' pix : w_trace w' = w_trace w -> idle a w pix -> idle a w' pix.
Proof. unfold idle, fits, gpu_now. by intros ->. Qed.

Lemma prepare_access_cpu_waited pix pr need w :
  inv nothing w -> is_Some (priv_of (w_pixmaps w) pix) ->
  pwp (amdgpu_glamor_prepare_access_cpu scrn pix pr need)
      (fun ok w' => waited w w' /\ (ok = true -> forall a, (need = false -> idle a w pix) -> idle a w' pix)) w.
Proof.
  intros Hi Hpriv. unfold amdgpu_glamor_prepare_access_cpu. apply pwp_bind.
  assert (Hflush : pwp (mwhen need (amdgpu_glamor_flush scrn))
    (fun _ w' => waited w w' /\ w_pixmaps w' = w_pixmaps w /\ (need = true -> fits w' -> forall a, queued (gpu_now w') a = ∅)) w).
  { apply pwp_mwhen; intros Hn; [eapply pwp_mono; [by apply flush_waited |]; naive_solver |].
    split_and!; [by apply waited_refl | done | congruence]. }
  eapply pwp_mono; [exact Hflush |]. clear Hflush. intros [] w1 (H1 & Hp1 & Hq1). rewrite <- Hp1 in Hpriv. clear Hp1.
  assert (Hkeep : forall w', waited w1 w' -> need = false -> forall a, (need = false -> idle a w pix) -> idle a w' pix).
  { intros w' Hw' Hn a Ha. eapply idle_mono; [exact (proj2 (waited_trans _ _ _ H1 Hw')) | by apply Ha]. }
  assert (Hdone : forall w', need = true -> waited w1 w' -> all_done w' -> forall a, idle a w' pix).
  { intros w' Hn Hw' Hd a. apply idle_all; [| done]. intros Hf b.
    pose proof (Hq1 Hn (shrinks_fits _ _ (proj2 Hw') Hf) b). pose proof (proj2 (proj2 (proj2 Hw') b)). set_solver. }
  apply pwp_bind, pwp_load. intros p Hp. destruct (Z.eqb_spec (devPrivate_ptr p) 0) as [Hz|Hz].
  - assert (Hm : fits w1 -> map_waits = true).
    { intros Hf. destruct (proj1 H1 Hf) as (info & _ & C). destruct (coh_map _ _ _ _ _ C) as [?|Hm]; [done |].
      destruct (Hm pix p Hp); [| done]. unfold priv_of in Hpriv. by rewrite Hp in Hpriv. }
    apply pwp_bind, pwp_some_or. intros bo Hbo. apply pwp_bind.
    eapply pwp_mono; [exact (bo_map_waited bo w1 (proj1 H1)) |]. intros ret w2 (H2 & [_ Hp2] & Hd).
    destruct (Z.eqb_spec ret 0) as [Hret|]; cbn [negb]; [| apply pwp_ret; split; [by eapply waited_trans | done]].
    apply pwp_bind, pwp_load. intros b Hb. apply pwp_bind, pwp_update. intros p' Hp'.
    assert (Hm2 : fits w2 -> map_waits = true) by (intros Hf; apply Hm, (shrinks_fits _ _ (proj2 H2) Hf)).
    pose proof (mapped_waited w1 w2 pix p' (cpu_ptr b) H2 Hp' Hm2) as H3. specialize (Hd Hret Hm2).
    set (w3 := setf w_pixmaps _ w2) in *. change (all_done w3) in Hd.
    clearbody w3. apply pwp_bind. eapply pwp_mono; [exact (set_synced_waited w1 w3 H3 Hd) |].
    intros [] w4 [H4 Ht4]. apply pwp_ret. split; [by eapply waited_trans |]. intros _ a Ha.
    destruct need; [| by apply (Hkeep _ H4)]. by apply (idle_trace _ w3), (Hdone w3).
  - destruct need; [| apply pwp_ret; split; [done |]; intros _; apply Hkeep; [apply waited_refl, H1 | done]].
    assert (H2 : waited w1 (w1 <| w_trace ::= cons (SavedGetImage pix) |>)) by (apply call_waited; [by right | apply H1]).
    apply pwp_bind. wp_ext. set (w2 := setf w_trace _ w1) in *.
    assert (Hd : all_done w2) by (intros _ a; reflexivity). clearbody w2.
    apply pwp_bind. eapply pwp_mono; [exact (set_synced_waited w1 w2 H2 Hd) |].
    intros [] w3 [H3 Ht3]. apply pwp_ret. split; [by eapply waited_trans |]. intros _ a Ha.
    by apply (idle_trace _ w2), (Hdone w2).
Qed.

(** ** Pixmaps that are ready for the CPU *)
Definition ready (X R : list loc) (w : world) : Prop :=
  inv nothing w /\ Forall (idle Rd w) X /\ Forall (idle Wr w) R.

Lemma ready_mono X R w w' : ready X R w -> waited w w' -> ready X R w'.
Proof.
  intros (_ & HX & HR) [Hi Hs]. split_and!; [done | |]; eapply Forall_impl; [exact HX | | exact HR |];
    intros x Hx; by eapply idle_mono.
Qed.

(** A pixmap without private data is never drawn to by the GPU. *)
Lemma no_priv_idle w pix a : inv nothing w -> priv_of (w_pixmaps w) pix = None -> idle a w pix.
Proof.
  intros Hi Hn Hf. destruct (Hi Hf) as (info & _ & C). apply (coherent_idle _ _ _ _ _ _ C). intros pr. by rewrite Hn.
Qed.

Lemma not_pending w pix pr info a :
  inv nothing w -> w_scrns w !! scrn = Some info -> priv_of (w_pixmaps w) pix = Some pr ->
  amdgpu_glamor_gpu_pending (gpu_synced info) (counter a pr) = false -> idle a w pix.
Proof.
  intros Hi Hs Hp Hn Hf. destruct (Hi Hf) as (i & Hs' & C). rewrite Hs in Hs'. injection Hs' as <-.
  pose proof C as []. unfold fits in Hf. specialize (coh_counter0 pix pr a Hp).
  rewrite pending_exact in Hn by lia. apply Z.ltb_ge in Hn.
  apply (coherent_idle _ _ _ _ _ _ C). rewrite Hp. intros ? [= <-]. lia.
Qed.

Lemma prepare_ro_ready X R pix w :
  ready X R w ->
  pwp (amdgpu_glamor_prepare_access_cpu_ro scrn pix) (fun ok w' => ready X (if ok then pix :: R else R) w') w.
Proof.
  intros H. pose proof H as (Hi & HX & HR). unfold amdgpu_glamor_prepare_access_cpu_ro, get_priv.
  apply pwp_bind, pwp_bind, pwp_load. intros p Hp. apply pwp_ret. assert (Hpr : priv_of (w_pixmaps w) pix = pix_priv p)
    by (unfold priv_of; by rewrite Hp). destruct (pix_priv p) as [pr|]; cycle 1.
  { apply pwp_ret. split_and!; [done | done |]. constructor; [by apply no_priv_idle | done]. }
  apply pwp_bind, pwp_load. intros info Hinfo.
  eapply pwp_mono; [apply prepare_access_cpu_waited; [done | by rewrite Hpr] |].
  intros ok w' [Hw Hok]. destruct (ready_mono _ _ _ _ H Hw) as (H1 & H2 & H3). destruct ok; [| done].
  split_and!; [done | done |]. constructor; [| done]. apply (Hok eq_refl Wr). intros Hn.
  by apply (not_pending w pix pr info).
Qed.

Lemma prepare_rw_ready X R pix w :
  ready X R w ->
  pwp (amdgpu_glamor_prepare_access_cpu_rw scrn pix)
      (fun ok w' => ready (if ok then pix :: X else X) (if ok then pix :: R else R) w') w.
Proof.
  intros H. pose proof H as (Hi & HX & HR). unfold amdgpu_glamor_prepare_access_cpu_rw, get_priv.
  apply pwp_bind, pwp_bind, pwp_load. intros p Hp. apply pwp_ret. assert (Hpr : priv_of (w_pixmaps w) pix = pix_priv p)
    by (unfold priv_of; by rewrite Hp). destruct (pix_priv p) as [pr|]; cycle 1.
  { apply pwp_ret. split_and!; [done | |]; (constructor; [by apply no_priv_idle | done]). }
  apply pwp_bind, pwp_load. intros info Hinfo.
  eapply pwp_mono; [apply prepare_access_cpu_waited; [done | by rewrite Hpr] |].
  intros ok w' [Hw Hok]. destruct (ready_mono _ _ _ _ H Hw) as (H1 & H2 & H3). destruct ok; [| done].
  split_and!; [done | |]; (constructor; [| done]); apply (Hok eq_refl); intros [Hn1 Hn2]%orb_false_iff;
    by apply (not_pending w pix pr info).
Qed.

Lemma fb_draw_ready X R what dst reads w :
  ready X R w -> dst ∈ X -> Forall (fun x => x ∈ R) reads -> pwp (call (FbDraw what dst reads)) (fun _ => ready X R) w.
Proof.
  intros (Hi & HX & HR) Hd Hr. wp_ext. set (w' := setf w_trace _ w).
  assert (Hidle : forall a x, idle a w x -> idle a w' x) by (intros a x Hx Hf; exact (Hx (fits_call _ _ Hf))).
  split_and!; [| by eapply Forall_impl; [exact HX | apply Hidle] | by eapply Forall_impl; [exact HR | apply Hidle]].
  intros Hf. pose proof (fits_call _ _ Hf) as Hf'. destruct (Hi Hf') as (info & ? & C). exists info. split; [done |].
  apply coherent_fb_draw; [done | |].
  - rewrite Forall_forall in HX. by apply HX.
  - rewrite Forall_forall in HR. eapply Forall_impl; [exact Hr |]. intros x Hx. by apply HR.
Qed.

Lemma fb_read_ready X R what pix w :
  ready X R w -> pix ∈ R -> pwp (call (FbRead what pix)) (fun _ => ready X R) w.
Proof.
  intros (Hi & HX & HR) Hr. wp_ext. set (w' := setf w_trace _ w).
  assert (Hidle : forall a x, idle a w x -> idle a w' x) by (intros a x Hx Hf; exact (Hx (fits_call _ _ Hf))).
  split_and!; [| by eapply Forall_impl; [exact HX | apply Hidle] | by eapply Forall_impl; [exact HR | apply Hidle]].
  intros Hf. pose proof (fits_call _ _ Hf) as Hf'. destruct (Hi Hf') as (info & ? & C). exists info. split; [done |].
  apply coherent_fb_read; [done |]. rewrite Forall_forall in HR. by apply HR.
Qed.

Lemma ready_sub X X' R R' w : ready X R w -> X' ⊆ X -> R' ⊆ R -> ready X' R' w.
Proof.
  intros (Hi & HX & HR) H1 H2. rewrite Forall_forall in HX, HR.
  split_and!; [done | |]; apply Forall_forall; intros x Hx; [by apply HX, H1 | by apply HR, H2].
Qed.

Lemma prepare_opt_ro X R o w :
  ready X R w ->
  pwp (prepare_opt (amdgpu_glamor_prepare_access_cpu_ro scrn) o)
      (fun ok w' => ready X (if ok then option_list o ++ R else R) w') w.
Proof. intros H. destruct o as [pix|]; [by apply prepare_ro_ready | by apply pwp_ret]. Qed.

Lemma prepare_opt_rw X R o w :
  ready X R w ->
  pwp (prepare_opt (amdgpu_glamor_prepare_access_cpu_rw scrn) o)
      (fun ok w' => ready (if ok then option_list o ++ X else X) (if ok then option_list o ++ R else R) w') w.
Proof. intros H. destruct o as [pix|]; [by apply prepare_rw_ready | by apply pwp_ret]. Qed.

Lemma prepare_gc_ready X R g w :
  ready X R w ->
  pwp (amdgpu_glamor_prepare_access_gc scrn g) (fun ok w' => ready X (if ok then gc_reads g ++ R else R) w') w.
Proof.
  intros H. unfold amdgpu_glamor_prepare_access_gc. apply pwp_bind.
  eapply pwp_mono; [by apply prepare_opt_ro |]. intros [] w' H'; [| by apply pwp_ret]. cbn [negb].
  eapply pwp_mono; [by apply prepare_opt_ro |]. intros ok w'' H''. destruct ok; eapply ready_sub; try exact H''; unfold gc_reads; set_solver.
Qed.

Lemma picture_ro_ready X R p w :
  ready X R w -> (pict_pixmap p = None -> pict_alpha p = None) ->
  pwp (amdgpu_glamor_picture_prepare_access_cpu_ro scrn p) (fun ok w' => ready X (if ok then pict_reads p ++ R else R) w') w.
Proof.
  intros H Hp. unfold amdgpu_glamor_picture_prepare_access_cpu_ro, pict_reads. destruct (pict_pixmap p) as [pix|]; cycle 1.
  { apply pwp_ret. by rewrite Hp. }
  apply pwp_bind. eapply pwp_mono; [by apply prepare_ro_ready |]. intros [] w' H'; [| by apply pwp_ret]. cbn [negb].
  eapply pwp_mono; [by apply prepare_opt_ro |]. intros ok w'' H''. destruct ok; eapply ready_sub; try exact H''; set_solver.
Qed.

Lemma picture_rw_ready X R p w :
  ready X R w ->
  pwp (amdgpu_glamor_picture_prepare_access_cpu_rw scrn p)
      (fun ok w' => ready (if ok then pict_reads p ++ X else X) (if ok then pict_reads p ++ R else R) w') w.
Proof.
  intros H. unfold amdgpu_glamor_picture_prepare_access_cpu_rw, pict_reads. apply pwp_bind, pwp_some_or. intros pix ->.
  apply pwp_bind. eapply pwp_mono; [by apply prepare_rw_ready |]. intros [] w' H'; [| by apply pwp_ret]. cbn [negb].
  eapply pwp_mono; [by apply prepare_opt_rw |]. intros ok w'' H''. destruct ok; eapply ready_sub; try exact H''; set_solver.
Qed.

(** ** Access by the GPU *)
Lemma gpu_draw_inv what dst reads w :
  inv nothing w -> pwp (call (GlamorDraw what dst reads)) (fun _ => inv (fun a pix => pix ∈ touched dst reads a)) w.
Proof.
  intros Hi. wp_ext. intros Hf. destruct (Hi (fits_call _ _ Hf)) as (info & ? & C). exists info. split; [done |].
  by apply coherent_gpu_draw.
Qed.

Definition recorded_ro (pix : loc) (X : unrecorded) : unrecorded := fun a x => X a x /\ (x = pix -> a = Wr).
Definition recorded_rw (pix : loc) (X : unrecorded) : unrecorded := fun a x => X a x /\ x <> pix.

(** Storing the private data with new counters. *)
Lemma set_priv_recorded X pix p pr pr' (acc : access -> bool) info w :
  inv X w -> w_scrns w !! scrn = Some info -> w_pixmaps w !! pix = Some p -> pix_priv p = Some pr ->
  (fits w -> forall a, counter a pr' = if acc a then gpu_flushed info + 1 else counter a pr) ->
  pwp (set_priv pix (Some pr')) (fun _ => inv (fun a x => X a x /\ (x = pix -> acc a = false))) w.
Proof.
  intros Hi Hs Hp Hpr Hc. unfold set_priv. apply pwp_update. intros p' Hp'. rewrite Hp in Hp'. injection Hp' as <-.
  intros Hf. destruct (Hi Hf) as (i & Hs' & C). rewrite Hs in Hs'. injection Hs' as <-. exists info. split; [done |].
  by apply (coherent_recorded _ _ _ _ _ _ pr); [.. | apply Hc].
Qed.

Lemma next_flush_fits X info w : inv X w -> w_scrns w !! scrn = Some info -> fits w -> u64 (gpu_flushed info + 1) = gpu_flushed info + 1.
Proof.
  intros Hi Hs Hf. destruct (Hi Hf) as (i & Hs' & C). rewrite Hs in Hs'. injection Hs' as <-. destruct C. unfold fits in Hf.
  apply u64_id. unfold in_u64. lia.
Qed.

Lemma finish_ro_inv X pix w :
  inv X w -> pwp (amdgpu_glamor_finish_access_gpu_ro scrn pix) (fun _ => inv (recorded_ro pix X)) w.
Proof.
  intros Hi. unfold amdgpu_glamor_finish_access_gpu_ro, get_priv. apply pwp_bind, pwp_load. intros info Hs.
  apply pwp_bind, pwp_bind, pwp_load. intros p Hp. apply pwp_ret, pwp_bind, pwp_some_or. intros pr Hpr.
  eapply pwp_mono; [apply (set_priv_recorded X pix p pr _ (fun a => bool_decide (a = Rd)) info); try done |].
  - intros Hf [|]; cbn; [by apply (next_flush_fits X info w) | done].
  - intros [] w'. apply inv_weaken. intros a x [? Hx]. split; [done |]. intros Hxp. specialize (Hx Hxp). by destruct a.
Qed.

Lemma finish_rw_inv X pix w :
  inv X w -> pwp (amdgpu_glamor_finish_access_gpu_rw scrn pix) (fun _ => inv (recorded_rw pix X)) w.
Proof.
  intros Hi. unfold amdgpu_glamor_finish_access_gpu_rw, get_priv. apply pwp_bind, pwp_load. intros info Hs.
  apply pwp_bind, pwp_bind, pwp_load. intros p Hp. apply pwp_ret, pwp_bind, pwp_some_or. intros pr Hpr.
  eapply pwp_mono; [apply (set_priv_recorded X pix p pr _ (fun _ => true) info); try done |].
  - intros Hf [|]; cbn; by apply (next_flush_fits X info w).
  - intros [] w'. apply inv_weaken. intros a x [? Hx]. split; [done |]. intros Hxp. by specialize (Hx Hxp).
Qed.

(** ** The drawing operations *)
Definition keeps_inv (m : D unit) : Prop := forall w, inv nothing w -> pwp m (fun _ => inv nothing) w.

Lemma ready_start w : inv nothing w -> ready [] [] w.
Proof. done. Qed.
Lemma ready_end X R w : ready X R w -> inv nothing w.
Proof. by intros (? & _). Qed.

(** The last step of an operation on the CPU. *)
Lemma fb_draw_end X R what dst reads w :
  ready X R w -> dst ∈ X -> Forall (fun x => x ∈ R) reads -> pwp (call (FbDraw what dst reads)) (fun _ => inv nothing) w.
Proof. intros H Hd Hr. eapply pwp_mono; [by eapply fb_draw_ready | intros []; apply ready_end]. Qed.

Ltac prepared L :=
  apply pwp_bind; eapply pwp_mono; [apply L; eassumption |];
  let ok := fresh "ok" in let w' := fresh "w" in let H := fresh "H" in
  intros ok w' H; destruct ok; [cbn [mwhen] | apply pwp_ret; exact (ready_end _ _ _ H)].
Ltac drawn := eapply fb_draw_end; [eassumption | set_solver | apply Forall_forall; set_solver].

Lemma fb_with_gc_inv what pix g : keeps_inv (fb_with_gc what scrn pix g).
Proof. intros w H%ready_start. unfold fb_with_gc. prepared prepare_rw_ready. prepared prepare_gc_ready. drawn. Qed.
Lemma fb_without_gc_inv what pix : keeps_inv (fb_without_gc what scrn pix).
Proof. intros w H%ready_start. unfold fb_without_gc. prepared prepare_rw_ready. drawn. Qed.
Lemma fb_reading_inv what pix : keeps_inv (fb_reading what scrn pix).
Proof.
  intros w H%ready_start. unfold fb_reading. prepared prepare_ro_ready.
  eapply pwp_mono; [eapply fb_read_ready; [eassumption | set_solver] | intros []; apply ready_end].
Qed.
Lemma copy_plane_inv src dst : keeps_inv (amdgpu_glamor_copy_plane scrn src dst).
Proof. intros w H%ready_start. unfold amdgpu_glamor_copy_plane. prepared prepare_rw_ready. prepared prepare_ro_ready. drawn. Qed.
Lemma push_pixels_inv bitmap pix g : keeps_inv (amdgpu_glamor_push_pixels scrn bitmap pix g).
Proof.
  intros w H%ready_start. unfold amdgpu_glamor_push_pixels. prepared prepare_rw_ready. prepared prepare_ro_ready.
  prepared prepare_gc_ready. drawn.
Qed.

(** The operations for a destination without private data. *)
Lemma ready_no_priv w dst : inv nothing w -> priv_of (w_pixmaps w) dst = None -> ready [dst] [dst] w.
Proof. intros Hi Hp. split_and!; [done | |]; (constructor; [by apply no_priv_idle | constructor]). Qed.

Lemma copy_plane_nodst_inv src dst w :
  inv nothing w -> priv_of (w_pixmaps w) dst = None ->
  pwp (amdgpu_glamor_copy_plane_nodstbo scrn src dst) (fun _ => inv nothing) w.
Proof. intros Hi Hp. pose proof (ready_no_priv _ _ Hi Hp). unfold amdgpu_glamor_copy_plane_nodstbo. prepared prepare_ro_ready. drawn. Qed.
Lemma push_pixels_nodst_inv bitmap dst w :
  inv nothing w -> priv_of (w_pixmaps w) dst = None ->
  pwp (amdgpu_glamor_push_pixels_nodstbo scrn bitmap dst) (fun _ => inv nothing) w.
Proof. intros Hi Hp. pose proof (ready_no_priv _ _ Hi Hp). unfold amdgpu_glamor_push_pixels_nodstbo. prepared prepare_ro_ready. drawn. Qed.
Lemma copy_area_nodst_inv src dst w :
  inv nothing w -> priv_of (w_pixmaps w) dst = None ->
  pwp (amdgpu_glamor_copy_area_nodstbo scrn src dst) (fun _ => inv nothing) w.
Proof.
  intros Hi Hp. pose proof (ready_no_priv _ _ Hi Hp) as H. unfold amdgpu_glamor_copy_area_nodstbo.
  destruct (decide (src = dst)) as [->|Hne].
  - rewrite bool_decide_eq_true_2 by done. apply pwp_bind, pwp_ret. drawn.
  - rewrite bool_decide_eq_false_2 by done. prepared prepare_ro_ready. drawn.
Qed.

Lemma poly_fill_rect_inv pix g : gc_reads g = [] -> keeps_inv (amdgpu_glamor_poly_fill_rect scrn pix g).
Proof.
  intros Hg w Hi. unfold amdgpu_glamor_poly_fill_rect. apply pwp_bind, pwp_load. intros info Hinfo.
  apply pwp_bind, pwp_load. intros p Hp. destruct (_ && _); [| by apply fb_with_gc_inv].
  apply pwp_bind. eapply pwp_mono; [by apply gpu_draw_inv |]. intros [] w1 H1. rewrite Hg in H1.
  eapply pwp_mono; [by apply finish_rw_inv |]. intros [] w2. apply inv_weaken. intros [] x [Hx Hn]; cbn in Hx; set_solver.
Qed.

Lemma copy_area_inv src dst same :
  (same = true -> src = dst) -> keeps_inv (amdgpu_glamor_copy_area scrn src dst same).
Proof.
  intros Hsame w Hi. unfold amdgpu_glamor_copy_area. apply pwp_bind, pwp_load. intros s Hs.
  apply pwp_bind, pwp_load. intros d Hd. destruct (_ && _).
  - apply pwp_bind. eapply pwp_mono; [by apply gpu_draw_inv |]. intros [] w1 H1.
    apply pwp_bind. eapply pwp_mono; [by apply finish_rw_inv |]. intros [] w2 H2.
    destruct (decide (src = dst)) as [->|Hne].
    + rewrite bool_decide_eq_true_2 by done. apply pwp_ret. revert H2. apply inv_weaken. intros [] x [Hx Hn]; cbn in Hx; set_solver.
    + rewrite bool_decide_eq_false_2 by done. eapply pwp_mono; [by apply finish_ro_inv |]. intros [] w3. apply inv_weaken.
      intros a x [[Hx Hn] Hr]. destruct a; cbn in Hx; [| set_solver]. assert (x = src) by set_solver. by specialize (Hr H).
  - apply ready_start in Hi. prepared prepare_rw_ready. destruct same.
    + rewrite (Hsame eq_refl) in *. apply pwp_bind, pwp_ret. drawn.
    + prepared prepare_ro_ready. drawn.
Qed.

(** A picture without a drawable has no alpha map. *)
Definition pict_ok (p : picture) : Prop := pict_pixmap p = None -> pict_alpha p = None.
Definition mask_reads (mask : option picture) : list loc := match mask with Some m => pict_reads m | None => [] end.

Lemma mask_ready X R mask w :
  ready X R w -> (forall m, mask = Some m -> pict_ok m) ->
  pwp (match mask with None => mret true | Some m => amdgpu_glamor_picture_prepare_access_cpu_ro scrn m end)
      (fun ok w' => ready X (if ok then mask_reads mask ++ R else R) w') w.
Proof. intros H Hm. destruct mask as [m|]; [apply picture_ro_ready; [done | by apply Hm] | by apply pwp_ret]. Qed.

Lemma pict_reads_pixmap p pix : pict_pixmap p = Some pix -> pix ∈ pict_reads p.
Proof. unfold pict_reads. intros ->. set_solver. Qed.

Lemma composite_fallback_inv src mask dst :
  pict_ok src -> (forall m, mask = Some m -> pict_ok m) -> keeps_inv (composite_fallback scrn src mask dst).
Proof.
  intros Hs Hm w H%ready_start. unfold composite_fallback. prepared picture_rw_ready.
  apply pwp_bind. eapply pwp_mono; [by apply picture_ro_ready; [eassumption |] |].
  intros [] w2 H2; [cbn [mwhen] | apply pwp_ret; exact (ready_end _ _ _ H2)].
  apply pwp_bind. eapply pwp_mono; [by apply mask_ready; [eassumption |] |].
  intros [] w3 H3; [cbn [mwhen] | apply pwp_ret; exact (ready_end _ _ _ H3)].
  apply pwp_bind, pwp_some_or. intros pix Hpix. pose proof (pict_reads_pixmap _ _ Hpix).
  fold (mask_reads mask). eapply fb_draw_end; [eassumption | set_solver |].
  apply Forall_forall. unfold pict_reads. set_solver.
Qed.

Lemma add_traps_inv p : keeps_inv (amdgpu_glamor_add_traps scrn p).
Proof.
  intros w H%ready_start. unfold amdgpu_glamor_add_traps. prepared picture_rw_ready.
  apply pwp_bind, pwp_some_or. intros pix Hpix. pose proof (pict_reads_pixmap _ _ Hpix).
  eapply fb_draw_end; [eassumption | set_solver |]. apply Forall_forall. unfold pict_reads. set_solver.
Qed.

Lemma saved_render_inv what src dst : pict_ok src -> keeps_inv (saved_render what scrn src dst).
Proof.
  intros Hs w H%ready_start. unfold saved_render. prepared picture_rw_ready.
  apply pwp_bind. eapply pwp_mono; [by apply picture_ro_ready; [eassumption |] |].
  intros [] w2 H2; [cbn [mwhen] | apply pwp_ret; exact (ready_end _ _ _ H2)].
  apply pwp_bind, pwp_some_or. intros pix Hpix. pose proof (pict_reads_pixmap _ _ Hpix).
  eapply fb_draw_end; [eassumption | set_solver |]. apply Forall_forall. unfold pict_reads. set_solver.
Qed.

(** Recording a source that may have no pixmap. *)
Lemma finish_opt_inv X o w :
  inv X w ->
  pwp (match o with Some x => amdgpu_glamor_finish_access_gpu_ro scrn x | None => mret tt end)
      (fun _ => inv (fun a x => X a x /\ (o = Some x -> a = Wr))) w.
Proof.
  intros H. destruct o as [x|].
  - eapply pwp_mono; [by apply finish_ro_inv |]. intros [] w'. apply inv_weaken. intros a y [? Hy]. split; [done |].
    intros [= <-]. by apply Hy.
  - apply pwp_ret. revert H. by apply inv_weaken.
Qed.

Lemma has_priv_same pix (Q : bool -> world -> Prop) w : (forall b, Q b w) -> pwp (has_priv pix) Q w.
Proof. intros HQ. unfold has_priv, get_priv. apply pwp_bind, pwp_bind, pwp_load. intros p Hp. apply pwp_ret, pwp_ret, HQ. Qed.
Lemma gpu_readable_same o (Q : bool -> world -> Prop) w : (forall b, Q b w) -> pwp (gpu_readable o) Q w.
Proof. intros HQ. destruct o; [by apply has_priv_same | by apply pwp_ret]. Qed.

Lemma composite_gpu_same src mask dst (Q : option (loc * list loc) -> world -> Prop) w :
  Q None w ->
  (forall pix, Q (Some (pix, option_list (pict_pixmap src) ++ option_list (m ← mask; pict_pixmap m))) w) ->
  pwp (composite_gpu src mask dst) Q w.
Proof.
  intros HN HS. unfold composite_gpu. destruct (_ || _ || _); [by apply pwp_ret |].
  apply pwp_bind, pwp_some_or. intros pix Hpix. apply pwp_bind, pwp_load. intros p Hp.
  destruct (_ || _); [by apply pwp_ret |]. destruct (negb _); [by apply pwp_ret |].
  apply pwp_ret. specialize (HS pix). by destruct mask.
Qed.

Lemma composite_inv src mask dst :
  pict_ok src -> (forall m, mask = Some m -> pict_ok m) -> keeps_inv (amdgpu_glamor_composite scrn src mask dst).
Proof.
  intros Hs Hm w Hi. unfold amdgpu_glamor_composite. apply pwp_bind, composite_gpu_same; [by apply composite_fallback_inv |].
  intros pix. set (mp := m ← mask; pict_pixmap m). apply pwp_bind, gpu_readable_same. intros s. apply pwp_bind.
  assert (Hgpu : pwp (if s : bool then
      m ← gpu_readable mp;
      _ ← mwhen m
            (_ ← call (GlamorDraw "Composite" pix (option_list (pict_pixmap src) ++ option_list mp));
             match mp with Some x => amdgpu_glamor_finish_access_gpu_ro scrn x | None => mret tt end);
      _ ← match pict_pixmap src with Some x => amdgpu_glamor_finish_access_gpu_ro scrn x | None => mret tt end;
      mret m else mret false) (fun _ => inv (fun a x => x = pix)) w).
  { destruct s; [| apply pwp_ret; revert Hi; by apply inv_weaken].
    apply pwp_bind, gpu_readable_same. intros m. apply pwp_bind.
    apply (pwp_mono _ (fun _ => inv (fun a x => x = pix \/ a = Rd /\ pict_pixmap src = Some x))).
    - apply pwp_mwhen; intros _; [| revert Hi; by apply inv_weaken]. apply pwp_bind.
      eapply pwp_mono; [by apply gpu_draw_inv |]. intros [] w1 H1. eapply pwp_mono; [by apply finish_opt_inv |].
      intros [] w2. apply inv_weaken. intros a x [Hx Hr]. destruct a; cbn in Hx; [| set_solver].
      rewrite elem_of_union, elem_of_list_to_set, elem_of_app in Hx. destruct (pict_pixmap src), mp; set_solver.
    - intros [] w1 H1. apply pwp_bind. eapply pwp_mono; [by apply finish_opt_inv |]. intros [] w2 H2. apply pwp_ret.
      revert H2. apply inv_weaken. intros a x [[?|[-> ?]] Hr]; [done |]. by specialize (Hr H). }
  eapply pwp_mono; [exact Hgpu |]. clear Hgpu. intros done_ w1 H1. apply pwp_bind.
  eapply pwp_mono; [exact (finish_rw_inv _ _ _ H1) |]. intros [] w2 H2.
  assert (H3 : inv nothing w2) by (revert H2; apply inv_weaken; by intros a x [? ?]).
  destruct done_; [by apply pwp_ret | by apply composite_fallback_inv].
Qed.

Inductive drawing : Type :=
| FillSpans (pix : loc) (g : gc)
| SetSpans (pix : loc)
| PutImage (pix : loc)
| CopyPlane (src dst : loc)
| CopyPlaneNodst (src dst : loc)
| PolyPoint (pix : loc)
| PolyLines (pix : loc) (g : gc)
| PolySegment (pix : loc) (g : gc)
| PolyFillRect (pix : loc) (g : gc)
| ImageGlyphBlt (pix : loc) (g : gc)
| PolyGlyphBlt (pix : loc) (g : gc)
| PushPixels (bitmap pix : loc) (g : gc)
| PushPixelsNodst (bitmap pix : loc)
| CopyArea (src dst : loc) (same : bool)
| CopyAreaNodst (src dst : loc)
| ValidateGC (pix : loc) (g : gc)
| BitmapToRegion (pix : loc)
| CopyWindow (pix : loc)
| GetImage (pix : loc)
| GetSpans (pix : loc)
| DoComposite (src : picture) (mask : option picture) (dst : picture)
| AddTraps (p : picture)
| Glyphs (src dst : picture)
| Trapezoids (src dst : picture)
| Triangles (src dst : picture)
| Flush.

Definition run_drawing (d : drawing) : D unit :=
  match d with
  | FillSpans pix g => amdgpu_glamor_fill_spans scrn pix g
  | SetSpans pix => amdgpu_glamor_set_spans scrn pix
  | PutImage pix => amdgpu_glamor_put_image scrn pix
  | CopyPlane src dst => amdgpu_glamor_copy_plane scrn src dst
  | CopyPlaneNodst src dst => amdgpu_glamor_copy_plane_nodstbo scrn src dst
  | PolyPoint pix => amdgpu_glamor_poly_point scrn pix
  | PolyLines pix g => amdgpu_glamor_poly_lines scrn pix g
  | PolySegment pix g => amdgpu_glamor_poly_segment scrn pix g
  | PolyFillRect pix g => amdgpu_glamor_poly_fill_rect scrn pix g
  | ImageGlyphBlt pix g => amdgpu_glamor_image_glyph_blt scrn pix g
  | PolyGlyphBlt pix g => amdgpu_glamor_poly_glyph_blt scrn pix g
  | PushPixels bitmap pix g => amdgpu_glamor_push_pixels scrn bitmap pix g
  | PushPixelsNodst bitmap pix => amdgpu_glamor_push_pixels_nodstbo scrn bitmap pix
  | CopyArea src dst same => amdgpu_glamor_copy_area scrn src dst same
  | CopyAreaNodst src dst => amdgpu_glamor_copy_area_nodstbo scrn src dst
  | ValidateGC pix g => _ ← amdgpu_glamor_validate_gc pix g; mret tt
  | BitmapToRegion pix => amdgpu_glamor_bitmap_to_region scrn pix
  | CopyWindow pix => amdgpu_glamor_copy_window scrn pix
  | GetImage pix => amdgpu_glamor_get_image scrn pix
  | GetSpans pix => amdgpu_glamor_get_spans scrn pix
  | DoComposite src mask dst => amdgpu_glamor_composite scrn src mask dst
  | AddTraps p => amdgpu_glamor_add_traps scrn p
  | Glyphs src dst => amdgpu_glamor_glyphs scrn src dst
  | Trapezoids src dst => amdgpu_glamor_trapezoids scrn src dst
  | Triangles src dst => amdgpu_glamor_triangles scrn src dst
  | Flush => amdgpu_glamor_flush scrn
  end.

(** What the operations rely on: [amdgpu_glamor_validate_gc] chooses the [nodstbo]
    ones only for destinations without private data; the same drawable is the same
    pixmap; and the GPU fills with a plain color (the counters of a tile or stipple
    are not updated). *)
Definition allowed (w : world) (d : drawing) : Prop :=
  match d with
  | CopyPlaneNodst _ dst | PushPixelsNodst _ dst | CopyAreaNodst _ dst => priv_of (w_pixmaps w) dst = None
  | PolyFillRect _ g => gc_reads g = []
  | CopyArea src dst same => same = true -> src = dst
  | DoComposite src mask _ => pict_ok src /\ forall m, mask = Some m -> pict_ok m
  | Glyphs src _ | Trapezoids src _ | Triangles src _ => pict_ok src
  | _ => True
  end.

Lemma notify_inv what args w :
  what <> "glamor_block_handler"%string -> inv nothing w -> pwp (call (Notify what args)) (fun _ => inv nothing) w.
Proof. intros Hw Hi. wp_ext. apply call_waited; [| done]. intros g. left. cbn. by rewrite bool_decide_eq_false_2. Qed.

Lemma validate_gc_inv pix g : keeps_inv (_ ← amdgpu_glamor_validate_gc pix g; mret tt).
Proof.
  intros w Hi. unfold amdgpu_glamor_validate_gc. apply pwp_bind, pwp_bind.
  eapply pwp_mono; [by apply notify_inv |]. intros [] w' Hi'. apply pwp_bind, has_priv_same. intros a. apply pwp_bind.
  assert (Ho : forall o (Q : bool -> world -> Prop), (forall b, Q b w') ->
    pwp (match o with Some s => has_priv s | None => mret false end) Q w')
    by (intros [s|] Q HQ; [by apply has_priv_same | apply pwp_ret, HQ]).
  apply Ho. intros b. apply pwp_bind, Ho. intros c. apply pwp_ret. by apply pwp_ret.
Qed.

Lemma run_drawing_inv d w : inv nothing w -> allowed w d -> pwp (run_drawing d) (fun _ => inv nothing) w.
Proof.
  intros Hi Ha. destruct d; cbn [run_drawing allowed] in *;
    try (by apply fb_with_gc_inv || by apply fb_without_gc_inv || by apply fb_reading_inv).
  - by apply copy_plane_inv.
  - by apply copy_plane_nodst_inv.
  - unfold amdgpu_glamor_poly_lines. destruct (_ =? _); [by apply fb_with_gc_inv | by apply notify_inv].
  - unfold amdgpu_glamor_poly_segment. destruct (_ =? _); [by apply fb_with_gc_inv | by apply notify_inv].
  - by apply poly_fill_rect_inv.
  - by apply push_pixels_inv.
  - by apply push_pixels_nodst_inv.
  - by apply copy_area_inv.
  - by apply copy_area_nodst_inv.
  - by apply validate_gc_inv.
  - destruct Ha. by apply composite_inv.
  - by apply add_traps_inv.
  - by apply saved_render_inv.
  - by apply saved_render_inv.
  - by apply saved_render_inv.
  - eapply pwp_mono; [by apply flush_waited |]. intros [] w' [[H _] _]. exact H.
Qed.

(** ** Whole runs *)

(** A pixmap as it is created: the counters are those of [calloc]. *)
Definition new_pixmap_ok (p : pixmap) : Prop :=
  forall pr, pix_priv p = Some pr -> gpu_read pr = 0 /\ gpu_write pr = 0 /\ (map_waits = true \/ devPrivate_ptr p <> 0).

Inductive drawn : world -> Prop :=
| drawn_start w info :
    w_trace w = [] -> w_scrns w !! scrn = Some info -> use_glamor info = true ->
    gpu_flushed info = 0 -> gpu_synced info = 0 ->
    map_Forall (fun _ p => new_pixmap_ok p) (w_pixmaps w) -> drawn w
| drawn_op w d w' : drawn w -> allowed w d -> run_drawing d w = Ok tt w' -> drawn w'
| drawn_create w pix p :
    drawn w -> w_pixmaps w !! pix = None -> new_pixmap_ok p -> drawn (setf w_pixmaps <[pix := p]> w).

Lemma start_coherent info pm :
  use_glamor info = true -> gpu_flushed info = 0 -> gpu_synced info = 0 ->
  map_Forall (fun _ p => new_pixmap_ok p) pm -> coherent map_waits nothing info pm [].
Proof.
  intros Hg Hf Hs Hn.
  assert (Hz : forall pix pr, priv_of pm pix = Some pr -> forall a, counter a pr = 0).
  { intros pix pr Hp a. unfold priv_of in Hp. destruct (pm !! pix) as [p|] eqn:Hpix; [| done].
    destruct (Hn pix p Hpix pr Hp) as (Hr & Hw & _). by destruct a. }
  split; rewrite ?Hf, ?Hs; try done.
  - intros pix pr a Hp. rewrite (Hz pix pr Hp). lia.
  - destruct (decide (map_waits = true)); [by left | right]. intros pix p Hp [pr Hpr].
    destruct (Hn pix p Hp pr Hpr) as (_ & _ & [?|?]); done.
Qed.

Lemma create_coherent info pm tr pix p :
  coherent map_waits nothing info pm tr -> pm !! pix = None -> new_pixmap_ok p ->
  coherent map_waits nothing info (<[pix := p]> pm) tr.
Proof.
  intros C Hnone Hn. destruct C.
  assert (Hother : forall x, x <> pix -> priv_of (<[pix := p]> pm) x = priv_of pm x)
    by (intros x Hx; unfold priv_of; by rewrite lookup_insert_ne).
  assert (Hold : forall x pr, priv_of pm x = Some pr -> priv_of (<[pix := p]> pm) x = Some pr).
  { intros x pr Hx. rewrite Hother; [done |]. intros ->. unfold priv_of in Hx. by rewrite Hnone in Hx. }
  split; try done.
  - intros x pr a. destruct (decide (x = pix)) as [->|Hx]; [| rewrite Hother by done; apply coh_counter0].
    unfold priv_of. rewrite lookup_insert_eq. intros Hp. destruct (Hn pr Hp) as (Hr & Hw & _). destruct a; cbn; lia.
  - intros x a Hq. destruct (coh_queued0 x a Hq) as [[]|(pr & Hp & Hc)]. right. eauto.
  - intros x a Hq. destruct (coh_sent0 x a Hq) as (pr & Hp & Hc). eauto.
  - destruct coh_map0 as [?|Hm]; [by left |].
    destruct (decide (map_waits = true)); [by left | right]. intros x q.
    destruct (decide (x = pix)) as [->|Hx]; [| rewrite lookup_insert_ne by done; apply Hm].
    rewrite lookup_insert_eq. intros [= <-] [pr Hpr]. destruct (Hn pr Hpr) as (_ & _ & [?|?]); done.
Qed.

Lemma drawn_inv w : drawn w -> inv nothing w.
Proof.
  induction 1 as [w info Ht Hs Hg Hf Hy Hn | w d w' _ Hi Ha Hr | w pix p _ Hi Hnone Hn].
  - intros _. exists info. split; [done |]. rewrite Ht. by apply start_coherent.
  - pose proof (run_drawing_inv d w Hi Ha) as H. unfold pwp in H. by rewrite Hr in H.
  - intros Hf. destruct (Hi Hf) as (info & Hs & C). exists info. split; [done |]. by apply create_coherent.
Qed.

(** C17. The CPU and the GPU do not race, if mapping a buffer waits for the GPU
    ([map_waits]) or all pixmaps with a buffer are mapped when they are created, and if
    PolyFillRect on the GPU is not asked to use a tile or stipple ([allowed]; its
    pixmap is not recorded as read).  Then in any sequence of the drawing operations of
    a screen with glamor and of flushes, during which pixmaps may be created, and
    which is too short to wrap the 64-bit counters ([fits]), no operation of fb touches
    a pixmap that queued or running commands of the GPU write, or writes one that
    they read.  Where mapping does not wait, [first_mapping_races] applies. *)
Theorem cpu_gpu_coherent w : drawn w -> fits w -> hazard (gpu_now w) = false.
Proof. intros Hd Hf. destruct (drawn_inv w Hd Hf) as (info & _ & C). apply (coh_safe _ _ _ _ _ C). Qed.
End Wrappers.

(** ** Where mapping does not wait

    libdrm_amdgpu documents that [amdgpu_bo_cpu_map] only maps the buffer. *)
Section Race.
Context `{env : Env} (scrn pix : loc) (g : gc).

(** Flushed or not, a busy pixmap stays busy. *)
Lemma flush_busy need info bo b p w :
  w_scrns w !! scrn = Some info -> w_bos w !! bo = Some b -> w_pixmaps w !! pix = Some p ->
  pix ∈ busy (gpu_of false (w_trace w)) Rd ->
  wp (mwhen need (amdgpu_glamor_flush scrn))
     (fun _ w' => (exists i, w_scrns w' !! scrn = Some i) /\ w_bos w' !! bo = Some b /\ w_pixmaps w' !! pix = Some p /\
        pix ∈ busy (gpu_of false (w_trace w')) Rd) w.
Proof.
  intros Hs Hb Hp Hg. apply wp_mwhen; intros _; [| by eauto]. unfold amdgpu_glamor_flush.
  apply wp_bind, (wp_load _ _ info); [done |]. apply wp_bind, wp_mwhen; intros _.
  - wp_ext. apply (wp_update _ _ info); [exact Hs |]. split_and!; [eexists; apply lookup_insert_eq | done | done |].
    match goal with |- pix ∈ busy (gpu_of false (w_trace ?v)) Rd =>
      change (gpu_of false (w_trace v)) with (gpu_step false (Notify "glamor_block_handler" [Zpos scrn]) (gpu_of false (w_trace w))) end.
    rewrite gpu_step_flush. unfold busy in *. cbn. set_solver.
  - apply (wp_update _ _ info); [exact Hs |]. split_and!; [eexists; apply lookup_insert_eq | done | done | exact Hg].
Qed.

(** When mapping a buffer does not wait for the GPU, the first access of the CPU
    to a pixmap can race: [amdgpu_glamor_prepare_access_cpu] maps the buffer and marks
    everything as synced, but has waited for nothing, so the CPU writes to a pixmap
    the GPU is filling. *)
Theorem first_mapping_races w info p pr bo b ptr :
  w_scrns w !! scrn = Some info -> w_pixmaps w !! pix = Some p -> usage_hint p = AMDGPU_CREATE_PIXMAP_SCANOUT ->
  pix_priv p = Some pr -> devPrivate_ptr p = 0 -> priv_bo pr = Some bo -> w_bos w !! bo = Some b -> is_gbm b = false ->
  (forall history, reply history (AmdgpuBoCpuMap (bo_handle b)) = (0, ptr)) ->
  wp (_ ← amdgpu_glamor_poly_fill_rect scrn pix g; amdgpu_glamor_put_image scrn pix)
     (fun _ w' => hazard (gpu_of false (w_trace w')) = true) w.
Proof.
  intros Hs Hp Hu Hpr Hptr Hbo Hb Hgbm Hmap.
  apply wp_bind. unfold amdgpu_glamor_poly_fill_rect. apply wp_bind, (wp_load _ _ info); [done |].
  apply wp_bind, (wp_load _ _ p); [done |].
  assert (Hgpu : (force_accel info || amdgpu_glamor_use_gpu p) && amdgpu_glamor_prepare_access_gpu p = true).
  { unfold amdgpu_glamor_use_gpu, amdgpu_glamor_prepare_access_gpu. rewrite Hu, Hpr. by rewrite orb_true_r. }
  rewrite Hgpu. apply wp_bind. wp_ext. unfold amdgpu_glamor_finish_access_gpu_rw, get_priv.
  apply wp_bind, (wp_load _ _ info); [exact Hs |]. apply wp_bind, wp_bind, (wp_load _ _ p); [exact Hp |]. apply wp_ret, wp_bind.
  apply (wp_some_or _ _ pr); [done |]. set (pr' := setf gpu_write _ _). unfold set_priv. apply (wp_update _ _ p); [exact Hp |].
  set (p' := setf pix_priv _ p). set (w1 := setf w_pixmaps _ _).
  assert (Hs1 : w_scrns w1 !! scrn = Some info) by exact Hs. assert (Hb1 : w_bos w1 !! bo = Some b) by exact Hb.
  assert (Hp1 : w_pixmaps w1 !! pix = Some p') by apply lookup_insert_eq.
  assert (Hg1 : pix ∈ busy (gpu_of false (w_trace w1)) Rd).
  { change (gpu_of false (w_trace w1)) with (gpu_step false (GlamorDraw "PolyFillRect" pix (gc_reads g)) (gpu_of false (w_trace w))).
    unfold busy. cbn. set_solver. }
  assert (Hpp : pix_priv p' = Some pr' /\ devPrivate_ptr p' = 0 /\ priv_bo pr' = Some bo) by done.
  clearbody w1 p' pr'. clear w Hs Hp Hb p Hu Hpr Hptr pr Hbo Hgpu. destruct Hpp as (Hpr & Hptr & Hbo).
  unfold amdgpu_glamor_put_image, fb_without_gc, amdgpu_glamor_prepare_access_cpu_rw, get_priv.
  apply wp_bind, wp_bind, wp_bind, (wp_load _ _ p'); [done |]. apply wp_ret. rewrite Hpr. apply wp_bind, (wp_load _ _ info); [done |].
  unfold amdgpu_glamor_prepare_access_cpu. apply wp_bind.
  eapply wp_mono; [by apply (flush_busy _ info bo b p') |].
  intros [] w2 ([i Hs2] & Hb2 & Hp2 & Hg2). clear w1 Hs1 Hb1 Hp1 Hg1.
  apply wp_bind, (wp_load _ _ p'); [done |]. rewrite Hptr. cbn [Z.eqb]. apply wp_bind, (wp_deref _ bo); [done |].
  apply wp_bind. unfold amdgpu_bo_map. apply wp_bind, (wp_load _ _ b); [done |]. rewrite Hgbm. apply wp_bind. wp_ext. rewrite Hmap.
  apply wp_bind. cbn [Z.eqb mwhen]. apply (wp_update _ _ b); [exact Hb2 |]. apply wp_ret. cbn [negb Z.eqb].
  apply wp_bind, (wp_load _ _ (setf cpu_ptr (fun _ => ptr) b)); [apply lookup_insert_eq |].
  apply wp_bind, (wp_update _ _ p'); [exact Hp2 |]. apply wp_bind. unfold set_synced. apply (wp_update _ _ i); [exact Hs2 |].
  apply wp_ret. cbn [mwhen]. wp_ext.
  match goal with |- hazard (gpu_of false (w_trace ?v)) = true =>
    change (gpu_of false (w_trace v)) with (gpu_step false (FbDraw "PutImage" pix []) (gpu_of false (w_trace w2))) end.
  cbn. rewrite (bool_decide_eq_true_2 _ Hg2). by rewrite orb_true_r.
Qed.
End Race.

(** ** A concrete run: the GPU fills a scanout pixmap, then the CPU draws to it. *)
Definition sample_pixmap : pixmap :=
  Sample.pix <| pix_priv := Some (priv0 <| priv_bo := Some 4%positive |>) |> <| usage_hint := AMDGPU_CREATE_PIXMAP_SCANOUT |>.
Definition plain_gc : gc := GC None None 0.
Definition sample_world : world := Sample.w <| w_pixmaps := {[2%positive := sample_pixmap]} |>.
Definition sample_fill : world := after (amdgpu_glamor_poly_fill_rect (env := Sample.env) 1 2 plain_gc) sample_world.
Definition sample_put : world := after (amdgpu_glamor_put_image (env := Sample.env) 1 2) sample_fill.

Lemma cpu_gpu_coherent_witness :
  hazard (gpu_now true sample_put) = false /\ 2%positive ∈ busy (gpu_now true sample_fill) Wr.
Proof.
  split; [| vm_compute; reflexivity].
  apply (cpu_gpu_coherent (env := Sample.env) true 1); [| vm_compute; reflexivity].
  apply (drawn_op _ _ sample_fill (PutImage 2)); [| done | vm_compute; reflexivity].
  apply (drawn_op _ _ sample_world (PolyFillRect 2 plain_gc)); [| done | vm_compute; reflexivity].
  apply (drawn_start _ _ _ Sample.scrn); try reflexivity.
  intros pix p Hp. change (w_pixmaps sample_world) with ({[2%positive := sample_pixmap]} : gmap loc pixmap) in Hp.
  apply lookup_singleton_Some in Hp as [<- <-]. intros pr [= <-]. split_and!; [done | done | by left].
Defined.

Lemma first_mapping_races_witness :
  wp (_ ← amdgpu_glamor_poly_fill_rect (env := Sample.env) 1 2 plain_gc; amdgpu_glamor_put_image (env := Sample.env) 1 2)
     (fun _ w' => hazard (gpu_of false (w_trace w')) = true) sample_world.
Proof.
  by apply (first_mapping_races (env := Sample.env) 1 2 plain_gc sample_world Sample.scrn sample_pixmap
    (priv0 <| priv_bo := Some 4%positive |>) 4 (Buffer 21 0 1 0) 8192).
Defined.
