(* ===== verification/Leases.v ===== *)
(** * Leases: src/src/drmmode_display.c

    A client can lease CRTCs and outputs from the server; the kernel then gives it a
    file descriptor that controls them.  The driver remembers the number the kernel
    gave the lessee in the private data of the server's lease, until the lease is
    revoked or the kernel says that the lessee has gone. *)
From stdpp Require Import strings.
From S2P Require Import Prelude Modes Region World Fb Queue Bo PixmapFb Crtc Keeps.

Definition lease_BadValue : Z := 2.
Definition lease_BadMatch : Z := 8.
Definition lease_BadAlloc : Z := 11.
Definition lease_Success : Z := 0.
Definition SIZE_MAX : Z := 2 ^ 64 - 1.

Section Code.
Context `{env : Env}.

Definition w_leases (w : world) : gmap loc lease := leases (w_entity w).
#[export] Instance set_leases : Setter w_leases := fun f => setf w_entity (setf leases f).

(** The server's [xf86CrtcLeaseTerminated], which takes the lease off the list of
    the screen. *)
Definition xf86CrtcLeaseTerminated (scrn l : loc) : D unit :=
  _ ← call (Notify "xf86CrtcLeaseTerminated" [Zpos l]);
  update w_scrns scrn (setf conf (setf cf_leases (filter (fun k => k <> l)))).

(** [free(lease_private); lease->devPrivate = NULL;] *)
Definition free_lease_private (l : loc) : D unit := update w_leases l (setf lessee_id (fun _ => None)).

Definition validate_lease (scrn : loc) (lessees : list Z) (l : loc) : D unit :=
  x ← load w_leases l;
  id ← some_or NullDeref (lessee_id x);
  if existsb (Z.eqb id) lessees then mret tt
  else _ ← free_lease_private l; xf86CrtcLeaseTerminated scrn l.

Definition drmmode_validate_leases (scrn : loc) : D unit :=
  info ← load w_scrns scrn;
  if negb (vtSema info) then mret tt
  else
    r ← call DrmModeListLessees;
    match r with
    | None => mret tt
    | Some lessees => mfor (cf_leases (conf info)) (validate_lease scrn lessees)
    end.

(** The identifiers of the objects of a lease: its CRTCs, then its outputs. *)
Fixpoint lease_crtc_ids (l : list loc) : D (list Z) :=
  match l with
  | [] => mret []
  | c :: r => d ← get_dcrtc c; ids ← lease_crtc_ids r; mret (mode_crtc_id d :: ids)
  end.
Fixpoint lease_connector_ids (l : list loc) : D (list Z) :=
  match l with
  | [] => mret []
  | o :: r =>
      out ← load w_outputs o;
      k ← some_or NullDeref (mode_output out);
      ids ← lease_connector_ids r;
      mret (conn_id k :: ids)
  end.

(** The error of RandR, or the file descriptor for the client. *)
Definition drmmode_create_lease (l : loc) : D (Z + Z) :=
  x ← load w_leases l;
  let ncrtc := Z.of_nat (length (lease_crtcs x)) in
  let noutput := Z.of_nat (length (lease_outputs x)) in
  let nobjects := u64 (ncrtc + noutput) in
  if (nobjects =? 0) || (nobjects >? SIZE_MAX / 4) || (ncrtc >? SIZE_MAX - noutput) then mret (inl lease_BadValue)
  else
    ok ← call (Calloc "drmmode_lease_private_rec");
    if negb ok then mret (inl lease_BadAlloc)
    else
      ok ← call (Calloc "objects");
      if negb ok then mret (inl lease_BadAlloc)
      else
        cs ← lease_crtc_ids (lease_crtcs x);
        os ← lease_connector_ids (lease_outputs x);
        r ← call (DrmModeCreateLease (cs ++ os));
        match r with
        | None => mret (inl lease_BadMatch)
        | Some (fd, id) =>
            _ ← update w_leases l (setf lessee_id (fun _ => Some id));
            _ ← call (Notify "xf86CrtcLeaseStarted" [Zpos l]);
            mret (inr fd)
        end.

Definition drmmode_terminate_lease (scrn l : loc) : D unit :=
  x ← load w_leases l;
  id ← some_or NullDeref (lessee_id x);
  r ← call (DrmModeRevokeLease id);
  mwhen (r =? 0) (_ ← free_lease_private l; xf86CrtcLeaseTerminated scrn l).
End Code.

(** ** Keeping the queue *)
Section Keeps.
Context `{env : Env}.

Lemma keeps_update_leases l f : keeps (update w_leases l f).
Proof.
  apply keeps_bind; [keeps_auto |]. intros x. apply keeps_modify. intros w Hw. by apply kept_frame.
Qed.
Lemma conf_keeps scrn f : keeps (update w_scrns scrn (setf conf f)).
Proof. keeps_auto. Qed.
#[local] Hint Resolve keeps_update_leases conf_keeps : keeps.
Lemma lease_terminated_keeps scrn l : keeps (xf86CrtcLeaseTerminated scrn l).
Proof. unfold xf86CrtcLeaseTerminated. keeps_auto. Qed.
#[local] Hint Resolve lease_terminated_keeps : keeps.
Lemma validate_leases_keeps scrn : keeps (drmmode_validate_leases scrn).
Proof. unfold drmmode_validate_leases, validate_lease, free_lease_private. keeps_auto. Qed.
Lemma lease_crtc_ids_keeps l : keeps (lease_crtc_ids l).
Proof. induction l; cbn [lease_crtc_ids]; keeps_auto. Qed.
Lemma lease_connector_ids_keeps l : keeps (lease_connector_ids l).
Proof. induction l; cbn [lease_connector_ids]; keeps_auto. Qed.
#[local] Hint Resolve lease_crtc_ids_keeps lease_connector_ids_keeps : keeps.
Lemma create_lease_keeps l : keeps (drmmode_create_lease l).
Proof. unfold drmmode_create_lease. keeps_auto. Qed.
Lemma terminate_lease_keeps scrn l : keeps (drmmode_terminate_lease scrn l).
Proof. unfold drmmode_terminate_lease, free_lease_private. keeps_auto. Qed.
End Keeps.
#[export] Hint Resolve validate_leases_keeps create_lease_keeps terminate_lease_keeps : keeps.

(** ** Which leases there are *)

Lemma list_filter_ext_in {A} (P Q : A -> Prop) `{!forall x, Decision (P x), !forall x, Decision (Q x)} (l : list A) :
  (forall x, x ∈ l -> P x <-> Q x) -> filter P l = filter Q l.
Proof.
  intros HPQ. induction l as [|x l IH]; [done |]. rewrite !filter_cons, IH by (intros; apply HPQ; by right).
  assert (P x <-> Q x) by (apply HPQ; by left). repeat case_decide; tauto.
Qed.

Definition lessee_of (w : world) (l : loc) : option Z := w_leases w !! l ≫= lessee_id.
Definition lease_list (w : world) (scrn : loc) : list loc :=
  match w_scrns w !! scrn with Some info => cf_leases (conf info) | None => [] end.

(** The kernel still has the lessee. *)
Definition known (w : world) (lessees : list Z) (l : loc) : bool :=
  match lessee_of w l with Some id => bool_decide (id ∈ lessees) | None => false end.

(** Every lease on the list of the screen has its private data. *)
Record lease_ok (scrn : loc) (w : world) : Prop := {
  lo_scrn : is_Some (w_scrns w !! scrn);
  lo_private : forall l, l ∈ lease_list w scrn -> is_Some (lessee_of w l);
  lo_nodup : NoDup (lease_list w scrn)
}.

(** What the server asks for; it puts a new lease on the list when it was granted. *)
Inductive lease_op : Type :=
| CreateLease (l : loc)
| TerminateLease (l : loc)
| ValidateLeases.

Section Lifecycle.
Context `{env : Env} (scrn : loc).

Definition run_lease_op (op : lease_op) : D unit :=
  match op with
  | CreateLease l =>
      r ← drmmode_create_lease l;
      match r with
      | inl _ => mret tt
      | inr _ => update w_scrns scrn (setf conf (setf cf_leases (cons l)))
      end
  | TerminateLease l => drmmode_terminate_lease scrn l
  | ValidateLeases => drmmode_validate_leases scrn
  end.

(** A new lease is not on the list, and what it leases exists; one that is
    terminated is on the list. *)
Definition lease_request (op : lease_op) (w : world) : Prop :=
  match op with
  | CreateLease l => l ∉ lease_list w scrn /\ exists x, w_leases w !! l = Some x /\
      (forall c, c ∈ lease_crtcs x -> is_Some (w_crtcs w !! c)) /\
      (forall o, o ∈ lease_outputs x -> exists out k, w_outputs w !! o = Some out /\ mode_output out = Some k)
  | TerminateLease l => l ∈ lease_list w scrn
  | ValidateLeases => True
  end.

Lemma lease_ok_frame w w' :
  w_scrns w' = w_scrns w -> w_entity w' = w_entity w -> lease_ok scrn w -> lease_ok scrn w'.
Proof.
  intros Hs He [H1 H2 H3].
  split; unfold lease_list, lessee_of, w_leases in *; rewrite ?Hs, ?He; done.
Qed.

(** A lease that ends: its private data is freed and it leaves the list. *)
Lemma wp_end_lease l x info (Q : unit -> world -> Prop) w :
  w_leases w !! l = Some x -> w_scrns w !! scrn = Some info ->
  (forall w', lessee_of w' l = None -> (forall k, k <> l -> lessee_of w' k = lessee_of w k) ->
     w_scrns w' = <[scrn := info <| conf ::= setf cf_leases (filter (fun k => k <> l)) |>]> (w_scrns w) -> Q tt w') ->
  wp (_ ← free_lease_private l; xf86CrtcLeaseTerminated scrn l) Q w.
Proof.
  intros Hl Hs HQ. apply wp_bind, (wp_update _ _ x); [done |]. apply wp_bind. wp_ext.
  apply (wp_update _ _ info); [done |]. apply HQ; [| | done]; unfold lessee_of, w_leases, setf; cbn.
  - by rewrite lookup_insert_eq.
  - intros k Hk. by rewrite lookup_insert_ne.
Qed.

Lemma wp_validate_loop lessees ls : forall (Q : unit -> world -> Prop) w,
  NoDup ls -> (forall l, l ∈ ls -> is_Some (lessee_of w l)) -> is_Some (w_scrns w !! scrn) ->
  (forall w', is_Some (w_scrns w' !! scrn) ->
     lease_list w' scrn = filter (fun l => l ∉ ls \/ known w lessees l = true) (lease_list w scrn) ->
     (forall l, l ∉ ls \/ known w lessees l = true -> lessee_of w' l = lessee_of w l) ->
     Q tt w') ->
  wp (mfor ls (validate_lease scrn lessees)) Q w.
Proof.
  induction ls as [|l ls IH]; intros Q w Hnd Hp [info Hs] HQ; cbn [mfor].
  { apply wp_ret, HQ; [by eexists | | done]. symmetry. apply list_filter_all. apply Forall_forall. intros l _. left. set_solver. }
  apply NoDup_cons in Hnd as [Hl Hnd]. destruct (Hp l (list_elem_of_here l ls)) as [id Hid].
  assert (Hx : exists x, w_leases w !! l = Some x /\ lessee_id x = Some id).
  { unfold lessee_of in Hid. destruct (w_leases w !! l) as [x|] eqn:Hx; [by exists x | done]. }
  destruct Hx as (x & Hx & Hxid). unfold validate_lease at 1.
  apply wp_bind, wp_bind, (wp_load _ _ x); [done |]. apply wp_bind, (wp_some_or _ _ id); [done |].
  assert (Hk : existsb (Z.eqb id) lessees = known w lessees l).
  { unfold known. rewrite Hid. apply eq_true_iff_eq. rewrite existsb_exists, bool_decide_eq_true.
    setoid_rewrite Z.eqb_eq. setoid_rewrite <- list_elem_of_In. naive_solver. }
  rewrite Hk. destruct (known w lessees l) eqn:Hkn.
  - apply wp_ret. apply IH; [done | | by eexists |]. { intros k Hk'. apply Hp. by right. }
    intros w' Hs' Hl' Hle. apply HQ; [done | |].
    + rewrite Hl'. apply list_filter_iff. intros k. destruct (decide (k = l)) as [->|Hne]; [| set_solver].
      split; [intros _; by right | intros _; by left].
    + intros k Hk'. apply Hle. destruct (decide (k = l)) as [->|Hne]; [by left | set_solver].
  - eapply wp_end_lease; [done | done |]. intros w1 H1 H2 H3.
    assert (Hs1 : w_scrns w1 !! scrn = Some (info <| conf ::= setf cf_leases (filter (fun k => k <> l)) |>))
      by (rewrite H3; apply lookup_insert_eq).
    assert (Hll : lease_list w1 scrn = filter (fun k => k <> l) (lease_list w scrn))
      by (unfold lease_list; by rewrite Hs1, Hs).
    assert (Hk1 : forall k, k <> l -> known w1 lessees k = known w lessees k)
      by (intros k Hne; unfold known; by rewrite H2).
    apply IH; [done | | by eexists |].
    { intros k Hkin. rewrite H2 by (by intros ->). apply Hp. by right. }
    intros w' Hs' Hl' Hle. apply HQ; [done | |].
    + rewrite Hl', Hll, list_filter_filter. apply list_filter_iff. intros k. destruct (decide (k = l)) as [->|Hne].
      * split; [by intros [_ ?] | intros [?|?]; [set_solver | congruence]].
      * rewrite (Hk1 k) by done. set_solver.
    + intros k Hkin. assert (k <> l) by (intros ->; destruct Hkin; [set_solver | congruence]).
      rewrite Hle; [by apply H2 |]. rewrite Hk1 by done. set_solver.
Qed.

(** The identifiers the kernel is asked to lease. *)
Definition crtc_ids_of (w : world) (l : list loc) : list Z :=
  omap (fun c => (fun x => mode_crtc_id (driver_private x)) <$> w_crtcs w !! c) l.
Definition connector_ids_of (w : world) (l : list loc) : list Z :=
  omap (fun o => w_outputs w !! o ≫= fun out => conn_id <$> mode_output out) l.

Lemma wp_lease_crtc_ids l (Q : list Z -> world -> Prop) w :
  (forall c, c ∈ l -> is_Some (w_crtcs w !! c)) -> Q (crtc_ids_of w l) w -> wp (lease_crtc_ids l) Q w.
Proof.
  revert Q. induction l as [|c l IH]; intros Q Hl HQ; cbn [lease_crtc_ids]; [by apply wp_ret |].
  destruct (Hl c (list_elem_of_here c l)) as [x Hx]. apply wp_bind, (wp_get_dcrtc _ x); [done |].
  apply wp_bind, IH; [intros k Hk; apply Hl; by right |]. apply wp_ret.
  unfold crtc_ids_of in *. cbn in HQ. by rewrite Hx in HQ.
Qed.
Lemma wp_lease_connector_ids l (Q : list Z -> world -> Prop) w :
  (forall o, o ∈ l -> exists out k, w_outputs w !! o = Some out /\ mode_output out = Some k) ->
  Q (connector_ids_of w l) w -> wp (lease_connector_ids l) Q w.
Proof.
  revert Q. induction l as [|o l IH]; intros Q Hl HQ; cbn [lease_connector_ids]; [by apply wp_ret |].
  destruct (Hl o (list_elem_of_here o l)) as (out & k & Ho & Hk). apply wp_bind, (wp_load _ _ out); [done |].
  apply wp_bind, (wp_some_or _ _ k); [done |].
  apply wp_bind, IH; [intros x Hx; apply Hl; by right |]. apply wp_ret.
  unfold connector_ids_of in *. cbn in HQ. rewrite Ho in HQ. cbn in HQ. by rewrite Hk in HQ.
Qed.

(** The number of the lessee, if the lease [x] has a size the driver accepts, memory is
    available and the kernel grants the objects. *)
Definition granted (w : world) (x : lease) : option Z :=
  let ncrtc := Z.of_nat (length (lease_crtcs x)) in
  let noutput := Z.of_nat (length (lease_outputs x)) in
  let nobjects := u64 (ncrtc + noutput) in
  let t1 := Calloc "drmmode_lease_private_rec" :: w_trace w in
  if (nobjects =? 0) || (nobjects >? SIZE_MAX / 4) || (ncrtc >? SIZE_MAX - noutput) then None
  else if reply (w_trace w) (Calloc "drmmode_lease_private_rec") && reply t1 (Calloc "objects") then
    snd <$> reply (Calloc "objects" :: t1)
              (DrmModeCreateLease (crtc_ids_of w (lease_crtcs x) ++ connector_ids_of w (lease_outputs x)))
  else None.

(** A lease is refused without a trace, or has the number of its lessee. *)
Lemma wp_create_lease l x (Q : Z + Z -> world -> Prop) w :
  w_leases w !! l = Some x -> (forall c, c ∈ lease_crtcs x -> is_Some (w_crtcs w !! c)) ->
  (forall o, o ∈ lease_outputs x -> exists out k, w_outputs w !! o = Some out /\ mode_output out = Some k) ->
  (forall e w', granted w x = None -> w_scrns w' = w_scrns w -> w_entity w' = w_entity w -> Q (inl e) w') ->
  (forall id fd w', granted w x = Some id -> w_scrns w' = w_scrns w -> lessee_of w' l = Some id ->
     (forall k, k <> l -> lessee_of w' k = lessee_of w k) -> Q (inr fd) w') ->
  wp (drmmode_create_lease l) Q w.
Proof.
  intros Hl Hc Ho HE HO. unfold drmmode_create_lease. apply wp_bind, (wp_load _ _ x); [done |]. cbv zeta.
  unfold granted in HE, HO. cbv zeta in HE, HO. destruct (_ || _); [by apply wp_ret, HE |].
  apply wp_bind. wp_ext. destruct (reply (w_trace w) _); cbn [negb andb] in *; [| by apply wp_ret, HE].
  apply wp_bind. wp_ext.
  change (w_trace (setf w_trace (cons (Calloc "drmmode_lease_private_rec")) w)) with (Calloc "drmmode_lease_private_rec" :: w_trace w).
  destruct (reply (_ :: w_trace w) _); cbn [negb] in *; [| by apply wp_ret, HE].
  apply wp_bind, wp_lease_crtc_ids; [done |]. apply wp_bind, wp_lease_connector_ids; [done |].
  apply wp_bind. wp_ext.
  match goal with |- context [reply (w_trace ?v) (DrmModeCreateLease ?ids)] => set (r := reply (w_trace v) (DrmModeCreateLease ids)) end.
  match type of HE with context [snd <$> ?v] => change (snd <$> v) with (snd <$> r) in HE, HO end.
  destruct r as [[fd id]|]; [| by apply wp_ret, HE].
  apply wp_bind, (wp_update _ _ x); [done |]. apply wp_bind. wp_ext. apply wp_ret.
  apply (HO id); [done | done | |]; unfold lessee_of, w_leases, setf; cbn.
  - by rewrite lookup_insert_eq.
  - intros k Hk. by rewrite lookup_insert_ne.
Qed.

(** C20. Leases follow the kernel.  In a state where every lease on the list of the
    screen has its private data, and for a request of the server whose CRTCs and outputs
    exist and whose outputs have a connector, creating, terminating and validating leases
    does not fault and gives such a state again.  A lease is granted exactly if its size
    is accepted, memory is available and the kernel grants it, and then has the number of
    the lessee (the server puts it on the list); one that is terminated leaves the list
    exactly if the kernel revokes it; and after [drmmode_validate_leases], while the
    server has the terminal and the kernel lists its lessees, the leases left are those
    the kernel knows. *)
Theorem lease_lifecycle op w :
  lease_ok scrn w -> lease_request op w ->
  wp (run_lease_op op) (fun _ w' => lease_ok scrn w' /\
    match op with
    | CreateLease l =>
        forall x, w_leases w !! l = Some x ->
          match granted w x with
          | Some id => lease_list w' scrn = l :: lease_list w scrn /\ lessee_of w' l = Some id
          | None => w_scrns w' = w_scrns w /\ w_leases w' = w_leases w
          end
    | TerminateLease l =>
        forall id, lessee_of w l = Some id ->
          if reply (w_trace w) (DrmModeRevokeLease id) =? 0
          then lease_list w' scrn = filter (fun k => k <> l) (lease_list w scrn) /\ lessee_of w' l = None
          else w_scrns w' = w_scrns w /\ w_leases w' = w_leases w
    | ValidateLeases =>
        forall info lessees, w_scrns w !! scrn = Some info -> vtSema info = true ->
          reply (w_trace w) DrmModeListLessees = Some lessees ->
          lease_list w' scrn = filter (fun l => known w lessees l = true) (lease_list w scrn)
    end) w.
Proof.
  intros Hok Hr. destruct (lo_scrn _ _ Hok) as [info Hs]. destruct op as [l|l|]; cbn [run_lease_op].
  - destruct Hr as (Hnl & x & Hx & Hc & Ho). apply wp_bind. eapply wp_create_lease; [done | done | done | |].
    + intros e w' Hg Hs' He. apply wp_ret. split; [by apply (lease_ok_frame w) |]. intros x' [= <-]%(eq_trans (eq_sym Hx)).
      rewrite Hg. unfold w_leases. by rewrite He.
    + intros id fd w' Hg Hs' Hl Hk. apply (wp_update _ _ info); [by rewrite Hs' |].
      assert (Hll : lease_list (setf w_scrns <[scrn := setf conf (setf cf_leases (cons l)) info]> w') scrn = l :: lease_list w scrn)
        by (unfold lease_list; cbn; by rewrite lookup_insert_eq, Hs).
      split; [| intros x' [= <-]%(eq_trans (eq_sym Hx)); by rewrite Hg].
      split; [cbn; rewrite lookup_insert_eq; by eexists | |]; rewrite Hll.
      * intros k [->|Hin]%elem_of_cons; [by exists id |]. change (is_Some (lessee_of w' k)).
        rewrite Hk by (by intros ->). by apply (lo_private _ _ Hok).
      * apply NoDup_cons. split; [done | apply (lo_nodup _ _ Hok)].
  - destruct (lo_private _ _ Hok l Hr) as [id Hid]. pose proof Hid as Hid'. unfold lessee_of in Hid.
    destruct (w_leases w !! l) as [x|] eqn:Hx; [| done]. cbn in Hid.
    apply wp_bind, (wp_load _ _ x); [done |]. apply wp_bind, (wp_some_or _ _ id); [done |]. apply wp_bind. wp_ext.
    destruct (_ =? 0) eqn:Hrev; cbn [mwhen];
      [| apply wp_ret; split; [by apply (lease_ok_frame w) | intros id' [= <-]%(eq_trans (eq_sym Hid')); by rewrite Hrev]].
    eapply (wp_end_lease l x info); [done | done |]. intros w' H1 H2 H3.
    assert (Hll : lease_list w' scrn = filter (fun k => k <> l) (lease_list w scrn))
      by (unfold lease_list; by rewrite H3, lookup_insert_eq, Hs).
    split; [| intros id' [= <-]%(eq_trans (eq_sym Hid')); by rewrite Hrev].
    split; [rewrite H3, lookup_insert_eq; by eexists | |]; rewrite Hll.
    + intros k [Hne Hin]%list_elem_of_filter. rewrite H2 by done. by apply (lo_private _ _ Hok).
    + apply NoDup_filter, (lo_nodup _ _ Hok).
  - unfold drmmode_validate_leases. apply wp_bind, (wp_load _ _ info); [done |].
    destruct (vtSema info) eqn:Hvt; cbn [negb]; [| apply wp_ret; split; [done | intros ? ? [= <-]%(eq_trans (eq_sym Hs)); congruence]].
    apply wp_bind. wp_ext. destruct (reply _ _) as [lessees|] eqn:Hrep.
    2:{ apply wp_ret. split; [by apply (lease_ok_frame w) |]. by intros ? ? ? ? ?. }
    assert (Hcf : cf_leases (conf info) = lease_list w scrn) by (unfold lease_list; by rewrite Hs). rewrite Hcf.
    apply wp_validate_loop; [apply (lo_nodup _ _ Hok) | apply (lo_private _ _ Hok) | by eexists |].
    intros w' Hs' Hll Hle.
    assert (Hll' : lease_list w' scrn = filter (fun l => known w lessees l = true) (lease_list w scrn)).
    { rewrite Hll. change (lease_list (setf w_trace _ w) scrn) with (lease_list w scrn).
      apply list_filter_ext_in. intros l Hl. split; [intros [?|?]; [done | done] | by right]. }
    split; [| by intros ? ? _ _ [= <-]]. split; [done | |]; rewrite Hll'.
    + intros l [Hkn Hin]%list_elem_of_filter. rewrite Hle by (by right). by apply (lo_private _ _ Hok).
    + apply NoDup_filter, (lo_nodup _ _ Hok).
Qed.
End Lifecycle.

(** A lease of an output whose connector has gone crashes the server: the private
    data has no connector any more, and [drmmode_create_lease] reads its identifier. *)
Theorem lease_of_gone_output `{env : Env} l x o out rest w :
  w_leases w !! l = Some x -> lease_outputs x = o :: rest ->
  Z.of_nat (length (lease_crtcs x)) + Z.of_nat (length (lease_outputs x)) < 2 ^ 62 ->
  (forall c, c ∈ lease_crtcs x -> is_Some (w_crtcs w !! c)) ->
  w_outputs w !! o = Some out -> mode_output out = None ->
  (forall t what, reply t (Calloc what) = true) ->
  drmmode_create_lease l w = Fault NullDeref.
Proof.
  intros Hl Ho Hlen Hc Hout Hm Hal. unfold drmmode_create_lease. rewrite (bind_ok _ _ _ x w) by (by apply load_ok).
  cbv zeta. rewrite (u64_id (_ + _)) by (unfold in_u64; lia).
  destruct (Z.eqb_spec (Z.of_nat (length (lease_crtcs x)) + Z.of_nat (length (lease_outputs x))) 0);
    [rewrite Ho in *; cbn in *; lia |].
  unfold SIZE_MAX. rewrite !Z.gtb_ltb.
  destruct (Z.ltb_spec ((2 ^ 64 - 1) / 4) (Z.of_nat (length (lease_crtcs x)) + Z.of_nat (length (lease_outputs x))));
    [change ((2 ^ 64 - 1) / 4) with (2 ^ 62 - 1) in *; lia |].
  destruct (Z.ltb_spec (2 ^ 64 - 1 - Z.of_nat (length (lease_outputs x))) (Z.of_nat (length (lease_crtcs x)))); [lia |].
  cbn [orb]. do 2 (erewrite bind_ok; [| reflexivity]; rewrite Hal; cbn [negb]).
  set (w1 := w <| w_trace ::= _ |> <| w_trace ::= _ |>).
  destruct (wp_elim _ _ _ (wp_lease_crtc_ids (lease_crtcs x) (fun _ w' => w' = w1) w1 Hc ltac:(done))) as (ids & w' & Hids & ->).
  rewrite (bind_ok _ _ _ _ _ Hids). apply bind_fault. rewrite Ho. cbn [lease_connector_ids].
  rewrite (bind_ok _ _ _ out w1) by (by apply load_ok). by rewrite Hm.
Qed.

(** ** A lease of one CRTC and one output *)
Definition lease_output (k : option drmModeConnector) : xf86Output := Output None "DisplayPort-1" 55 k [] 0 [] 0 0 0 0 0 false.
Definition lease_world (k : option drmModeConnector) : world :=
  Sample.w <| w_outputs := {[7%positive := lease_output k]} |>
           <| w_entity ::= setf leases (fun _ => {[8%positive := Lease [3%positive] [7%positive] None]}) |>.
Definition lease_connector : drmModeConnector := Connector 55 10 1 1 0 [] [] [].

Lemma lease_lifecycle_witness :
  lease_ok 1 (lease_world (Some lease_connector)) /\
  wp (run_lease_op (env := Sample.env) 1 (CreateLease 8)) (fun _ w' => lease_ok 1 w') (lease_world (Some lease_connector)) /\
  returns (_ ← run_lease_op (env := Sample.env) 1 (CreateLease 8); run_lease_op (env := Sample.env) 1 (TerminateLease 8))
    (lease_world (Some lease_connector)) = true.
Proof.
  assert (Hok : lease_ok 1 (lease_world (Some lease_connector))).
  { split; [by eexists | | constructor]. intros l Hl. by apply elem_of_nil in Hl. }
  split; [exact Hok |]. split; [| vm_compute; reflexivity].
  eapply wp_mono; [apply (lease_lifecycle (env := Sample.env) 1 (CreateLease 8)); [exact Hok |] | by intros _ w' [H _]].
  split; [apply not_elem_of_nil |]. eexists. split; [reflexivity |]. split.
  - intros c ->%list_elem_of_singleton. by eexists.
  - intros o ->%list_elem_of_singleton. by eexists _, _.
Defined.

Lemma lease_of_gone_output_witness : drmmode_create_lease (env := Sample.env) 8 (lease_world None) = Fault NullDeref.
Proof.
  apply (lease_of_gone_output (env := Sample.env) 8 (Lease [3%positive] [7%positive] None) 7 (lease_output None) []);
    [reflexivity | reflexivity | cbn; lia | | reflexivity | reflexivity | reflexivity].
  intros c ->%list_elem_of_singleton. by eexists.
Defined.
