(* ===== verification/Screen.v ===== *)
(** * Screens: virtual terminals, blanking, resizing, initial modes

    The functions of src/src/amdgpu_kms.c that the server calls for a whole screen
    (damage callbacks, [AMDGPUEnterVT_KMS], [AMDGPULeaveVT_KMS],
    [AMDGPUSaveScreen_KMS], [amdgpu_setup_kernel_mem]) and those of
    src/src/drmmode_display.c ([drmmode_xf86crtc_resize],
    [drmmode_set_desired_modes], [drmmode_setup_colormap]). *)
From stdpp Require Import strings.
From S2P Require Import Prelude Modes Region World Video Lut Cursor Fb DriState Queue Bo PixmapFb Crtc Keeps Scanout Modeset.
From S2P Require Import CursorHw Prime Color Leases Wrappers.

Definition AMDGPU_GPU_PAGE_SIZE : Z := 4096.
Definition V_DBLSCAN : Z := 0x20.
Definition MODE_OK : Z := 0.
Definition MODE_CLOCK_RANGE : Z := 17.
Definition DRM_CAP_CURSOR_WIDTH : Z := 8.
Definition DRM_CAP_CURSOR_HEIGHT : Z := 9.
Definition AMDGPU_FAMILY_CI : Z := 120.
Definition serverClient : Z := 0.
Definition CURSOR_WIDTH : Z := 64.
Definition CURSOR_WIDTH_CIK : Z := 128.

(** The flags and the two [Crtc] sizes of the mode. *)
Definition AMDGPUValidMode (flags CrtcHDisplay CrtcVDisplay : Z) : Z :=
  if has_bit flags V_DBLSCAN && ((CrtcHDisplay >=? 1024) || (CrtcVDisplay >=? 768)) then MODE_CLOCK_RANGE else MODE_OK.

Section Code.
Context `{env : Env} `{srv : XServer} `{prime : PrimeServer} `{callbacks : Callbacks} `{rot : Rotator}.
(** The option of that name, and whether the RandR extension is there. *)
Context (sw_cursor rr_registered : bool).

(** ** Damage events

    [needs_flush] of the private data of a client for a screen. *)
Definition client_needs_flush (scrn : loc) (client : Z) : D Z :=
  e ← gets w_entity; mret (default 0 (needs_flush e !! (scrn, client))).
Definition set_needs_flush (scrn : loc) (client v : Z) : D unit :=
  modify (setf w_entity (setf needs_flush <[(scrn, client) := v]>)).

Definition callback_needs_flush (gpu_flushed needs_flush : Z) : bool := s32 (u64 (needs_flush - gpu_flushed)) >? 0.

(** [types] are the types of the events about to be sent to the client. *)
Definition amdgpu_event_callback (scrn : loc) (client : Z) (types : list Z) : D unit :=
  info ← load w_scrns scrn;
  c ← client_needs_flush scrn client;
  s ← client_needs_flush scrn serverClient;
  if callback_needs_flush (gpu_flushed info) c || callback_needs_flush (gpu_flushed info) s then mret tt
  else
    _ ← set_needs_flush scrn client (gpu_flushed info);
    _ ← set_needs_flush scrn serverClient (gpu_flushed info);
    mwhen (existsb (Z.eqb (callback_event_type (conf info))) types)
      (c ← client_needs_flush scrn client;
       _ ← set_needs_flush scrn client (u64 (c + 1));
       s ← client_needs_flush scrn serverClient;
       set_needs_flush scrn serverClient (u64 (s + 1))).

(** [None] is a null [call_data]. *)
Definition amdgpu_flush_callback (scrn : loc) (call_data : option Z) : D unit :=
  info ← load w_scrns scrn;
  n ← client_needs_flush scrn (default serverClient call_data);
  mwhen (vtSema info && callback_needs_flush (gpu_flushed info) n) (amdgpu_glamor_flush scrn).

(** ** Blanking *)

Definition crtc_outputs (info : scrn_info) (crtc : loc) (f : loc -> D unit) : D unit :=
  mfor (outputs info) (fun o =>
    out ← load w_outputs o;
    mwhen (bool_decide (out_crtc out = Some crtc)) (f o)).

Definition AMDGPUBlank (fuel : nat) (scrn : loc) : D unit :=
  info ← load w_scrns scrn;
  mfor (crtcs info) (fun crtc =>
    _ ← crtc_outputs info crtc (fun o => drmmode_output_dpms fuel (reset_mode sw_cursor fuel) o DPMSModeOff);
    drmmode_crtc_dpms sw_cursor fuel crtc DPMSModeOff).

Definition AMDGPUUnblank (fuel : nat) (scrn : loc) : D unit :=
  info ← load w_scrns scrn;
  mfor (crtcs info) (fun crtc =>
    c ← load w_crtcs crtc;
    mwhen (enabled c)
      (_ ← drmmode_crtc_dpms sw_cursor fuel crtc DPMSModeOn;
       crtc_outputs info crtc (fun o => drmmode_output_dpms fuel (reset_mode sw_cursor fuel) o DPMSModeOn))).

(** [unblank] is [xf86IsUnblank(mode)]. *)
Definition AMDGPUSaveScreen_KMS (fuel : nat) (scrn : loc) (unblank : bool) : D bool :=
  _ ← mwhen unblank (call (Notify "SetTimeSinceLastInputEvent" []));
  info ← load w_scrns scrn;
  _ ← mwhen (vtSema info) (if unblank then AMDGPUUnblank fuel scrn else AMDGPUBlank fuel scrn);
  mret true.

(** ** Drawing to and giving a texture to the screen pixmap *)

Definition amdgpu_pixmap_clear (pix : loc) : D unit :=
  p ← load w_pixmaps pix;
  let scrn := pix_scrn p in
  info ← load w_scrns scrn;
  ok ← call (GetScratchGC (pix_depth p));
  if negb ok then raise NullDeref
  else
    let g := GC None None 0 in
    ops ← (if shadow_primary info then amdgpu_glamor_validate_gc pix g else mret false);
    _ ← update w_scrns scrn (setf force_accel (fun _ => true));
    _ ← (if ops : bool then amdgpu_glamor_poly_fill_rect scrn pix g
         else if use_glamor info && negb (shadow_primary info) then call (GlamorDraw "PolyFillRect" pix [])
         else call (FbDraw "PolyFillRect" pix []));
    update w_scrns scrn (setf force_accel (fun _ => false)).

Definition amdgpu_glamor_create_screen_resources (scrn : loc) : D bool :=
  info ← load w_scrns scrn;
  if negb (use_glamor info) then mret true
  else front ← deref (front_buffer info); amdgpu_glamor_create_textured_pixmap (screen_pixmap info) front.

(** ** Initial modes *)

(** The output a CRTC shows the screen on: the compat output, or the first. *)
Fixpoint first_output (l : list loc) (crtc : loc) : D (option loc) :=
  match l with
  | [] => mret None
  | o :: r =>
      out ← load w_outputs o;
      if bool_decide (out_crtc out = Some crtc) then mret (Some o) else first_output r crtc
  end.
Definition output_of (info : scrn_info) (crtc : loc) : D (option loc) :=
  compat ← some_or OutOfBounds (outputs info !! Z.to_nat (compat_output (conf info)));
  out ← load w_outputs compat;
  if bool_decide (out_crtc out = Some crtc) then mret (Some compat) else first_output (outputs info) crtc.

(** One CRTC of the second loop; the two counters are passed along. *)
Definition set_desired_mode (fuel : nat) (info : scrn_info) (set_hw : bool) (crtc : loc) (n : Z * Z) : D (Z * Z) :=
  let '(num_desired, num_on) := n in
  c ← load w_crtcs crtc;
  if negb (enabled c) then mret n
  else
    output ← output_of info crtc;
    match output with
    | None => mret n
    | Some o =>
        let num_desired := num_desired + 1 in
        _ ← update w_crtcs crtc (setf crtc_mode (fun _ => zero_mode));
        found ← (if CrtcHDisplay (desiredMode (desired c)) =? 0 then
                   m ← call (FindClosestMode o);
                   match m with
                   | None => mret false
                   | Some mode => _ ← update w_crtcs crtc (setf desired (fun _ => Desired mode RR_Rotate_0 0 0)); mret true
                   end
                 else mret true);
        if negb found then mret (num_desired, num_on)
        else
          c ← load w_crtcs crtc;
          let d := desired c in
          if set_hw then
            ok ← drmmode_set_mode_major sw_cursor fuel crtc (Some (desiredMode d)) (desiredRotation d) (desiredX d) (desiredY d);
            if ok : bool then mret (num_desired, num_on + 1)
            else
              c ← load w_crtcs crtc;
              _ ← call (Notify "RRCrtcSet" [Zpos crtc; crtc_x c; crtc_y c; rotation c]);
              mret (num_desired, num_on)
          else
            _ ← update w_crtcs crtc (fun c => c <| crtc_mode := desiredMode d |> <| rotation := desiredRotation d |>
                  <| crtc_x := desiredX d |> <| crtc_y := desiredY d |>);
            ok ← drmmode_handle_transform crtc;
            mret (num_desired, if ok : bool then num_on + 1 else num_on)
    end.

Fixpoint set_desired_loop (fuel : nat) (info : scrn_info) (set_hw : bool) (l : list loc) (n : Z * Z) : D (Z * Z) :=
  match l with
  | [] => mret n
  | crtc :: r => n' ← set_desired_mode fuel info set_hw crtc n; set_desired_loop fuel info set_hw r n'
  end.

Definition drmmode_set_desired_modes (fuel : nat) (scrn : loc) (set_hw : bool) : D bool :=
  info ← load w_scrns scrn;
  _ ← mwhen set_hw
        (mfor (crtcs info) (fun crtc =>
           c ← load w_crtcs crtc;
           mwhen (negb (enabled c)) (drmmode_crtc_dpms sw_cursor fuel crtc DPMSModeOff)));
  n ← set_desired_loop fuel info set_hw (crtcs info) (0, 0);
  let '(num_desired, num_on) := n in
  if (num_on =? 0) && (num_desired >? 0) then mret false
  else _ ← mwhen rr_registered (drmmode_validate_leases scrn); mret true.

Definition AMDGPUWindowExposures_oneshot (fuel : nat) (scrn : loc) : D unit :=
  _ ← update w_scrns scrn (setf exposures_oneshot (fun _ => false));
  _ ← call (Notify "WindowExposures" [Zpos scrn]);
  _ ← amdgpu_glamor_finish scrn;
  _ ← drmmode_set_desired_modes fuel scrn true;
  mret tt.

Definition drmmode_adjust_frame (fuel : nat) (scrn : loc) (x y : Z) : D unit :=
  info ← load w_scrns scrn;
  o ← some_or OutOfBounds (outputs info !! Z.to_nat (compat_output (conf info)));
  out ← load w_outputs o;
  match out_crtc out with
  | None => mret tt
  | Some crtc =>
      c ← load w_crtcs crtc;
      mwhen (enabled c)
        (_ ← drmmode_set_mode_major sw_cursor fuel crtc (Some (crtc_mode c)) (rotation c) x y; mret tt)
  end.

(** ** Master of the device *)

(** Whether the driver is master afterwards. *)
Definition amdgpu_set_drm_master : D bool :=
  e ← gets w_entity;
  if server_fd e then mret true else err ← call DrmSetMaster; mret (err =? 0).
Definition amdgpu_drop_drm_master : D unit :=
  e ← gets w_entity;
  if server_fd e then mret tt else call DrmDropMaster.

(** ** Leaving and entering the virtual terminal *)

Definition pixmap_unref_fb (pix : loc) : D unit :=
  s ← amdgpu_pixmap_get_fb_ptr pix;
  match s with Some s => drmmode_fb_reference s None | None => mret tt end.

Definition client_pixmap_unref_fb (scrn pix : loc) : D unit :=
  p ← load w_pixmaps pix;
  mwhen (bool_decide (pix_scrn p = scrn)) (pixmap_unref_fb pix).

(** The clients with their pixmaps, as the loop over [clients] meets them; the first
    one is the server itself. *)
Fixpoint running_pixmaps (first : bool) (l : list (option (bool * list loc))) : list loc :=
  match l with
  | [] => []
  | None :: r => running_pixmaps false r
  | Some (running, pixmaps) :: r => (if first || running then pixmaps else []) ++ running_pixmaps false r
  end.

(** Unreference the framebuffers of all pixmaps. *)
Definition unref_pixmap_fbs (scrn : loc) : D unit :=
  info ← load w_scrns scrn;
  cs ← call Clients;
  _ ← mfor (running_pixmaps true cs) (client_pixmap_unref_fb scrn);
  pixmap_unref_fb (screen_pixmap info).

(** The server's [xf86RotateFreeShadow] and [xf86_hide_cursors]. *)
Definition xf86RotateFreeShadow (scrn : loc) : D unit :=
  l ← call (RotatedCrtcs scrn); mfor l drmmode_crtc_shadow_destroy.
Definition xf86_hide_cursors (scrn : loc) : D unit :=
  l ← call (ShownCursors scrn); mfor l drmmode_hide_cursor.

(** The size of the largest active CRTC. *)
Fixpoint scanout_size (l : list loc) (wh : Z * Z) : D (Z * Z) :=
  match l with
  | [] => mret wh
  | crtc :: r =>
      c ← load w_crtcs crtc;
      scanout_size r (match crtc_fb (driver_private c) with
                      | None => wh
                      | Some _ => (Z.max wh.1 (HDisplay (crtc_mode c)), Z.max wh.2 (VDisplay (crtc_mode c)))
                      end)
  end.

(** One CRTC of the loop that shows the black framebuffer. *)
Definition show_black (fuel : nat) (info : scrn_info) (black_fb : option loc) (crtc : loc) : D unit :=
  c ← load w_crtcs crtc;
  match crtc_fb (driver_private c) with
  | None => mret tt
  | Some _ =>
      _ ← match black_fb with
          | Some fb => _ ← drmmode_set_mode crtc fb (crtc_mode c) 0 0; mret tt
          | None =>
              _ ← call (DrmModeSetCrtc (mode_crtc_id (driver_private c)) 0 0 0 [] None);
              drmmode_fb_reference (SCrtcFb crtc) None
          end;
      if is_gpu info then
        d ← get_dcrtc crtc;
        _ ← match (scanout d).1 with Some p => pixmap_unref_fb p | None => mret tt end;
        match (scanout d).2 with Some p => pixmap_unref_fb p | None => mret tt end
      else drmmode_crtc_scanout_free fuel crtc
  end.

(** Make all active CRTCs scan out from an all-black framebuffer. *)
Definition black_out (fuel : nat) (scrn : loc) (info : scrn_info) (w h : Z) : D unit :=
  black ← screen_CreatePixmap scrn w h (depth info) AMDGPU_CREATE_PIXMAP_SCANOUT;
  match black with
  | None => mret tt
  | Some black_scanout =>
      black_fb ← amdgpu_pixmap_get_fb black_scanout;
      _ ← amdgpu_pixmap_clear black_scanout;
      _ ← amdgpu_glamor_finish scrn;
      _ ← mfor (crtcs info) (show_black fuel info black_fb);
      dixDestroyPixmap black_scanout
  end.

(** [has_gc] is [pScreen->GCperDepth[0] != NULL]. *)
Definition AMDGPULeaveVT_KMS (fuel : nat) (has_gc : bool) (scrn : loc) : D unit :=
  info ← load w_scrns scrn;
  _ ← (if negb (shadow_fb info) then
         if negb has_gc then mret tt
         else
           wh ← scanout_size (crtcs info) (0, 0);
           _ ← mwhen ((wh.1 >? 0) && (wh.2 >? 0)) (black_out fuel scrn info wh.1 wh.2);
           _ ← xf86RotateFreeShadow scrn;
           unref_pixmap_fbs scrn
       else
         front ← deref (front_buffer info);
         b ← load w_bos front;
         if cpu_ptr b =? 0 then raise NullDeref
         else call (CpuWrite (cpu_ptr b) [0; virtualX info * pixel_bytes info * virtualY info]));
  _ ← mwhen has_gc (_ ← call (TimerSet 1000); mret tt);
  _ ← xf86_hide_cursors scrn;
  amdgpu_drop_drm_master.

Definition cleanup_black_fb (scrn : loc) : D unit :=
  primary ← load w_scrns (amdgpu_primary_screen scrn);
  if vtSema primary then mret tt
  else
    info ← load w_scrns scrn;
    _ ← mfor (crtcs info) (fun crtc => drmmode_fb_reference (SCrtcFb crtc) None);
    call (Notify "TimerFree" []).

(** A new front buffer, cleared, in place of the old one. *)
Definition new_front_buffer (scrn : loc) : D unit :=
  info ← load w_scrns scrn;
  r ← amdgpu_alloc_pixmap_bo scrn (virtualX info) (virtualY info) (depth info)
        (Z.lor AMDGPU_CREATE_PIXMAP_SCANOUT AMDGPU_CREATE_PIXMAP_LINEAR) (bitsPerPixel info);
  match r with
  | (None, _) => mret tt
  | (Some front, pitch) =>
      ret ← amdgpu_bo_map front;
      if ret =? 0 then
        b ← load w_bos front;
        _ ← call (CpuWrite (cpu_ptr b) [0; default 0 pitch * virtualY info]);
        _ ← amdgpu_bo_unref (front_buffer info);
        update w_scrns scrn (setf front_buffer (fun _ => Some front))
      else _ ← amdgpu_bo_unref (Some front); mret tt
  end.

Definition AMDGPUEnterVT_KMS (fuel : nat) (scrn : loc) : D bool :=
  _ ← amdgpu_set_drm_master;
  info ← load w_scrns scrn;
  _ ← mwhen (shadow_fb info) (new_front_buffer scrn);
  _ ← update w_scrns scrn (setf vtSema (fun _ => true));
  drmmode_set_desired_modes fuel scrn true.
(** ** Buffers of the screen *)

Definition put_cursor_buffer (second : bool) (b : option loc) (bufs : option loc * option loc) : option loc * option loc :=
  if second then (bufs.1, b) else (b, bufs.2).

(** The body of the two inner loops of [amdgpu_setup_kernel_mem]: the first or the
    second cursor buffer of a CRTC. *)
Definition alloc_cursor_buffer (cursor_size : Z) (crtc : loc) (second : bool) : D bool :=
  d ← get_dcrtc crtc;
  match (if second then (cursor_buffer d).2 else (cursor_buffer d).1) with
  | Some _ => mret true
  | None =>
      b ← amdgpu_bo_open cursor_size 0 AMDGPU_GEM_DOMAIN_VRAM;
      _ ← set_dcrtc crtc (setf cursor_buffer (put_cursor_buffer second b));
      match b with
      | None =>
          _ ← mwhen second
                (v ← amdgpu_bo_unref (cursor_buffer d).1;
                 set_dcrtc crtc (setf cursor_buffer (put_cursor_buffer false v)));
          mret false
      | Some l =>
          buf ← load w_bos l;
          r ← call (AmdgpuBoCpuMap (bo_handle buf));
          _ ← mwhen (r.1 =? 0) (update w_bos l (setf cpu_ptr (fun _ => r.2)));
          mret true
      end
  end.

Fixpoint alloc_cursor_buffers (cursor_size : Z) (l : list loc) : D bool :=
  match l with
  | [] => mret true
  | crtc :: r =>
      ok ← alloc_cursor_buffer cursor_size crtc false;
      if negb ok then mret false
      else
        ok ← alloc_cursor_buffer cursor_size crtc true;
        if negb ok then mret false else alloc_cursor_buffers cursor_size r
  end.

Definition front_hint (info : scrn_info) : Z :=
  let hint := Z.lor AMDGPU_CREATE_PIXMAP_SCANOUT AMDGPU_CREATE_PIXMAP_FRONT in
  if shadow_primary info then Z.lor hint (Z.lor AMDGPU_CREATE_PIXMAP_LINEAR AMDGPU_CREATE_PIXMAP_GTT)
  else if negb (use_glamor info) then Z.lor hint AMDGPU_CREATE_PIXMAP_LINEAR else hint.

(** [pitch / cpp] *)
Definition pitch_pixels (info : scrn_info) (pitch : option Z) : D Z :=
  if pixel_bytes info =? 0 then raise DivByZero else mret (Z.quot (default 0 pitch) (pixel_bytes info)).

Definition amdgpu_setup_kernel_mem (scrn : loc) : D bool :=
  info ← load w_scrns scrn;
  let cursor_size := u32 (AMDGPU_ALIGN (s32 (cursor_w info * cursor_h info * 4)) AMDGPU_GPU_PAGE_SIZE) in
  ok ← alloc_cursor_buffers cursor_size (crtcs info);
  if negb ok then mret false
  else
    match front_buffer info with
    | Some _ => mret true
    | None =>
        r ← amdgpu_alloc_pixmap_bo scrn (virtualX info) (virtualY info) (depth info) (front_hint info) (bitsPerPixel info);
        _ ← update w_scrns scrn (setf front_buffer (fun _ => r.1));
        match r.1 with
        | None => mret false
        | Some front =>
            ret ← (if use_glamor info then mret 0 else amdgpu_bo_map front);
            if negb (ret =? 0) then
              v ← amdgpu_bo_unref (Some front);
              _ ← update w_scrns scrn (setf front_buffer (fun _ => v));
              mret false
            else
              width ← pitch_pixels info r.2;
              _ ← update w_scrns scrn (setf displayWidth (fun _ => width));
              mret true
        end
    end.

(** ** Another size of the screen *)

(** The label [fail]: [info] is the screen before the call. *)
Definition resize_fail (scrn : loc) (info : scrn_info) : D bool :=
  now ← load w_scrns scrn;
  _ ← match front_buffer now with Some _ => _ ← amdgpu_bo_unref (front_buffer now); mret tt | None => mret tt end;
  _ ← update w_scrns scrn (fun i => i <| front_buffer := front_buffer info |> <| virtualX := virtualX info |>
        <| virtualY := virtualY info |> <| displayWidth := displayWidth info |>);
  mret false.

(** The header of the screen pixmap for the new front buffer; false where there is
    no memory for a shadow. *)
Definition resize_header (scrn : loc) (info : scrn_info) (front : loc) (width height pitch : Z) : D bool :=
  b ← load w_bos front;
  if use_glamor info || is_gbm b then
    _ ← modify_pixmap_header (screen_pixmap info) width height (-1) (-1) pitch (cpu_ptr b);
    mret true
  else
    r ← call (Query "calloc" [pitch * height]);
    match r with
    | None => mret false
    | Some fb_shadow' =>
        _ ← update w_scrns scrn (setf conf (setf fb_shadow (fun _ => true)));
        _ ← modify_pixmap_header (screen_pixmap info) width height (-1) (-1) pitch fb_shadow';
        mret true
    end.

Definition drmmode_xf86crtc_resize (fuel : nat) (scrn : loc) (width height : Z) : D bool :=
  info ← load w_scrns scrn;
  if (virtualX info =? width) && (virtualY info =? height) then mret true
  else if (width >? maxWidth (conf info)) || (height >? maxHeight (conf info)) then mret false
  else
    let ppix := screen_pixmap info in
    _ ← update w_scrns scrn (fun i => i <| virtualX := width |> <| virtualY := height |>);
    r ← amdgpu_alloc_pixmap_bo scrn width height (depth info) (front_hint info) (bitsPerPixel info);
    _ ← update w_scrns scrn (setf front_buffer (fun _ => r.1));
    match r.1 with
    | None => resize_fail scrn info
    | Some front =>
        ret ← (if use_glamor info then mret 0 else amdgpu_bo_map front);
        if negb (ret =? 0) then resize_fail scrn info
        else
          dw ← pitch_pixels info r.2;
          _ ← update w_scrns scrn (setf displayWidth (fun _ => dw));
          ok ← resize_header scrn info front width height (default 0 r.2);
          if negb ok then resize_fail scrn info
          else
            ok ← amdgpu_glamor_create_screen_resources scrn;
            if negb ok then resize_fail scrn info
            else
              ok ← (if use_glamor info || dri2_enabled info then amdgpu_set_pixmap_bo ppix (Some front) else mret true);
              if negb ok then resize_fail scrn info
              else
                _ ← amdgpu_pixmap_clear ppix;
                _ ← amdgpu_glamor_finish scrn;
                _ ← mfor (crtcs info) (fun crtc =>
                      c ← load w_crtcs crtc;
                      mwhen (enabled c)
                        (_ ← drmmode_set_mode_major sw_cursor fuel crtc (Some (crtc_mode c)) (rotation c) (crtc_x c) (crtc_y c);
                         mret tt));
                _ ← match front_buffer info with Some _ => _ ← amdgpu_bo_unref (front_buffer info); mret tt | None => mret tt end;
                mret true
    end.

(** ** Color maps

    [ramp] is what the memory of a new ramp holds. *)
Fixpoint grow_ramps (ramp : list Z) (l : list loc) : D bool :=
  match l with
  | [] => mret true
  | crtc :: r =>
      c ← load w_crtcs crtc;
      if gamma_size c =? 1024 then grow_ramps ramp r
      else
        ok ← call (Calloc "gamma");
        if negb ok then mret false
        else
          _ ← update w_crtcs crtc (fun c => c <| gamma_size := 1024 |> <| gamma_red := take 1024 ramp |>
                <| gamma_green := take 1024 (drop 1024 ramp) |> <| gamma_blue := take 1024 (drop 2048 ramp) |>);
          grow_ramps ramp r
  end.

Definition drmmode_setup_colormap (ramp : list Z) (scrn : loc) : D bool :=
  info ← load w_scrns scrn;
  match crtcs info with
  | [] => mret true
  | _ :: _ =>
      ok ← call CreateDefColormap;
      if negb ok then mret false
      else if (depth info =? 30) && negb (drmmode_cm_prop_supported info CM_GAMMA_LUT) then mret true
      else
        ok ← (if depth info =? 30 then grow_ramps ramp (crtcs info) else mret true);
        if negb ok then mret false
        else
          ok ← call (HandleColormaps (Z.shiftl 1 (rgbBits (conf info))));
          if negb ok then mret false
          else
            _ ← mfor (crtcs info) (fun crtc =>
                  c ← load w_crtcs crtc;
                  drmmode_crtc_gamma_do_set crtc (gamma_red c) (gamma_green c) (gamma_blue c) (gamma_size c));
            mret true
  end.

(** ** The cursor's size, and the events of the device *)

Definition cursor_extent (family : Z) (cap : option Z) : Z :=
  match cap with Some v => s32 v | None => if family <? AMDGPU_FAMILY_CI then CURSOR_WIDTH else CURSOR_WIDTH_CIK end.

Definition amdgpu_determine_cursor_size (scrn : loc) : D unit :=
  info ← load w_scrns scrn;
  w ← call (DrmGetCap DRM_CAP_CURSOR_WIDTH);
  _ ← update w_scrns scrn (setf cursor_w (fun _ => cursor_extent (family info) w));
  h ← call (DrmGetCap DRM_CAP_CURSOR_HEIGHT);
  update w_scrns scrn (setf cursor_h (fun _ => cursor_extent (family info) h)).

Definition drmmode_init (scrn : loc) : D unit :=
  _ ← update w_scrns scrn (setf conf (setf drmmode_inited (fun _ => true)));
  e ← gets w_entity;
  if negb (fd_wakeup_registered e =? serverGeneration e) then
    _ ← call (Notify "SetNotifyFd" []);
    modify (setf w_entity (fun e => e <| fd_wakeup_registered := serverGeneration e |> <| fd_wakeup_ref := 1 |>))
  else modify (setf w_entity (setf fd_wakeup_ref (fun n => n + 1))).

Definition drmmode_fini (fuel : nat) (scrn : loc) : D unit :=
  info ← load w_scrns scrn;
  if negb (drmmode_inited (conf info)) then mret tt
  else
    _ ← mfor (crtcs info) (drmmode_crtc_scanout_free fuel);
    e ← gets w_entity;
    if fd_wakeup_registered e =? serverGeneration e then
      _ ← modify (setf w_entity (setf fd_wakeup_ref (fun n => n - 1)));
      mwhen (fd_wakeup_ref e - 1 =? 0) (call (Notify "RemoveNotifyFd" []))
    else mret tt.
End Code.

(** ** None of it disturbs the queue *)
Section Keeps.
Context `{env : Env} `{srv : XServer} `{psafe : PrimeSafe} `{safe : CallbacksSafe} `{rsafe : RotatorSafe}.
Context (sw_cursor rr_registered : bool).
#[local] Hint Extern 3 (keeps (modify _)) => apply keeps_modify; intros; by apply kept_frame : keeps.

Lemma event_callback_keeps scrn client types : keeps (amdgpu_event_callback scrn client types).
Proof. unfold amdgpu_event_callback, client_needs_flush, set_needs_flush. keeps_auto. Qed.
Lemma flush_callback_keeps scrn data : keeps (amdgpu_flush_callback scrn data).
Proof. unfold amdgpu_flush_callback, client_needs_flush. keeps_auto. Qed.
Lemma save_screen_keeps fuel scrn unblank : keeps (AMDGPUSaveScreen_KMS sw_cursor fuel scrn unblank).
Proof.
  unfold AMDGPUSaveScreen_KMS, AMDGPUUnblank, AMDGPUBlank, crtc_outputs. keeps_auto.
  all: apply output_dpms_keeps; intros; keeps_auto.
Qed.
Lemma pixmap_clear_keeps pix : keeps (amdgpu_pixmap_clear pix).
Proof. unfold amdgpu_pixmap_clear. keeps_auto. Qed.
#[local] Hint Resolve pixmap_clear_keeps textured_keeps alloc_pixmap_bo_keeps bo_open_keeps handle_transform_keeps get_fb_ptr_keeps : keeps.
Lemma create_screen_resources_keeps scrn : keeps (amdgpu_glamor_create_screen_resources scrn).
Proof. unfold amdgpu_glamor_create_screen_resources. keeps_auto. Qed.
#[local] Hint Resolve create_screen_resources_keeps : keeps.
Lemma first_output_keeps l crtc : keeps (first_output l crtc).
Proof. induction l; cbn [first_output]; keeps_auto. Qed.
#[local] Hint Resolve first_output_keeps : keeps.
Lemma output_of_keeps info crtc : keeps (output_of info crtc).
Proof. unfold output_of. keeps_auto. Qed.
#[local] Hint Resolve output_of_keeps : keeps.
Lemma set_desired_loop_keeps fuel info hw l n : keeps (set_desired_loop sw_cursor fuel info hw l n).
Proof. revert n. induction l; intros [? ?]; cbn [set_desired_loop]; unfold set_desired_mode; keeps_auto. Qed.
#[local] Hint Resolve set_desired_loop_keeps : keeps.
Lemma set_desired_modes_keeps fuel scrn hw : keeps (drmmode_set_desired_modes sw_cursor rr_registered fuel scrn hw).
Proof. unfold drmmode_set_desired_modes. keeps_auto. Qed.
#[local] Hint Resolve set_desired_modes_keeps : keeps.
Lemma window_exposures_keeps fuel scrn : keeps (AMDGPUWindowExposures_oneshot sw_cursor rr_registered fuel scrn).
Proof. unfold AMDGPUWindowExposures_oneshot. keeps_auto. Qed.
Lemma adjust_frame_keeps fuel scrn x y : keeps (drmmode_adjust_frame sw_cursor fuel scrn x y).
Proof. unfold drmmode_adjust_frame. keeps_auto. Qed.
Lemma unref_fb_keeps pix : keeps (pixmap_unref_fb pix).
Proof. unfold pixmap_unref_fb. keeps_auto. Qed.
#[local] Hint Resolve unref_fb_keeps : keeps.
Lemma unref_pixmap_fbs_keeps scrn : keeps (unref_pixmap_fbs scrn).
Proof. unfold unref_pixmap_fbs, client_pixmap_unref_fb. keeps_auto. Qed.
Lemma scanout_size_keeps l wh : keeps (scanout_size l wh).
Proof. revert wh. induction l; intros wh; cbn [scanout_size]; keeps_auto. Qed.
#[local] Hint Resolve unref_pixmap_fbs_keeps scanout_size_keeps : keeps.
Lemma black_out_keeps fuel scrn info w h : keeps (black_out fuel scrn info w h).
Proof. unfold black_out, show_black. keeps_auto. Qed.
#[local] Hint Resolve black_out_keeps : keeps.
Lemma leave_vt_keeps fuel has_gc scrn : keeps (AMDGPULeaveVT_KMS fuel has_gc scrn).
Proof.
  unfold AMDGPULeaveVT_KMS, xf86RotateFreeShadow, xf86_hide_cursors, amdgpu_drop_drm_master, drmmode_crtc_shadow_destroy.
  keeps_auto.
Qed.
Lemma cleanup_black_fb_keeps scrn : keeps (cleanup_black_fb scrn).
Proof. unfold cleanup_black_fb. keeps_auto. Qed.
Lemma enter_vt_keeps fuel scrn : keeps (AMDGPUEnterVT_KMS sw_cursor rr_registered fuel scrn).
Proof. unfold AMDGPUEnterVT_KMS, amdgpu_set_drm_master, new_front_buffer. keeps_auto. Qed.
Lemma alloc_cursor_buffers_keeps size l : keeps (alloc_cursor_buffers size l).
Proof. induction l; cbn [alloc_cursor_buffers]; unfold alloc_cursor_buffer; keeps_auto. Qed.
#[local] Hint Resolve alloc_cursor_buffers_keeps : keeps.
Lemma setup_kernel_mem_keeps scrn : keeps (amdgpu_setup_kernel_mem scrn).
Proof. unfold amdgpu_setup_kernel_mem, pitch_pixels. keeps_auto. Qed.
Lemma resize_keeps fuel scrn w h : keeps (drmmode_xf86crtc_resize sw_cursor fuel scrn w h).
Proof. unfold drmmode_xf86crtc_resize, resize_fail, resize_header, pitch_pixels. keeps_auto. Qed.
Lemma grow_ramps_keeps ramp l : keeps (grow_ramps ramp l).
Proof. induction l; cbn [grow_ramps]; keeps_auto. Qed.
#[local] Hint Resolve grow_ramps_keeps : keeps.
Lemma setup_colormap_keeps ramp scrn : keeps (drmmode_setup_colormap ramp scrn).
Proof. unfold drmmode_setup_colormap. keeps_auto. Qed.
Lemma cursor_size_keeps scrn : keeps (amdgpu_determine_cursor_size scrn).
Proof. unfold amdgpu_determine_cursor_size. keeps_auto. Qed.
Lemma drmmode_init_keeps scrn : keeps (drmmode_init scrn).
Proof. unfold drmmode_init. keeps_auto. Qed.
Lemma drmmode_fini_keeps fuel scrn : keeps (drmmode_fini fuel scrn).
Proof. unfold drmmode_fini. keeps_auto. Qed.
End Keeps.
#[export] Hint Resolve event_callback_keeps flush_callback_keeps save_screen_keeps pixmap_clear_keeps create_screen_resources_keeps
  set_desired_modes_keeps window_exposures_keeps adjust_frame_keeps leave_vt_keeps cleanup_black_fb_keeps enter_vt_keeps
  setup_kernel_mem_keeps resize_keeps setup_colormap_keeps cursor_size_keeps drmmode_init_keeps drmmode_fini_keeps : keeps.
