(* ===== verification/ScreenSpec.v ===== *)
(** * Theorems about screens

    What leaving the virtual terminal leaves behind, when damage events wait for the
    GPU's work, and what a failed resize changes; about the code in Screen.v. *)
From stdpp Require Import strings.
From S2P Require Import Prelude Modes Region World Lut Cursor Fb DriState Queue Bo PixmapFb Crtc Keeps Scanout Modeset.
From S2P Require Import CursorHw Prime Color Leases Wrappers Screen.

#[export] Instance fb_slot_eq_dec : EqDecision fb_slot.
Proof. solve_decision. Defined.

(** ** Framebuffers after leaving the terminal *)

Lemma msum_nonzero {A} (f : A -> Z) (m : gmap loc A) : msum f m <> 0 -> exists k a, m !! k = Some a /\ f a <> 0.
Proof.
  induction m as [|k a m Hk IH] using map_ind; [by rewrite msum_empty |].
  rewrite msum_insert_fresh by done. intros Hs. destruct (decide (f a = 0)) as [H0|].
  - destruct IH as (k' & a' & Hm & Hf); [lia |]. exists k', a'. split; [| done].
    rewrite lookup_insert_ne; [done | congruence].
  - exists k, a. by rewrite lookup_insert_eq.
Qed.
Lemma lsum_nonzero {A} (f : A -> Z) (l : list A) : lsum f l <> 0 -> exists i a, l !! i = Some a /\ f a <> 0.
Proof.
  induction l as [|a l IH]; [done |]. change (f a + lsum f l <> 0 -> exists i b, (a :: l) !! i = Some b /\ f b <> 0).
  intros Hs. destruct (decide (f a = 0)); [| by exists 0%nat, a].
  destruct IH as (i & b & Hb & Hf); [lia |]. by exists (S i), b.
Qed.
Lemma points_nonzero {A} `{EqDecision A} (l : A) o : points l o <> 0 -> o = Some l.
Proof. destruct o as [l'|]; [| by rewrite points_None]. destruct (decide (l = l')) as [->|]; [done | by rewrite points_other]. Qed.

(** A framebuffer is live exactly if some slot points to it. *)
Lemma fb_live_slot w l : fb_inv w -> is_Some (w_fbs w !! l) <-> exists s, slot_get w s = Some (Some l).
Proof.
  intros Hinv. split.
  - intros [fb Hfb]. destruct Hinv as [Hi _]. specialize (Hi l). rewrite Hfb in Hi.
    assert (Hr : fb_refs w l <> 0) by lia. unfold fb_refs in Hr.
    destruct (decide (msum (priv_refs l) (w_pixmaps w) = 0)) as [H1|H1];
      [destruct (decide (msum (crtc_refs l) (w_crtcs w) = 0)) as [H2|H2] |].
    + destruct (msum_nonzero (flip_refs l) (w_flipdata w)) as (fd & f & Hf & Hn); [lia |].
      destruct (lsum_nonzero _ _ Hn) as (i & o & Ho & Hp). exists (SFlipdata fd (Z.of_nat i)). cbn. rewrite Hf. cbn.
      destruct (Z.ltb_spec (Z.of_nat i) 0); [lia |]. rewrite Nat2Z.id, Ho. f_equal. by apply points_nonzero.
    + destruct (msum_nonzero _ _ H2) as (c & x & Hx & Hn). unfold crtc_refs in Hn.
      destruct (decide (points l (crtc_fb (driver_private x)) = 0)).
      * exists (SFlipPending c). cbn. rewrite Hx. cbn. f_equal. apply points_nonzero. lia.
      * exists (SCrtcFb c). cbn. rewrite Hx. cbn. f_equal. by apply points_nonzero.
    + destruct (msum_nonzero _ _ H1) as (p & x & Hx & Hn). unfold priv_refs in Hn.
      destruct (pix_priv x) as [pr|] eqn:Hpr; [| done].
      exists (SPriv p). cbn. rewrite Hx. cbn. rewrite Hpr. cbn. f_equal. by apply points_nonzero.
  - intros [s Hs]. destruct (fb_inv_slot_live _ w s l Hinv) as (fb & Hfb & _); [done | done | by exists fb].
Qed.

(** The slots in [gone] have been emptied, the others are as they were. *)
Definition emptied (gone : list fb_slot) (w w' : world) : Prop :=
  w_scrns w' = w_scrns w /\
  (forall p, pix_scrn <$> w_pixmaps w' !! p = pix_scrn <$> w_pixmaps w !! p) /\
  (forall s, slot_get w' s = (if decide (s ∈ gone) then fun _ => None else id) <$> slot_get w s).

Lemma emptied_nil w : emptied [] w w.
Proof.
  split_and!; [done | done |]. intros s. rewrite decide_False by (by apply not_elem_of_nil). by rewrite option_fmap_id.
Qed.

(** Pixmaps and CRTCs. *)
Definition plain_slot (s : fb_slot) : Prop := match s with SPriv _ | SCrtcFb _ => True | _ => False end.

Lemma slot_get_set_ne s s' v w : plain_slot s -> s' <> s -> slot_get (slot_set s v w) s' = slot_get w s'.
Proof.
  intros Hp Hne. destruct s as [p|c| |]; [| |done..].
  - destruct s' as [p'|c'|c'|fd idx]; try done. cbn. unfold setf. cbn. rewrite lookup_alter_ne; [done | congruence].
  - destruct s' as [p'|c'|c'|fd idx]; try done; cbn; unfold setf; cbn.
    + rewrite lookup_alter_ne; [done | congruence].
    + destruct (decide (c' = c)) as [->|Hc]; [rewrite lookup_alter_eq | by rewrite lookup_alter_ne by congruence].
      by destruct (w_crtcs w !! c).
Qed.

Section Leave.
Context `{env : Env} `{srv : XServer} `{prime : PrimeServer} `{callbacks : Callbacks}.

(** Emptying one more. *)
Lemma wp_empty_slot gone s w w' (Q : unit -> world -> Prop) :
  plain_slot s -> fb_inv w' -> emptied gone w w' -> is_Some (slot_get w s) ->
  (forall w'', fb_inv w'' -> emptied (s :: gone) w w'' -> Q tt w'') ->
  wp (drmmode_fb_reference s None) Q w'.
Proof.
  intros Hp Hinv (Hs & Hpix & He) [v Hv] HQ.
  pose proof (He s) as Hes. rewrite Hv in Hes. cbn in Hes.
  eapply wp_fb_reference_inv; [exact Hinv | done | exact Hes | done |]. intros Hinv'. apply HQ; [done |].
  unfold fb_reference_effect. cbv zeta. set (w1 := setf w_trace _ _).
  split_and!.
  - rewrite <- Hs. by destruct s.
  - intros p. rewrite <- Hpix. destruct s as [q|c| |]; try done. cbn. unfold setf. cbn.
    destruct (decide (p = q)) as [->|]; [rewrite lookup_alter_eq | by rewrite lookup_alter_ne by congruence].
    by destruct (w_pixmaps w' !! q).
  - intros s'. destruct (decide (s' = s)) as [->|Hne].
    + rewrite decide_True by (by left). rewrite Hv. cbn. eapply slot_get_set. by rewrite (slot_get_frame w').
    + rewrite slot_get_set_ne by done. rewrite (slot_get_frame w') by done. rewrite He.
      destruct (decide (s' ∈ gone)); [rewrite decide_True by (by right) | rewrite decide_False]; try done.
      rewrite elem_of_cons. tauto.
Qed.

Lemma emptied_absent gone s w w' : slot_get w s = None -> emptied gone w w' -> emptied (s :: gone) w w'.
Proof.
  intros Hs (H1 & H2 & He). split_and!; [done | done |]. intros s'. rewrite He.
  destruct (decide (s' = s)) as [->|Hne]; [by rewrite Hs |].
  destruct (decide (s' ∈ gone)); [rewrite decide_True by (by right) | rewrite decide_False]; try done.
  rewrite elem_of_cons. tauto.
Qed.
Lemma emptied_ext g g' w w' : (forall s, s ∈ g <-> s ∈ g') -> emptied g w w' -> emptied g' w w'.
Proof.
  intros Hg (H1 & H2 & He). split_and!; [done | done |]. intros s. rewrite He.
  destruct (decide (s ∈ g)), (decide (s ∈ g')); naive_solver.
Qed.
Lemma emptied_trace g w w' t : emptied g w w' -> emptied g w (w' <| w_trace := t |>).
Proof. intros (H1 & H2 & He). split_and!; [done | done |]. intros s. rewrite <- He. by apply slot_get_frame. Qed.

Lemma wp_unref_fb gone pix p info w w' (Q : unit -> world -> Prop) :
  fb_inv w' -> emptied gone w w' -> w_pixmaps w !! pix = Some p -> w_scrns w !! pix_scrn p = Some info -> use_glamor info = true ->
  (forall w'', fb_inv w'' -> emptied (SPriv pix :: gone) w w'' -> Q tt w'') ->
  wp (pixmap_unref_fb pix) Q w'.
Proof.
  intros Hinv He Hp Hi Hg HQ. pose proof He as (Hs & Hpix & Hsl). unfold pixmap_unref_fb.
  specialize (Hpix pix). rewrite Hp in Hpix. destruct (w_pixmaps w' !! pix) as [p'|] eqn:Hp'; [| done].
  injection Hpix as Hscrn. apply wp_bind, (wp_get_fb_ptr pix p' info); [done | by rewrite Hs, Hscrn |].
  rewrite Hg. pose proof (Hsl (SPriv pix)) as Hslot. cbn [slot_get] in Hslot. rewrite Hp, Hp' in Hslot. cbn in Hslot.
  destruct (pix_priv p') as [pr'|], (pix_priv p) as [pr|] eqn:Hpr; try done.
  - eapply wp_empty_slot; [done | done | exact He | by (cbn; rewrite Hp; cbn; rewrite Hpr) | done].
  - apply HQ; [done |]. apply emptied_absent; [| done]. cbn. rewrite Hp. cbn. by rewrite Hpr.
Qed.

(** The pixmaps of the screen, and the slots that are emptied: those of the pixmaps
    that are visited, and what the CRTCs scan out. *)
Definition on_screen (w : world) (scrn pix : loc) : Prop := pix_scrn <$> w_pixmaps w !! pix = Some scrn.
#[export] Instance on_screen_dec w scrn pix : Decision (on_screen w scrn pix).
Proof. unfold on_screen. apply _. Defined.
Definition leave_slots (w : world) (scrn : loc) (info : scrn_info) (pixs : list loc) : list fb_slot :=
  (SPriv <$> filter (on_screen w scrn) pixs) ++ SPriv (screen_pixmap info) :: (SCrtcFb <$> crtcs info).

Lemma wp_unref_pixmaps scrn info pixs w (Q : unit -> world -> Prop) w0 :
  fb_inv w0 -> emptied [] w w0 -> w_scrns w !! scrn = Some info -> use_glamor info = true ->
  (forall p, p ∈ pixs -> is_Some (w_pixmaps w !! p)) ->
  (forall w', fb_inv w' -> emptied (SPriv <$> filter (on_screen w scrn) pixs) w w' -> Q tt w') ->
  wp (mfor pixs (client_pixmap_unref_fb scrn)) Q w0.
Proof.
  intros Hinv He Hi Hg Hex HQ.
  apply (wp_mfor (fun rest w' => exists gone, (pixs = gone ++ rest) /\ fb_inv w' /\
    emptied (SPriv <$> filter (on_screen w scrn) gone) w w')).
  - by exists [].
  - intros x r w' (gone & -> & Hinv' & He'). unfold client_pixmap_unref_fb.
    pose proof He' as (_ & Hpix & _). specialize (Hpix x).
    destruct (Hex x) as [p Hp]; [set_solver |]. rewrite Hp in Hpix. cbn in Hpix.
    destruct (w_pixmaps w' !! x) as [p'|] eqn:Hp'; [| done]. injection Hpix as Hsc.
    apply wp_bind, (wp_load _ x p'); [done |]. rewrite Hsc.
    destruct (decide (pix_scrn p = scrn)) as [Hon|Hoff].
    + rewrite bool_decide_true by done. eapply wp_unref_fb; [done | exact He' | exact Hp | by rewrite Hon | done |].
      intros w'' H1 H2. exists (gone ++ [x]). split_and!; [by rewrite <- app_assoc | done |].
      eapply emptied_ext; [| exact H2]. intros s. rewrite filter_app, filter_cons_True by (unfold on_screen; by rewrite Hp, <- Hon).
      rewrite fmap_app, elem_of_app, elem_of_cons. cbn. rewrite list_elem_of_singleton. tauto.
    + rewrite bool_decide_false by done. exists (gone ++ [x]). split_and!; [by rewrite <- app_assoc | done |].
      rewrite filter_app, filter_cons_False, app_nil_r; [done |]. unfold on_screen. rewrite Hp. cbn. congruence.
  - intros w' (gone & -> & Hinv' & He'). rewrite app_nil_r in HQ. by apply HQ.
Qed.

Lemma wp_clear_crtcs cs gone w w' (Q : unit -> world -> Prop) :
  fb_inv w' -> emptied gone w w' -> (forall c, c ∈ cs -> is_Some (w_crtcs w !! c)) ->
  (forall w'', fb_inv w'' -> emptied (gone ++ (SCrtcFb <$> cs)) w w'' -> Q tt w'') ->
  wp (mfor cs (fun crtc => drmmode_fb_reference (SCrtcFb crtc) None)) Q w'.
Proof.
  intros Hinv He Hex HQ.
  apply (wp_mfor (fun rest w'' => exists l, (cs = l ++ rest) /\ fb_inv w'' /\ emptied (gone ++ (SCrtcFb <$> l)) w w'')).
  - exists []. by rewrite app_nil_r.
  - intros c r w'' (l & -> & H1 & H2). destruct (Hex c) as [x Hx]; [set_solver |].
    eapply wp_empty_slot; [done | done | exact H2 | by (cbn; rewrite Hx) |].
    intros w3 H3 H4. exists (l ++ [c]). split_and!; [by rewrite <- app_assoc | done |].
    eapply emptied_ext; [| exact H4]. intros s. rewrite fmap_app, !elem_of_app, elem_of_cons, elem_of_app. cbn.
    rewrite list_elem_of_singleton. tauto.
  - intros w'' (l & -> & H1 & H2). rewrite app_nil_r in HQ. by apply HQ.
Qed.

(** C9. The last step of leaving the virtual terminal, on a screen drawn by glamor whose
    primary screen has left it.  [AMDGPULeaveVT_KMS] ends by dropping the framebuffers of
    all pixmaps of the screen that a running client or the server has and of the screen
    pixmap ([unref_pixmap_fbs]), and the timer it sets, [cleanup_black_fb], drops
    those the CRTCs scan out ("there should be no FB left").  Run one after the other
    they succeed, the reference counts stay right, and a framebuffer is left exactly if
    before them some other place pointed to it: a pixmap of another screen or of
    no client, or a page flip that is still pending.  When there is none, no
    framebuffer is left.  (The loop of [AMDGPULeaveVT_KMS] that shows a black
    framebuffer and frees the scanout pixmaps comes before and is not part of this.) *)
Theorem vt_fbs_unreferenced scrn info primary w :
  let pixs := running_pixmaps true (reply (w_trace w) Clients) in
  fb_inv w -> w_scrns w !! scrn = Some info -> use_glamor info = true ->
  w_scrns w !! amdgpu_primary_screen scrn = Some primary -> vtSema primary = false ->
  on_screen w scrn (screen_pixmap info) -> (forall p, p ∈ pixs -> is_Some (w_pixmaps w !! p)) ->
  (forall c, c ∈ crtcs info -> is_Some (w_crtcs w !! c)) ->
  wp (_ ← unref_pixmap_fbs scrn; cleanup_black_fb scrn)
     (fun _ w' => fb_inv w' /\
        (forall l, is_Some (w_fbs w' !! l) <-> exists s, s ∉ leave_slots w scrn info pixs /\ slot_get w s = Some (Some l)) /\
        ((forall s l, slot_get w s = Some (Some l) -> s ∈ leave_slots w scrn info pixs) -> w_fbs w' = ∅)) w.
Proof.
  intros pixs Hinv Hi Hg Hprim Hvt Hon Hp Hc. apply wp_bind. unfold unref_pixmap_fbs.
  apply wp_bind, (wp_load _ scrn info); [done |]. apply wp_bind. wp_ext. fold pixs. apply wp_bind.
  eapply (wp_unref_pixmaps scrn info pixs w); [by apply (fb_inv_frame _ w) | apply emptied_trace, emptied_nil | done..|].
  intros w1 Hinv1 He1. pose proof Hon as Hon'. unfold on_screen in Hon'.
  destruct (w_pixmaps w !! screen_pixmap info) as [sp|] eqn:Hsp; [| done]. injection Hon' as Hscr.
  eapply wp_unref_fb; [done | exact He1 | exact Hsp | by rewrite Hscr | done |]. intros w2 Hinv2 He2.
  unfold cleanup_black_fb. apply wp_bind, (wp_load _ _ primary); [by destruct He2 as [-> _] |]. rewrite Hvt.
  apply wp_bind, (wp_load _ _ info); [by destruct He2 as [-> _] |]. apply wp_bind.
  eapply wp_clear_crtcs; [done | exact He2 | done |]. intros w3 Hinv3 He3. wp_ext.
  assert (Hfin : emptied (leave_slots w scrn info pixs) w w3).
  { eapply emptied_ext; [| exact He3]. intros s. unfold leave_slots.
    cbn. rewrite !elem_of_cons, !elem_of_app, elem_of_cons. tauto. }
  assert (Hlive : forall l, is_Some (w_fbs w3 !! l) <-> exists s, s ∉ leave_slots w scrn info pixs /\ slot_get w s = Some (Some l)).
  { intros l. rewrite (fb_live_slot w3) by done. destruct Hfin as (_ & _ & Hfin). split; intros [s Hs]; exists s.
    - rewrite Hfin in Hs. destruct (decide (s ∈ _)); [by destruct (slot_get w s) |]. by rewrite option_fmap_id in Hs.
    - rewrite Hfin, decide_False by (by destruct Hs). rewrite option_fmap_id. by destruct Hs. }
  split_and!; [by apply (fb_inv_frame _ w3) | exact Hlive |].
  intros Hall. apply map_empty. intros l. apply eq_None_not_Some. intros Hl. apply Hlive in Hl as (s & Hs & Hl). eauto.
Qed.
End Leave.

(** One framebuffer, that of the screen pixmap; the server has switched away. *)
Definition vt_world : world := sample_fb_w <| w_scrns := {[1%positive := Sample.scrn <| vtSema := false |>]} |>.
Definition vt_prime : PrimeServer :=
  {| current_primary := fun _ => None; SyncSharedPixmap := fun _ => None; primary_pixmap := fun _ => false |}.

Lemma vt_fbs_unreferenced_witness :
  wp (_ ← unref_pixmap_fbs (env := Sample.env) 1; cleanup_black_fb (env := Sample.env) (prime := vt_prime) 1)
     (fun _ w' => w_fbs w' = ∅) vt_world.
Proof.
  eapply wp_mono;
    [apply (vt_fbs_unreferenced (env := Sample.env) (prime := vt_prime) 1 (Sample.scrn <| vtSema := false |>)
              (Sample.scrn <| vtSema := false |>) vt_world); try reflexivity |].
  - by apply (fb_inv_frame _ sample_fb_w), sample_fb_inv.
  - by intros p ?%not_elem_of_nil.
  - intros c Hc. apply list_elem_of_singleton in Hc as ->. by eexists.
  - intros _ w' (_ & _ & Hall). apply Hall. intros s l Hs. destruct s as [p|c|c|fd i]; cbn in Hs.
    + destruct (decide (p = 2%positive)) as [->|Hne]; [by left |].
      change (w_pixmaps vt_world) with (w_pixmaps sample_fb_w) in Hs. unfold sample_fb_w, setf in Hs. cbn in Hs.
      rewrite lookup_singleton_ne in Hs by congruence. done.
    + destruct (decide (c = 3%positive)) as [->|Hne]; [done |]. unfold vt_world, sample_fb_w, Sample.w, setf in Hs. cbn in Hs.
      rewrite lookup_singleton_ne in Hs by congruence. done.
    + destruct (decide (c = 3%positive)) as [->|Hne]; [done |]. unfold vt_world, sample_fb_w, Sample.w, setf in Hs. cbn in Hs.
      rewrite lookup_singleton_ne in Hs by congruence. done.
    + unfold vt_world, sample_fb_w, Sample.w, setf in Hs. cbn in Hs. by rewrite lookup_empty in Hs.
Defined.

(** ** Damage events wait for the GPU's work *)

(** [d] flushes ahead. *)
Lemma needs_flush_ahead g d : - 2 ^ 31 <= d < 2 ^ 31 -> callback_needs_flush g (u64 (g + d)) = (d >? 0).
Proof.
  intros Hd. unfold callback_needs_flush. f_equal. unfold s32, u64.
  rewrite Zminus_mod_idemp_l. replace (g + d - g) with d by lia.
  rewrite <- Zplus_mod_idemp_l. rewrite (Z.mod_mod_divide d (2 ^ 64) (2 ^ 32)) by (by exists (2 ^ 32)).
  rewrite Zplus_mod_idemp_l, Z.mod_small by lia. lia.
Qed.

Lemma u64_shift g d : u64 (u64 (g + 1) + (d - 1)) = u64 (g + d).
Proof. unfold u64. rewrite Zplus_mod_idemp_l. f_equal. lia. Qed.

Section Damage.
Context `{env : Env} (scrn : loc).

(** What the server does: it is about to send events to a client, to write its
    output to one client or to all ([None]); or the driver sends the GPU its work
    for another reason. *)
Inductive output_op : Type :=
| EventTo (client : Z) (types : list Z)
| FlushOutput (client : option Z)
| OtherFlush.

Definition run_output_op (op : output_op) : D unit :=
  match op with
  | EventTo client types => amdgpu_event_callback scrn client types
  | FlushOutput client => amdgpu_flush_callback scrn client
  | OtherFlush => amdgpu_glamor_flush scrn
  end.

Definition flushed : D Z := info ← load w_scrns scrn; mret (gpu_flushed info).
Definition is_damage (type : Z) (op : output_op) : bool :=
  match op with EventTo _ types => existsb (Z.eqb type) types | _ => false end.

(** [waiting]: a damage event was queued since the GPU was last sent its work. *)
Definition output_step (type : Z) (op : output_op) (waiting : bool) : D bool :=
  g ← flushed;
  _ ← run_output_op op;
  g' ← flushed;
  mret (if g' =? g then waiting || is_damage type op else false).
Fixpoint output_steps (type : Z) (ops : list output_op) (waiting : bool) : D bool :=
  match ops with
  | [] => mret waiting
  | op :: r => waiting' ← output_step type op waiting; output_steps type r waiting'
  end.

Definition needs (w : world) (client : Z) : Z := default 0 (needs_flush (w_entity w) !! (scrn, client)).

(** Every client is at most [b] flushes behind, or one ahead. *)
Record counters (type : Z) (b : Z) (waiting : bool) (w : world) (info : scrn_info) : Prop := {
  co_scrn : w_scrns w !! scrn = Some info;
  co_range : in_u64 (gpu_flushed info);
  co_type : callback_event_type (conf info) = type;
  co_all : forall c, exists d, needs w c = u64 (gpu_flushed info + d) /\ - b <= d <= 1 /\ (d = 1 -> waiting = true);
  co_server : waiting = true -> needs w serverClient = u64 (gpu_flushed info + 1)
}.

Lemma counters_weaken type b b' waiting w info : b <= b' -> counters type b waiting w info -> counters type b' waiting w info.
Proof. intros Hb [H1 HR H2 H3 H4]. split; try done. intros c. destruct (H3 c) as (d & Hd & Hr & Hw). exists d. split_and!; [done | lia | lia | done]. Qed.

Lemma counters_needs type b waiting w info c :
  b < 2 ^ 31 -> counters type b waiting w info -> callback_needs_flush (gpu_flushed info) (needs w c) = true -> waiting = true.
Proof.
  intros Hb [_ _ _ H3 _] Hn. destruct (H3 c) as (d & Hd & Hr & Hw). rewrite Hd, needs_flush_ahead in Hn by lia.
  apply Hw. lia.
Qed.
Lemma counters_server type b waiting w info :
  b < 2 ^ 31 -> counters type b waiting w info -> callback_needs_flush (gpu_flushed info) (needs w serverClient) = waiting.
Proof.
  intros Hb Hc. destruct (callback_needs_flush _ _) eqn:Hn; [symmetry; by eapply counters_needs |].
  destruct waiting; [| done]. rewrite (co_server _ _ _ _ _ Hc eq_refl), needs_flush_ahead in Hn by lia. done.
Qed.

Lemma not_waiting type b waiting w info n :
  b < 2 ^ 31 -> counters type b waiting w info ->
  callback_needs_flush (gpu_flushed info) n || callback_needs_flush (gpu_flushed info) (needs w serverClient) = false ->
  waiting = false.
Proof. intros Hb Hc Hn. rewrite (counters_server type b waiting) in Hn by done. by apply orb_false_iff in Hn as [_ ->]. Qed.

(** The work is sent to the GPU. *)
Lemma wp_counters_flush type b waiting w info (Q : unit -> world -> Prop) :
  counters type b waiting w info ->
  (forall w', (exists info', gpu_flushed info' = u64 (gpu_flushed info + 1) /\ vtSema info' = vtSema info /\
     counters type (b + 1) false w' info') -> Q tt w') ->
  wp (amdgpu_glamor_flush scrn) Q w.
Proof.
  intros [H1 HR H2 H3 H4] HQ. unfold amdgpu_glamor_flush. apply wp_bind, (wp_load _ scrn info); [done |]. apply wp_bind.
  assert (Hgo : forall w1, w_scrns w1 = w_scrns w -> w_entity w1 = w_entity w ->
    wp (update w_scrns scrn (setf gpu_flushed (fun n => u64 (n + 1)))) Q w1).
  { intros w1 Hs He. apply (wp_update _ scrn info); [by rewrite Hs |]. apply HQ. eexists. split_and!; [| |split]; cycle 2.
    - unfold setf at 1. cbn. by rewrite lookup_insert_eq.
    - apply u64_range.
    - done.
    - intros c. destruct (H3 c) as (d & Hd & Hr & Hw). exists (d - 1). split_and!; [| lia | lia | lia].
      unfold needs, setf. cbn. rewrite He. change (needs w c = u64 (u64 (gpu_flushed info + 1) + (d - 1))). by rewrite u64_shift.
    - done.
    - done.
    - done. }
  destruct (use_glamor info); cbn [mwhen]; [wp_ext; by apply Hgo | by apply Hgo].
Qed.

(** Events are queued for a client: [ahead] is 1 where one is a damage event. *)
Lemma counters_set type b w info client (ahead : Z) w' :
  client <> serverClient -> counters type b false w info -> 0 <= b -> ahead = 0 \/ ahead = 1 ->
  w_scrns w' = w_scrns w -> (forall c, needs w' c = if decide (c = client \/ c = serverClient) then u64 (gpu_flushed info + ahead) else needs w c) ->
  counters type b (ahead =? 1) w' info.
Proof.
  intros Hne [H1 HR H2 H3 H4] Hb Ha Hs Hn. split; [by rewrite Hs | done | done | |].
  - intros c. rewrite Hn. destruct (decide _).
    + exists ahead. split_and!; [done | lia | lia |]. by intros ->.
    + destruct (H3 c) as (d & Hd & Hr & Hw). exists d. split_and!; [done | lia | lia |]. intros ->. by specialize (Hw eq_refl).
  - intros He. rewrite Hn, decide_True by (by right). f_equal. lia.
Qed.

Lemma needs_insert w c v c' :
  needs (setf w_entity (setf needs_flush <[(scrn, c) := v]>) w) c' = if decide (c' = c) then v else needs w c'.
Proof.
  unfold needs, setf. cbn. destruct (decide (c' = c)) as [->|Hc]; [by rewrite lookup_insert_eq |].
  rewrite lookup_insert_ne; [done | congruence].
Qed.

Lemma wp_counters_event type b waiting w info client types (Q : unit -> world -> Prop) :
  client <> serverClient -> 0 <= b < 2 ^ 31 -> counters type b waiting w info ->
  (forall w', counters type b (waiting || existsb (Z.eqb type) types) w' info -> Q tt w') ->
  wp (amdgpu_event_callback scrn client types) Q w.
Proof.
  intros Hne Hb Hc HQ. unfold amdgpu_event_callback. apply wp_bind, (wp_load _ scrn info); [apply Hc |].
  pose proof (co_range _ _ _ _ _ Hc) as HR. pose proof (co_type _ _ _ _ _ Hc) as HT.
  unfold client_needs_flush, set_needs_flush. wp_go; change (default 0 (needs_flush (w_entity ?x) !! (scrn, ?c))) with (needs x c) in *.
  - assert (waiting = true) as ->; [| by apply HQ].
    lazymatch goal with H : _ || _ = true |- _ => apply orb_prop in H as [H|H] end; eapply counters_needs; try done; lia.
  - assert (waiting = false) as -> by (eapply not_waiting; [| done | done]; lia).
    apply HQ. rewrite <- HT in *. lazymatch goal with H : existsb _ _ = true |- _ => rewrite H end.
    apply (counters_set _ b w info client 1); [done | done | lia | by right | done |].
    intros c. rewrite !needs_insert.
    repeat case_decide; naive_solver.
  - assert (waiting = false) as -> by (eapply not_waiting; [| done | done]; lia).
    apply HQ. rewrite <- HT in *. lazymatch goal with H : existsb _ _ = false |- _ => rewrite H end.
    apply (counters_set _ b w info client 0); [done | done | lia | by left | done |].
    intros c. rewrite !needs_insert, Z.add_0_r, u64_id by done. repeat case_decide; naive_solver.
Qed.

Lemma u64_succ_ne g : in_u64 g -> (u64 (g + 1) =? g) = false.
Proof.
  intros Hg. unfold in_u64 in Hg. unfold u64. destruct (decide (g + 1 = 2 ^ 64)) as [E|].
  - rewrite E, Z.mod_same by lia. lia.
  - rewrite Z.mod_small by lia. lia.
Qed.

Lemma wp_flushed w info (Q : Z -> world -> Prop) : w_scrns w !! scrn = Some info -> Q (gpu_flushed info) w -> wp flushed Q w.
Proof. intros Hi HQ. unfold flushed. by apply wp_bind, (wp_load _ scrn info). Qed.

(** Output is written to a client or to all. *)
Lemma wp_counters_output type b waiting w info client (Q : unit -> world -> Prop) :
  counters type b waiting w info ->
  (forall w' info', counters type (b + 1) (if gpu_flushed info' =? gpu_flushed info then waiting else false) w' info' ->
     gpu_flushed info' = (if vtSema info && callback_needs_flush (gpu_flushed info) (needs w (default serverClient client))
                          then u64 (gpu_flushed info + 1) else gpu_flushed info) ->
     Q tt w') ->
  wp (amdgpu_flush_callback scrn client) Q w.
Proof.
  intros Hc HQ. unfold amdgpu_flush_callback, client_needs_flush. apply wp_bind, (wp_load _ scrn info); [apply Hc |].
  apply wp_bind, wp_bind, wp_gets. change (default 0 (needs_flush (w_entity ?x) !! (scrn, ?c))) with (needs x c).
  apply wp_ret. destruct (vtSema info && _); cbn [mwhen].
  - eapply wp_counters_flush; [done |]. intros w' (info' & Hf & _ & Hc'). apply (HQ w' info'); [| done].
    by rewrite Hf, u64_succ_ne by apply Hc.
  - apply wp_ret, (HQ w info); [| done]. rewrite Z.eqb_refl. by eapply counters_weaken; [| done]; lia.
Qed.

Definition for_clients (op : output_op) : Prop := match op with EventTo c _ => c <> serverClient | _ => True end.

Lemma wp_output_step type op b waiting w info (Q : bool -> world -> Prop) :
  counters type b waiting w info -> 0 <= b < 2 ^ 31 -> for_clients op ->
  (forall waiting' w' info', counters type (b + 1) waiting' w' info' -> Q waiting' w') ->
  wp (output_step type op waiting) Q w.
Proof.
  intros Hc Hb Hop HQ. unfold output_step. apply wp_bind, (wp_flushed w info); [apply Hc |]. apply wp_bind.
  destruct op as [client types | client |]; cbn [run_output_op is_damage]; rewrite ?orb_false_r.
  - eapply wp_counters_event; [done | done | done |]. intros w' Hc'. apply wp_bind, (wp_flushed w' info); [apply Hc' |].
    apply wp_ret. rewrite Z.eqb_refl. eapply HQ, counters_weaken; [| done]. lia.
  - eapply wp_counters_output; [done |]. intros w' info' Hc' _. apply wp_bind, (wp_flushed w' info'); [apply Hc' |].
    by eapply wp_ret, HQ.
  - eapply wp_counters_flush; [done |]. intros w' (info' & Hf & _ & Hc'). apply wp_bind, (wp_flushed w' info'); [apply Hc' |].
    apply wp_ret. rewrite Hf, u64_succ_ne by apply Hc. by eapply HQ.
Qed.

Lemma wp_output_steps type ops b waiting w info (Q : bool -> world -> Prop) :
  counters type b waiting w info -> 0 <= b -> b + Z.of_nat (length ops) < 2 ^ 31 -> Forall for_clients ops ->
  (forall waiting' w' info', counters type (b + Z.of_nat (length ops)) waiting' w' info' -> Q waiting' w') ->
  wp (output_steps type ops waiting) Q w.
Proof.
  revert b waiting w info. induction ops as [|op ops IH]; intros b waiting w info Hc Hb Hlen Hops HQ.
  - apply wp_ret, (HQ waiting w info). by rewrite Z.add_0_r.
  - inversion Hops as [|? ? Hop Hr]; subst. cbn [output_steps]. rewrite length_cons in *. apply wp_bind.
    eapply wp_output_step; [done | lia | done |]. intros waiting' w' info' Hc'.
    eapply IH; [done | lia | lia | done |]. intros waiting'' w'' info'' Hc''. eapply HQ.
    replace (b + Z.of_nat (S (length ops))) with (b + 1 + Z.of_nat (length ops)) by lia. done.
Qed.

(** C25. Damage events are not sent ahead of the drawing they are about: whatever
    events the server queues for whatever clients, and whenever it writes output or
    the driver sends the GPU its work, the server's counter says that work has to be
    sent exactly if a damage event was queued since the GPU last got its work; then
    [amdgpu_flush_callback] for the output of all clients sends it, and otherwise it
    does nothing.  (The counters are compared modulo 2^32, so the number of steps
    and the initial distance [b] are bounded.) *)
Theorem damage_flushed_exact type ops b w info :
  w_scrns w !! scrn = Some info -> in_u64 (gpu_flushed info) -> callback_event_type (conf info) = type ->
  (forall c, exists k, needs w c = u64 (gpu_flushed info - k) /\ 0 <= k <= b) ->
  b + Z.of_nat (length ops) < 2 ^ 31 -> Forall for_clients ops ->
  wp (output_steps type ops false)
     (fun waiting w' => exists info', w_scrns w' !! scrn = Some info' /\
        callback_needs_flush (gpu_flushed info') (needs w' serverClient) = waiting /\
        wp (amdgpu_flush_callback scrn None)
           (fun _ w'' => exists info'', w_scrns w'' !! scrn = Some info'' /\
              gpu_flushed info'' = if vtSema info' && waiting then u64 (gpu_flushed info' + 1) else gpu_flushed info') w') w.
Proof.
  intros Hi HR HT Hk Hlen Hops. destruct (Hk serverClient) as (k0 & _ & Hk0).
  eapply (wp_output_steps type ops b); [| lia | done | done |].
  - split; [exact Hi | done | done | | done]. intros c. destruct (Hk c) as (k & Hn & Hb). exists (- k). split_and!; [done | lia | lia | lia].
  - intros waiting w' info' Hc. exists info'.
    assert (Hs : callback_needs_flush (gpu_flushed info') (needs w' serverClient) = waiting) by (eapply counters_server; [| done]; done).
    split_and!; [apply Hc | done |]. eapply wp_counters_output; [done |]. intros w'' info'' Hc'' Hg. exists info''.
    split; [apply Hc'' |]. rewrite Hg. cbn [default]. by rewrite Hs.
Qed.

(** But output written to one client can be ahead of the drawing: while another
    client's damage event waits, a damage event for a client is queued without
    raising that client's own counter, and writing that client's output does not
    send the GPU its work. *)
Theorem damage_second_client_missed client types info w :
  w_scrns w !! scrn = Some info ->
  callback_needs_flush (gpu_flushed info) (needs w serverClient) = true ->
  callback_needs_flush (gpu_flushed info) (needs w client) = false ->
  (_ ← amdgpu_event_callback scrn client types; amdgpu_flush_callback scrn (Some client)) w = Ok tt w.
Proof.
  intros Hi Hs Hc. unfold amdgpu_event_callback, amdgpu_flush_callback, client_needs_flush, mbind, M_bind, gets, mret, M_ret.
  rewrite (load_ok _ _ _ _ Hi). fold (needs w client) (needs w serverClient). rewrite Hs, orb_true_r.
  rewrite (load_ok _ _ _ _ Hi).
  change (default 0 (needs_flush (w_entity w) !! (scrn, default serverClient (Some client)))) with (needs w client).
  by rewrite Hc, andb_false_r.
Qed.
End Damage.

(** Client 1 gets a damage event (type 91), then client 2; the output of all is
    written. *)
Definition damage_world : world :=
  Sample.w <| w_scrns := {[1%positive := Sample.scrn <| conf ::= setf callback_event_type (fun _ => 91) |>]} |>.

Lemma damage_flushed_exact_witness :
  wp (output_steps (env := Sample.env) 1 91 [EventTo 1 [91]; EventTo 2 [3; 91]] false)
     (fun waiting w' => exists info', w_scrns w' !! 1%positive = Some info' /\
        callback_needs_flush (gpu_flushed info') (needs 1 w' serverClient) = waiting /\
        wp (amdgpu_flush_callback (env := Sample.env) 1 None)
           (fun _ w'' => exists info'', w_scrns w'' !! 1%positive = Some info'' /\
              gpu_flushed info'' = if vtSema info' && waiting then u64 (gpu_flushed info' + 1) else gpu_flushed info') w')
     damage_world.
Proof.
  eapply (damage_flushed_exact (env := Sample.env) 1 91 [EventTo 1 [91]; EventTo 2 [3; 91]] 0 damage_world); try reflexivity.
  - done.
  - intros c. exists 0. split; [| lia]. unfold needs. cbn. by rewrite lookup_empty.
  - repeat constructor; done.
Defined.

Lemma damage_second_client_missed_witness :
  let w := after (amdgpu_event_callback 1 1 [91]) damage_world in
  (_ ← amdgpu_event_callback 1 2 [91]; amdgpu_flush_callback (env := Sample.env) 1 (Some 2)) w = Ok tt w.
Proof.
  apply (damage_second_client_missed (env := Sample.env) 1 2 [91]
           (Sample.scrn <| conf ::= setf callback_event_type (fun _ => 91) |>)); vm_compute; reflexivity.
Defined.

(** ** A resize that fails *)
Section Resize.
Context `{env : Env} `{srv : XServer} `{callbacks : Callbacks} `{rot : Rotator}.

Lemma alloc_bo_scrns scrn w h d u b : leaves w_scrns (amdgpu_alloc_pixmap_bo scrn w h d u b).
Proof. unfold amdgpu_alloc_pixmap_bo, amdgpu_bo_open, calloc_buffer. leaves_auto. Qed.
Lemma bo_map_scrns b : leaves w_scrns (amdgpu_bo_map b).
Proof. unfold amdgpu_bo_map. leaves_auto. Qed.
Lemma bo_unref_scrns b : leaves w_scrns (amdgpu_bo_unref b).
Proof. unfold amdgpu_bo_unref, amdgpu_bo_unmap. leaves_auto. Qed.
Lemma header_scrns p w h d b k x : leaves w_scrns (modify_pixmap_header p w h d b k x).
Proof. unfold modify_pixmap_header. leaves_auto. Qed.
Lemma textured_scrns p b : leaves w_scrns (amdgpu_glamor_create_textured_pixmap p b).
Proof. unfold amdgpu_glamor_create_textured_pixmap, amdgpu_bo_get_handle. leaves_auto. Qed.
#[local] Hint Resolve alloc_bo_scrns bo_map_scrns bo_unref_scrns header_scrns textured_scrns : leaves.
Lemma fb_reference_scrns s n : leaves w_scrns (drmmode_fb_reference s n).
Proof. unfold drmmode_fb_reference, read_slot, write_slot. leaves_auto. Qed.
#[local] Hint Resolve fb_reference_scrns : leaves.
Lemma set_pixmap_bo_scrns p b : leaves w_scrns (amdgpu_set_pixmap_bo p b).
Proof. unfold amdgpu_set_pixmap_bo, get_priv, set_priv, amdgpu_bo_ref. leaves_auto. Qed.
Lemma screen_resources_scrns scrn : leaves w_scrns (amdgpu_glamor_create_screen_resources scrn).
Proof. unfold amdgpu_glamor_create_screen_resources. leaves_auto. Qed.
#[local] Hint Resolve set_pixmap_bo_scrns screen_resources_scrns : leaves.

(** The screen is [i], the others are as in [w]. *)
Definition screen_is (scrn : loc) (w : world) (i : scrn_info) (w' : world) : Prop := w_scrns w' = <[scrn := i]> (w_scrns w).

Lemma pwp_left {A} (m : D A) scrn w i w' (Q : A -> world -> Prop) :
  leaves w_scrns m -> screen_is scrn w i w' -> (forall a w'', screen_is scrn w i w'' -> Q a w'') -> pwp m Q w'.
Proof. intros Hm Hs HQ. eapply pwp_mono; [apply Hm |]. intros a w'' Hw. apply HQ. unfold screen_is. by rewrite Hw. Qed.
Lemma pwp_screen_load scrn w i w' (Q : scrn_info -> world -> Prop) :
  screen_is scrn w i w' -> Q i w' -> pwp (load w_scrns scrn) Q w'.
Proof. intros Hs HQ. apply pwp_load. intros x Hx. rewrite Hs, lookup_insert_eq in Hx. by injection Hx as <-. Qed.
Lemma pwp_screen_update scrn w i w' f (Q : unit -> world -> Prop) :
  screen_is scrn w i w' -> (forall w'', screen_is scrn w (f i) w'' -> Q tt w'') -> pwp (update w_scrns scrn f) Q w'.
Proof.
  intros Hs HQ. apply pwp_update. intros x Hx. pose proof Hx as Hx'. rewrite Hs, lookup_insert_eq in Hx'. injection Hx' as <-.
  apply HQ. unfold screen_is, setf. cbn. by rewrite Hs, insert_insert_eq.
Qed.

(** What a failed resize leaves of a screen. *)
Definition as_before (info : scrn_info) (i : scrn_info) : Prop :=
  exists b, i = info <| conf ::= setf fb_shadow (fun _ => b) |>.
Definition restored (info i : scrn_info) : scrn_info :=
  i <| front_buffer := front_buffer info |> <| virtualX := virtualX info |> <| virtualY := virtualY info |>
    <| displayWidth := displayWidth info |>.

Definition touched_only (info i : scrn_info) : Prop := as_before info (restored info i).

Lemma as_before_refl info : as_before info info.
Proof. exists (fb_shadow (conf info)). unfold setf. destruct info. cbn. by destruct conf. Qed.
Lemma touched_refl info : touched_only info info.
Proof. unfold touched_only, restored. destruct (as_before_refl info) as [b Hb]. exists b. rewrite <- Hb. by destruct info. Qed.
Lemma touched_size info x y i : touched_only info i -> touched_only info (i <| virtualX := x |> <| virtualY := y |>).
Proof. by destruct i. Qed.
Lemma touched_front info v i : touched_only info i -> touched_only info (setf front_buffer v i).
Proof. by destruct i. Qed.
Lemma touched_width info v i : touched_only info i -> touched_only info (setf displayWidth v i).
Proof. by destruct i. Qed.
Lemma touched_shadow info v i : touched_only info i -> touched_only info (setf conf (setf fb_shadow (fun _ => v)) i).
Proof.
  intros [b Hb]. exists v. transitivity (setf conf (setf fb_shadow (fun _ => v)) (restored info i)); [by destruct i |].
  rewrite Hb. by destruct info.
Qed.

Lemma pwp_resize_fail scrn w info i w' :
  screen_is scrn w i w' -> touched_only info i ->
  pwp (resize_fail scrn info) (fun ok w'' => ok = false -> exists i', screen_is scrn w i' w'' /\ as_before info i') w'.
Proof.
  intros Hs Hr. unfold resize_fail. apply pwp_bind. eapply pwp_screen_load; [done |]. apply pwp_bind.
  eapply pwp_left; [leaves_auto | done |]. intros _ w1 Hs1. apply pwp_bind. eapply pwp_screen_update; [done |].
  intros w2 Hs2. apply pwp_ret. intros _. eauto.
Qed.

Lemma resize_header_touches scrn w info i w' front width height pitch (Q : bool -> world -> Prop) :
  screen_is scrn w i w' -> touched_only info i ->
  (forall ok i' w'', screen_is scrn w i' w'' -> touched_only info i' -> Q ok w'') ->
  pwp (resize_header scrn info front width height pitch) Q w'.
Proof.
  intros Hs Ht HQ. unfold resize_header. apply pwp_bind. eapply pwp_left; [leaves_auto | done |]. intros b w1 Hs1.
  destruct (_ || _).
  - apply pwp_bind. eapply pwp_left; [leaves_auto | done |]. intros _ w2 Hs2. eapply HQ; eauto.
  - apply pwp_bind. eapply pwp_left; [leaves_auto | done |]. intros [v|] w2 Hs2; [| eapply HQ; eauto].
    apply pwp_bind. eapply pwp_screen_update; [done |]. intros w3 Hs3. apply pwp_bind.
    eapply pwp_left; [leaves_auto | done |]. intros _ w4 Hs4. eapply HQ; [done | by apply touched_shadow].
Qed.

(** C23. A resize of the screen that fails - the size is too large, there is no
    buffer of it, the buffer cannot be mapped, drawn to with glamor or given to the
    screen pixmap - leaves the screen as it was: its size, its pitch and its front
    buffer, everything but whether it has a shadow. *)
Theorem resize_failure_restores sw_cursor fuel scrn width height info w :
  w_scrns w !! scrn = Some info ->
  pwp (drmmode_xf86crtc_resize sw_cursor fuel scrn width height)
      (fun ok w' => ok = false -> exists i, screen_is scrn w i w' /\ as_before info i) w.
Proof.
  intros Hi. assert (Hs0 : screen_is scrn w info w) by (unfold screen_is; by rewrite insert_id).
  unfold drmmode_xf86crtc_resize. apply pwp_bind. eapply pwp_screen_load; [done |].
  destruct (_ && _); [by apply pwp_ret |].
  destruct (_ || _); [apply pwp_ret; intros _; exists info; split; [done | apply as_before_refl] |].
  apply pwp_bind. eapply pwp_screen_update; [done |]. intros w1 Hs1. apply pwp_bind.
  eapply pwp_left; [leaves_auto | done |]. intros r w2 Hs2. apply pwp_bind. eapply pwp_screen_update; [done |]. intros w3 Hs3.
  pose proof (touched_front info (fun _ => r.1) _ (touched_size info width height _ (touched_refl info))) as Ht.
  destruct r.1 as [front|]; [| by eapply pwp_resize_fail].
  apply pwp_bind. eapply pwp_left; [leaves_auto | done |]. intros ret w4 Hs4. destruct (negb _); [by eapply pwp_resize_fail |].
  apply pwp_bind. eapply pwp_left; [unfold pitch_pixels; leaves_auto | done |]. intros dw w5 Hs5.
  apply pwp_bind. eapply pwp_screen_update; [done |]. intros w6 Hs6. apply (touched_width _ (fun _ => dw)) in Ht.
  apply pwp_bind. eapply resize_header_touches; [done | done |]. intros ok i w7 Hs7 Ht7.
  destruct ok; cbn [negb]; [| by eapply pwp_resize_fail].
  apply pwp_bind. eapply pwp_left; [leaves_auto | done |]. intros ok w8 Hs8. destruct ok; cbn [negb]; [| by eapply pwp_resize_fail].
  apply pwp_bind. eapply pwp_left; [leaves_auto | done |]. intros ok w9 Hs9. destruct ok; cbn [negb]; [| by eapply pwp_resize_fail].
  do 4 (apply pwp_bind; eapply pwp_mono; [by apply pwp_any |]; intros ? ? _). by apply pwp_ret.
Qed.
End Resize.

(** Glamor cannot use the new buffer. *)
Definition resize_env : Env := fun history e =>
  match e return answer e with
  | GlamorTexturedFromGbm _ _ | GlamorTexturedFromHandle _ _ _ => false
  | e' => Sample.env history e'
  end.
Definition screen_callbacks : Callbacks := {| call_handler _ _ _ _ _ := mret tt; call_abort _ _ _ := mret tt |}.
Definition screen_rotator : Rotator := fun _ => mret true.
Definition try_resize : D bool :=
  drmmode_xf86crtc_resize (env := resize_env) (callbacks := screen_callbacks) (rot := screen_rotator) false 10 1 128 64.

Lemma resize_failure_restores_witness :
  returns try_resize Sample.w = true /\
  pwp try_resize (fun ok w' => ok = false -> exists i, screen_is 1 Sample.w i w' /\ as_before Sample.scrn i) Sample.w.
Proof.
  split; [vm_compute; reflexivity |].
  by apply (resize_failure_restores (env := resize_env) (callbacks := screen_callbacks) (rot := screen_rotator)).
Defined.

(** But the screen pixmap keeps the size it was given for the new buffer. *)
Theorem resize_failure_pixmap :
  exists w', try_resize Sample.w = Ok false w' /\
    virtualX <$> w_scrns w' !! 1%positive = Some 64 /\ pix_width <$> w_pixmaps w' !! 2%positive = Some 128.
Proof. eexists. vm_compute. split_and!; reflexivity. Qed.
