(* ===== verification/Hotplug.v ===== *)
(** * Outputs and CRTCs that come and go

    Parts of src/src/drmmode_display.c: how the driver follows the connectors of the
    device ([amdgpu_mode_hotplug]), and how it sets up its CRTCs, outputs and color
    properties when it starts ([drmmode_pre_init]). *)
From stdpp Require Import strings.
From S2P Require Import Prelude Modes Region World Lut Fb DriState Queue Bo PixmapFb Crtc Keeps Scanout Modeset.
From S2P Require Import Flip Prime Names Color Outputs Leases.

Definition DRM_MODE_LINK_STATUS_BAD : Z := 1.

Section Code.
Context `{env : Env} `{srv : XServer} `{callbacks : Callbacks} `{rot : Rotator} (sw_cursor : bool).
(** The index of the screen, its number on the device, whether the device is shared
    and the option "ZaphodHeads". *)
Context (scrnIndex instance_id : Z) (shared : bool) (zaphod : option string).

(** ** An output goes *)

(** The encoders that are freed are counted by the connector. *)
Definition drmmode_output_destroy (output : loc) : D unit :=
  out ← load w_outputs output;
  k ← some_or NullDeref (mode_output out);
  if Z.of_nat (length (mode_encoders out)) <? Z.of_nat (length (conn_encoders k)) then raise OutOfBounds
  else free w_outputs output.

(** The server's [xf86OutputDestroy]. *)
Definition xf86OutputDestroy (scrn output : loc) : D unit :=
  _ ← drmmode_output_destroy output;
  update w_scrns scrn (setf outputs (filter (fun o => o <> output))).

Definition is_dvi (type : Z) : bool :=
  (type =? DRM_MODE_CONNECTOR_DVII) || (type =? DRM_MODE_CONNECTOR_DVID) || (type =? DRM_MODE_CONNECTOR_DVIA).
Definition is_hdmi (type : Z) : bool := (type =? DRM_MODE_CONNECTOR_HDMIA) || (type =? DRM_MODE_CONNECTOR_HDMIB).

(** The two counters are passed along. *)
Fixpoint find_output_loop (l : list loc) (id : Z) (n : Z * Z) : D (bool * (Z * Z)) :=
  match l with
  | [] => mret (false, n)
  | o :: r =>
      out ← load w_outputs o;
      if output_id out =? id then
        k ← some_or NullDeref (mode_output out);
        mret (true, if is_dvi (connector_type k) then (n.1 + 1, n.2)
                    else if is_hdmi (connector_type k) then (n.1, n.2 + 1) else n)
      else find_output_loop r id n
  end.

Definition drmmode_find_output (scrn : loc) (id : Z) (n : Z * Z) : D (bool * (Z * Z)) :=
  info ← load w_scrns scrn; find_output_loop (outputs info) id n.

(** ** Hotplug *)

(** An output whose link has failed: its mode is set again. *)
Definition check_link (fuel : nat) (output : loc) : D unit :=
  out ← load w_outputs output;
  _ ← drmmode_output_detect output;
  now ← load w_outputs output;
  match out_crtc out, mode_output now with
  | Some crtc, Some _ =>
      match list_find (fun p => prop_name (mode_prop p) = "link-status"%string) (out_props now) with
      | Some (_, p) =>
          mwhen (out_value p =? DRM_MODE_LINK_STATUS_BAD)
            (c ← load w_crtcs crtc;
             _ ← drmmode_set_mode_major sw_cursor fuel crtc (Some (crtc_mode c)) (rotation c) (crtc_x c) (crtc_y c); mret tt)
      | None => mret tt
      end
  | _, _ => mret tt
  end.

(** One pass of the loop at [restart_destroy]: whether something changed, and
    whether an output was destroyed, so that the loop starts again. *)
Fixpoint scan_outputs (scrn : loc) (delete : bool) (ids : list Z) (l : list loc) (changed : bool) : D (bool * bool) :=
  match l with
  | [] => mret (changed, false)
  | o :: r =>
      out ← load w_outputs o;
      if existsb (Z.eqb (u32 (output_id out))) ids then scan_outputs scrn delete ids r changed
      else
        _ ← update w_outputs o (fun out => out <| mode_output := None |> <| output_id := -1 |>);
        if delete then
          _ ← call (Notify "RROutputDestroy" [Zpos o]);
          _ ← xf86OutputDestroy scrn o;
          mret (true, true)
        else scan_outputs scrn delete ids r true
  end.

Fixpoint restart_destroy (fuel : nat) (scrn : loc) (ids : list Z) (changed : bool) : D bool :=
  match fuel with
  | O => nofuel
  | S fuel' =>
      info ← load w_scrns scrn;
      r ← scan_outputs scrn (delete_dp_12_displays (conf info)) ids (outputs info) changed;
      if r.2 : bool then restart_destroy fuel' scrn ids r.1 else mret r.1
  end.

(** Whether one of the screens has an output of that id. *)
Fixpoint find_in_screens (l : list loc) (id : Z) (n : Z * Z) : D (bool * (Z * Z)) :=
  match l with
  | [] => mret (false, n)
  | s :: r =>
      f ← drmmode_find_output s id n;
      if f.1 : bool then mret f else find_in_screens r id f.2
  end.

Fixpoint new_outputs (scrn : loc) (ids : list Z) (num : Z) (n : Z * Z) (changed : bool) : D bool :=
  match ids with
  | [] => mret changed
  | id :: r =>
      e ← gets w_entity;
      f ← find_in_screens (ent_scrns e) (s32 id) n;
      if f.1 : bool then new_outputs scrn r (num + 1) f.2 changed
      else
        i ← drmmode_output_init scrn id num scrnIndex instance_id shared zaphod f.2.1 f.2.2 true;
        let '(made, dvi, hdmi) := i in
        new_outputs scrn r (num + 1) (dvi, hdmi) (changed || made)
  end.

Definition amdgpu_mode_hotplug (fuel : nat) (scrn : loc) : D unit :=
  info ← load w_scrns scrn;
  _ ← mfor (outputs info) (check_link fuel);
  res ← call DrmModeGetResources;
  _ ← match res with
      | None => mret tt
      | Some mode_res =>
          changed ← restart_destroy fuel scrn (res_connectors mode_res) false;
          changed ← new_outputs scrn (res_connectors mode_res) 0 (0, 0) changed;
          _ ← drmmode_validate_leases scrn;
          mwhen changed
            (_ ← call (Notify "RRSetChanged" [Zpos scrn]);
             call (Notify "RRTellChanged" [Zpos scrn]))
      end;
  call (Notify "RRGetInfo" [Zpos scrn]).

(** Whether an event was received. *)
Fixpoint receive_uevents (fuel : nat) (received : bool) : D bool :=
  match fuel with
  | O => nofuel
  | S fuel' =>
      more ← call UdevSelect;
      if more : bool then dev ← call UdevReceive; receive_uevents fuel' (received || dev) else mret received
  end.

Definition drmmode_handle_uevents (fuel : nat) (scrn : loc) : D unit :=
  received ← receive_uevents fuel false;
  mwhen received (amdgpu_mode_hotplug fuel scrn).

(** ** Color properties *)

Definition set_prop_id (p : drmmode_cm_prop) (v : Z) (f : drmmode_cm_prop -> Z) : drmmode_cm_prop -> Z :=
  fun q => if bool_decide (q = p) then v else f q.

(** The loop over the properties of the first CRTC; the result says whether the two
    table sizes are there. *)
Fixpoint cm_scan (scrn : loc) (props : list (Z * Z)) (degamma gamma : bool) : D (bool * bool) :=
  match props with
  | [] => mret (degamma, gamma)
  | (id, value) :: r =>
      prop ← call (DrmModeGetProperty id);
      match prop with
      | None => cm_scan scrn r degamma gamma
      | Some drm_prop =>
          let p := get_cm_enum_from_str (prop_name drm_prop) in
          match p with
          | CM_INVALID_PROP => cm_scan scrn r degamma gamma
          | _ =>
              _ ← match p with
                  | CM_DEGAMMA_LUT_SIZE => update w_scrns scrn (setf degamma_lut_size (fun _ => u32 value))
                  | CM_GAMMA_LUT_SIZE => update w_scrns scrn (setf gamma_lut_size (fun _ => u32 value))
                  | _ => mret tt
                  end;
              _ ← update w_scrns scrn (setf cm_prop_ids (set_prop_id p id));
              cm_scan scrn r (degamma || bool_decide (p = CM_DEGAMMA_LUT_SIZE) && negb (u32 value =? 0))
                             (gamma || bool_decide (p = CM_GAMMA_LUT_SIZE) && negb (u32 value =? 0))
          end
      end
  end.

Definition drmmode_cm_init (scrn : loc) (res : drmModeRes) : D unit :=
  _ ← update w_scrns scrn (fun i => i <| cm_prop_ids := fun _ => 0 |> <| gamma_lut_size := 0 |> <| degamma_lut_size := 0 |>);
  match res_crtcs res with
  | [] => mret tt
  | crtc :: _ =>
      drm_props ← call (DrmModeObjectGetProperties crtc);
      match drm_props with
      | None => mret tt
      | Some props =>
          u ← cm_scan scrn props false false;
          _ ← mwhen (negb u.2) (update w_scrns scrn (setf cm_prop_ids (set_prop_id CM_GAMMA_LUT 0)));
          mwhen (negb u.1) (update w_scrns scrn (setf cm_prop_ids (set_prop_id CM_DEGAMMA_LUT 0)))
      end
  end.

(** ** Setting up the CRTCs and outputs *)

(** The names of the properties of a CRTC, up to the one that is looked for. *)
Fixpoint vrr_names (props : list (Z * Z)) : D (list (option (string * Z))) :=
  match props with
  | [] => mret []
  | (id, _) :: r =>
      p ← call (DrmModeGetProperty id);
      match p with
      | Some prop =>
          if String.eqb (prop_name prop) "VRR_ENABLED" then mret [Some (prop_name prop, id)]
          else l ← vrr_names r; mret (Some (prop_name prop, id) :: l)
      | None => l ← vrr_names r; mret (None :: l)
      end
  end.
Definition vrr_properties (scrn : loc) (crtc_id : Z) : D (option (list (option (string * Z)))) :=
  info ← load w_scrns scrn;
  if negb (vrr_prop_id info =? 0) then mret None
  else
    props ← call (DrmModeObjectGetProperties crtc_id);
    match props with None => mret None | Some l => l' ← vrr_names l; mret (Some l') end.

(** The private data of a new CRTC. *)
Definition new_dcrtc (id buffer : Z) : drmmode_crtc :=
  DCrtc id buffer 0 None 0 0 0 0 0 (None, None) None (None, None) None ∅ false 0 0 false 0 false None
        DPMSModeOff 0 0 0 0 false 0 None None None None None.

(** The [num]th CRTC of the device; [fresh] is the CRTC the server makes.  The
    result is 1 where it was made. *)
Definition drmmode_crtc_init (fresh : xf86Crtc) (scrn : loc) (res : drmModeRes) (num : nat) : D Z :=
  ok ← call (Ask "xf86CrtcCreate" [Zpos scrn]);
  if negb ok then mret 0
  else
    info ← load w_scrns scrn;
    id ← some_or OutOfBounds (res_crtcs res !! num);
    mode_crtc ← call (DrmModeGetCrtc id);
    buffer ← some_or NullDeref mode_crtc;
    crtc ← new w_crtcs (fresh <| crtc_scrn := scrn |> <| driver_private := new_dcrtc id buffer |>
             <| has_gamma_set := negb ((depth info =? 30) && negb (drmmode_cm_prop_supported info CM_GAMMA_LUT)) |>);
    _ ← update w_scrns scrn (setf crtcs (fun l => l ++ [crtc]));
    _ ← drmmode_crtc_hw_id crtc;
    _ ← drmmode_crtc_cm_init crtc;
    props ← vrr_properties scrn id;
    _ ← drmmode_crtc_vrr_init crtc props;
    _ ← modify (setf w_entity (setf assigned_crtcs (fun m => Z.lor m (Z.shiftl 1 (Z.of_nat num)))));
    mret 1.

Fixpoint init_outputs (scrn : loc) (ids : list Z) (num needed : Z) (n : Z * Z) : D Z :=
  match ids with
  | [] => mret needed
  | id :: r =>
      i ← drmmode_output_init scrn id num scrnIndex instance_id shared zaphod n.1 n.2 false;
      let '(made, dvi, hdmi) := i in
      init_outputs scrn r (num + 1) (needed + Z.b2z made) (dvi, hdmi)
  end.

(** The CRTCs of a shared device are divided among its screens. *)
Fixpoint init_crtcs (fresh : xf86Crtc) (scrn : loc) (res : drmModeRes) (needed : Z) (nums : list nat) (got : Z) : D Z :=
  match nums with
  | [] => mret got
  | num :: r =>
      e ← gets w_entity;
      if negb shared || ((got <? needed) && negb (has_bit (assigned_crtcs e) (Z.shiftl 1 (Z.of_nat num)))) then
        k ← drmmode_crtc_init fresh scrn res num;
        init_crtcs fresh scrn res needed r (got + k)
      else init_crtcs fresh scrn res needed r got
  end.

Definition drmmode_pre_init (fresh : xf86Crtc) (scrn : loc) : D bool :=
  _ ← call (Notify "xf86CrtcConfigInit" [Zpos scrn]);
  r ← call DrmModeGetResources;
  match r with
  | None => mret false
  | Some res =>
      _ ← update w_scrns scrn (fun i => i <| count_crtcs := Z.of_nat (length (res_crtcs res)) |>
            <| conf ::= fun c => c <| maxWidth := max_width res |> <| maxHeight := max_height res |> |>);
      needed ← init_outputs scrn (res_connectors res) 0 0 (0, 0);
      _ ← drmmode_cm_init scrn res;
      got ← init_crtcs fresh scrn res needed (seq 0 (length (res_crtcs res))) 0;
      if (got <? needed) && (got =? 0) then mret false
      else
        _ ← drmmode_clones_init scrn (res_encoders res);
        ok ← call (Ask "asprintf" []);
        if negb ok then mret false
        else
          _ ← call (Notify "xf86ProviderSetup" [Zpos scrn]);
          _ ← call (Notify "xf86InitialConfiguration" [Zpos scrn]);
          has ← drmmode_probe_page_flip_target;
          _ ← modify (setf w_has_page_flip_target (fun _ => has));
          mret true
  end.

(** The server frees the CRTC afterwards. *)
Definition drmmode_crtc_destroy (crtc : loc) : D unit := free w_crtcs crtc.
End Code.

(** ** Connectors that are gone *)
Section Gone.
Context `{env : Env}.

Definition listed (ids : list Z) (out : xf86Output) : bool := existsb (Z.eqb (u32 (output_id out))) ids.

Lemma scan_delete_faults scrn ids l changed w :
  (forall o, o ∈ l -> is_Some (w_outputs w !! o)) ->
  (exists o out, o ∈ l /\ w_outputs w !! o = Some out /\ listed ids out = false) ->
  scan_outputs scrn true ids l changed w = Fault NullDeref.
Proof.
  intros Hex Hgone. induction l as [|o l IH]; [destruct Hgone as (o & ? & Ho & _); by apply elem_of_nil in Ho |].
  destruct (Hex o) as [out Hout]; [by left |]. cbn [scan_outputs]. unfold mbind at 1, M_bind. rewrite (load_ok _ _ _ _ Hout).
  fold (listed ids out). destruct (listed ids out) eqn:Hl.
  - apply IH; [intros o' Ho'; apply Hex; by right |]. destruct Hgone as (o' & out' & Ho' & Hout' & Hl').
    apply elem_of_cons in Ho' as [->|Ho']; [congruence | by exists o', out'].
  - unfold mbind, M_bind, update. unfold mbind, M_bind. rewrite (load_ok _ _ _ _ Hout). cbn.
    unfold xf86OutputDestroy, drmmode_output_destroy, mbind, M_bind.
    rewrite (load_ok _ o (out <| mode_output := None |> <| output_id := -1 |>)); [done |].
    unfold setf. cbn. by rewrite lookup_insert_eq.
Qed.

(** With the option "DeleteUnusedDP12Displays", a connector that disappears
    crashes the server: the output's connector is freed and its pointer set to [NULL],
    and then [drmmode_output_destroy] reads the number of encoders through it. *)
Theorem hotplug_delete_crashes fuel scrn ids changed info w :
  w_scrns w !! scrn = Some info -> delete_dp_12_displays (conf info) = true ->
  (forall o, o ∈ outputs info -> is_Some (w_outputs w !! o)) ->
  (exists o out, o ∈ outputs info /\ w_outputs w !! o = Some out /\ listed ids out = false) ->
  restart_destroy (S fuel) scrn ids changed w = Fault NullDeref.
Proof.
  intros Hi Hd Hex Hgone. cbn [restart_destroy]. unfold mbind, M_bind. rewrite (load_ok _ _ _ _ Hi), Hd.
  by rewrite scan_delete_faults.
Qed.

(** An output whose connector the kernel no longer lists loses its connector. *)
Definition retire (ids : list Z) (out : xf86Output) : xf86Output :=
  if listed ids out then out else out <| mode_output := None |> <| output_id := -1 |>.

Lemma retire_twice ids out : retire ids (retire ids out) = retire ids out.
Proof.
  unfold retire at 2 3. destruct (listed ids out) eqn:Hl; [unfold retire; by rewrite Hl |].
  unfold retire. destruct (listed ids (_ <| output_id := _ |>)); [done |]. by destruct out.
Qed.

Definition retired_at (ids : list Z) (l : list loc) (w w' : world) : Prop :=
  w_scrns w' = w_scrns w /\ w_trace w' = w_trace w /\
  forall o, w_outputs w' !! o = (if decide (o ∈ l) then retire ids else id) <$> w_outputs w !! o.

Lemma retired_none ids w : retired_at ids [] w w.
Proof. split_and!; [done | done |]. intros o. rewrite decide_False by apply not_elem_of_nil. by rewrite option_fmap_id. Qed.
Lemma retired_snoc ids l o w w' :
  retired_at ids l w w' ->
  retired_at ids (l ++ [o]) w (w' <| w_outputs ::= alter (retire ids) o |>).
Proof.
  intros (H1 & Ht & H2). split_and!; [done | done |]. intros o'. unfold setf. cbn. destruct (decide (o' = o)) as [->|Hne].
  - rewrite lookup_alter_eq, H2, (decide_True (P := o ∈ l ++ [o])) by (apply elem_of_app; right; by left).
    destruct (w_outputs w !! o) as [out|]; [| done]. cbn. f_equal. destruct (decide (o ∈ l)); [apply retire_twice | done].
  - rewrite lookup_alter_ne by done. rewrite H2. destruct (decide (o' ∈ l)) as [Hin|Hout].
    + by rewrite decide_True by (apply elem_of_app; by left).
    + rewrite decide_False; [done |]. rewrite elem_of_app, list_elem_of_singleton. tauto.
Qed.

Lemma alter_id {A} (f : A -> A) (m : gmap loc A) k a : m !! k = Some a -> f a = a -> alter f k m = m.
Proof.
  intros Hk Hf. apply map_eq. intros i. destruct (decide (i = k)) as [->|]; [| by rewrite lookup_alter_ne].
  by rewrite lookup_alter_eq, Hk; cbn; rewrite Hf.
Qed.

(** The loop without the option, over the outputs after those in [l0]. *)
Lemma wp_scan_keep scrn ids l0 l changed w w' (Q : bool * bool -> world -> Prop) :
  NoDup (l0 ++ l) -> retired_at ids l0 w w' -> (forall o, o ∈ l -> is_Some (w_outputs w !! o)) ->
  (forall changed' w'', retired_at ids (l0 ++ l) w w'' ->
     (changed' = true <-> changed = true \/ exists o out, o ∈ l /\ w_outputs w !! o = Some out /\ listed ids out = false) ->
     Q (changed', false) w'') ->
  wp (scan_outputs scrn false ids l changed) Q w'.
Proof.
  revert l0 changed w'. induction l as [|o l IH]; intros l0 changed w' Hnd Hr Hex HQ; cbn [scan_outputs].
  - apply wp_ret, HQ; [by rewrite app_nil_r |]. split; [by left |]. intros [?|(o & out & Ho & _)]; [done |]. by apply elem_of_nil in Ho.
  - destruct (Hex o) as [out Hout]; [by left |]. pose proof Hr as (_ & _ & Ho). specialize (Ho o).
    rewrite Hout, decide_False in Ho; [| by apply NoDup_app in Hnd as (_ & Hd & _); intros Hin; apply (Hd o Hin); left].
    rewrite option_fmap_id in Ho. apply wp_bind, (wp_load _ o out); [done |]. fold (listed ids out).
    assert (Hsplit : l0 ++ o :: l = (l0 ++ [o]) ++ l) by (by rewrite <- app_assoc). rewrite Hsplit in Hnd, HQ.
    assert (Hex' : forall o', o' ∈ l -> is_Some (w_outputs w !! o')) by (intros; apply Hex; by right).
    pose proof (retired_snoc ids l0 o w w' Hr) as Hr'. destruct (listed ids out) eqn:Hl.
    + apply (IH (l0 ++ [o])); [done | | done |].
      * destruct Hr' as (G1 & G2 & G3). split_and!; [apply Hr | apply Hr |]. intros x. rewrite <- G3. unfold setf. cbn.
        rewrite (alter_id _ _ _ out); [done | done |]. unfold retire. by rewrite Hl.
      * intros changed' w'' Hr'' Hc. apply HQ; [done |]. rewrite Hc. apply or_iff_compat_l. split.
        -- intros (o1 & out1 & Hin & H1). exists o1, out1. split; [by right | done].
        -- intros (o1 & out1 & Hin & H1 & H2). apply elem_of_cons in Hin as [->|Hin]; [congruence | by exists o1, out1].
    + apply wp_bind, (wp_update _ o out); [done |]. apply (IH (l0 ++ [o])); [done | | done |].
      * destruct Hr' as (G1 & G2 & G3). split_and!; [apply Hr | apply Hr |]. intros x. rewrite <- G3. unfold setf. cbn.
        destruct (decide (x = o)) as [->|]; [| by rewrite lookup_alter_ne, lookup_insert_ne by congruence].
        rewrite lookup_alter_eq, lookup_insert_eq, Ho. cbn. unfold retire. by rewrite Hl.
      * intros changed' w'' Hr'' Hc. apply HQ; [done |]. rewrite Hc. split; [| by left]. intros _. right.
        exists o, out. split; [by left | done].
Qed.

(** An output without a connector has no id. *)
Definition connected (w : world) (l : list loc) : Prop :=
  forall o out, o ∈ l -> w_outputs w !! o = Some out -> mode_output out = None -> output_id out = -1.

Lemma wp_find_output l id n w (Q : bool * (Z * Z) -> world -> Prop) :
  connected w l -> id <> -1 -> (forall o, o ∈ l -> is_Some (w_outputs w !! o)) ->
  (forall found n', (found = true <-> exists o out, o ∈ l /\ w_outputs w !! o = Some out /\ output_id out = id) -> Q (found, n') w) ->
  wp (find_output_loop l id n) Q w.
Proof.
  intros Hc Hid. induction l as [|o l IH]; intros Hex HQ; cbn [find_output_loop].
  - apply wp_ret, HQ. split; [done |]. intros (o & _ & Ho & _). by apply elem_of_nil in Ho.
  - destruct (Hex o) as [out Hout]; [by left |]. apply wp_bind, (wp_load _ o out); [done |].
    destruct (Z.eqb_spec (output_id out) id) as [He|Hne].
    + destruct (mode_output out) as [k|] eqn:Hk; [| by specialize (Hc o out (list_elem_of_here _ _) Hout Hk); congruence].
      apply wp_bind, wp_ret, wp_ret, HQ. split; [| done]. intros _. exists o, out. split; [by left | done].
    + apply IH; [intros o' out' Ho'; apply Hc; by right | intros o' Ho'; apply Hex; by right |].
      intros found n' Hf. apply HQ. rewrite Hf. split; intros (o' & out' & Ho' & H1 & H2); exists o', out'.
      * split; [by right | done].
      * apply elem_of_cons in Ho' as [->|Ho']; [congruence | done].
Qed.

(** C21. With the option "DeleteUnusedDP12Displays" off (with it on,
    [hotplug_delete_crashes]), the loop of [amdgpu_mode_hotplug] over the outputs
    ([restart_destroy]), followed by a search for an output by the id of a connector
    ([drmmode_find_output]), is safe and exact on a screen whose outputs exist, are
    distinct, and have a connector unless their id is -1: the outputs
    whose connector the kernel no longer lists lose it and their id, the others stay
    as they are, a change is reported exactly if there is such an output, and the
    search - which reads the connector of the output it finds - ends, does not crash and
    finds one exactly if an output has that id (which is not -1). *)
Theorem hotplug_follows_connectors fuel scrn ids id n info w :
  w_scrns w !! scrn = Some info -> delete_dp_12_displays (conf info) = false -> NoDup (outputs info) ->
  (forall o, o ∈ outputs info -> is_Some (w_outputs w !! o)) -> connected w (outputs info) -> id <> -1 ->
  wp (changed ← restart_destroy (S fuel) scrn ids false; found ← drmmode_find_output scrn id n; mret (changed, found.1))
     (fun r w' => retired_at ids (outputs info) w w' /\
        (r.1 = true <-> exists o out, o ∈ outputs info /\ w_outputs w !! o = Some out /\ listed ids out = false) /\
        (r.2 = true <-> exists o out, o ∈ outputs info /\ w_outputs w' !! o = Some out /\ output_id out = id)) w.
Proof.
  intros Hi Hd Hnd Hex Hc Hid. apply wp_bind. cbn [restart_destroy]. apply wp_bind, (wp_load _ scrn info); [done |]. rewrite Hd.
  apply wp_bind, (wp_scan_keep _ _ [] _ _ w); [done | apply retired_none | done |]. cbn [app]. intros changed w' Hr Hch.
  apply wp_ret, wp_bind. unfold drmmode_find_output. pose proof Hr as (Hs & _ & Ho).
  apply wp_bind, (wp_load _ scrn info); [by rewrite Hs |]. apply wp_find_output; [| done | |].
  - intros o out Hin Hout Hm. rewrite Ho, decide_True in Hout by done.
    destruct (w_outputs w !! o) as [out0|] eqn:Hout0; [| done]. injection Hout as <-. unfold retire in *.
    destruct (listed ids out0); [by eapply Hc | done].
  - intros o Hin. rewrite Ho. destruct (Hex o Hin) as [out ->]. by eexists.
  - intros found n' Hf. apply wp_ret. cbn. split_and!; [done | | done]. rewrite Hch. naive_solver.
Qed.
End Gone.

(** ** Color properties that can be used *)
Section ColorInit.
Context `{env : Env}.
(** The kernel always reports the same property for an id. *)
Variable kind : Z -> drmmode_cm_prop.
Hypothesis same_property : forall history id,
  match reply history (DrmModeGetProperty id) with Some p => get_cm_enum_from_str (prop_name p) | None => CM_INVALID_PROP end = kind id.

(** The properties of a kind in a list. *)
Definition of_kind (p : drmmode_cm_prop) (props : list (Z * Z)) : list (Z * Z) := filter (fun x => kind x.1 = p) props.

(** The two tables: whether a size was found, and that it is not zero. *)
Definition sizes_ok (props : list (Z * Z)) (degamma gamma : bool) (i : scrn_info) : Prop :=
  (degamma = true -> degamma_lut_size i <> 0 /\ of_kind CM_DEGAMMA_LUT_SIZE props = []) /\
  (gamma = true -> gamma_lut_size i <> 0 /\ of_kind CM_GAMMA_LUT_SIZE props = []).

Lemma of_kind_cons p id v props : of_kind p ((id, v) :: props) = if decide (kind id = p) then (id, v) :: of_kind p props else of_kind p props.
Proof. unfold of_kind. destruct (decide (kind id = p)); [by rewrite filter_cons_True | by rewrite filter_cons_False]. Qed.

Lemma wp_cm_scan scrn props degamma gamma i w (Q : bool * bool -> world -> Prop) :
  w_scrns w !! scrn = Some i -> sizes_ok props degamma gamma i ->
  (length (of_kind CM_DEGAMMA_LUT_SIZE props) <= 1)%nat -> (length (of_kind CM_GAMMA_LUT_SIZE props) <= 1)%nat ->
  (forall d g i' w', w_scrns w' !! scrn = Some i' -> sizes_ok [] d g i' -> Q (d, g) w') ->
  wp (cm_scan scrn props degamma gamma) Q w.
Proof.
  revert degamma gamma i w. induction props as [|[id v] props IH]; intros degamma gamma i w Hi Hok Hd Hg HQ; cbn [cm_scan].
  { by eapply wp_ret, HQ. }
  apply wp_bind. wp_ext. pose proof (same_property (w_trace w) id) as Hk.
  rewrite of_kind_cons in Hd, Hg. unfold sizes_ok in Hok. rewrite !of_kind_cons in Hok.
  assert (Hgo : kind id <> CM_DEGAMMA_LUT_SIZE -> kind id <> CM_GAMMA_LUT_SIZE -> forall i' w',
    w_scrns w' !! scrn = Some i' -> degamma_lut_size i' = degamma_lut_size i -> gamma_lut_size i' = gamma_lut_size i ->
    wp (cm_scan scrn props degamma gamma) Q w').
  { intros H1 H2 i' w' Hi' E1 E2. rewrite !decide_False in * by done. eapply IH; [done | | done | done | done].
    unfold sizes_ok. by rewrite E1, E2. }
  destruct (reply (w_trace w) (DrmModeGetProperty id)) as [p|].
  2: { eapply Hgo; try done; by rewrite <- Hk. }
  cbv zeta. rewrite Hk. destruct (kind id) eqn:Hkind; rewrite ?decide_True, ?decide_False in * by done.
  6: { by eapply Hgo. }
  1-3: apply wp_bind, wp_ret, wp_bind, (wp_update _ scrn i); [done |]; rewrite !bool_decide_false by done;
    rewrite !orb_false_r; eapply Hgo; [done | done | unfold setf at 1; cbn; by rewrite lookup_insert_eq | done | done].
  - apply wp_bind, (wp_update _ scrn i); [done |].
    apply wp_bind, (wp_update _ scrn (setf degamma_lut_size (fun _ => u32 v) i)); [unfold setf at 1; cbn; by rewrite lookup_insert_eq |].
    destruct Hok as [Hok1 Hok2]. destruct degamma; [by destruct (Hok1 eq_refl) |]. rewrite length_cons in Hd.
    rewrite (bool_decide_false (_ = CM_GAMMA_LUT_SIZE)) by done. rewrite orb_false_r, bool_decide_true by done. cbn [orb andb].
    eapply IH; [unfold setf at 1; cbn; by rewrite lookup_insert_eq | | lia | done | done].
    split; [| exact Hok2]. intros Hv. split; [change (u32 v <> 0); lia | by apply nil_length_inv; lia].
  - apply wp_bind, (wp_update _ scrn i); [done |].
    apply wp_bind, (wp_update _ scrn (setf gamma_lut_size (fun _ => u32 v) i)); [unfold setf at 1; cbn; by rewrite lookup_insert_eq |].
    destruct Hok as [Hok1 Hok2]. destruct gamma; [by destruct (Hok2 eq_refl) |]. rewrite length_cons in Hg.
    rewrite (bool_decide_false (_ = CM_DEGAMMA_LUT_SIZE)) by done. rewrite orb_false_r, bool_decide_true by done. cbn [orb andb].
    eapply IH; [unfold setf at 1; cbn; by rewrite lookup_insert_eq | | done | lia | done].
    split; [exact Hok1 |]. intros Hv. split; [change (u32 v <> 0); lia | by apply nil_length_inv; lia].
Qed.

Lemma wp_drop_prop scrn (b : bool) p i w (Q : unit -> world -> Prop) :
  w_scrns w !! scrn = Some i ->
  (forall i' w', w_scrns w' !! scrn = Some i' -> degamma_lut_size i' = degamma_lut_size i -> gamma_lut_size i' = gamma_lut_size i ->
     (forall q, drmmode_cm_prop_supported i' q = (if b && bool_decide (q = p) then false else drmmode_cm_prop_supported i q)) -> Q tt w') ->
  wp (mwhen b (update w_scrns scrn (setf cm_prop_ids (set_prop_id p 0)))) Q w.
Proof.
  intros Hi HQ. destruct b; cbn [mwhen]; [| by apply (HQ i)].
  apply (wp_update _ scrn i); [done |]. eapply HQ; [unfold setf at 1; cbn; by rewrite lookup_insert_eq | done | done |].
  intros q. unfold drmmode_cm_prop_supported, setf, set_prop_id. cbn. by destruct (bool_decide (q = p)).
Qed.

(** Color tables that can be used have a size: after [drmmode_cm_init] the gamma
    and degamma tables are reported as supported only if the kernel gave a table size
    that is not zero, whatever properties the kernel lists, in any order, and when it
    lists none; the interpolation of the tables never divides by a size of zero.
    (A CRTC has at most one property of either size.) *)
Theorem cm_init_sizes scrn res i w :
  w_scrns w !! scrn = Some i ->
  (forall history id props, reply history (DrmModeObjectGetProperties id) = Some props ->
     (length (of_kind CM_DEGAMMA_LUT_SIZE props) <= 1)%nat /\ (length (of_kind CM_GAMMA_LUT_SIZE props) <= 1)%nat) ->
  wp (drmmode_cm_init scrn res)
     (fun _ w' => exists i', w_scrns w' !! scrn = Some i' /\
        (drmmode_cm_prop_supported i' CM_GAMMA_LUT = true -> gamma_lut_size i' <> 0) /\
        (drmmode_cm_prop_supported i' CM_DEGAMMA_LUT = true -> degamma_lut_size i' <> 0)) w.
Proof.
  intros Hi Hone. unfold drmmode_cm_init. apply wp_bind, (wp_update _ scrn i); [done |].
  set (i0 := setf degamma_lut_size _ _). set (w0 := setf w_scrns _ w).
  assert (Hi0 : w_scrns w0 !! scrn = Some i0) by (unfold w0, setf; cbn; by rewrite lookup_insert_eq).
  assert (Hnone : exists i', w_scrns w0 !! scrn = Some i' /\
        (drmmode_cm_prop_supported i' CM_GAMMA_LUT = true -> gamma_lut_size i' <> 0) /\
        (drmmode_cm_prop_supported i' CM_DEGAMMA_LUT = true -> degamma_lut_size i' <> 0)) by (by exists i0).
  destruct (res_crtcs res) as [|crtc l]; [by apply wp_ret |]. apply wp_bind. wp_ext.
  destruct (reply (w_trace w0) (DrmModeObjectGetProperties crtc)) as [props|] eqn:Hp; [| by apply wp_ret].
  destruct (Hone _ _ _ Hp) as [H1 H2]. apply wp_bind. eapply wp_cm_scan; [exact Hi0 | done | done | done |].
  intros d g i1 w1 Hi1 [Hd Hg]. apply wp_bind. eapply wp_drop_prop; [done |]. intros i2 w2 Hi2 E1 E2 Hs2.
  eapply wp_drop_prop; [done |]. intros i3 w3 Hi3 E3 E4 Hs3. exists i3. split; [done |]. rewrite !Hs3, !Hs2, E3, E4, E1, E2.
  destruct d, g; cbn; naive_solver.
Qed.
End ColorInit.

(** ** A machine with two outputs, the connector of one of them gone *)
Definition plug_connector (id : Z) : drmModeConnector := Connector id DRM_MODE_CONNECTOR_HDMIA 1 1 0 [] [] [].
Definition plug_output (id : Z) : xf86Output := Output None "HDMI-A-0" id (Some (plug_connector id)) [] 0 [] 0 0 0 0 0 false.
Definition plug_scrn (delete : bool) : scrn_info :=
  Sample.scrn <| outputs := [6; 7]%positive |> <| conf ::= setf delete_dp_12_displays (fun _ => delete) |>.
Definition plug_world (delete : bool) : world :=
  Sample.w <| w_scrns := {[1%positive := plug_scrn delete]} |>
           <| w_outputs := {[6%positive := plug_output 50; 7%positive := plug_output 51]} |>.

Lemma hotplug_delete_crashes_witness :
  restart_destroy (env := Sample.env) 1 1 [50] false (plug_world true) = Fault NullDeref.
Proof.
  apply (hotplug_delete_crashes (env := Sample.env) 0 1 [50] false (plug_scrn true)); [reflexivity | reflexivity | |].
  - intros o [->|[->|[]%elem_of_nil]%elem_of_cons]%elem_of_cons; by eexists.
  - exists 7%positive, (plug_output 51). split_and!; [right; left | reflexivity | reflexivity].
Defined.

Lemma hotplug_follows_connectors_witness :
  wp (changed ← restart_destroy (env := Sample.env) 1 1 [50] false;
      found ← drmmode_find_output 1 51 (0, 0); mret (changed, found.1))
     (fun r w' => retired_at [50] [6; 7]%positive (plug_world false) w' /\
        (r.1 = true <-> exists o out, o ∈ [6; 7]%positive /\ w_outputs (plug_world false) !! o = Some out /\ listed [50] out = false) /\
        (r.2 = true <-> exists o out, o ∈ [6; 7]%positive /\ w_outputs w' !! o = Some out /\ output_id out = 51)) (plug_world false).
Proof.
  apply (hotplug_follows_connectors (env := Sample.env) 0 1 [50] 51 (0, 0) (plug_scrn false) (plug_world false));
    [reflexivity | reflexivity | | | | done].
  - by repeat (apply NoDup_cons; split; [set_solver |]); apply NoDup_nil.
  - intros o [->|[->|[]%elem_of_nil]%elem_of_cons]%elem_of_cons; by eexists.
  - intros o out [->|[->|[]%elem_of_nil]%elem_of_cons]%elem_of_cons; vm_compute; intros [= <-]; discriminate.
Defined.

Definition cm_env : Env := fun history e =>
  match e return answer e with
  | DrmModeObjectGetProperties _ => Some [(7, 4096); (8, 0); (9, 0)]
  | DrmModeGetProperty id =>
      if id =? 7 then Some (KProp 7 0 "GAMMA_LUT_SIZE" [] []) else if id =? 8 then Some (KProp 8 0 "GAMMA_LUT" [] [])
      else if id =? 9 then Some (KProp 9 0 "DEGAMMA_LUT" [] []) else None
  | e' => Sample.env history e'
  end.
Definition cm_kind (id : Z) : drmmode_cm_prop :=
  if id =? 7 then CM_GAMMA_LUT_SIZE else if id =? 8 then CM_GAMMA_LUT else if id =? 9 then CM_DEGAMMA_LUT else CM_INVALID_PROP.

Lemma cm_init_sizes_witness :
  wp (drmmode_cm_init (env := cm_env) 1 (Resources [40] [] [] 0 0))
     (fun _ w' => exists i', w_scrns w' !! 1%positive = Some i' /\
        (drmmode_cm_prop_supported i' CM_GAMMA_LUT = true -> gamma_lut_size i' <> 0) /\
        (drmmode_cm_prop_supported i' CM_DEGAMMA_LUT = true -> degamma_lut_size i' <> 0)) Sample.w.
Proof.
  apply (cm_init_sizes (env := cm_env) cm_kind) with (i := Sample.scrn).
  - intros history id. cbn. unfold cm_kind. destruct (id =? 7); [reflexivity |]. destruct (id =? 8); [reflexivity |].
    by destruct (id =? 9).
  - reflexivity.
  - intros history id props. cbn. intros [= <-]. vm_compute. split; repeat constructor.
Defined.

(** ** None of it disturbs the queue *)
Section Keeps.
Context `{env : Env} `{srv : XServer} `{psafe : PrimeSafe} `{safe : CallbacksSafe} `{rsafe : RotatorSafe}.
Context (sw_cursor : bool) (scrnIndex instance_id : Z) (shared : bool) (zaphod : option string).

Lemma check_link_keeps fuel o : keeps (check_link sw_cursor fuel o).
Proof. unfold check_link. keeps_auto. Qed.
#[local] Hint Resolve check_link_keeps : keeps.
Lemma scan_outputs_keeps scrn delete ids l changed : keeps (scan_outputs scrn delete ids l changed).
Proof.
  revert changed. induction l; intros changed; cbn [scan_outputs]; [keeps_auto |].
  unfold xf86OutputDestroy, drmmode_output_destroy. keeps_auto.
Qed.
#[local] Hint Resolve scan_outputs_keeps : keeps.
Lemma restart_destroy_keeps fuel scrn ids changed : keeps (restart_destroy fuel scrn ids changed).
Proof. revert changed. induction fuel; intros changed; cbn [restart_destroy]; keeps_auto. Qed.
Lemma find_output_loop_keeps l id n : keeps (find_output_loop l id n).
Proof. induction l; cbn [find_output_loop]; keeps_auto. Qed.
#[local] Hint Resolve restart_destroy_keeps find_output_loop_keeps : keeps.
Lemma find_in_screens_keeps l id n : keeps (find_in_screens l id n).
Proof. revert n. induction l; intros n; cbn [find_in_screens]; unfold drmmode_find_output; keeps_auto. Qed.
#[local] Hint Resolve find_in_screens_keeps : keeps.
Lemma new_outputs_keeps scrn ids num n changed : keeps (new_outputs scrnIndex instance_id shared zaphod scrn ids num n changed).
Proof. revert num n changed. induction ids; intros num n changed; cbn [new_outputs]; keeps_auto. Qed.
#[local] Hint Resolve new_outputs_keeps : keeps.
Lemma mode_hotplug_keeps fuel scrn : keeps (amdgpu_mode_hotplug sw_cursor scrnIndex instance_id shared zaphod fuel scrn).
Proof. unfold amdgpu_mode_hotplug. keeps_auto. Qed.
#[local] Hint Resolve mode_hotplug_keeps : keeps.
Lemma receive_uevents_keeps fuel received : keeps (receive_uevents fuel received).
Proof. revert received. induction fuel; intros received; cbn [receive_uevents]; keeps_auto. Qed.
#[local] Hint Resolve receive_uevents_keeps : keeps.
Lemma handle_uevents_keeps fuel scrn : keeps (drmmode_handle_uevents sw_cursor scrnIndex instance_id shared zaphod fuel scrn).
Proof. unfold drmmode_handle_uevents. keeps_auto. Qed.
End Keeps.
#[export] Hint Resolve handle_uevents_keeps : keeps.
