(* ===== verification/Hooks.v ===== *)
(** * Hooks of the server that the driver replaces

    The function pointers of a screen: how acceleration wraps them and puts them back
    ([amdgpu_glamor_init] and [amdgpu_glamor_fini] of src/src/amdgpu_glamor.c,
    [amdgpu_glamor_screen_init] and [amdgpu_glamor_close_screen] of
    src/src/amdgpu_glamor_wrappers.c); the fences of src/src/amdgpu_sync.c; and the
    requests on window properties that src/src/amdgpu_kms.c wraps. *)
From stdpp Require Import strings.
From S2P Require Import Prelude Modes Region World Fb DriState Queue Bo PixmapFb Crtc Keeps Scanout Modeset Flip Prime Present.

Definition w_hooks (w : world) : gmap loc screen_hooks := ent_hooks (w_entity w).
#[export] Instance set_hooks : Setter w_hooks := fun f => setf w_entity (setf ent_hooks f).
Definition w_fences (w : world) : gmap loc sync_fence := fences (w_entity w).
#[export] Instance set_fences : Setter w_fences := fun f => setf w_entity (setf fences f).

Definition set_proc (s : slot) (v : proc) (f : slot -> proc) : slot -> proc := fun x => if decide (x = s) then v else f x.
Definition install (l : list (slot * proc)) (f : slot -> proc) : slot -> proc := foldr (fun x g => set_proc x.1 x.2 g) f l.

(** [saved = screen->proc; screen->proc = new], with the pointer saved in
    [info->glamor] or in [info]. *)
Definition wrap_glamor (s : slot) (new : string) (h : screen_hooks) : screen_hooks :=
  h <| saved_glamor ::= set_proc s (procs h s) |> <| procs ::= set_proc s (Some new) |>.
Definition wrap_info (s : slot) (new : string) (h : screen_hooks) : screen_hooks :=
  h <| saved_info ::= set_proc s (procs h s) |> <| procs ::= set_proc s (Some new) |>.
Definition save_glamor (s : slot) (h : screen_hooks) : screen_hooks := h <| saved_glamor ::= set_proc s (procs h s) |>.
Definition put_proc (s : slot) (new : string) (h : screen_hooks) : screen_hooks := h <| procs ::= set_proc s (Some new) |>.
Definition restore_glamor (s : slot) (h : screen_hooks) : screen_hooks := h <| procs ::= set_proc s (saved_glamor h s) |>.
Definition restore_info (s : slot) (h : screen_hooks) : screen_hooks := h <| procs ::= set_proc s (saved_info h s) |>.

Section Code.
Context `{env : Env}.

(** A function of the server that may itself replace hooks; false where it fails. *)
Definition hook_call (what : string) (scrn : loc) : D bool :=
  r ← call (HookCall what scrn);
  match r with
  | None => mret false
  | Some l => _ ← update w_hooks scrn (setf procs (install l)); mret true
  end.

(** A call through a hook of the screen. *)
Definition call_proc (scrn : loc) (s : slot) : D bool :=
  h ← load w_hooks scrn;
  name ← some_or NullDeref (procs h s);
  hook_call name scrn.

(** ** Acceleration *)

Definition amdgpu_glamor_screen_init (scrn : loc) : D unit :=
  update w_hooks scrn (fun h =>
    let h := wrap_glamor CloseScreenProc "amdgpu_glamor_close_screen" h in
    let h := wrap_glamor CreateGCProc "amdgpu_glamor_create_gc" h in
    let h := wrap_glamor GetImageProc "amdgpu_glamor_get_image" h in
    let h := wrap_glamor GetSpansProc "amdgpu_glamor_get_spans" h in
    let h := wrap_glamor CopyWindowProc "amdgpu_glamor_copy_window" h in
    let h := wrap_glamor BitmapToRegionProc "amdgpu_glamor_bitmap_to_region" h in
    if has_picture h then
      let h := wrap_glamor CompositeProc "amdgpu_glamor_composite" h in
      let h := save_glamor UnrealizeGlyphProc h in
      let h := put_proc GlyphsProc "amdgpu_glamor_glyphs" h in
      let h := put_proc TrianglesProc "amdgpu_glamor_triangles" h in
      let h := put_proc TrapezoidsProc "amdgpu_glamor_trapezoids" h in
      wrap_glamor AddTrapsProc "amdgpu_glamor_add_traps" h
    else h).

(** The body of [amdgpu_glamor_close_screen] up to the call of the next
    [CloseScreen]. *)
Definition glamor_unwrap (scrn : loc) : D unit :=
  update w_hooks scrn (fun h =>
    let h := restore_glamor CreateGCProc h in
    let h := restore_glamor CloseScreenProc h in
    let h := restore_glamor GetImageProc h in
    let h := restore_glamor GetSpansProc h in
    let h := restore_glamor CopyWindowProc h in
    let h := restore_glamor ChangeWindowAttributesProc h in
    let h := restore_glamor BitmapToRegionProc h in
    if has_picture h then
      let h := restore_glamor CompositeProc h in
      let h := restore_glamor GlyphsProc h in
      let h := restore_glamor UnrealizeGlyphProc h in
      let h := restore_glamor TrapezoidsProc h in
      let h := restore_glamor AddTrapsProc h in
      let h := restore_glamor TrianglesProc h in
      restore_glamor UnrealizeGlyphProc h
    else h).

Definition amdgpu_glamor_close_screen (scrn : loc) : D bool :=
  _ ← glamor_unwrap scrn; call_proc scrn CloseScreenProc.

Definition amdgpu_glamor_init (scrn : loc) : D bool :=
  info ← load w_scrns scrn;
  h0 ← load w_hooks scrn;
  let ps := shadow_primary info && has_picture h0 in
  _ ← mwhen ps (update w_hooks scrn (fun h =>
        save_glamor TrapezoidsProc (save_glamor TrianglesProc (save_glamor GlyphsProc h))));
  ok ← hook_call "glamor_init" scrn;
  if negb ok then mret false
  else
    ok ← call DixRegisterPrivateKey;
    if negb ok then mret false
    else
      _ ← mwhen (shadow_primary info) (amdgpu_glamor_screen_init scrn);
      _ ← mwhen ps (update w_hooks scrn (setf procs (set_proc UnrealizeGlyphProc (procs h0 UnrealizeGlyphProc))));
      _ ← update w_hooks scrn (fun h =>
            let h := wrap_glamor CreatePixmapProc "amdgpu_glamor_create_pixmap" h in
            let h := wrap_glamor DestroyPixmapProc "amdgpu_glamor_destroy_pixmap" h in
            let h := wrap_glamor SharePixmapBackingProc "amdgpu_glamor_share_pixmap_backing" h in
            wrap_glamor SetSharedPixmapBackingProc "amdgpu_glamor_set_shared_pixmap_backing" h);
      mret true.

Definition amdgpu_glamor_fini (scrn : loc) : D unit :=
  info ← load w_scrns scrn;
  if negb (use_glamor info) then mret tt
  else
    update w_hooks scrn (fun h =>
      let h := restore_glamor CreatePixmapProc h in
      let h := restore_glamor DestroyPixmapProc h in
      let h := restore_glamor SharePixmapBackingProc h in
      restore_glamor SetSharedPixmapBackingProc h).

(** amdgpu_pixmap.c *)
Definition amdgpu_pixmap_init (scrn : loc) : D bool :=
  ok ← call DixRegisterPrivateKey;
  if negb ok then mret false
  else
    _ ← update w_hooks scrn (fun h =>
          put_proc DestroyPixmapProc "amdgpu_pixmap_destroy" (put_proc CreatePixmapProc "amdgpu_pixmap_create" h));
    mret true.

(** ** Fences *)

Definition amdgpu_sync_fence_set_triggered (fence : loc) : D unit :=
  f ← load w_fences fence;
  _ ← amdgpu_glamor_flush (fence_scrn f);
  _ ← update w_fences fence (setf fence_set_triggered (fun _ => private_set_triggered f));
  _ ← some_or NullDeref (private_set_triggered f);
  now ← call (FenceCall fence);
  update w_fences fence (fun f => f <| private_set_triggered := now |>
                                    <| fence_set_triggered := Some "amdgpu_sync_fence_set_triggered"%string |>).

(** [fence] is the fence the server is making; its [SetTriggered] is set by the
    server's own [CreateFence], which answers it. *)
Definition amdgpu_sync_create_fence (scrn fence : loc) : D unit :=
  _ ← update w_hooks scrn (restore_info CreateFenceProc);
  _ ← call_proc scrn CreateFenceProc;
  set_triggered ← call (FenceCall fence);
  _ ← update w_hooks scrn (wrap_info CreateFenceProc "amdgpu_sync_create_fence");
  store w_fences fence (Fence scrn (Some "amdgpu_sync_fence_set_triggered"%string) set_triggered).

(** [key]: the private key is registered already. *)
Definition amdgpu_sync_init (key : bool) (scrn : loc) : D bool :=
  ok ← call (Ask "xf86LoaderCheckSymbol" []);
  if negb ok then mret false
  else
    ok ← hook_call "miSyncShmScreenInit" scrn;
    if negb ok then mret false
    else
      ok ← (if key then mret true else call DixRegisterPrivateKey);
      if negb ok then mret false
      else _ ← update w_hooks scrn (wrap_info CreateFenceProc "amdgpu_sync_create_fence"); mret true.

Definition amdgpu_sync_close (scrn : loc) : D unit :=
  update w_hooks scrn (fun h =>
    let h := match saved_info h CreateFenceProc with Some _ => restore_info CreateFenceProc h | None => h end in
    h <| saved_info ::= set_proc CreateFenceProc None |>).

(** ** Requests on window properties

    [ProcVector] is the vector at address 0. *)
Definition ProcVector : Z := 0.
Definition BadWindow : Z := 3.
Definition get_vectors : D request_vectors := e ← gets w_entity; mret (request_vecs e).
Definition set_vectors (f : request_vectors -> request_vectors) : D unit := modify (setf w_entity (setf request_vecs f)).
Definition vector_at (v : Z) : D (proc * proc) := r ← get_vectors; some_or UseAfterFree (vectors r !! v).
Definition set_change (v : Z) (p : proc) : D unit :=
  x ← vector_at v; set_vectors (setf vectors <[v := (p, x.2)]>).
Definition set_delete (v : Z) (p : proc) : D unit :=
  x ← vector_at v; set_vectors (setf vectors <[v := (x.1, p)]>).

(** [client->requestVector] *)
Definition client_vector (client : nat) : D Z :=
  r ← get_vectors;
  c ← some_or OutOfBounds (client_vectors r !! client);
  some_or NullDeref c.

(** What a request names: the window, if it can be found, with its screen, whether
    this driver drives that screen, whether the property is [amdgpu_vrr_atom], and
    the new value. *)
Record property_request := PropReq {
  pr_window : option loc;
  pr_scrn : loc;
  pr_ours : bool;
  pr_vrr : bool;
  pr_format : Z;
  pr_nUnits : Z;
  pr_value : Z
}.

Definition amdgpu_change_property (client : nat) (req : property_request) : D Z :=
  v ← client_vector client;
  r ← get_vectors;
  _ ← set_change v (saved_change_property r);
  _ ← some_or NullDeref (saved_change_property r);
  answer ← call (Query "ChangeProperty" [Z.of_nat client]);
  let ret := default 0 answer in
  r ← get_vectors;
  if restore_property_vector r then mret ret
  else
    _ ← set_change v (Some "amdgpu_change_property"%string);
    if negb (ret =? 0) then mret ret
    else
      match pr_window req with
      | None => mret BadWindow
      | Some win =>
          _ ← mwhen (pr_vrr req && pr_ours req && (pr_format req =? 32) && (pr_nUnits req =? 1))
                (amdgpu_vrr_property_update (pr_scrn req) win (negb (u32 (pr_value req) =? 0)));
          mret 0
      end.

Definition amdgpu_delete_property (client : nat) (req : property_request) : D Z :=
  v ← client_vector client;
  r ← get_vectors;
  _ ← set_delete v (saved_delete_property r);
  _ ← some_or NullDeref (saved_delete_property r);
  answer ← call (Query "DeleteProperty" [Z.of_nat client]);
  let ret := default 0 answer in
  r ← get_vectors;
  if restore_property_vector r then mret ret
  else
    _ ← set_delete v (Some "amdgpu_delete_property"%string);
    if negb (ret =? 0) then mret ret
    else
      match pr_window req with
      | None => mret BadWindow
      | Some win =>
          _ ← mwhen (pr_vrr req && pr_ours req) (amdgpu_vrr_property_update (pr_scrn req) win false);
          mret 0
      end.

(** The part of [AMDGPUScreenInit_KMS] for variable refresh. *)
Definition wrap_property_requests : D unit :=
  r ← get_vectors;
  mwhen (negb (vectors_wrapped r))
    (x ← vector_at ProcVector;
     _ ← set_vectors (fun r => r <| saved_change_property := x.1 |> <| saved_delete_property := x.2 |>);
     _ ← set_change ProcVector (Some "amdgpu_change_property"%string);
     _ ← set_delete ProcVector (Some "amdgpu_delete_property"%string);
     set_vectors (setf vectors_wrapped (fun _ => true))).

(** One of the two entries of a vector. *)
Definition unwrap_change (v : Z) : D unit :=
  x ← vector_at v; r ← get_vectors;
  if decide (x.1 = Some "amdgpu_change_property"%string) then set_change v (saved_change_property r)
  else set_vectors (setf restore_property_vector (fun _ => true)).
Definition unwrap_delete (v : Z) : D unit :=
  x ← vector_at v; r ← get_vectors;
  if decide (x.2 = Some "amdgpu_delete_property"%string) then set_delete v (saved_delete_property r)
  else set_vectors (setf restore_property_vector (fun _ => true)).

Definition amdgpu_unwrap_property_requests : D unit :=
  r ← get_vectors;
  if negb (vectors_wrapped r) then mret tt
  else
    _ ← unwrap_change ProcVector;
    _ ← unwrap_delete ProcVector;
    _ ← mfor (client_vectors r) (fun c =>
          v ← some_or NullDeref c;
          _ ← unwrap_change v;
          unwrap_delete v);
    set_vectors (setf vectors_wrapped (fun _ => false)).
End Code.

(** ** What is put back *)
Section Restored.
Context `{env : Env}.

Lemma wp_hooks scrn f h w (Q : unit -> world -> Prop) :
  w_hooks w !! scrn = Some h ->
  (forall w', w_hooks w' !! scrn = Some (f h) -> w_scrns w' = w_scrns w -> Q tt w') -> wp (update w_hooks scrn f) Q w.
Proof.
  intros Hh HQ. apply (wp_update _ scrn h); [done |]. apply HQ; [| done]. unfold w_hooks, setf. cbn. by rewrite lookup_insert_eq.
Qed.
Lemma wp_hooks_when (b : bool) scrn f h w (Q : unit -> world -> Prop) :
  w_hooks w !! scrn = Some h ->
  (forall w', w_hooks w' !! scrn = Some (if b then f h else h) -> w_scrns w' = w_scrns w -> Q tt w') ->
  wp (mwhen b (update w_hooks scrn f)) Q w.
Proof. destruct b; [apply wp_hooks |]. intros Hh HQ. by apply wp_ret, HQ. Qed.
Lemma wp_hook_call what scrn l h w (Q : bool -> world -> Prop) :
  (forall history, reply history (HookCall what scrn) = Some l) -> w_hooks w !! scrn = Some h ->
  (forall w', w_hooks w' !! scrn = Some (h <| procs ::= install l |>) -> w_scrns w' = w_scrns w -> Q true w') ->
  wp (hook_call what scrn) Q w.
Proof.
  intros Hr Hh HQ. unfold hook_call. apply wp_bind. wp_ext. rewrite Hr. apply wp_bind. eapply wp_hooks; [exact Hh |].
  intros w' Hh' Hs'. by apply wp_ret, HQ.
Qed.

(** The hooks after acceleration was set up and taken down again; [h1] are those
    right after the server's [glamor_init], [shadow] tells whether the screen has a
    shadow primary surface. *)
Definition after_glamor (shadow : bool) (h0 h1 : screen_hooks) (s : slot) : proc :=
  if negb shadow then procs h1 s
  else
    match s with
    | ChangeWindowAttributesProc => saved_glamor h0 s
    | GlyphsProc | TrianglesProc | TrapezoidsProc => if has_picture h0 then procs h0 s else procs h1 s
    | _ => procs h1 s
    end.

(** C33. On a screen with glamor, if the server's [glamor_init] succeeds and the private
    key can be registered, [amdgpu_glamor_init] succeeds; and after [amdgpu_glamor_fini]
    and, with a shadow primary surface, the restoring part of
    [amdgpu_glamor_close_screen] (which is wrapped only then), every hook is what it was
    right after [glamor_init] - without a shadow primary surface all of them, with one
    all but these: Glyphs, Triangles and Trapezoids are those from before [glamor_init],
    if the screen has the picture extension, and ChangeWindowAttributes is overwritten
    with whatever was in a field the driver never saved it to. *)
Theorem glamor_hooks_restored scrn info h0 l w :
  w_scrns w !! scrn = Some info -> use_glamor info = true -> w_hooks w !! scrn = Some h0 ->
  (forall history, reply history (HookCall "glamor_init" scrn) = Some l) ->
  (forall history, reply history DixRegisterPrivateKey = true) ->
  wp (ok ← amdgpu_glamor_init scrn; _ ← amdgpu_glamor_fini scrn;
      _ ← mwhen (shadow_primary info) (glamor_unwrap scrn); mret ok)
     (fun ok w' => ok = true /\ exists h, w_hooks w' !! scrn = Some h /\
        forall s, procs h s = after_glamor (shadow_primary info) h0 (h0 <| procs ::= install l |>) s) w.
Proof.
  intros Hi Hg Hh Hl Hkey. apply wp_bind. unfold amdgpu_glamor_init.
  apply wp_bind, (wp_load _ scrn info); [done |]. apply wp_bind, (wp_load _ scrn h0); [done |].   apply wp_bind. eapply wp_hooks_when; [exact Hh |]. clear Hh. intros w1 Hh Hs1.
  apply wp_bind. eapply wp_hook_call; [exact Hl | exact Hh |]. clear Hh. intros w2 Hh Hs2. cbn [negb].
  apply wp_bind. wp_ext. rewrite Hkey. cbn [negb]. apply wp_bind. eapply wp_hooks_when; [exact Hh |]. clear Hh. intros w3 Hh Hs3.
  apply wp_bind. eapply wp_hooks_when; [exact Hh |]. clear Hh. intros w4 Hh Hs4.
  apply wp_bind. eapply wp_hooks; [exact Hh |]. clear Hh. intros w5 Hh Hs5. apply wp_ret.
  apply wp_bind, wp_bind, (wp_load _ scrn info); [by rewrite Hs5, Hs4, Hs3; cbn; rewrite Hs2, Hs1 |]. rewrite Hg. cbn [negb].
  eapply wp_hooks; [exact Hh |]. clear Hh. intros w6 Hh Hs6.
  apply wp_bind. eapply wp_hooks_when; [exact Hh |]. clear Hh. intros w7 Hh Hs7. apply wp_ret. split; [done |].
  eexists. split; [exact Hh |]. clear. destruct h0 as [p si sg [|]], (shadow_primary info); intros []; reflexivity.
Qed.

(** ** Fences *)

(** Each trigger of the server's fence comes right after the work was sent to the
    GPU. *)
Fixpoint fence_trace (scrn fence : loc) (n : nat) : list ext :=
  match n with
  | O => []
  | S n' => FenceCall fence :: Notify "glamor_block_handler" [Zpos scrn] :: fence_trace scrn fence n'
  end.
Lemma fence_trace_snoc scrn fence n :
  fence_trace scrn fence n ++ [FenceCall fence; Notify "glamor_block_handler" [Zpos scrn]] = fence_trace scrn fence (S n).
Proof. induction n as [|n IH]; [done |]. cbn [fence_trace app] in *. by rewrite IH. Qed.

Lemma wp_trigger scrn info fence p w (Q : unit -> world -> Prop) :
  w_scrns w !! scrn = Some info -> use_glamor info = true ->
  w_fences w !! fence = Some (Fence scrn (Some "amdgpu_sync_fence_set_triggered"%string) (Some p)) ->
  (forall w' info' p', w_scrns w' !! scrn = Some info' -> use_glamor info' = true ->
     p' = reply (Notify "glamor_block_handler" [Zpos scrn] :: w_trace w) (FenceCall fence) ->
     w_fences w' !! fence = Some (Fence scrn (Some "amdgpu_sync_fence_set_triggered"%string) p') ->
     w_trace w' = [FenceCall fence; Notify "glamor_block_handler" [Zpos scrn]] ++ w_trace w -> Q tt w') ->
  wp (amdgpu_sync_fence_set_triggered fence) Q w.
Proof.
  intros Hi Hg Hf HQ. unfold amdgpu_sync_fence_set_triggered. apply wp_bind, (wp_load _ fence _ _ _ Hf). cbn [fence_scrn].
  apply wp_bind. unfold amdgpu_glamor_flush. apply wp_bind, (wp_load _ scrn info); [done |]. rewrite Hg. cbn [mwhen].
  apply wp_bind. wp_ext. apply (wp_update _ scrn info); [done |].
  apply wp_bind. eapply (wp_update w_fences fence); [exact Hf |]. apply wp_bind, wp_ret, wp_bind. wp_ext.
  eapply wp_update; [unfold w_fences, setf; cbn; by rewrite lookup_insert_eq |].
  eapply HQ; [unfold setf; cbn; by rewrite lookup_insert_eq | done | done | | done].
  unfold w_fences, setf. cbn. by rewrite lookup_insert_eq.
Qed.

(** C34. A fence is triggered only after the work before it was sent to the GPU:
    however often a fence with the driver's hook is triggered, each time the GPU's work
    is submitted right before the server's own function runs, and the driver's hook is
    there again afterwards. *)
Theorem fence_flushed_first n scrn info fence p w :
  w_scrns w !! scrn = Some info -> use_glamor info = true ->
  w_fences w !! fence = Some (Fence scrn (Some "amdgpu_sync_fence_set_triggered"%string) (Some p)) ->
  (forall history, is_Some (reply history (FenceCall fence))) ->
  wp (mfor (replicate n fence) amdgpu_sync_fence_set_triggered)
     (fun _ w' => w_trace w' = fence_trace scrn fence n ++ w_trace w /\
        fence_set_triggered <$> w_fences w' !! fence = Some (Some "amdgpu_sync_fence_set_triggered"%string)) w.
Proof.
  intros Hi Hg Hf Hr. revert info p w Hi Hg Hf. induction n as [|n IH]; intros info p w Hi Hg Hf.
  - apply wp_ret. by rewrite Hf.
  - cbn [replicate mfor]. apply wp_bind. eapply wp_trigger; [done | done | done |].
    intros w' info' p' Hi' Hg' Hp' Hf' Ht'. destruct (Hr (Notify "glamor_block_handler" [Zpos scrn] :: w_trace w)) as [q Hq].
    rewrite Hq in Hp'. subst p'. eapply wp_mono; [by eapply IH |]. intros _ w'' [Ht'' Hf'']. split; [| done].
    by rewrite Ht'', Ht', app_assoc, fence_trace_snoc.
Qed.

(** ** Property requests *)

Definition vectors_of (w : world) : request_vectors := request_vecs (w_entity w).
(** No entry is the driver's. *)
Definition foreign (x : proc * proc) : Prop :=
  x.1 <> Some "amdgpu_change_property"%string /\ x.2 <> Some "amdgpu_delete_property"%string.

Lemma wp_vector_at v x w (Q : proc * proc -> world -> Prop) :
  vectors (vectors_of w) !! v = Some x -> Q x w -> wp (vector_at v) Q w.
Proof. intros Hx HQ. unfold vector_at, get_vectors. apply wp_bind, wp_bind, wp_gets, wp_ret. fold (vectors_of w). by rewrite Hx. Qed.

Lemma wp_unwrap_foreign v x w (Q : unit -> world -> Prop) :
  vectors (vectors_of w) !! v = Some x -> foreign x ->
  Q tt (setf w_entity (setf request_vecs (setf restore_property_vector (fun _ => true))) w) ->
  wp (unwrap_change v) Q w /\ wp (unwrap_delete v) Q w.
Proof.
  intros Hx [H1 H2] HQ. split; unfold unwrap_change, unwrap_delete, get_vectors; apply wp_bind, (wp_vector_at v x); try done;
    apply wp_bind, wp_bind, wp_gets, wp_ret; rewrite decide_False by done; exact HQ.
Qed.

(** The vectors are [m], the rest as in [w] but for the flag. *)
Record unwrapped (m : gmap Z (proc * proc)) (flag : bool) (w w' : world) : Prop := {
  uw_vectors : vectors (vectors_of w') = m;
  uw_flag : restore_property_vector (vectors_of w') = flag;
  uw_clients : client_vectors (vectors_of w') = client_vectors (vectors_of w);
  uw_change : saved_change_property (vectors_of w') = saved_change_property (vectors_of w);
  uw_windows : w_vrr_windows w' = w_vrr_windows w
}.

Lemma wp_unwrap_clients m flag l w w' (Q : unit -> world -> Prop) :
  unwrapped m flag w w' -> (forall v x, m !! v = Some x -> foreign x) ->
  (forall c, c ∈ l -> exists v, c = Some v /\ is_Some (m !! v)) ->
  (forall w'', unwrapped m (flag || negb (bool_decide (l = []))) w w'' -> Q tt w'') ->
  wp (mfor l (fun c => v ← some_or NullDeref c; _ ← unwrap_change v; unwrap_delete v)) Q w'.
Proof.
  intros Hu Hm. revert flag w' Hu. induction l as [|c l IH]; intros flag w' Hu Hl HQ.
  - apply wp_ret, HQ. by rewrite orb_false_r.
  - destruct (Hl c) as (v & -> & x & Hx); [by left |]. pose proof (Hm v x Hx) as Hf. destruct Hu as [H1 H2 H3 H4 H5].
    cbn [mfor]. apply wp_bind, wp_bind, wp_ret, wp_bind.
    apply (wp_unwrap_foreign v x); [by rewrite H1 | done |]. apply (wp_unwrap_foreign v x); [by rewrite <- H1 in Hx | done |].
    apply (IH true); [by split | intros c' Hc'; apply Hl; by right |].
    intros w'' Hw''. apply HQ. by rewrite orb_true_r.
Qed.

(** The driver's entries of [ProcVector] are taken back. *)
Lemma wp_unwrap_own sc sd flag w (Q : unit -> world -> Prop) :
  let r := vectors_of w in
  vectors r !! ProcVector = Some (Some "amdgpu_change_property", Some "amdgpu_delete_property")%string ->
  saved_change_property r = sc -> saved_delete_property r = sd -> restore_property_vector r = flag ->
  (forall w', unwrapped (<[ProcVector := (sc, sd)]> (vectors r)) flag w w' -> Q tt w') ->
  wp (unwrap_change ProcVector) (fun _ => wp (unwrap_delete ProcVector) Q) w.
Proof.
  intros r Hv Hc Hd Hf HQ. unfold unwrap_change, unwrap_delete, set_change, set_delete, set_vectors, get_vectors.
  apply wp_bind. eapply wp_vector_at; [exact Hv |]. apply wp_bind, wp_bind, wp_gets, wp_ret. rewrite decide_True by done.
  apply wp_bind. eapply wp_vector_at; [exact Hv |]. apply wp_modify. apply wp_bind.
  eapply wp_vector_at; [unfold vectors_of, setf; cbn; by rewrite lookup_insert_eq |].
  apply wp_bind, wp_bind, wp_gets, wp_ret. rewrite decide_True by done. apply wp_bind.
  eapply wp_vector_at; [unfold vectors_of, setf; cbn; by rewrite lookup_insert_eq |]. apply wp_modify, HQ.
  split; [| done..]. unfold vectors_of, setf. cbn. rewrite insert_insert_eq. by rewrite <- Hc, <- Hd.
Qed.

Lemma wp_wrap x w (Q : unit -> world -> Prop) :
  vectors_wrapped (vectors_of w) = false -> vectors (vectors_of w) !! ProcVector = Some x ->
  (forall w', (forall a, is_Some (vectors (vectors_of w) !! a) -> is_Some (vectors (vectors_of w') !! a)) ->
     saved_change_property (vectors_of w') = x.1 -> client_vectors (vectors_of w') = client_vectors (vectors_of w) ->
     restore_property_vector (vectors_of w') = restore_property_vector (vectors_of w) -> w_vrr_windows w' = w_vrr_windows w -> Q tt w') ->
  wp wrap_property_requests Q w.
Proof.
  intros Hw Hx HQ. unfold wrap_property_requests, set_change, set_delete, set_vectors, get_vectors.
  apply wp_bind, wp_bind, wp_gets, wp_ret. fold (vectors_of w). rewrite Hw. cbn [negb mwhen].
  apply wp_bind. eapply wp_vector_at; [exact Hx |]. apply wp_bind, wp_modify, wp_bind, wp_bind.
  eapply wp_vector_at; [exact Hx |]. apply wp_modify, wp_bind, wp_bind.
  eapply wp_vector_at; [unfold vectors_of, setf; cbn; by rewrite lookup_insert_eq |]. apply wp_modify, wp_modify, HQ; try done.
  intros a Ha. unfold vectors_of, setf. cbn. rewrite insert_insert_eq.
  destruct (decide (a = ProcVector)) as [->|]; [by rewrite lookup_insert_eq | by rewrite lookup_insert_ne].
Qed.

(** With the flag set, a change of a property only calls the server's function. *)
Lemma wp_change_restored client v p req w :
  restore_property_vector (vectors_of w) = true -> client_vectors (vectors_of w) !! client = Some (Some v) ->
  is_Some (vectors (vectors_of w) !! v) -> saved_change_property (vectors_of w) = Some p ->
  wp (amdgpu_change_property client req)
     (fun _ w' => w_vrr_windows w' = w_vrr_windows w /\ restore_property_vector (vectors_of w') = true) w.
Proof.
  intros Hf Hc [x Hx] Hp. unfold amdgpu_change_property, client_vector, set_change, set_vectors, get_vectors.
  apply wp_bind, wp_bind, wp_bind, wp_gets, wp_ret. fold (vectors_of w). rewrite Hc.
  apply wp_bind, wp_ret, wp_ret, wp_bind, wp_bind, wp_gets, wp_ret. fold (vectors_of w).
  apply wp_bind, wp_bind. eapply wp_vector_at; [exact Hx |]. apply wp_modify. rewrite Hp. apply wp_bind, wp_ret, wp_bind. wp_ext.
  apply wp_bind, wp_bind, wp_gets, wp_ret. cbn [restore_property_vector].
  lazymatch goal with |- wp (if ?b then _ else _) _ _ => change b with (restore_property_vector (vectors_of w)) end. rewrite Hf.
  apply wp_ret. done.
Qed.

(** Taking the wrapped property requests back disables variable refresh for
    good: some client's vector is found not to hold the driver's function - it is
    either [ProcVector] itself, which has just been put back, or another vector, which
    was never wrapped - so [restore_property_vector] is set, and nothing ever clears
    it; when a screen wraps the requests again, the next change of the property takes
    the wrapper away and the window's state is not updated. *)
Theorem vrr_lost_after_unwrap client v req w :
  let r := vectors_of w in
  vectors_wrapped r = true ->
  vectors r !! ProcVector = Some (Some "amdgpu_change_property", Some "amdgpu_delete_property")%string ->
  foreign (saved_change_property r, saved_delete_property r) -> is_Some (saved_change_property r) ->
  (forall a x, a <> ProcVector -> vectors r !! a = Some x -> foreign x) ->
  (forall c, c ∈ client_vectors r -> exists a, c = Some a /\ is_Some (vectors r !! a)) ->
  client_vectors r !! client = Some (Some v) ->
  wp (_ ← amdgpu_unwrap_property_requests; _ ← wrap_property_requests; amdgpu_change_property client req)
     (fun _ w' => w_vrr_windows w' = w_vrr_windows w /\ restore_property_vector (vectors_of w') = true) w.
Proof.
  intros r Hw Hv Hf [sc Hsc] Hother Hcl Hc. apply wp_bind. unfold amdgpu_unwrap_property_requests at 1. unfold get_vectors at 1.
  apply wp_bind, wp_bind, wp_gets, wp_ret. fold (vectors_of w). fold r. rewrite Hw. cbn [negb].
  apply wp_bind. eapply wp_mono; [eapply (wp_unwrap_own _ _ _ w (fun _ => wp _ _)); [exact Hv | reflexivity.. |] |
    intros ? w' H; apply wp_bind; exact H].
  fold r. set (m := <[ProcVector := _]> (vectors r)). intros w1 Hu1. apply wp_bind.
  assert (Hm : forall a, is_Some (vectors r !! a) -> is_Some (m !! a)).
  { intros a Ha. unfold m. destruct (decide (a = ProcVector)) as [->|]; [by rewrite lookup_insert_eq | by rewrite lookup_insert_ne]. }
  eapply (wp_unwrap_clients m); [exact Hu1 | | |].
  { intros a x. unfold m. destruct (decide (a = ProcVector)) as [->|Hne]; [rewrite lookup_insert_eq; by intros [= <-] |].
    rewrite lookup_insert_ne by done. by apply Hother. }
  { intros c Hin. destruct (Hcl c Hin) as (a & -> & Ha). exists a. split; [done | by apply Hm]. }
  intros w2 [U1 U2 U3 U4 U5]. destruct (client_vectors r) as [|c0 cl0] eqn:Hlist; [done |]. rewrite bool_decide_false, orb_true_r in U2 by done.
  apply wp_modify. set (w3 := setf w_entity _ w2).
  change (vectors (vectors_of w3) = m) in U1. change (client_vectors (vectors_of w3) = client_vectors (vectors_of w)) in U3.
  change (restore_property_vector (vectors_of w3) = true) in U2. change (w_vrr_windows w3 = w_vrr_windows w) in U5.
  apply wp_bind. eapply wp_wrap; [done | unfold vectors_of in *; rewrite U1; unfold m; by rewrite lookup_insert_eq |].
  intros w4 W1 W2 W3 W4 W5. eapply wp_mono; [eapply (wp_change_restored client v sc) |].
  - by rewrite W4.
  - rewrite W3, U3. fold r. by rewrite Hlist.
  - apply W1. rewrite U1. apply Hm. destruct (Hcl (Some v)) as (a & [= <-] & Ha); [| done]. by eapply list_elem_of_lookup_2.
  - by rewrite W2.
  - intros z w5 [H1 H2]. by rewrite H1, W5, U5.
Qed.

(** And where a client has gone and left a hole in the server's array of clients,
    [amdgpu_unwrap_property_requests] does not come back: it reads the request vector
    of every entry of the array. *)
Theorem unwrap_null_client_crashes w w' :
  vectors_wrapped (vectors_of w) = true -> None ∈ client_vectors (vectors_of w) ->
  amdgpu_unwrap_property_requests w <> Ok tt w'.
Proof.
  intros Hw Hn Hok.
  assert (Hloop : forall l, None ∈ l -> forall w0,
    pwp (mfor l (fun c => v ← some_or NullDeref c; _ ← unwrap_change v; unwrap_delete v)) (fun _ _ => False) w0).
  { intros l Hl. induction l as [|c l IH]; intros w0; [by apply elem_of_nil in Hl |]. cbn [mfor]. apply pwp_bind.
    apply elem_of_cons in Hl as [<-|Hl]; [by apply pwp_bind, pwp_raise |].
    eapply pwp_mono; [apply pwp_any |]. intros. by apply IH. }
  assert (H : pwp amdgpu_unwrap_property_requests (fun _ _ => False) w); [| unfold pwp in H; by rewrite Hok in H].
  unfold amdgpu_unwrap_property_requests, get_vectors. apply pwp_bind, pwp_bind, pwp_gets, pwp_ret. fold (vectors_of w).
  rewrite Hw. cbn [negb]. do 2 (apply pwp_bind; eapply pwp_mono; [apply pwp_any |]; intros ? ? _).
  apply pwp_bind. eapply pwp_mono; [by apply Hloop |]. done.
Qed.
End Restored.

(** ** A screen with hooks of the server, a fence, and two clients *)
Definition hooks_scrn : scrn_info := Sample.scrn <| shadow_primary := true |>.
Definition hooks_before : screen_hooks := Hooks (fun _ => Some "fb"%string) (fun _ => None) (fun _ => None) true.
Definition hooks_fence : sync_fence := Fence 1 (Some "amdgpu_sync_fence_set_triggered"%string) (Some "miSyncFenceSetTriggered"%string).
Definition hooks_vectors (clients : list (option Z)) : request_vectors :=
  Vectors {[0 := (Some "amdgpu_change_property", Some "amdgpu_delete_property")%string; 1 := (Some "SProcChangeProperty", None)%string]}
          clients true false (Some "ProcChangeProperty"%string) (Some "ProcDeleteProperty"%string).
Definition hooks_world (clients : list (option Z)) : world :=
  Sample.w <| w_scrns := {[1%positive := hooks_scrn]} |>
           <| w_entity ::= fun e => e <| ent_hooks := {[1%positive := hooks_before]} |> <| fences := {[8%positive := hooks_fence]} |>
                                      <| request_vecs := hooks_vectors clients |> |>.
Definition hooks_env : Env := fun history e =>
  match e return answer e with
  | FenceCall _ => Some "miSyncFenceSetTriggered"%string
  | HookCall _ _ => Some [(CreatePixmapProc, Some "glamor_create_pixmap"%string)]
  | e' => Sample.env history e'
  end.

Lemma glamor_hooks_restored_witness :
  shadow_primary hooks_scrn = true /\
  wp (ok ← amdgpu_glamor_init (env := hooks_env) 1; _ ← amdgpu_glamor_fini 1;
      _ ← mwhen (shadow_primary hooks_scrn) (glamor_unwrap 1); mret ok)
     (fun ok w' => ok = true /\ exists h, w_hooks w' !! 1%positive = Some h /\
        forall s, procs h s = after_glamor true hooks_before (hooks_before <| procs ::= install [(CreatePixmapProc, Some "glamor_create_pixmap"%string)] |>) s)
     (hooks_world [Some 0]).
Proof. split; [reflexivity | by apply (glamor_hooks_restored (env := hooks_env) 1 hooks_scrn)]. Defined.

Lemma fence_flushed_first_witness :
  wp (mfor (replicate 3 8%positive) (amdgpu_sync_fence_set_triggered (env := hooks_env)))
     (fun _ w' => w_trace w' = fence_trace 1 8 3 ++ w_trace (hooks_world [Some 0]) /\
        fence_set_triggered <$> w_fences w' !! 8%positive = Some (Some "amdgpu_sync_fence_set_triggered"%string)) (hooks_world [Some 0]).
Proof.
  apply (fence_flushed_first (env := hooks_env) 3 1 hooks_scrn 8 "miSyncFenceSetTriggered"); try reflexivity. intros history. by eexists.
Defined.

Lemma vrr_lost_after_unwrap_witness :
  wp (_ ← amdgpu_unwrap_property_requests; _ ← wrap_property_requests;
      amdgpu_change_property (env := hooks_env) 0 (PropReq (Some 9%positive) 1 true true 32 1 1))
     (fun _ w' => w_vrr_windows w' = ∅ /\ restore_property_vector (vectors_of w') = true) (hooks_world [Some 0; Some 1]).
Proof.
  apply (vrr_lost_after_unwrap (env := hooks_env) 0 0 (PropReq (Some 9%positive) 1 true true 32 1 1) (hooks_world [Some 0; Some 1]));
    try reflexivity.
  - by split.
  - by eexists.
  - intros a x Ha. change (vectors (vectors_of (hooks_world [Some 0; Some 1]))) with (vectors (hooks_vectors [])). cbn.
    rewrite lookup_insert_ne by done. rewrite lookup_singleton_Some. intros [_ <-]. by split.
  - intros c [->|[->|[]%elem_of_nil]%elem_of_cons]%elem_of_cons; [exists 0 | exists 1]; split; try done; by eexists.
Defined.

Lemma unwrap_null_client_crashes_witness :
  amdgpu_unwrap_property_requests (hooks_world [Some 0; None]) = Fault NullDeref /\
  amdgpu_unwrap_property_requests (hooks_world [Some 0; None]) <> Ok tt (hooks_world [Some 0]).
Proof. split; [vm_compute; reflexivity |]. apply unwrap_null_client_crashes; [reflexivity | right; left]. Defined.
