(* ===== verification/Zaphod.v ===== *)
(** * Several screens on one device

    With the option "ZaphodHeads" one device has several screens, and [drmmode_pre_init]
    (src/src/drmmode_display.c) divides its CRTCs among them: the mask [assigned_crtcs]
    of the device says which are taken.  Here: no CRTC of the kernel is given to two
    screens, or twice to one. *)
From stdpp Require Import strings.
From S2P Require Import Prelude Modes Region World Lut Fb DriState Queue Bo PixmapFb Crtc Keeps Scanout Modeset.
From S2P Require Import Flip Prime Names Color Outputs Leases Hotplug.

Definition kernel_crtc (c : xf86Crtc) : Z := mode_crtc_id (driver_private c).

(** What matters here of the state: the mask, the CRTCs of the screens, their ids in the
    kernel and the next free address. *)
Record division := Division { dv_mask : Z; dv_crtcs : gmap loc (list loc); dv_ids : gmap loc Z; dv_next : loc }.
Definition division_of (w : world) : division :=
  Division (assigned_crtcs (w_entity w)) (crtcs <$> w_scrns w) (kernel_crtc <$> w_crtcs w) (w_next w).

(** The [i]th CRTC of screen [s]. *)
Definition nth_crtc (v : division) (s : loc) (i : nat) : option loc := dv_crtcs v !! s ≫= (.!! i).

Section Zaphod.
Context (res : list Z).

Record divided (v : division) : Prop := {
  dv_taken s i c : nth_crtc v s i = Some c ->
    (c < dv_next v)%positive /\ exists n id, dv_ids v !! c = Some id /\ res !! n = Some id /\ Z.testbit (dv_mask v) (Z.of_nat n) = true;
  dv_once s i c s' i' c' : nth_crtc v s i = Some c -> nth_crtc v s' i' = Some c' ->
    dv_ids v !! c = dv_ids v !! c' -> s = s' /\ i = i'
}.

(** Screen [s], whose CRTCs are [l], gets the [n]th one of the device. *)
Definition take (s : loc) (l : list loc) (n : nat) (id : Z) (v : division) : division :=
  Division (Z.lor (dv_mask v) (Z.shiftl 1 (Z.of_nat n))) (<[s := l ++ [dv_next v]]> (dv_crtcs v))
    (<[dv_next v := id]> (dv_ids v)) (Pos.succ (dv_next v)).

Lemma mask_bit m n k : Z.testbit (Z.lor m (Z.shiftl 1 (Z.of_nat n))) (Z.of_nat k) = Z.testbit m (Z.of_nat k) || (n =? k)%nat.
Proof.
  rewrite Z.lor_spec, Z.shiftl_spec by lia. f_equal. destruct (n =? k)%nat eqn:E.
  - apply Nat.eqb_eq in E as ->. by rewrite Z.sub_diag.
  - apply Nat.eqb_neq in E. destruct (Z.of_nat k - Z.of_nat n) as [|p|p] eqn:Ep; [lia | by destruct p | done].
Qed.
Lemma has_mask_bit m n : has_bit m (Z.shiftl 1 (Z.of_nat n)) = Z.testbit m (Z.of_nat n).
Proof.
  unfold has_bit. destruct (Z.testbit m (Z.of_nat n)) eqn:E.
  - apply negb_true_iff, Z.eqb_neq. intros H. assert (Hb : Z.testbit (Z.land m (Z.shiftl 1 (Z.of_nat n))) (Z.of_nat n) = true).
    { by rewrite Z.land_spec, E, Z.shiftl_spec, Z.sub_diag by lia. }
    by rewrite H, Z.bits_0 in Hb.
  - apply negb_false_iff, Z.eqb_eq, Z.bits_inj. intros k. rewrite Z.land_spec, Z.bits_0.
    destruct (decide (k < 0)); [by rewrite Z.testbit_neg_r |]. rewrite <- (Z2Nat.id k) by lia.
    pose proof (mask_bit 0 n (Z.to_nat k)) as H. rewrite Z.lor_0_l, Z.bits_0 in H. rewrite H. cbn [orb].
    destruct (n =? Z.to_nat k)%nat eqn:Ek; [| apply andb_false_r]. apply Nat.eqb_eq in Ek as <-. by rewrite E.
Qed.

Lemma nth_take s l n id v s' i c :
  dv_crtcs v !! s = Some l -> nth_crtc (take s l n id v) s' i = Some c ->
  nth_crtc v s' i = Some c \/ s' = s /\ i = length l /\ c = dv_next v.
Proof.
  intros Hl. unfold nth_crtc, take. cbn. destruct (decide (s' = s)) as [->|Hne]; [| rewrite lookup_insert_ne by done; auto].
  rewrite lookup_insert_eq, Hl. cbn. intros [H|[Hle H]]%lookup_app_Some; [by left |]. right.
  apply list_lookup_singleton_Some in H as [Hi <-]. split_and!; [done | lia | done].
Qed.

Lemma take_divided s l n id v :
  NoDup res -> divided v -> dv_crtcs v !! s = Some l -> res !! n = Some id ->
  Z.testbit (dv_mask v) (Z.of_nat n) = false -> divided (take s l n id v).
Proof.
  intros Hnd [Ht Ho] Hl Hn Hb.
  assert (Hold : forall s' i c, nth_crtc v s' i = Some c -> dv_ids (take s l n id v) !! c = dv_ids v !! c /\ dv_ids v !! c <> Some id).
  { intros s' i c Hc. destruct (Ht s' i c Hc) as (Hlt & k & id' & Hid & Hk & Hbit). cbn. rewrite lookup_insert_ne by lia.
    split; [done |]. rewrite Hid. intros [= ->]. assert (k = n) as -> by (by eapply NoDup_lookup). congruence. }
  split.
  - intros s' i c [Hc|(-> & -> & ->)]%nth_take; [| | done].
    + destruct (Ht s' i c Hc) as (Hlt & k & id' & Hid & Hk & Hbit). destruct (Hold s' i c Hc) as [Hs _].
      split; [cbn; lia |]. exists k, id'. rewrite Hs. split_and!; [done | done |]. unfold take. cbn. by rewrite mask_bit, Hbit.
    + split; [cbn; lia |]. exists n, id. unfold take. cbn. rewrite lookup_insert_eq, mask_bit, Nat.eqb_refl, orb_true_r. done.
  - assert (Hnew : dv_ids (take s l n id v) !! dv_next v = Some id) by apply lookup_insert_eq.
    intros s1 i1 c1 s2 i2 c2 [H1|(-> & -> & ->)]%nth_take [H2|(-> & -> & ->)]%nth_take; try done.
    + destruct (Hold _ _ _ H1) as [-> _], (Hold _ _ _ H2) as [-> _]. by apply (Ho _ _ c1 _ _ c2).
    + destruct (Hold _ _ _ H1) as [-> ?]. by rewrite Hnew.
    + destruct (Hold _ _ _ H2) as [-> ?]. rewrite Hnew. congruence.
Qed.
End Zaphod.

(** ** The code *)
Section Code.
Context `{env : Env} (fresh : xf86Crtc).

Lemma update_crtc_division c g : (forall x, kernel_crtc (g x) = kernel_crtc x) -> leaves division_of (update w_crtcs c g).
Proof.
  intros Hg w. apply pwp_update. intros x Hx. unfold division_of, setf. cbn. f_equal.
  rewrite fmap_insert, Hg. apply insert_id. by rewrite lookup_fmap, Hx.
Qed.
Lemma update_scrn_division s g : (forall i, crtcs (g i) = crtcs i) -> leaves division_of (update w_scrns s g).
Proof.
  intros Hg w. apply pwp_update. intros i Hi. unfold division_of, setf. cbn. f_equal.
  rewrite fmap_insert, Hg. apply insert_id. by rewrite lookup_fmap, Hi.
Qed.
#[local] Hint Extern 1 (leaves division_of (update w_crtcs _ _)) => apply update_crtc_division; done : leaves.
#[local] Hint Extern 1 (leaves division_of (update w_scrns _ _)) => apply update_scrn_division; done : leaves.

Lemma hw_id_division c : leaves division_of (drmmode_crtc_hw_id c).
Proof. unfold drmmode_crtc_hw_id, get_dcrtc, set_dcrtc. leaves_auto. Qed.
Lemma cm_init_division c : leaves division_of (drmmode_crtc_cm_init c).
Proof. unfold drmmode_crtc_cm_init, drmmode_crtc_push_cm_prop, do_push, set_dcrtc. leaves_auto. Qed.
Lemma vrr_names_division l : leaves division_of (vrr_names l).
Proof. induction l as [|[]]; cbn [vrr_names]; leaves_auto. Qed.
#[local] Hint Resolve vrr_names_division : leaves.
Lemma vrr_properties_division s id : leaves division_of (vrr_properties s id).
Proof. unfold vrr_properties. leaves_auto. Qed.
Lemma vrr_init_division c p : leaves division_of (drmmode_crtc_vrr_init c p).
Proof. unfold drmmode_crtc_vrr_init. leaves_auto. Qed.
#[local] Hint Resolve hw_id_division cm_init_division vrr_properties_division vrr_init_division : leaves.

Lemma pwp_division {A} (m : D A) v (Q : A -> world -> Prop) w :
  leaves division_of m -> division_of w = v -> (forall a w', division_of w' = v -> Q a w') -> pwp m Q w.
Proof. intros Hm Hw HQ. eapply pwp_mono; [apply Hm |]. intros a w' H. apply HQ. by rewrite H. Qed.

(** [drmmode_crtc_init] takes one CRTC, or none. *)
Lemma crtc_init_takes scrn res num w :
  pwp (drmmode_crtc_init fresh scrn res num)
      (fun k w' => k = 0 /\ division_of w' = division_of w \/
         k = 1 /\ exists l id, dv_crtcs (division_of w) !! scrn = Some l /\ res_crtcs res !! num = Some id /\
           division_of w' = take scrn l num id (division_of w)) w.
Proof.
  unfold drmmode_crtc_init. remember (division_of w) as v eqn:Hv. symmetry in Hv.
  apply pwp_bind. eapply pwp_division; [leaves_auto | done |]. clear w Hv. intros ok w Hv. destruct (negb ok); [apply pwp_ret; by left |].
  apply pwp_bind, pwp_load. intros info Hi. apply pwp_bind, pwp_some_or. intros id Hid.
  apply pwp_bind. eapply pwp_division; [leaves_auto | done |]. clear w Hv Hi. intros r w Hv. apply pwp_bind, pwp_some_or. intros buffer _.
  apply pwp_bind, wp_pwp, wp_new. apply pwp_bind, pwp_update. intros info' Hi'. set (w1 := setf w_scrns _ _).
  assert (Hl : dv_crtcs v !! scrn = Some (crtcs info')) by (rewrite <- Hv; cbn; rewrite lookup_fmap; unfold setf in Hi'; cbn in Hi'; by rewrite Hi').
  assert (H1 : division_of w1 = let t := take scrn (crtcs info') num id v in Division (dv_mask v) (dv_crtcs t) (dv_ids t) (dv_next t)).
  { rewrite <- Hv. unfold w1, division_of, take, setf. cbn. by rewrite !fmap_insert. }
  apply pwp_bind. eapply pwp_division; [leaves_auto | exact H1 |]. intros _ w2 H2.
  apply pwp_bind. eapply pwp_division; [leaves_auto | exact H2 |]. intros _ w3 H3.
  apply pwp_bind. eapply pwp_division; [leaves_auto | exact H3 |]. intros p w4 H4.
  apply pwp_bind. eapply pwp_division; [leaves_auto | exact H4 |]. intros _ w5 H5.
  apply pwp_bind, pwp_modify, pwp_ret. right. split; [done |]. exists (crtcs info'), id. split_and!; [done | done |].
  unfold division_of, setf in *. cbn in *. injection H5 as -> -> -> ->. done.
Qed.

(** The loop of [drmmode_pre_init] over the CRTCs of a shared device. *)
Lemma init_crtcs_divided scrn res needed nums got w :
  NoDup (res_crtcs res) -> divided (res_crtcs res) (division_of w) ->
  pwp (init_crtcs true fresh scrn res needed nums got)
      (fun got' w' => divided (res_crtcs res) (division_of w') /\ (got <= got' <= Z.max got needed) /\
         length (default [] (dv_crtcs (division_of w') !! scrn)) =
           (length (default [] (dv_crtcs (division_of w) !! scrn)) + Z.to_nat (got' - got))%nat) w.
Proof.
  intros Hnd. revert got w. induction nums as [|num nums IH]; intros got w Hd; cbn [init_crtcs].
  { apply pwp_ret. split_and!; [done | lia | lia | by rewrite Z.sub_diag, Nat.add_0_r]. }
  apply pwp_bind, pwp_gets. cbn [negb orb]. destruct (got <? needed) eqn:Hg; cbn [andb]; [| by apply IH].
  rewrite has_mask_bit. destruct (Z.testbit _ _) eqn:Hb; cbn [negb]; [by apply IH |]. apply Z.ltb_lt in Hg.
  apply pwp_bind. eapply pwp_mono; [apply crtc_init_takes |].
  intros k w1 [[-> H1]|(-> & l & id & Hl & Hn & H1)].
  - rewrite Z.add_0_r, <- H1. apply IH. by rewrite H1.
  - eapply pwp_mono; [apply IH; rewrite H1; by apply take_divided |]. cbn beta. rewrite H1. cbn [take dv_crtcs].
    rewrite lookup_insert_eq, Hl. cbn. rewrite length_app. cbn. intros got' w' (H2 & H3 & H4). split_and!; [done | lia | lia | lia].
Qed.

(** States of the device while its screens are set up: at first no CRTC is taken; then
    screens divide the CRTCs in any order, and other code runs in between that leaves
    the mask, the CRTCs and their ids alone. *)
Inductive divides (res : drmModeRes) : world -> Prop :=
| dz_start w : assigned_crtcs (w_entity w) = 0 -> (forall s info, w_scrns w !! s = Some info -> crtcs info = []) -> divides res w
| dz_screen scrn needed got w w' :
    divides res w -> init_crtcs true fresh scrn res needed (seq 0 (length (res_crtcs res))) 0 w = Ok got w' -> divides res w'
| dz_other w w' :
    divides res w -> (w_next w <= w_next w')%positive ->
    assigned_crtcs (w_entity w') = assigned_crtcs (w_entity w) -> crtcs <$> w_scrns w' = crtcs <$> w_scrns w ->
    kernel_crtc <$> w_crtcs w' = kernel_crtc <$> w_crtcs w -> divides res w'.

Lemma divides_divided res w : NoDup (res_crtcs res) -> divides res w -> divided (res_crtcs res) (division_of w).
Proof.
  intros Hnd. induction 1 as [w Hm Hc | scrn needed got w w' _ IH Hr | w w' _ [Ht Ho] Hn Hm Hc Hi].
  - assert (Hno : forall s i c, nth_crtc (division_of w) s i <> Some c).
    { intros s i c. unfold nth_crtc. cbn. rewrite lookup_fmap. destruct (w_scrns w !! s) as [info|] eqn:Hs; [| done].
      cbn. by rewrite (Hc s info Hs). }
    split; intros * H; by apply Hno in H.
  - pose proof (init_crtcs_divided scrn res needed (seq 0 (length (res_crtcs res))) 0 w Hnd IH) as H. unfold pwp in H. rewrite Hr in H. apply H.
  - unfold division_of in *. cbn in *. rewrite Hm, Hc, Hi. split; cbn.
    + intros s i c Hs. destruct (Ht s i c Hs) as [Hlt Hx]. split; [cbn in Hlt; lia | exact Hx].
    + exact Ho.
Qed.

(** C22. However many screens a device is shared by and however many CRTCs each
    asks for, no CRTC of the kernel is driven by two screens, nor twice by one: two
    CRTCs with the same id in the kernel are the same one of the same screen.  And a
    further screen takes at most as many as its outputs need. *)
Theorem zaphod_crtcs_divided res w s i c x s' i' c' x' info info' :
  NoDup (res_crtcs res) -> divides res w ->
  w_scrns w !! s = Some info -> crtcs info !! i = Some c -> w_crtcs w !! c = Some x ->
  w_scrns w !! s' = Some info' -> crtcs info' !! i' = Some c' -> w_crtcs w !! c' = Some x' ->
  (mode_crtc_id (driver_private x) = mode_crtc_id (driver_private x') -> s = s' /\ i = i') /\
  forall scrn needed, pwp (init_crtcs true fresh scrn res needed (seq 0 (length (res_crtcs res))) 0)
    (fun got _ => 0 <= got <= Z.max 0 needed) w.
Proof.
  intros Hnd Hz Hs Hi Hx Hs' Hi' Hx'. pose proof (divides_divided res w Hnd Hz) as Hd. split.
  - intros Heq. apply (dv_once _ _ Hd s i c s' i' c'); unfold nth_crtc; cbn; rewrite !lookup_fmap, ?Hs, ?Hs', ?Hx, ?Hx'; cbn; [done.. |].
    unfold kernel_crtc. by rewrite Heq.
  - intros scrn needed. eapply pwp_mono; [by apply init_crtcs_divided |]. cbn. tauto.
Qed.
End Code.

(** Two screens on a device with two CRTCs: the first needs one, the second would
    like two and gets the one that is left. *)
Definition two_crtcs : drmModeRes := Resources [40; 41] [] [] 16384 16384.
Definition heads_start : world :=
  Sample.w <| w_scrns := {[1%positive := Sample.scrn <| crtcs := [] |>; 5%positive := Sample.scrn <| crtcs := [] |>]} |> <| w_crtcs := ∅ |>.
Definition first_head : world := after (init_crtcs (env := Sample.env) true Sample.crtc 1 two_crtcs 1 (seq 0 2) 0) heads_start.
Definition second_head : world := after (init_crtcs (env := Sample.env) true Sample.crtc 5 two_crtcs 2 (seq 0 2) 0) first_head.

Lemma heads_divided : divides (env := Sample.env) Sample.crtc two_crtcs second_head.
Proof.
  apply (dz_screen (env := Sample.env) Sample.crtc two_crtcs 5 2 1 first_head); [| vm_compute; reflexivity].
  apply (dz_screen (env := Sample.env) Sample.crtc two_crtcs 1 1 1 heads_start); [| vm_compute; reflexivity].
  apply dz_start; [reflexivity |]. intros s info Hs.
  assert (H : forall s info, w_scrns heads_start !! s = Some info -> (fun _ i => crtcs i = []) s info).
  { change (map_Forall (fun _ i => crtcs i = []) (w_scrns heads_start)). cbn.
    by repeat apply map_Forall_insert_2; [.. | apply map_Forall_empty]. }
  by apply (H s info).
Qed.

Lemma zaphod_crtcs_divided_witness :
  exists info x info' x',
    w_scrns second_head !! 1%positive = Some info /\ crtcs info !! 0%nat = Some 10%positive /\ w_crtcs second_head !! 10%positive = Some x /\
    w_scrns second_head !! 5%positive = Some info' /\ crtcs info' !! 0%nat = Some 11%positive /\ w_crtcs second_head !! 11%positive = Some x' /\
    mode_crtc_id (driver_private x) <> mode_crtc_id (driver_private x').
Proof.
  eexists _, _, _, _. repeat (split; [vm_compute; reflexivity |]). intros Heq.
  by destruct (proj1 (zaphod_crtcs_divided (env := Sample.env) Sample.crtc two_crtcs second_head 1 0 10 _ 5 0 11 _ _ _
    ltac:(apply NoDup_cons; split; [set_solver | apply NoDup_singleton]) heads_divided
    ltac:(vm_compute; reflexivity) ltac:(vm_compute; reflexivity) ltac:(vm_compute; reflexivity)
    ltac:(vm_compute; reflexivity) ltac:(vm_compute; reflexivity) ltac:(vm_compute; reflexivity)) Heq).
Defined.
