(* ===== verification/Probe.v ===== *)
(** * Finding devices: src/src/amdgpu_probe.c

    How a device is opened when the server offers it to the driver, and how the
    screens that share it give it up ([AMDGPUFreeRec] of src/src/amdgpu_kms.c).  The
    state is the driver's entity of one device, [None] where there is none, the file
    descriptors the driver has opened itself and not closed, and the screens with
    private data ([AMDGPUInfoRec]) with their [instance_id]. *)
From stdpp Require Import strings.
From S2P Require Import Prelude.

Abbreviation scrn_id := positive.
Definition DRM_NODE_PRIMARY : Z := 0.
Definition MAX_SCRNS : nat := 6.

(** ** Data *)

Record pci_device := Pci { pci_domain : Z; pci_bus : Z; pci_dev : Z; pci_func : Z }.
#[export] Instance pci_eq_dec : EqDecision pci_device.
Proof. solve_decision. Defined.

(** A device of [drmGetDevices2], with what opening its primary node gives. *)
Record drmDevice := DrmDevice { on_pci : bool; businfo : pci_device; available_nodes : Z; open_node : Z }.

(** A platform device: its flag [XF86_PDEV_SERVER_FD], the descriptor the server has
    for it or -1, and what opening its path gives. *)
Record platform_device := Platform { pdev : pci_device; pdev_server_fd : bool; attrib_fd : Z; open_path : Z }.

(** How the outside answers while a device is opened: whether there is memory for
    the bus id, the devices libdrm finds, whether the descriptor is a master's and
    whether libdrm_amdgpu accepts it. *)
Record outside := Outside { asprintf_ok : bool; drm_devices : option (list drmDevice); is_master : bool; initialize_ok : bool }.

(** [AMDGPUEntRec] *)
Record AMDGPUEnt := Ent {
  ent_fd : Z;
  fd_ref : Z;
  ent_server_fd : bool;
  num_scrns : Z;
  ent_scrn : list (option scrn_id)
}.
#[export] Instance eta_AMDGPUEnt : Eta AMDGPUEnt := fun r => Ent (ent_fd r) (fd_ref r) (ent_server_fd r) (num_scrns r) (ent_scrn r).
Definition new_ent : AMDGPUEnt := Ent 0 0 false 0 (replicate MAX_SCRNS None).

Record devices := Devices { ent_ptr : option AMDGPUEnt; open_fds : list Z; infos : gmap scrn_id Z }.
#[export] Instance eta_devices : Eta devices := fun r => Devices (ent_ptr r) (open_fds r) (infos r).

Abbreviation P := (M devices).

(** ** Opening *)

Definition amdgpu_device_matches (device : drmDevice) (dev : pci_device) : bool :=
  on_pci device && bool_decide (businfo device = dev).

Definition get_ent : P AMDGPUEnt := o ← gets ent_ptr; some_or NullDeref o.
Definition set_ent (f : AMDGPUEnt -> AMDGPUEnt) : P unit := modify (setf ent_ptr (fmap f)).

(** [open]: a descriptor that is not -1 has to be closed again. *)
Definition do_open (fd : Z) : P Z := _ ← mwhen (negb (fd =? -1)) (modify (setf open_fds (cons fd))); mret fd.
Definition do_close (fd : Z) : P unit := modify (setf open_fds (filter (fun x => x <> fd))).

(** The first device that matches and has a primary node. *)
Fixpoint open_device (l : list drmDevice) (dev : pci_device) : P Z :=
  match l with
  | [] => mret (-1)
  | d :: r =>
      if amdgpu_device_matches d dev && negb (Z.land (available_nodes d) (Z.shiftl 1 DRM_NODE_PRIMARY) =? 0) then do_open (open_node d)
      else open_device r dev
  end.

Definition amdgpu_kernel_open_fd (a : outside) (pci : pci_device) (platform : option platform_device) : P Z :=
  let dev := match platform with Some p => pdev p | None => pci end in
  if negb (asprintf_ok a) then mret (-1)
  else
    fd ← match platform with
         | Some p => if negb (attrib_fd p =? -1) then mret (attrib_fd p) else do_open (open_path p)
         | None => mret (-1)
         end;
    if negb (fd =? -1) then mret fd
    else match drm_devices a with None => mret (-1) | Some l => open_device l dev end.

Definition amdgpu_kernel_close_fd : P unit :=
  e ← get_ent;
  _ ← mwhen (negb (ent_server_fd e)) (do_close (ent_fd e));
  set_ent (setf ent_fd (fun _ => -1)).

Definition amdgpu_open_drm_master (a : outside) (pci : pci_device) (platform : option platform_device) : P bool :=
  fd ← amdgpu_kernel_open_fd a pci platform;
  _ ← set_ent (setf ent_fd (fun _ => fd));
  if fd =? -1 then mret false
  else if negb (is_master a) then _ ← amdgpu_kernel_close_fd; mret false
  else mret true.

Definition amdgpu_device_setup (a : outside) (pci : pci_device) (platform : option platform_device) : P bool :=
  _ ← set_ent (setf ent_server_fd (fun _ => match platform with Some p => pdev_server_fd p | None => false end));
  ok ← amdgpu_open_drm_master a pci platform;
  if negb ok then mret false
  else if negb (initialize_ok a) then _ ← amdgpu_kernel_close_fd; mret false
  else mret true.

Definition amdgpu_probe (a : outside) (pci : pci_device) (platform : option platform_device) : P bool :=
  o ← gets ent_ptr;
  match o with
  | None =>
      _ ← modify (setf ent_ptr (fun _ => Some new_ent));
      ok ← amdgpu_device_setup a pci platform;
      if negb ok then mret false
      else _ ← set_ent (setf fd_ref (fun _ => 1)); mret true
  | Some e =>
      if fd_ref e =? Z.of_nat MAX_SCRNS then mret false
      else _ ← set_ent (setf fd_ref (fun n => n + 1)); mret true
  end.

(** ** The screens of a device *)

(** [AMDGPUGetRec] and what follows it in [AMDGPUPreInit_KMS]. *)
Definition register_screen (scrn : scrn_id) : P unit :=
  e ← get_ent;
  let id := num_scrns e in
  _ ← modify (setf infos <[scrn := id]>);
  _ ← set_ent (setf num_scrns (fun n => n + 1));
  if (id <? 0) || (Z.of_nat (length (ent_scrn e)) <=? id) then raise OutOfBounds
  else set_ent (setf ent_scrn <[Z.to_nat id := Some scrn]>).

(** [unwrap] is [amdgpu_unwrap_property_requests]. *)
Definition AMDGPUFreeRec (scrn : scrn_id) : P unit :=
  e ← get_ent;
  i ← gets (fun s => infos s !! scrn);
  _ ← match i with
      | Some id =>
          if (id <? 0) || (Z.of_nat (length (ent_scrn e)) <=? id) then raise OutOfBounds
          else
            _ ← set_ent (fun e => e <| ent_scrn ::= <[Z.to_nat id := None]> |> <| num_scrns ::= fun n => n - 1 |>);
            modify (setf infos (delete scrn))
      | None => mret tt
      end;
  mwhen (ent_fd e >? 0)
    (_ ← set_ent (setf fd_ref (fun n => n - 1));
     e ← get_ent;
     mwhen (fd_ref e =? 0)
       (_ ← amdgpu_kernel_close_fd;
        modify (setf ent_ptr (fun _ => None)))).

(** ** The descriptor of a device *)

(** What libdrm and the server answer: descriptors are -1 or positive, and the server
    manages the descriptor exactly if it gives one. *)
Definition good_fd (fd : Z) : Prop := fd = -1 \/ 0 < fd.
Definition answers_ok (a : outside) (pl : option platform_device) : Prop :=
  (forall l, drm_devices a = Some l -> Forall (fun d => good_fd (open_node d)) l) /\
  (forall p, pl = Some p -> good_fd (attrib_fd p) /\ good_fd (open_path p) /\ (pdev_server_fd p = true <-> attrib_fd p <> -1)).

(** [fd] was opened: by the driver where [own]. *)
Definition opened (own : bool) (fd : Z) (s : devices) : devices := if own then s <| open_fds ::= cons fd |> else s.

Lemma do_open_ok fd s : good_fd fd -> exists own, do_open fd s = Ok fd (opened own fd s) /\ own = negb (fd =? -1).
Proof. intros Hfd. exists (negb (fd =? -1)). unfold do_open, mbind, M_bind. by destruct (negb (fd =? -1)). Qed.

Lemma open_device_ok l dev s :
  Forall (fun d => good_fd (open_node d)) l ->
  exists fd own, open_device l dev s = Ok fd (opened own fd s) /\ own = negb (fd =? -1) /\ good_fd fd.
Proof.
  induction 1 as [|d l Hd _ IH]; cbn [open_device].
  - exists (-1), false. split_and!; [done | done | by left].
  - destruct (_ && _); [| done]. destruct (do_open_ok (open_node d) s Hd) as (own & Ho & Hown). by exists (open_node d), own.
Qed.

(** The driver opened it, or it is the server's. *)
Lemma kernel_open_ok a pci pl s :
  answers_ok a pl ->
  exists fd own, amdgpu_kernel_open_fd a pci pl s = Ok fd (opened own fd s) /\ good_fd fd /\ (own = true -> fd <> -1) /\
    (fd <> -1 -> own = negb match pl with Some p => pdev_server_fd p | None => false end).
Proof.
  intros [Hdev Hpl]. unfold amdgpu_kernel_open_fd.
  destruct (asprintf_ok a); cbn [negb]; [| exists (-1), false; split_and!; [done | by left | done | done]].
  assert (Hrest : forall srv, srv = false -> exists fd own,
    match drm_devices a with None => mret (-1) | Some l => open_device l match pl with Some p => pdev p | None => pci end end s
      = Ok fd (opened own fd s) /\ good_fd fd /\ (own = true -> fd <> -1) /\ (fd <> -1 -> own = negb srv)).
  { intros srv ->. destruct (drm_devices a) as [l|] eqn:Hl; [| exists (-1), false; split_and!; [done | by left | done | done]].
    destruct (open_device_ok l match pl with Some p => pdev p | None => pci end s (Hdev l eq_refl)) as (fd & own & Ho & Hown & Hg).
    exists fd, own. subst own. split_and!; [done | done | lia | lia]. }
  destruct pl as [p|]; unfold mbind, M_bind.
  - destruct (Hpl p eq_refl) as (Ha & Hp & Hs). destruct (Z.eqb_spec (attrib_fd p) (-1)) as [He|Hne]; cbn [negb].
    + destruct (do_open_ok (open_path p) s Hp) as (own & -> & Hown).
      assert (Hsrv : pdev_server_fd p = false) by (destruct (pdev_server_fd p); [by destruct Hs as [Hs _]; specialize (Hs eq_refl) | done]).
      destruct (Z.eqb_spec (open_path p) (-1)) as [He'|Hne']; cbn [negb] in *; subst own.
      * rewrite He'. cbn. rewrite Hsrv. by apply (Hrest false).
      * exists (open_path p), true. rewrite Hsrv. by split_and!.
    + exists (attrib_fd p), false. cbn. rewrite (proj2 (Z.eqb_neq _ _) Hne). cbn. split_and!; [done | done | done |].
      intros _. by rewrite (proj2 Hs Hne).
  - cbn. by apply (Hrest false).
Qed.

(** The entity has a slot for each screen that is set up, and [infos] says which. *)
Definition slots_ok (s : devices) (e : AMDGPUEnt) : Prop :=
  length (ent_scrn e) = MAX_SCRNS /\ num_scrns e = Z.of_nat (size (infos s)) /\
  forall scrn id, infos s !! scrn = Some id -> 0 <= id < Z.of_nat MAX_SCRNS.

(** A device in use: its descriptor is open, and the driver has opened no other. *)
Definition in_use (n : Z) (s : devices) : Prop :=
  exists e, ent_ptr s = Some e /\ slots_ok s e /\ fd_ref e = n /\ 1 <= n <= Z.of_nat MAX_SCRNS /\ 0 < ent_fd e /\
    open_fds s = (if ent_server_fd e then [] else [ent_fd e]).

(** A device whose first probe failed: nothing is open, and [fd_ref] only grows. *)
Definition broken (n : Z) (s : devices) : Prop :=
  exists e, ent_ptr s = Some e /\ slots_ok s e /\ n <= fd_ref e <= Z.of_nat MAX_SCRNS /\ ent_fd e = -1 /\ open_fds s = [].

Lemma wp_kernel_open a pci pl s (Q : Z -> devices -> Prop) :
  answers_ok a pl ->
  (forall fd own, good_fd fd -> (own = true -> fd <> -1) ->
     (fd <> -1 -> own = negb match pl with Some p => pdev_server_fd p | None => false end) -> Q fd (opened own fd s)) ->
  wp (amdgpu_kernel_open_fd a pci pl) Q s.
Proof. intros Ha HQ. destruct (kernel_open_ok a pci pl s Ha) as (fd & own & Ho & H1 & H2 & H3). unfold wp. rewrite Ho. by apply HQ. Qed.

Lemma wp_get_ent e s (Q : AMDGPUEnt -> devices -> Prop) : ent_ptr s = Some e -> Q e s -> wp get_ent Q s.
Proof. intros He HQ. unfold get_ent. apply wp_bind, wp_gets. by rewrite He. Qed.

(** Closing it again. *)
Lemma wp_close_fd e own s (Q : unit -> devices -> Prop) :
  ent_ptr s = Some e -> own = negb (ent_server_fd e) -> open_fds s = (if own then [ent_fd e] else []) ->
  Q tt (Devices (Some (e <| ent_fd := -1 |>)) [] (infos s)) -> wp amdgpu_kernel_close_fd Q s.
Proof.
  intros He -> Hf HQ. unfold amdgpu_kernel_close_fd, do_close, set_ent. apply wp_bind, (wp_get_ent e); [done |]. apply wp_bind.
  destruct s as [ptr fds i]. cbn in He, Hf, HQ. subst ptr fds. destruct (ent_server_fd e); cbn [negb mwhen].
  - by apply wp_ret, wp_modify.
  - apply wp_modify, wp_modify. unfold setf. cbn. destruct (decide (ent_fd e <> ent_fd e)) as [[]|]; [done |].
    exact HQ.
Qed.

(** The first screen of a device. *)
Lemma wp_probe_fresh a pci pl s :
  ent_ptr s = None -> open_fds s = [] -> infos s = ∅ -> answers_ok a pl ->
  wp (amdgpu_probe a pci pl) (fun b s' => infos s' = ∅ /\ if b then in_use 1 s' else broken 0 s' /\ fd_ref <$> ent_ptr s' = Some 0) s.
Proof.
  intros Hp Hf Hin Ha. destruct s as [ptr fds i]. cbn in Hp, Hf, Hin. subst ptr fds i.
  assert (Hslots : forall e p, length (ent_scrn e) = MAX_SCRNS -> num_scrns e = 0 -> slots_ok (Devices p [] ∅) e)
    by (intros e p H1 H2; split_and!; [done | done | by intros ? ? ?]). unfold amdgpu_probe, amdgpu_device_setup,
    amdgpu_open_drm_master, set_ent. apply wp_bind, wp_gets, wp_bind, wp_modify, wp_bind, wp_bind, wp_modify, wp_bind, wp_bind.
  set (srv := match pl with Some p => pdev_server_fd p | None => false end).
  apply wp_kernel_open; [done |]. intros fd own Hg Hown Hsrv. fold srv in Hsrv. apply wp_bind, wp_modify.
  destruct (Z.eqb_spec fd (-1)) as [->|Hne].
  - destruct own; [by specialize (Hown eq_refl) |]. apply wp_ret. cbn [negb]. apply wp_ret, wp_ret. split; [done |].
    split; [| done]. eexists. split; [reflexivity |]. by split_and!; [apply (Hslots _ None) | ..].
  - specialize (Hsrv Hne). set (e := Ent fd 0 srv 0 (replicate MAX_SCRNS None)).
    assert (Hs : setf ent_ptr (fmap (setf ent_fd (fun _ => fd))) (opened own fd (setf ent_ptr (fmap (setf ent_server_fd (fun _ => srv)))
      (setf ent_ptr (fun _ => Some new_ent) (Devices None [] ∅)))) = Devices (Some e) (if own then [fd] else []) ∅) by (by destruct own).
    rewrite Hs. assert (Hclose : forall Q : unit -> devices -> Prop, Q tt (Devices (Some (e <| ent_fd := -1 |>)) [] ∅) ->
      wp amdgpu_kernel_close_fd Q (Devices (Some e) (if own then [fd] else []) ∅)) by (intros Q HQ; by apply (wp_close_fd e own)).
    destruct (is_master a); cbn [negb].
    + apply wp_ret. cbn [negb]. destruct (initialize_ok a); cbn [negb].
      * apply wp_ret, wp_bind, wp_modify, wp_ret. split; [done |]. eexists. split; [reflexivity |]. cbn.
        split_and!; [by apply (Hslots _ None) | done | lia | unfold MAX_SCRNS; lia | destruct Hg; lia | by rewrite Hsrv; destruct srv].
      * apply wp_bind, Hclose, wp_ret. cbn. split; [done |]. split; [| done]. eexists. split; [reflexivity |]. by split_and!; [apply (Hslots _ None) | ..].
    + apply wp_bind, Hclose, wp_ret. cbn [negb]. apply wp_ret, wp_ret. split; [done |]. split; [| done]. eexists. split; [reflexivity |].
      by split_and!; [apply (Hslots _ None) | ..].
Qed.

(** ** Screens come and go

    [shares ok n s]: [n] screens were given the device and not freed; [ok] says whether
    the device could be opened when its entity was made.  A screen that was given the
    device is set up at most once, and is freed whether it was set up or not. *)
Inductive shares : bool -> nat -> devices -> Prop :=
| shares_none : shares true 0 (Devices None [] ∅)
| shares_probe ok n s a pci pl s' :
    shares ok n s -> answers_ok a pl -> amdgpu_probe a pci pl s = Ok true s' -> shares ok (S n) s'
| shares_first_refused ok s a pci pl s' :
    shares ok 0 s -> ent_ptr s = None -> answers_ok a pl -> amdgpu_probe a pci pl s = Ok false s' -> shares false 0 s'
| shares_refused ok n s a pci pl s' :
    shares ok n s -> is_Some (ent_ptr s) -> amdgpu_probe a pci pl s = Ok false s' -> shares ok n s'
| shares_register ok n s scrn s' :
    shares ok n s -> infos s !! scrn = None -> (size (infos s) < n)%nat -> register_screen scrn s = Ok tt s' -> shares ok n s'
| shares_free ok n s scrn s' :
    shares ok (S n) s -> is_Some (infos s !! scrn) \/ (size (infos s) < S n)%nat -> AMDGPUFreeRec scrn s = Ok tt s' ->
    shares ok n s'.

Definition shares_inv (ok : bool) (n : nat) (s : devices) : Prop :=
  (size (infos s) <= n)%nat /\
  if ok then match n with O => ent_ptr s = None /\ open_fds s = [] | S _ => in_use (Z.of_nat n) s end
  else broken (Z.of_nat n) s.

Lemma wp_ok {W A} (m : M W A) (Q : A -> W -> Prop) a w w' : wp m Q w -> m w = Ok a w' -> Q a w'.
Proof. unfold wp. intros H E. by rewrite E in H. Qed.

(** Another screen of a device that has an entity. *)
Lemma wp_probe_again a pci pl s e (Q : bool -> devices -> Prop) :
  ent_ptr s = Some e ->
  (if fd_ref e =? Z.of_nat MAX_SCRNS then Q false s else Q true (Devices (Some (e <| fd_ref ::= fun n => n + 1 |>)) (open_fds s) (infos s))) ->
  wp (amdgpu_probe a pci pl) Q s.
Proof.
  intros He HQ. unfold amdgpu_probe, set_ent. apply wp_bind, wp_gets. rewrite He.
  destruct (_ =? _); [by apply wp_ret |]. apply wp_bind, wp_modify, wp_ret.
  destruct s as [p f i]. cbn in He. subst p. exact HQ.
Qed.

Lemma wp_register scrn e s (Q : unit -> devices -> Prop) :
  ent_ptr s = Some e -> slots_ok s e -> infos s !! scrn = None -> Z.of_nat (size (infos s)) < Z.of_nat MAX_SCRNS ->
  (forall e', fd_ref e' = fd_ref e -> ent_fd e' = ent_fd e -> ent_server_fd e' = ent_server_fd e ->
     slots_ok (Devices (Some e') (open_fds s) (<[scrn := num_scrns e]> (infos s))) e' ->
     Q tt (Devices (Some e') (open_fds s) (<[scrn := num_scrns e]> (infos s)))) ->
  wp (register_screen scrn) Q s.
Proof.
  intros He (Hl & Hn & Hi) Hs Hlt HQ. destruct s as [p f i]. cbn in *. subst p. unfold register_screen, set_ent.
  apply wp_bind, (wp_get_ent e); [done |]. apply wp_bind, wp_modify, wp_bind, wp_modify. rewrite Hl.
  destruct (_ || _) eqn:Hb; [lia |]. apply wp_modify.
  apply (HQ (e <| num_scrns ::= fun n => n + 1 |> <| ent_scrn ::= <[Z.to_nat (num_scrns e) := Some scrn]> |>)); [done.. |].
  unfold slots_ok. cbn. rewrite length_insert, map_size_insert_None by done. split_and!; [done | lia |].
  intros s0 id. rewrite lookup_insert_Some. intros [[-> <-]|[_ H]]; [lia | by eapply Hi].
Qed.

(** [AMDGPUFreeRec] first gives the slot back, then the descriptor. *)
Definition forgotten (scrn : scrn_id) (s s1 : devices) (e e1 : AMDGPUEnt) : Prop :=
  ent_ptr s1 = Some e1 /\ slots_ok s1 e1 /\ fd_ref e1 = fd_ref e /\ ent_fd e1 = ent_fd e /\ ent_server_fd e1 = ent_server_fd e /\
  open_fds s1 = open_fds s /\ infos s1 = delete scrn (infos s).

Lemma wp_free_rec scrn e s (Q : unit -> devices -> Prop) :
  ent_ptr s = Some e -> slots_ok s e ->
  (forall s1 e1, forgotten scrn s s1 e e1 ->
     wp (mwhen (ent_fd e >? 0) (_ ← set_ent (setf fd_ref (fun n => n - 1)); e ← get_ent;
        mwhen (fd_ref e =? 0) (_ ← amdgpu_kernel_close_fd; modify (setf ent_ptr (fun _ => None))))) Q s1) ->
  wp (AMDGPUFreeRec scrn) Q s.
Proof.
  intros He (Hl & Hn & Hi) HQ. unfold AMDGPUFreeRec. apply wp_bind, (wp_get_ent e); [done |]. apply wp_bind, wp_gets.
  destruct (infos s !! scrn) as [id|] eqn:Hid.
  - pose proof (Hi scrn id Hid) as Hrange. rewrite Hl. destruct (_ || _) eqn:Hb; [lia |].
    apply wp_bind, wp_bind, wp_modify, wp_modify. destruct s as [p f i]. cbn in *. subst p. eapply HQ.
    split; [reflexivity |]. unfold slots_ok. cbn. rewrite length_insert, map_size_delete_Some by by eexists.
    assert (size i <> O) by (intros Hz; apply map_size_empty_inv in Hz; subst i; by rewrite lookup_empty in Hid).
    split_and!; [done | lia | | done..]. intros s0 id0. rewrite lookup_delete_Some. intros [_ H0]. by eapply Hi.
  - apply wp_bind, wp_ret. eapply HQ. split; [exact He |]. split_and!; [by split_and! | done..|]. by rewrite delete_id.
Qed.

Lemma size_forgotten scrn s s1 e e1 n :
  forgotten scrn s s1 e e1 -> (size (infos s) <= S n)%nat -> is_Some (infos s !! scrn) \/ (size (infos s) < S n)%nat ->
  (size (infos s1) <= n)%nat.
Proof.
  intros (_ & _ & _ & _ & _ & _ & ->) Hle [Hin|Hlt].
  - rewrite map_size_delete_Some by done. lia.
  - destruct (infos s !! scrn) eqn:H; [rewrite map_size_delete_Some by (rewrite H; by eexists); lia | rewrite delete_id by done; lia].
Qed.

(** Freeing a screen of a device that is open: the last one closes it. *)
Lemma free_in_use scrn n s :
  in_use (Z.of_nat (S n)) s -> (size (infos s) <= S n)%nat -> is_Some (infos s !! scrn) \/ (size (infos s) < S n)%nat ->
  wp (AMDGPUFreeRec scrn) (fun _ s' => shares_inv true n s') s.
Proof.
  intros (e & He & Hsl & Hr & Hn & Hf & Ho) Hsz Hin. apply (wp_free_rec _ e); [done | done |]. intros s1 e1 Hfo.
  pose proof (size_forgotten _ _ _ _ _ n Hfo Hsz Hin) as Hsz1. destruct Hfo as (H1 & H2 & H3 & H4 & H5 & H6 & H7).
  assert (ent_fd e >? 0 = true) as -> by lia. cbn [mwhen]. unfold set_ent.
  destruct s1 as [p f i]. cbn in H1, H6, Hsz1. subst p. apply wp_bind, wp_modify. set (e2 := e1 <| fd_ref ::= fun n => n - 1 |>).
  apply wp_bind, (wp_get_ent e2); [done |]. change (fd_ref e2) with (fd_ref e1 - 1).
  destruct (Z.eqb_spec (fd_ref e1 - 1) 0) as [Hz|Hnz]; cbn [mwhen].
  - apply wp_bind, (wp_close_fd e2 (negb (ent_server_fd e2))); [done | done | |].
    + change (f = (if negb (ent_server_fd e1) then [ent_fd e1] else [])). rewrite H6, Ho, H4, H5. by destruct (ent_server_fd e).
    + apply wp_modify. assert (n = O) as -> by lia. by split.
  - apply wp_ret. split; [done |]. destruct n as [|n]; [lia |]. exists e2.
    split_and!; [done | exact H2 | change (fd_ref e1 - 1 = Z.of_nat (S n)); lia | lia | lia |
      change (0 < ent_fd e1); lia | change (f = if ent_server_fd e1 then [] else [ent_fd e1]); by rewrite H6, Ho, H4, H5].
Qed.

Lemma free_broken scrn n s :
  broken (Z.of_nat (S n)) s -> (size (infos s) <= S n)%nat -> is_Some (infos s !! scrn) \/ (size (infos s) < S n)%nat ->
  wp (AMDGPUFreeRec scrn) (fun _ s' => shares_inv false n s') s.
Proof.
  intros (e & He & Hsl & Hr & Hf & Ho) Hsz Hin. apply (wp_free_rec _ e); [done | done |]. intros s1 e1 Hfo.
  pose proof (size_forgotten _ _ _ _ _ n Hfo Hsz Hin) as Hsz1. destruct Hfo as (H1 & H2 & H3 & H4 & H5 & H6 & H7).
  rewrite Hf. apply wp_ret. split; [done |]. exists e1. split_and!; [done | done | lia | lia | lia | by rewrite H6].
Qed.

(** The entity, if there is one, with what both kinds of device have in common. *)
Lemma shares_ent ok n s :
  shares_inv ok n s -> ent_ptr s = None /\ ok = true /\ n = O /\ open_fds s = [] /\ infos s = ∅ \/
    exists e, ent_ptr s = Some e /\ slots_ok s e /\ Z.of_nat n <= fd_ref e <= Z.of_nat MAX_SCRNS.
Proof.
  intros [Hsz Hs]. destruct ok.
  - destruct n as [|n].
    + left. destruct Hs. split_and!; try done. apply map_size_empty_inv. lia.
    + right. destruct Hs as (e & ? & ? & ? & ? & _). exists e. split_and!; [done | done | lia | lia].
  - right. destruct Hs as (e & ? & ? & ? & _). by exists e.
Qed.

Lemma probe_step ok n s a pci pl :
  shares_inv ok n s -> answers_ok a pl \/ is_Some (ent_ptr s) ->
  wp (amdgpu_probe a pci pl)
    (fun b s' => if b then shares_inv ok (S n) s' else shares_inv (if ent_ptr s then ok else false) n s') s.
Proof.
  intros Hinv Ha. destruct (shares_ent _ _ _ Hinv) as [(Hp & -> & -> & Ho & Hi) | (e & He & Hsl & Hr)].
  - destruct Ha as [Ha|Ha]; [| by rewrite Hp in Ha; destruct Ha]. rewrite Hp.
    eapply wp_mono; [by apply wp_probe_fresh |]. intros [] s' [Hi' H]; (split; [rewrite Hi', map_size_empty; lia | apply H]).
  - apply (wp_probe_again _ _ _ _ e); [done |]. rewrite He. destruct (Z.eqb_spec (fd_ref e) (Z.of_nat MAX_SCRNS)); [done |].
    destruct Hinv as [Hsz Hs]. split; [cbn; lia |]. destruct ok.
    + destruct n as [|n]; [by destruct Hs as [Hs _]; rewrite He in Hs |]. destruct Hs as (e' & He' & _ & Hr' & Hn & Hf & Ho).
      rewrite He in He'. injection He' as <-. exists (e <| fd_ref ::= fun n => n + 1 |>).
      split_and!; [done | exact Hsl | cbn; lia | lia | lia | done | done].
    + destruct Hs as (e' & He' & _ & Hn & Hf & Ho). rewrite He in He'. injection He' as <-.
      exists (e <| fd_ref ::= fun n => n + 1 |>). split_and!; [done | exact Hsl | cbn; lia | cbn; lia | done | done].
Qed.

Lemma register_step ok n s scrn :
  shares_inv ok n s -> infos s !! scrn = None -> (size (infos s) < n)%nat ->
  wp (register_screen scrn) (fun _ s' => shares_inv ok n s') s.
Proof.
  intros Hinv Hnew Hlt. destruct (shares_ent _ _ _ Hinv) as [(_ & _ & -> & _) | (e & He & Hsl & Hr)]; [lia |].
  apply (wp_register _ e); [done | done | done | lia |]. intros e' H1 H2 H3 H4. destruct Hinv as [Hsz Hs].
  split; [cbn; rewrite map_size_insert_None by done; lia |]. destruct ok.
  - destruct n as [|n]; [lia |]. destruct Hs as (e0 & He0 & _ & Hr' & Hn & Hf & Ho). rewrite He in He0. injection He0 as <-.
    exists e'. split_and!; [done | done | lia | lia | lia | lia | cbn; by rewrite H3, H2].
  - destruct Hs as (e0 & He0 & _ & Hn & Hf & Ho). rewrite He in He0. injection He0 as <-.
    exists e'. split_and!; [done | done | lia | lia | lia | done].
Qed.

Lemma free_step ok n s scrn :
  shares_inv ok (S n) s -> is_Some (infos s !! scrn) \/ (size (infos s) < S n)%nat ->
  wp (AMDGPUFreeRec scrn) (fun _ s' => shares_inv ok n s') s.
Proof. intros [Hsz Hs] Hin. destruct ok; [by apply free_in_use | by apply free_broken]. Qed.

Lemma shares_inv_holds ok n s : shares ok n s -> shares_inv ok n s.
Proof.
  induction 1 as [|ok n s a pci pl s' _ IH Ha Hp|ok s a pci pl s' _ IH He Ha Hp|ok n s a pci pl s' _ IH He Hp
    |ok n s scrn s' _ IH Hnew Hlt Hp|ok n s scrn s' _ IH Hin Hp].
  - by split.
  - exact (wp_ok _ _ true _ _ (probe_step ok n s a pci pl IH (or_introl Ha)) Hp).
  - pose proof (wp_ok _ _ false _ _ (probe_step ok 0 s a pci pl IH (or_introl Ha)) Hp) as H. cbv beta iota in H. by rewrite He in H.
  - pose proof (wp_ok _ _ false _ _ (probe_step ok n s a pci pl IH (or_intror He)) Hp) as H. cbv beta iota in H. destruct He as [e He]. by rewrite He in H.
  - exact (wp_ok _ _ tt _ _ (register_step ok n s scrn IH Hnew Hlt) Hp).
  - exact (wp_ok _ _ tt _ _ (free_step ok n s scrn IH Hin) Hp).
Qed.

(** C10. Screens share a device's descriptor: after any sequence of screens that are
    given the device or refused it (the first one included), set up once each and freed,
    in which libdrm and the server answer with descriptors that are -1 or positive, none
    of these operations fails and at most six screens have the device.  If it could be
    opened, the descriptor is open as long as a screen has it, the driver has no other
    open, and after the last screen nothing is open and the entity is gone.  If it could
    not, nothing is ever open: the entity stays, and every later screen that is given the
    device gets -1 as its descriptor. *)
Theorem device_shared ok n s :
  shares ok n s ->
  (n <= MAX_SCRNS)%nat /\
  (forall a pci pl, answers_ok a pl -> exists b s', amdgpu_probe a pci pl s = Ok b s') /\
  (forall scrn, infos s !! scrn = None -> (size (infos s) < n)%nat ->
     exists s', register_screen scrn s = Ok tt s' /\ shares ok n s') /\
  (forall scrn, n <> O -> is_Some (infos s !! scrn) \/ (size (infos s) < n)%nat ->
     exists s', AMDGPUFreeRec scrn s = Ok tt s' /\ shares ok (n - 1) s') /\
  (if ok then
     (n = O -> ent_ptr s = None /\ open_fds s = []) /\
     (n <> O -> exists e, ent_ptr s = Some e /\ fd_ref e = Z.of_nat n /\ 0 < ent_fd e /\
        open_fds s = if ent_server_fd e then [] else [ent_fd e])
   else exists e, ent_ptr s = Some e /\ ent_fd e = -1 /\ open_fds s = []).
Proof.
  intros Hsh. pose proof (shares_inv_holds ok n s Hsh) as Hinv. split_and!.
  - destruct (shares_ent _ _ _ Hinv) as [(_ & _ & -> & _) | (e & _ & _ & ?)]; lia.
  - intros a pci pl Ha. destruct (wp_elim _ _ _ (probe_step ok n s a pci pl Hinv (or_introl Ha))) as (b & s' & H & _). by exists b, s'.
  - intros scrn Hnew Hlt. destruct (wp_elim _ _ _ (register_step ok n s scrn Hinv Hnew Hlt)) as ([] & s' & H & _).
    exists s'. split; [done |]. by eapply shares_register.
  - intros scrn Hn Hin. destruct n as [|n]; [done |]. destruct (wp_elim _ _ _ (free_step ok n s scrn Hinv Hin)) as ([] & s' & H & _).
    exists s'. split; [done |]. replace (S n - 1)%nat with n by lia. by eapply shares_free.
  - destruct Hinv as [_ Hs]. destruct ok.
    + destruct n as [|n]; split; try done. intros _. destruct Hs as (e & He & _ & Hr & _ & Hf & Ho). by exists e.
    + destruct Hs as (e & He & _ & _ & Hf & Ho). by exists e.
Qed.

(** A device that could not be opened is given out nevertheless: the first probe
    closes what it opened and fails, but leaves the entity; the next screen's probe
    finds it, opens nothing and succeeds, with -1 as the descriptor. *)
Theorem probe_after_failure a pci pl s s' a2 pci2 pl2 :
  ent_ptr s = None -> open_fds s = [] -> infos s = ∅ -> answers_ok a pl -> amdgpu_probe a pci pl s = Ok false s' ->
  exists e s'', amdgpu_probe a2 pci2 pl2 s' = Ok true s'' /\ ent_ptr s'' = Some e /\ ent_fd e = -1 /\ open_fds s'' = [].
Proof.
  intros Hp Hf Hi Ha Hrun. destruct (wp_ok _ _ _ _ _ (wp_probe_fresh a pci pl s Hp Hf Hi Ha) Hrun) as (_ & (e & He & _ & _ & Hfd & Ho) & Hr).
  rewrite He in Hr. injection Hr as Hr.
  assert (H : wp (amdgpu_probe a2 pci2 pl2) (fun b s'' => b = true /\ exists e, ent_ptr s'' = Some e /\ ent_fd e = -1 /\ open_fds s'' = []) s').
  { apply (wp_probe_again _ _ _ _ e); [done |]. rewrite Hr. cbn. split; [done |]. by eexists. }
  destruct (wp_elim _ _ _ H) as (b & s'' & Hrun2 & -> & e2 & H2). by exists e2, s''.
Qed.

(** ** One device on the PCI bus *)
Definition probe_pci : pci_device := Pci 0 3 0 0.
Definition probe_outside (ok : bool) : outside :=
  Outside true (Some [DrmDevice true (Pci 0 4 0 0) 1 5; DrmDevice true probe_pci 1 7]) true ok.
Definition probe_none : devices := Devices None [] ∅.
Lemma probe_answers ok : answers_ok (probe_outside ok) None.
Proof. split; [| done]. intros l [= <-]. repeat constructor; by right. Qed.

(** The device cannot be opened, and the next screen is given it. *)
Lemma device_shared_witness :
  (let s := after (amdgpu_probe (probe_outside true) probe_pci None) probe_none in
   open_fds s = [7] /\ exists s', register_screen 1 s = Ok tt s' /\ shares true 1 s') /\
  (let s := after (amdgpu_probe (probe_outside true) probe_pci None) (after (amdgpu_probe (probe_outside false) probe_pci None) probe_none) in
   exists e, ent_ptr s = Some e /\ ent_fd e = -1 /\ open_fds s = []).
Proof.
  split; intros s.
  - split; [reflexivity |]. apply (device_shared true 1 s); [| reflexivity | vm_compute; lia].
    apply (shares_probe true 0 probe_none (probe_outside true) probe_pci None); [constructor | apply probe_answers | reflexivity].
  - apply (device_shared false 1 s). apply (shares_probe false 0 (after (amdgpu_probe (probe_outside false) probe_pci None) probe_none) (probe_outside true) probe_pci None);
      [| apply probe_answers | reflexivity].
    apply (shares_first_refused true probe_none (probe_outside false) probe_pci None); [constructor | reflexivity | apply probe_answers | reflexivity].
Defined.

Lemma probe_after_failure_witness :
  exists e s'', amdgpu_probe (probe_outside true) probe_pci None (after (amdgpu_probe (probe_outside false) probe_pci None) probe_none) = Ok true s'' /\
    ent_ptr s'' = Some e /\ ent_fd e = -1 /\ open_fds s'' = [].
Proof.
  apply (probe_after_failure (probe_outside false) probe_pci None probe_none); [reflexivity | reflexivity | reflexivity | apply probe_answers | reflexivity].
Defined.
