(* ===== verification/Startup.v ===== *)
(** * Starting and closing a screen

    The functions of src/src/amdgpu_kms.c that run once for a screen:
    [AMDGPUPreInit_KMS] with its parts, [AMDGPUScreenInit_KMS],
    [AMDGPUCreateScreenResources_KMS] and [AMDGPUCloseScreen_KMS]; and
    [amdgpu_glamor_pre_init] of src/src/amdgpu_glamor.c, [AMDGPUInitVideo] of
    src/src/amdgpu_video.c. *)
From stdpp Require Import strings.
From S2P Require Import Prelude Modes Region World Video Lut Cursor Fb DriState Queue Bo PixmapFb Crtc Keeps Scanout Modeset.
From S2P Require Import CursorHw Flip Prime Present Dri2 Names Color Outputs Dri3 Wrappers Leases Screen Hotplug Hooks.

(** The options of the configuration file; [None] where one is not given. *)
Record options := Options {
  opt_accel : option bool;
  opt_accel_method : option string;
  opt_tear_free : option bool;
  opt_shadow_primary : option bool;
  opt_variable_refresh : option bool;
  opt_async_flip_secondaries : option bool;
  opt_page_flip : option bool;
  opt_delete_dp12 : option bool;
  opt_sw_cursor : option bool;
  opt_dri3 : option bool;
  opt_dri : option Z;
  opt_subpixel_order : option string
}.

(** What [amdgpu_query_gpu_info] tells. *)
Record amdgpu_gpu_info := GpuInfo { family_id : Z; gb_addr_cfg : Z }.

Definition MODULE_VERSION_NUMERIC (maj min patch : Z) : Z := Z.lor (Z.lor (Z.shiftl maj 24) (Z.shiftl min 16)) patch.
Definition TrueColor : Z := 4.
Definition DRM_CAP_PRIME : Z := 5.
Definition DRM_PRIME_CAP_IMPORT : Z := 1.
Definition DRM_PRIME_CAP_EXPORT : Z := 2.
Definition RR_Capability_SourceOutput : Z := 1.
Definition RR_Capability_SinkOutput : Z := 2.
Definition RR_Capability_SourceOffload : Z := 4.
Definition RR_Capability_SinkOffload : Z := 8.
Definition PROBE_DETECT : Z := 1.
Definition XDamageNotify : Z := 0.

Section Code.
Context `{env : Env} `{srv : XServer} `{prime : PrimeServer} `{callbacks : Callbacks} `{rot : Rotator}.
Context (opts : options).
(** The index of the screen, its number on the device, whether the device is shared,
    the option "ZaphodHeads" and the CRTC the server makes. *)
Context (scrnIndex instance_id : Z) (shared : bool) (zaphod : option string) (fresh : xf86Crtc).

(** The server's [xf86LoadSubModule], where only success matters. *)
Definition xf86LoadSubModule (name : string) : D bool := call (Ask name []).
Definition set_scrn (scrn : loc) (f : scrn_info -> scrn_info) : D unit := update w_scrns scrn f.

(** ** Before the screen exists *)

Definition AMDGPUPreInitVisual (scrn : loc) : D bool :=
  ok ← call (Ask "xf86SetDepthBpp" []);
  if negb ok then mret false
  else
    info ← load w_scrns scrn;
    if negb (existsb (Z.eqb (depth info)) [8; 15; 16; 24; 30]) then mret false
    else
      pix24bpp ← call (Query "xf86GetBppFromDepth" [depth info]);
      _ ← set_scrn scrn (setf pixel_bytes (fun _ => Z.quot (bitsPerPixel info) 8));
      if default 0 pix24bpp =? 24 then mret false
      else
        ok ← call (Ask "xf86SetDefaultVisual" []);
        if negb ok then mret false
        else
          visual ← call (Query "defaultVisual" []);
          mret (negb ((depth info >? 8) && negb (default 0 visual =? TrueColor))).

Definition AMDGPUPreInitWeight (scrn : loc) : D bool :=
  info ← load w_scrns scrn;
  if depth info >? 8 then call (Ask "xf86SetWeight" [])
  else _ ← set_scrn scrn (setf conf (setf rgbBits (fun _ => 8))); mret true.

Definition amdgpu_glamor_pre_init (scrn : loc) : D bool :=
  info ← load w_scrns scrn;
  if depth info <? 15 then mret false
  else
    m ← call (Query "glamoregl" []);
    match m with
    | None => mret false
    | Some version =>
        if version <? MODULE_VERSION_NUMERIC 0 3 1 then mret false
        else if (depth info =? 30) && (version <? MODULE_VERSION_NUMERIC 1 0 1) then mret false
        else
          ok ← call (Ask "glamor_egl_init" []);
          if negb ok then mret false
          else _ ← set_scrn scrn (setf use_glamor (fun _ => true)); mret true
    end.

(** Whether glamor could be set up. *)
Definition try_accel (scrn : loc) : D bool :=
  if default true (opt_accel opts) then
    let want_glamor := negb (bool_decide (opt_accel_method opts = Some "none"%string)) in
    available ← xf86LoadSubModule "dri2";
    _ ← set_scrn scrn (setf dri2_available (fun _ => available));
    _ ← mwhen available
          (gbm ← call (Ask "gbm_create_device" []);
           set_scrn scrn (setf has_gbm (fun _ => gbm)));
    info ← load w_scrns scrn;
    if has_gbm info && want_glamor then amdgpu_glamor_pre_init scrn else mret false
  else mret false.

Definition AMDGPUPreInitAccel_KMS (scrn : loc) : D bool :=
  ok ← try_accel scrn;
  if ok : bool then mret true
  else
    ok ← xf86LoadSubModule "shadow";
    if negb ok then mret false
    else _ ← set_scrn scrn (fun i => i <| dri2_available := false |> <| shadow_fb := true |>); mret true.

Definition AMDGPUPreInitChipType_KMS (scrn : loc) (gpu : amdgpu_gpu_info) : D bool :=
  _ ← set_scrn scrn (setf family (fun _ => family_id gpu)); mret true.

Definition amdgpu_get_tile_config (scrn : loc) (gpu : amdgpu_gpu_info) : D bool :=
  let set bytes := _ ← set_scrn scrn (fun i => i <| group_bytes := bytes |> <| have_tiling_info := true |>); mret true in
  let n := Z.shiftr (Z.land (gb_addr_cfg gpu) 0x70) 4 in
  if n =? 0 then set 256 else if n =? 1 then set 512 else mret false.

(** The new [pScrn->capabilities]. *)
Definition AMDGPUSetupCapabilities (scrn : loc) : D Z :=
  info ← load w_scrns scrn;
  if negb (use_glamor info) then mret 0
  else
    cap ← call (DrmGetCap DRM_CAP_PRIME);
    match cap with
    | None => mret 0
    | Some v =>
        let source := if has_bit v DRM_PRIME_CAP_EXPORT then Z.lor RR_Capability_SourceOutput RR_Capability_SourceOffload else 0 in
        let sink := if has_bit v DRM_PRIME_CAP_IMPORT
                    then Z.lor RR_Capability_SinkOffload (if negb (count_crtcs info =? 0) then RR_Capability_SinkOutput else 0)
                    else 0 in
        mret (Z.lor source sink)
    end.

(** The features that depend on options. *)
Definition preinit_features (scrn : loc) : D unit :=
  info ← load w_scrns scrn;
  _ ← mwhen (use_glamor info)
        (_ ← set_scrn scrn (fun i => i
               <| info_tear_free := match opt_tear_free opts with Some b => Z.b2z b | None => 2 end |>
               <| shadow_primary := default false (opt_shadow_primary opts) |>);
         mwhen (negb (is_gpu info))
           (set_scrn scrn (fun i => i
              <| vrr_support := match opt_variable_refresh opts with Some b => b | None => vrr_support i end |>
              <| async_flip_secondaries := default false (opt_async_flip_secondaries opts) |>)));
  _ ← mwhen (negb (is_gpu info))
        (set_scrn scrn (fun i => i
           <| allowPageFlip := default true (opt_page_flip opts) && negb (shadow_primary i) |>));
  mwhen (default false (opt_delete_dp12 opts)) (set_scrn scrn (setf conf (setf delete_dp_12_displays (fun _ => true)))).

(** The server's answers are asked for by name; the device's number of the screen,
    [instance_id], is given by [register_screen] of Probe.v. *)
Definition AMDGPUPreInit_KMS (flags : Z) (scrn : loc) (gpu : amdgpu_gpu_info) : D bool :=
  if has_bit flags PROBE_DETECT then mret true
  else
    ok ← call (Ask "numEntities == 1" []);
    if negb ok then mret false
    else
      _ ← modify (setf w_entity (setf ent_scrns (fun l => l ++ [scrn])));
      ok ← call (Ask "location.type" []);
      if negb ok then mret false
      else
        _ ← mwhen (shared && (instance_id =? 0)) (call (Notify "xf86SetPrimInitDone" []));
        ok ← AMDGPUPreInitVisual scrn;
        if negb ok then mret false
        else
          ok ← call (Calloc "Options");
          if negb ok then mret false
          else
            ok ← AMDGPUPreInitWeight scrn;
            if negb ok then mret false
            else
              _ ← AMDGPUPreInitChipType_KMS scrn gpu;
              _ ← set_scrn scrn (fun i => i <| dri2_available := false |> <| dri2_enabled := false |>);
              version ← call (Query "drmGetVersion" []);
              match version with
              | None => mret false
              | Some minor =>
                  _ ← set_scrn scrn (setf drm_version_minor (fun _ => minor));
                  ok ← xf86LoadSubModule "fb";
                  if negb ok then mret false
                  else
                    ok ← AMDGPUPreInitAccel_KMS scrn;
                    if negb ok then mret false
                    else
                      _ ← amdgpu_drm_queue_init;
                      info ← load w_scrns scrn;
                      _ ← mwhen (use_glamor info)
                            (_ ← set_scrn scrn (fun i => i <| group_bytes := 256 |> <| have_tiling_info := false |>);
                             _ ← amdgpu_get_tile_config scrn gpu; mret tt);
                      _ ← preinit_features scrn;
                      ok ← drmmode_pre_init scrnIndex instance_id shared zaphod fresh scrn;
                      if negb ok then mret false
                      else
                        _ ← AMDGPUSetupCapabilities scrn;
                        _ ← amdgpu_determine_cursor_size scrn;
                        info ← load w_scrns scrn;
                        align ← some_or DivByZero (drmmode_get_pitch_align info (Z.quot (bitsPerPixel info) 8));
                        _ ← set_scrn scrn (setf displayWidth (fun _ => AMDGPU_ALIGN (virtualX info) align));
                        ok ← call (Ask "xf86SetGamma" []);
                        if negb ok then mret false
                        else
                          ok ← (if default false (opt_sw_cursor opts) then mret true else xf86LoadSubModule "ramdac");
                          if negb ok then mret false
                          else
                            modes ← call (Ask "modes" []);
                            mret (modes || is_gpu info)
              end.

(** ** The screen *)

Definition AMDGPUCursorInit_KMS (scrn : loc) : D bool :=
  _ ← call (Notify "xf86SetSilkenMouse" []);
  _ ← call (Notify "miDCInitialize" []);
  info ← load w_scrns scrn;
  ok ← (if allowPageFlip info then
          ok ← call DixRegisterPrivateKey;
          _ ← mwhen ok (update w_hooks scrn (wrap_info SpriteFuncs "drmmode_sprite_funcs"));
          mret ok
        else mret true);
  if negb ok then mret false
  else if default false (opt_sw_cursor opts) then mret true
  else call (Ask "xf86_cursors_init" [cursor_w info; cursor_h info]).

(** [adaptors] is the number of adaptors the server has. *)
Definition AMDGPUInitVideo (scrn : loc) : D unit :=
  adaptors ← call (Query "xf86XVListGenericAdaptors" []);
  ok ← call (Calloc "newAdaptors");
  mwhen ok
    (info ← load w_scrns scrn;
     textured ← (if use_glamor info then call (Ask "glamor_xv_init" [16]) else mret false);
     let num := default 0 adaptors + Z.b2z textured in
     mwhen (negb (num =? 0)) (call (Notify "xf86XVScreenInit" [num]))).

(** Whether DRI3 is enabled; what the extensions of the server answer is asked for
    before the driver's function that calls them. *)
Definition start_dri3 (scrn : loc) : D bool :=
  info ← load w_scrns scrn;
  let value :=
    if use_glamor info then
      let value := default true (opt_dri3 opts) in
      match opt_dri opts with
      | Some level => if (level =? 2) || (level =? 3) then level =? 3 else value
      | None => value
      end
    else false in
  if negb value then mret false
  else
    key ← call (Ask "dixPrivateKeyRegistered" []);
    ok ← amdgpu_sync_init key scrn;
    if negb ok then mret false
    else
      ok ← call (Ask "present_screen_init" []);
      ok ← amdgpu_present_screen_init scrn ok;
      if negb ok then mret false
      else
        node ← call (Ask "drmGetRenderDeviceNameFromFd" []);
        ok ← call (Ask "dri3_screen_init" []);
        amdgpu_dri3_screen_init node ok.

(** The hooks of the screen that the driver replaces last. *)
Definition wrap_screen (bgNoneRoot : bool) (scrn : loc) : D unit :=
  info ← load w_scrns scrn;
  e ← gets w_entity;
  _ ← mwhen (negb (is_gpu info))
        (_ ← mwhen ((serverGeneration e =? 1) && bgNoneRoot && use_glamor info)
               (update w_hooks scrn (wrap_info CreateWindowProc "AMDGPUCreateWindow_oneshot"));
         _ ← update w_hooks scrn (wrap_info WindowExposuresProc "AMDGPUWindowExposures_oneshot");
         set_scrn scrn (setf exposures_oneshot (fun _ => true)));
  update w_hooks scrn (fun h =>
    let h := wrap_info CloseScreenProc "AMDGPUCloseScreen_KMS" h in
    let h := put_proc SaveScreenProc "AMDGPUSaveScreen_KMS" h in
    let h := wrap_info BlockHandlerProc "AMDGPUBlockHandler_KMS" h in
    let h := wrap_info CreateScreenResourcesProc "AMDGPUCreateScreenResources_KMS" h in
    let h := put_proc StartPixmapTrackingProc "PixmapStartDirtyTracking" h in
    let h := put_proc StopPixmapTrackingProc "PixmapStopDirtyTracking" h in
    put_proc SyncSharedPixmapProc "amdgpu_sync_shared_pixmap" h).

(** Acceleration, or the driver's pixmaps without it. *)
Definition start_accel (direct : bool) (scrn : loc) : D unit :=
  info ← load w_scrns scrn;
  if use_glamor info && direct then
    ok ← amdgpu_glamor_init scrn;
    if ok : bool then call (Notify "glamor_set_drawable_modifiers_func" [])
    else set_scrn scrn (setf use_glamor (fun _ => false))
  else mwhen direct (_ ← amdgpu_pixmap_init scrn; mret tt).

(** The part after [xf86CrtcScreenInit]. *)
Definition finish_screen (ramp : list Z) (scrn : loc) : D bool :=
  ok ← drmmode_setup_colormap ramp scrn;
  if negb ok then mret false
  else
    info ← load w_scrns scrn;
    _ ← mwhen (vrr_support info) (_ ← wrap_property_requests; _ ← call (MakeAtom "_VARIABLE_REFRESH"); mret tt);
    _ ← drmmode_init scrn;
    mret true.

(** The framebuffer the server draws to. *)
Definition init_fb (scrn : loc) (info : scrn_info) : D bool :=
  front ← deref (front_buffer info);
  _ ← load w_bos front;
  if shadow_fb info then
    ok ← call (Calloc "fb_shadow");
    if negb ok then mret false
    else _ ← set_scrn scrn (setf conf (setf fb_shadow (fun _ => true))); hook_call "fbScreenInit" scrn
  else hook_call "fbScreenInit" scrn.

Definition AMDGPUScreenInit_KMS (bgNoneRoot : bool) (ramp : list Z) (scrn : loc) : D bool :=
  ok ← call (Ask "miSetVisualTypes" []);
  if negb ok then mret false
  else
    ok ← amdgpu_set_drm_master;
    if negb ok then mret false
    else
      info ← load w_scrns scrn;
      direct ← (if shadow_fb info then mret false else amdgpu_dri2_screen_init scrn);
      ok ← amdgpu_setup_kernel_mem scrn;
      if negb ok then mret false
      else
        info ← load w_scrns scrn;
        ok ← init_fb scrn info;
        if negb ok then mret false
        else
          _ ← hook_call "fbPictureInit" scrn;
          _ ← match opt_subpixel_order opts with
              | Some s => call (Notify "PictureSetSubpixelOrder" [if String.eqb s "RGB" then 1 else if String.eqb s "BGR" then 2
                                                                 else if String.eqb s "NONE" then 5 else 0])
              | None => mret tt
              end;
          _ ← start_dri3 scrn;
          _ ← set_scrn scrn (setf vtSema (fun _ => true));
          _ ← call (Notify "xf86SetBackingStore" []);
          _ ← start_accel direct scrn;
          _ ← call (Notify "xf86DPMSInit" []);
          ok ← AMDGPUCursorInit_KMS scrn;
          if negb ok then mret false
          else
            info ← load w_scrns scrn;
            _ ← mwhen (negb (shadow_fb info) && negb (is_gpu info)) (AMDGPUInitVideo scrn);
            ok ← (if shadow_fb info then hook_call "shadowSetup" scrn else mret true);
            if negb ok then mret false
            else
              _ ← wrap_screen bgNoneRoot scrn;
              ok ← hook_call "xf86CrtcScreenInit" scrn;
              if negb ok then mret false else finish_screen ramp scrn.

(** ** The picture of the console *)

Definition create_pixmap_for_fbcon (scrn : loc) (fbcon_id : Z) : D (option loc) :=
  info ← load w_scrns scrn;
  r ← call (DrmModeGetFB fbcon_id);
  match r with
  | None => mret None
  | Some fbcon =>
      if negb ((kfb_depth fbcon =? depth info) && (kfb_width fbcon =? virtualX info) && (kfb_height fbcon =? virtualY info))
      then mret None
      else
        r ← fbCreatePixmap scrn 0 0 (kfb_depth fbcon) 0;
        match r with
        | None => mret None
        | Some pix =>
            _ ← modify_pixmap_header pix (kfb_width fbcon) (kfb_height fbcon) 0 0 (kfb_pitch fbcon) 0;
            _ ← update w_pixmaps pix (setf devPrivate_ptr (fun _ => 0));
            p ← load w_pixmaps pix;
            ok ← call (GlamorTexturedFromHandle pix (kfb_handle fbcon) (devKind p));
            if ok : bool then mret (Some pix) else _ ← dixDestroyPixmap pix; mret None
        end
  end.

(** The framebuffer the last lit CRTC had when the driver started; 0 if none. *)
Fixpoint console_fb (l : list loc) (id : Z) : D Z :=
  match l with
  | [] => mret id
  | crtc :: r => d ← get_dcrtc crtc; console_fb r (if buffer_id d =? 0 then id else buffer_id d)
  end.

(** The operation [CopyArea] of a GC the server made for [dst]. *)
Definition gc_copy_area (scrn : loc) (info : scrn_info) (src dst : loc) : D unit :=
  if shadow_primary info then
    ops ← amdgpu_glamor_validate_gc dst (GC None None 0);
    if ops : bool then amdgpu_glamor_copy_area scrn src dst (bool_decide (src = dst))
    else amdgpu_glamor_copy_area_nodstbo scrn src dst
  else call (GlamorDraw "CopyArea" dst [src]).

Definition drmmode_copy_fb (scrn : loc) : D unit :=
  info ← load w_scrns scrn;
  let dst := screen_pixmap info in
  fb ← amdgpu_pixmap_get_fb dst;
  if negb (use_glamor info) then mret tt
  else
    fbcon_id ← console_fb (crtcs info) 0;
    if fbcon_id =? 0 then mret tt
    else
      fb ← deref fb;
      f ← load w_fbs fb;
      if fbcon_id =? fb_handle f then mret tt
      else
        r ← create_pixmap_for_fbcon scrn fbcon_id;
        match r with
        | None => mret tt
        | Some src =>
            ok ← call (GetScratchGC (depth info));
            if negb ok then raise NullDeref
            else
              _ ← gc_copy_area scrn info src dst;
              _ ← call (Notify "canDoBGNoneRoot" []);
              dixDestroyPixmap src
        end.

Definition AMDGPUCreateWindow_oneshot (scrn : loc) : D bool :=
  _ ← update w_hooks scrn (restore_info CreateWindowProc);
  ret ← call_proc scrn CreateWindowProc;
  _ ← mwhen ret (drmmode_copy_fb scrn);
  mret ret.

(** Where the shadow of a scan line is copied to, and the length of the line. *)
Definition amdgpuShadowWindow (row offset : Z) (scrn : loc) : D (Z * Z) :=
  info ← load w_scrns scrn;
  front ← deref (front_buffer info);
  b ← load w_bos front;
  let stride := Z.quot (displayWidth info * bitsPerPixel info) 8 in
  mret (cpu_ptr b + u32 (row * stride) + offset, stride).

(** ** When the root window is mapped *)

(** Whether the handler of uevents was installed. *)
Definition drmmode_uevent_init : D bool :=
  u ← call (Ask "udev_new" []);
  if negb u then mret false
  else
    mon ← call (Ask "udev_monitor_new_from_netlink" []);
    if negb mon then _ ← call (Notify "udev_unref" []); mret false
    else
      f ← call (Ask "udev_monitor_filter_add_match_subsystem_devtype" []);
      e ← (if f : bool then call (Ask "udev_monitor_enable_receiving" []) else mret false);
      if negb e then
        _ ← call (Notify "udev_monitor_unref" []);
        _ ← call (Notify "udev_unref" []); mret false
      else _ ← call (Notify "xf86AddGeneralHandler" []); mret true.
Definition drmmode_uevent_fini (handler : bool) : D unit :=
  mwhen handler
    (_ ← call (Notify "xf86RemoveGeneralHandler" []);
     _ ← call (Notify "udev_monitor_unref" []);
     call (Notify "udev_unref" [])).

(** The callbacks for damage events; [Some base] is the first event of the
    extension. *)
Definition add_damage_callbacks (scrn : loc) : D bool :=
  info ← load w_scrns scrn;
  _ ← set_scrn scrn (setf conf (setf callback_event_type (fun _ => -1)));
  if is_gpu info then mret true
  else
    ext ← call (Query "CheckExtension DAMAGE" []);
    match ext with
    | None => mret true
    | Some eventBase =>
        _ ← set_scrn scrn (setf conf (setf callback_event_type (fun _ => eventBase + XDamageNotify)));
        ok ← call (Ask "AddCallback FlushCallback" []);
        if negb ok then mret false
        else
          ok ← call (Ask "AddCallback EventCallback" []);
          if negb ok then _ ← call (Notify "DeleteCallback FlushCallback" []); mret false
          else
            ok ← call DixRegisterPrivateKey;
            if negb ok then
              _ ← call (Notify "DeleteCallback FlushCallback" []);
              _ ← call (Notify "DeleteCallback EventCallback" []); mret false
            else mret true
    end.

(** [rr_registered]: the RandR extension is there; [primary]: it has a primary
    output. *)
Definition AMDGPUCreateScreenResources_KMS (rr_registered primary : bool) (fuel : nat) (scrn : loc) : D bool :=
  _ ← update w_hooks scrn (restore_info CreateScreenResourcesProc);
  ok ← call_proc scrn CreateScreenResourcesProc;
  if negb ok then mret false
  else
    _ ← update w_hooks scrn (put_proc CreateScreenResourcesProc "AMDGPUCreateScreenResources_KMS");
    info ← load w_scrns scrn;
    _ ← mwhen rr_registered
          (_ ← mwhen (negb (is_gpu info) && negb primary)
                 (o ← some_or OutOfBounds (head (outputs info)); call (Notify "RROutputChanged" [Zpos o]));
           _ ← drmmode_uevent_init; mret tt);
    ok ← drmmode_set_desired_modes (default false (opt_sw_cursor opts)) rr_registered fuel scrn (is_gpu info);
    if negb ok then mret false
    else
      ok ← (if shadow_fb info then call (Ask "shadowAdd" []) else mret true);
      if negb ok then mret false
      else
        info ← load w_scrns scrn;
        ok ← (if dri2_enabled info || use_glamor info then
                match front_buffer info with
                | Some front => amdgpu_set_pixmap_bo (screen_pixmap info) (Some front)
                | None => mret true
                end
              else mret true);
        if negb ok then mret false
        else
          _ ← mwhen (use_glamor info) (_ ← amdgpu_glamor_create_screen_resources scrn; mret tt);
          ok ← add_damage_callbacks scrn;
          if negb ok then mret false
          else if vrr_support info then call DixRegisterPrivateKey else mret true.

(** ** The end of a server generation *)

Definition AMDGPUCloseScreen_KMS (handler : bool) (fuel : nat) (scrn : loc) : D bool :=
  info ← load w_scrns scrn;
  _ ← modify (setf w_entity (setf assigned_crtcs (fun _ => 0)));
  _ ← drmmode_uevent_fini handler;
  _ ← amdgpu_drm_queue_close fuel scrn;
  _ ← mwhen (negb (callback_event_type (conf info) =? -1))
        (_ ← call (Notify "DeleteCallback EventCallback" []);
         call (Notify "DeleteCallback FlushCallback" []));
  _ ← amdgpu_sync_close scrn;
  _ ← amdgpu_drop_drm_master;
  _ ← drmmode_fini fuel scrn;
  _ ← mwhen (dri2_enabled info) amdgpu_dri2_close_screen;
  _ ← amdgpu_glamor_fini scrn;
  _ ← set_scrn scrn (setf vtSema (fun _ => false));
  _ ← call (Notify "xf86ClearPrimInitDone" []);
  _ ← update w_hooks scrn (fun h =>
        let h := if allowPageFlip info && bool_decide (procs h SpriteFuncs = Some "drmmode_sprite_funcs"%string)
                 then restore_info SpriteFuncs h else h in
        restore_info CloseScreenProc (restore_info BlockHandlerProc h));
  call_proc scrn CloseScreenProc.
End Code.

(** ** The configuration a screen starts with *)
Section Config.
Context `{env : Env} `{srv : XServer} `{prime : PrimeServer} `{callbacks : Callbacks} `{rot : Rotator}.
Context (opts : options).
Context (scrnIndex instance_id : Z) (shared : bool) (zaphod : option string) (fresh : xf86Crtc).
Context (scrn : loc).

(** How a screen is drawn and shown. *)
Record ways := Ways { wy_glamor : bool; wy_shadow_fb : bool; wy_dri2 : bool; wy_gbm : bool; wy_shadow_primary : bool; wy_flip : bool; wy_gpu : bool }.
Definition ways_of (i : scrn_info) : ways :=
  Ways (use_glamor i) (shadow_fb i) (dri2_available i) (has_gbm i) (shadow_primary i) (allowPageFlip i) (is_gpu i).
Definition the_ways (w : world) : option ways := ways_of <$> w_scrns w !! scrn.

Lemma update_scrn_ways s g : (forall i, ways_of (g i) = ways_of i) -> leaves the_ways (update w_scrns s g).
Proof.
  intros Hg w. apply pwp_update. intros i Hi. unfold the_ways, setf. cbn. destruct (decide (s = scrn)) as [->|Hne].
  - rewrite lookup_insert_eq, Hi. cbn. by rewrite Hg.
  - by rewrite lookup_insert_ne.
Qed.
#[local] Hint Extern 1 (leaves the_ways (update w_scrns _ _)) => apply update_scrn_ways; done : leaves.
#[local] Hint Extern 1 (leaves the_ways (set_scrn _ _)) => apply update_scrn_ways; done : leaves.

Lemma visual_ways s : leaves the_ways (AMDGPUPreInitVisual s).
Proof. unfold AMDGPUPreInitVisual. leaves_auto. Qed.
Lemma weight_ways s : leaves the_ways (AMDGPUPreInitWeight s).
Proof. unfold AMDGPUPreInitWeight. leaves_auto. Qed.
Lemma chip_ways s gpu : leaves the_ways (AMDGPUPreInitChipType_KMS s gpu).
Proof. unfold AMDGPUPreInitChipType_KMS. leaves_auto. Qed.
Lemma tile_ways s gpu : leaves the_ways (amdgpu_get_tile_config s gpu).
Proof. unfold amdgpu_get_tile_config. leaves_auto. Qed.
Lemma caps_ways s : leaves the_ways (AMDGPUSetupCapabilities s).
Proof. unfold AMDGPUSetupCapabilities. leaves_auto. Qed.
Lemma queue_init_ways : leaves the_ways amdgpu_drm_queue_init.
Proof. unfold amdgpu_drm_queue_init. leaves_auto. Qed.
Lemma cursor_size_ways s : leaves the_ways (amdgpu_determine_cursor_size s).
Proof. unfold amdgpu_determine_cursor_size. leaves_auto. Qed.
Lemma prop_idx_ways l t n : leaves the_ways (koutput_get_prop_idx l t n).
Proof. induction l as [|[]]; cbn [koutput_get_prop_idx]; leaves_auto. Qed.
#[local] Hint Resolve prop_idx_ways : leaves.
Lemma encoders_ways l : leaves the_ways (get_encoders l).
Proof. induction l; cbn [get_encoders]; leaves_auto. Qed.
Lemma named_ways l : leaves the_ways (named_outputs l).
Proof. induction l; cbn [named_outputs]; leaves_auto. Qed.
Lemma rehook_ways l n id k nd : leaves the_ways (rehook l n id k nd).
Proof. induction l; cbn [rehook]; leaves_auto. Qed.
Lemma collect_ways l : leaves the_ways (collect_props l).
Proof. induction l as [|[]]; cbn [collect_props]; leaves_auto. Qed.
Lemma atoms_ways l : leaves the_ways (make_atoms l).
Proof. induction l; cbn [make_atoms]; unfold make_atom; leaves_auto. Qed.
#[local] Hint Resolve encoders_ways named_ways rehook_ways collect_ways atoms_ways : leaves.
Lemma configure_ways o l : leaves the_ways (configure_each o l).
Proof. induction l; cbn [configure_each]; unfold configure_property, make_atom; leaves_auto. Qed.
#[local] Hint Resolve configure_ways : leaves.
Lemma resources_ways s o : leaves the_ways (drmmode_output_create_resources s o).
Proof. unfold drmmode_output_create_resources, make_atom, rr_configure_and_change_cm_property. leaves_auto. Qed.
#[local] Hint Resolve resources_ways : leaves.
Lemma output_init_ways s id num si ii sh z d h dyn : leaves the_ways (drmmode_output_init s id num si ii sh z d h dyn).
Proof. unfold drmmode_output_init, koutput_get_prop_blob, koutput_get_prop_id. leaves_auto. Qed.
#[local] Hint Resolve output_init_ways : leaves.
Lemma init_outputs_ways s ids num needed n : leaves the_ways (init_outputs scrnIndex instance_id shared zaphod s ids num needed n).
Proof. revert num needed n. induction ids; intros num needed n; cbn [init_outputs]; leaves_auto. Qed.
Lemma cm_scan_ways s l d g : leaves the_ways (cm_scan s l d g).
Proof. revert d g. induction l as [|[]]; intros d g; cbn [cm_scan]; leaves_auto. Qed.
#[local] Hint Resolve init_outputs_ways cm_scan_ways : leaves.
Lemma cm_init_ways s res : leaves the_ways (drmmode_cm_init s res).
Proof. unfold drmmode_cm_init. leaves_auto. Qed.
Lemma crtc_cm_init_ways c : leaves the_ways (drmmode_crtc_cm_init c).
Proof. unfold drmmode_crtc_cm_init, drmmode_crtc_push_cm_prop, do_push, set_dcrtc. leaves_auto. Qed.
Lemma vrr_names_ways l : leaves the_ways (vrr_names l).
Proof. induction l as [|[]]; cbn [vrr_names]; leaves_auto. Qed.
#[local] Hint Resolve cm_init_ways crtc_cm_init_ways vrr_names_ways : leaves.
Lemma crtc_init_ways s res num : leaves the_ways (drmmode_crtc_init fresh s res num).
Proof. unfold drmmode_crtc_init, drmmode_crtc_hw_id, vrr_properties, drmmode_crtc_vrr_init, get_dcrtc, set_dcrtc. leaves_auto. Qed.
#[local] Hint Resolve crtc_init_ways : leaves.
Lemma init_crtcs_ways s res needed nums got : leaves the_ways (init_crtcs shared fresh s res needed nums got).
Proof. revert got. induction nums; intros got; cbn [init_crtcs]; leaves_auto. Qed.
Lemma clone_loop_ways o m l i : leaves the_ways (clone_loop o m l i).
Proof. revert i. induction l; intros i; cbn [clone_loop]; leaves_auto. Qed.
#[local] Hint Resolve init_crtcs_ways clone_loop_ways : leaves.
Lemma pre_init_ways s : leaves the_ways (drmmode_pre_init scrnIndex instance_id shared zaphod fresh s).
Proof. unfold drmmode_pre_init, drmmode_clones_init, find_clones, drmmode_probe_page_flip_target. leaves_auto. Qed.

Lemma pwp_ways {A} (m : D A) y w (Q : A -> world -> Prop) :
  leaves the_ways m -> the_ways w = Some y -> (forall a w', the_ways w' = Some y -> Q a w') -> pwp m Q w.
Proof. intros Hm Hy HQ. eapply pwp_mono; [apply Hm |]. intros a w' H. apply HQ. by rewrite H. Qed.
Lemma pwp_ways_set g y y' w (Q : unit -> world -> Prop) :
  the_ways w = Some y -> (forall i, ways_of i = y -> ways_of (g i) = y') -> (forall w', the_ways w' = Some y' -> Q tt w') ->
  pwp (set_scrn scrn g) Q w.
Proof.
  intros Hy Hg HQ. apply pwp_update. intros i Hi. apply HQ. unfold the_ways, setf in *. cbn. rewrite lookup_insert_eq.
  rewrite Hi in Hy. injection Hy as Hy. cbn. by rewrite Hg.
Qed.
Lemma pwp_ways_load y w (Q : scrn_info -> world -> Prop) :
  the_ways w = Some y -> (forall i, ways_of i = y -> Q i w) -> pwp (load w_scrns scrn) Q w.
Proof. intros Hy HQ. apply pwp_load. intros i Hi. apply HQ. unfold the_ways in Hy. rewrite Hi in Hy. by injection Hy. Qed.

Ltac same_ways := intros j E; injection E; intros; unfold ways_of; cbn; congruence.

(** Drawn by glamor on buffers of gbm with DRI2, or by the CPU to a shadow. *)
Definition drawn_one_way (y : ways) : Prop :=
  wy_glamor y = negb (wy_shadow_fb y) /\ (wy_glamor y = true -> wy_gbm y = true /\ wy_dri2 y = true) /\
  (wy_shadow_fb y = true -> wy_dri2 y = false).

Lemma glamor_pre_init_way y w :
  the_ways w = Some y ->
  pwp (amdgpu_glamor_pre_init scrn)
      (fun ok w' => the_ways w' = Some (Ways (ok || wy_glamor y) (wy_shadow_fb y) (wy_dri2 y) (wy_gbm y) (wy_shadow_primary y) (wy_flip y) (wy_gpu y))) w.
Proof.
  intros Hy. assert (Hid : forall w', the_ways w' = Some y ->
    the_ways w' = Some (Ways (false || wy_glamor y) (wy_shadow_fb y) (wy_dri2 y) (wy_gbm y) (wy_shadow_primary y) (wy_flip y) (wy_gpu y))) by (by destruct y).
  unfold amdgpu_glamor_pre_init. apply pwp_bind. eapply pwp_ways_load; [done |]. intros i Hi.
  destruct (_ <? _); [by apply pwp_ret, Hid |]. apply pwp_bind. eapply pwp_ways; [leaves_auto | done |]. intros [v|] w1 H1; [| by apply pwp_ret, Hid].
  destruct (_ <? _); [by apply pwp_ret, Hid |]. destruct (_ && _); [by apply pwp_ret, Hid |].
  apply pwp_bind. eapply pwp_ways; [leaves_auto | done |]. intros ok w2 H2. destruct (negb ok); [by apply pwp_ret, Hid |].
  apply pwp_bind. eapply (pwp_ways_set _ _ (Ways true (wy_shadow_fb y) (wy_dri2 y) (wy_gbm y) (wy_shadow_primary y) (wy_flip y) (wy_gpu y)));
    [exact H2 | by intros j <- |]. intros w3 H3. by apply pwp_ret.
Qed.

Lemma accel_way sp fl gpu d w :
  the_ways w = Some (Ways false false d false sp fl gpu) ->
  pwp (AMDGPUPreInitAccel_KMS opts scrn)
      (fun ok w' => ok = true -> exists y, the_ways w' = Some y /\ drawn_one_way y /\ wy_shadow_primary y = sp /\ wy_flip y = fl /\ wy_gpu y = gpu) w.
Proof.
  intros Hy. unfold AMDGPUPreInitAccel_KMS. apply pwp_bind.
  assert (Htry : pwp (try_accel opts scrn) (fun ok w' => exists d g, the_ways w' = Some (Ways ok false d g sp fl gpu) /\
    (ok = true -> d = true /\ g = true)) w).
  { unfold try_accel. destruct (default true (opt_accel opts)); [| apply pwp_ret; eexists _, _; split; [exact Hy | done]].
    apply pwp_bind. eapply pwp_ways; [unfold xf86LoadSubModule; leaves_auto | exact Hy |]. intros av w1 H1.
    apply pwp_bind. eapply (pwp_ways_set _ _ (Ways false false av false sp fl gpu)); [exact H1 | |].
    { same_ways. }
    intros w2 H2. apply pwp_bind.
    eapply (pwp_mono _ (fun _ w' => exists g', the_ways w' = Some (Ways false false av g' sp fl gpu) /\ (g' = true -> av = true))).
    { destruct av; cbn [mwhen]; [| apply pwp_ret; eexists; split; [exact H2 | done]]. apply pwp_bind.
      eapply pwp_ways; [leaves_auto | exact H2 |]. intros gb w3 H3. eapply (pwp_ways_set _ _ (Ways false false true gb sp fl gpu)); [exact H3 | |].
      - same_ways.
      - intros w4 H4. eexists. split; [exact H4 | done]. }
    intros _ w3 (g' & H3 & Hg'). apply pwp_bind. eapply pwp_ways_load; [exact H3 |]. intros i Hi.
    assert (has_gbm i = g') as -> by (by injection Hi). destruct g'; cbn [andb]; [| apply pwp_ret; eexists _, _; split; [exact H3 | done]].
    destruct (negb _); [| apply pwp_ret; eexists _, _; split; [exact H3 | done]].
    eapply pwp_mono; [by eapply glamor_pre_init_way |]. cbn. intros ok w4 H4. rewrite orb_false_r in H4.
    eexists _, _. split; [exact H4 |]. intros _. split; [by apply Hg' | done]. }
  eapply pwp_mono; [exact Htry |]. intros [|] w1 (d1 & g1 & H1 & Hd).
  - apply pwp_ret. intros _. eexists. split; [exact H1 |]. destruct (Hd eq_refl) as [-> ->]. done.
  - apply pwp_bind. eapply pwp_ways; [unfold xf86LoadSubModule; leaves_auto | exact H1 |]. intros [|] w2 H2; cbn [negb]; [| by apply pwp_ret].
    apply pwp_bind. eapply (pwp_ways_set _ _ (Ways false true false g1 sp fl gpu)); [exact H2 | |].
    + same_ways.
    + intros w3 H3. apply pwp_ret. intros _. eexists. split; [exact H3 | done].
Qed.

Lemma features_way y w :
  the_ways w = Some y -> drawn_one_way y -> wy_shadow_primary y = false -> wy_flip y = false ->
  pwp (preinit_features opts scrn)
      (fun _ w' => exists y', the_ways w' = Some y' /\ drawn_one_way y' /\
         (wy_shadow_primary y' = true -> wy_glamor y' = true /\ wy_flip y' = false)) w.
Proof.
  intros Hy Hd Hsp Hfl. unfold preinit_features. apply pwp_bind. eapply pwp_ways_load; [exact Hy |]. intros info Hi.
  set (sp := use_glamor info && default false (opt_shadow_primary opts)).
  apply pwp_bind. eapply (pwp_mono _ (fun _ w' => the_ways w' = Some (Ways (wy_glamor y) (wy_shadow_fb y) (wy_dri2 y) (wy_gbm y) sp false (wy_gpu y)))).
  { destruct y as [ug sf d g p f gp]. cbn in Hsp, Hfl. subst p f. unfold sp. cbn. injection Hi as <- _ _ _ _ _ _.
    destruct (use_glamor info); cbn [mwhen andb]; [| by apply pwp_ret].
    apply pwp_bind. eapply (pwp_ways_set _ _ (Ways true sf d g (default false (opt_shadow_primary opts)) false gp)); [exact Hy | same_ways |].
    intros w1 H1. destruct (negb (is_gpu info)); cbn [mwhen]; [| by apply pwp_ret].
    eapply pwp_ways; [leaves_auto | exact H1 | done]. }
  intros _ w1 H1. apply pwp_bind.
  eapply (pwp_mono _ (fun _ w' => exists f, the_ways w' = Some (Ways (wy_glamor y) (wy_shadow_fb y) (wy_dri2 y) (wy_gbm y) sp f (wy_gpu y)) /\ (sp = true -> f = false))).
  { destruct (negb (is_gpu info)); cbn [mwhen]; [| apply pwp_ret; by eexists].
    eapply (pwp_ways_set _ _ (Ways (wy_glamor y) (wy_shadow_fb y) (wy_dri2 y) (wy_gbm y) sp (default true (opt_page_flip opts) && negb sp) (wy_gpu y)));
      [exact H1 | same_ways |].
    intros w2 H2. eexists. split; [exact H2 |]. intros ->. by rewrite andb_false_r. }
  intros _ w2 (f & H2 & Hf). eapply pwp_ways; [leaves_auto | exact H2 |]. intros _ w3 H3. eexists. split; [exact H3 |].
  split; [exact Hd |]. cbn. intros Hs. split; [| by apply Hf].
  assert (use_glamor info = wy_glamor y) as <- by (by rewrite <- Hi). unfold sp in Hs. by destruct (use_glamor info).
Qed.

(** C24. [AMDGPUPreInit_KMS] decides on one way to draw: when it succeeds on a screen
    whose record is new (and not only to detect the device), whatever the options, the
    modules that could be loaded and what the device can do, the screen is to be drawn
    either by glamor, and then has gbm and DRI2, or by the CPU to a shadow, and then has
    no DRI2; a shadow primary surface is used only with glamor, and page flips never with
    it.  ([AMDGPUScreenInit_KMS] can still lose glamor later: [accel_lost].) *)
Theorem preinit_drawn_one_way flags gpu d isgpu w :
  has_bit flags PROBE_DETECT = false -> the_ways w = Some (Ways false false d false false false isgpu) ->
  pwp (AMDGPUPreInit_KMS opts scrnIndex instance_id shared zaphod fresh flags scrn gpu)
      (fun ok w' => ok = true -> exists y, the_ways w' = Some y /\ drawn_one_way y /\
         (wy_shadow_primary y = true -> wy_glamor y = true /\ wy_flip y = false)) w.
Proof.
  intros Hfl Hy. unfold AMDGPUPreInit_KMS. rewrite Hfl.
  pose proof (visual_ways scrn) as L1. pose proof (weight_ways scrn) as L2. pose proof (chip_ways scrn gpu) as L3.
  pose proof queue_init_ways as L4. pose proof (tile_ways scrn gpu) as L5. pose proof (pre_init_ways scrn) as L6.
  pose proof (caps_ways scrn) as L7. pose proof (cursor_size_ways scrn) as L8.
  apply pwp_bind. eapply pwp_ways; [leaves_auto | exact Hy |]. intros ok w1 H1. destruct (negb ok); [by apply pwp_ret |].
  apply pwp_bind. eapply pwp_ways; [leaves_auto | exact H1 |]. intros _ w1' H1'.
  apply pwp_bind. eapply pwp_ways; [leaves_auto | exact H1' |]. intros ok' w1'' H1''. destruct (negb ok'); [by apply pwp_ret |].
  apply pwp_bind. eapply pwp_ways; [leaves_auto | exact H1'' |]. intros _ w2 H2.
  apply pwp_bind. eapply pwp_ways; [exact L1 | exact H2 |]. intros ok1 w3 H3. destruct (negb ok1); [by apply pwp_ret |].
  apply pwp_bind. eapply pwp_ways; [leaves_auto | exact H3 |]. intros ok2 w4 H4. destruct (negb ok2); [by apply pwp_ret |].
  apply pwp_bind. eapply pwp_ways; [exact L2 | exact H4 |]. intros ok3 w5 H5. destruct (negb ok3); [by apply pwp_ret |].
  apply pwp_bind. eapply pwp_ways; [exact L3 | exact H5 |]. intros _ w6 H6.
  apply pwp_bind. eapply (pwp_ways_set _ _ (Ways false false false false false false isgpu)); [exact H6 | same_ways |].
  intros w7 H7. apply pwp_bind. eapply pwp_ways; [leaves_auto | exact H7 |]. intros [minor|] w8 H8; [| by apply pwp_ret].
  apply pwp_bind. eapply pwp_ways; [leaves_auto | exact H8 |]. intros _ w9 H9.
  apply pwp_bind. eapply pwp_ways; [unfold xf86LoadSubModule; leaves_auto | exact H9 |]. intros ok4 w10 H10. destruct (negb ok4); [by apply pwp_ret |].
  apply pwp_bind. eapply pwp_mono; [eapply accel_way, H10 |]. intros ok5 w11 Hacc. destruct ok5; cbn [negb]; [| by apply pwp_ret].
  destruct (Hacc eq_refl) as (y & H11 & Hd & Hsp & Hf & _). clear Hacc.
  apply pwp_bind. eapply pwp_ways; [exact L4 | exact H11 |]. intros _ w12 H12.
  apply pwp_bind. eapply pwp_ways_load; [exact H12 |]. intros info _. apply pwp_bind.
  eapply pwp_ways; [leaves_auto; exact L5 | exact H12 |]. intros _ w13 H13.
  apply pwp_bind. eapply pwp_mono; [by eapply features_way |]. intros _ w14 (y' & H14 & Hd' & Hs').
  apply pwp_bind. eapply pwp_ways; [exact L6 | exact H14 |]. intros ok6 w15 H15. destruct (negb ok6); [by apply pwp_ret |].
  eapply pwp_ways; [unfold xf86LoadSubModule; leaves_auto | exact H15 |].
  intros r w16 H16 _. by exists y'.
Qed.

(** When glamor cannot be initialised, [AMDGPUScreenInit_KMS] goes on without it, and
    without the shadow it would need to draw with the CPU. *)
Theorem accel_lost info h0 w :
  w_scrns w !! scrn = Some info -> use_glamor info = true -> shadow_fb info = false -> w_hooks w !! scrn = Some h0 ->
  (forall history, reply history (HookCall "glamor_init" scrn) = None) ->
  wp (start_accel true scrn)
     (fun _ w' => exists i, w_scrns w' !! scrn = Some i /\ use_glamor i = false /\ shadow_fb i = false) w.
Proof.
  intros Hi Hg Hs Hh Hr. unfold start_accel. apply wp_bind, (wp_load _ scrn info); [done |]. rewrite Hg. cbn [andb].
  apply wp_bind. unfold amdgpu_glamor_init. apply wp_bind, (wp_load _ scrn info); [done |]. apply wp_bind, (wp_load _ scrn h0); [done |].
  apply wp_bind. eapply wp_hooks_when; [exact Hh |]. intros w1 _ Hs1. apply wp_bind, wp_bind. wp_ext. rewrite Hr.
  apply wp_ret. cbn [negb]. apply wp_ret. apply (wp_update _ _ info); [by cbn; rewrite Hs1 |].
  eexists. split; [apply lookup_insert_eq | done].
Qed.
End Config.

(** A device with glamor of version 1.0.1 and a TrueColor visual. *)
Definition start_env : Env := fun history e =>
  match e return answer e with
  | Query name _ =>
      if bool_decide (name = "glamoregl"%string) then Some (MODULE_VERSION_NUMERIC 1 0 1)
      else if bool_decide (name = "defaultVisual"%string) then Some TrueColor else Some 0
  | e' => Sample.env history e'
  end.
Definition start_world : world :=
  Sample.w <| w_scrns := {[1%positive := Sample.scrn <| use_glamor := false |> <| has_gbm := false |> <| allowPageFlip := false |>
                                           <| crtcs := [] |>]} |>
           <| w_queue ::= setf amdgpu_drm_queue_refcnt (fun _ => 0) |> <| w_entity ::= setf ent_scrns (fun _ => []) |>.
Definition no_options : options := Options None None None None None None None None None None None None.

Lemma preinit_drawn_one_way_witness :
  returns (AMDGPUPreInit_KMS (env := start_env) no_options 0 0 false None Sample.crtc 0 1 (GpuInfo 141 0)) start_world = true /\
  pwp (AMDGPUPreInit_KMS (env := start_env) no_options 0 0 false None Sample.crtc 0 1 (GpuInfo 141 0))
      (fun ok w' => ok = true -> exists y, the_ways 1 w' = Some y /\ drawn_one_way y /\
         (wy_shadow_primary y = true -> wy_glamor y = true /\ wy_flip y = false)) start_world.
Proof.
  split; [vm_compute; reflexivity |].
  by apply (preinit_drawn_one_way (env := start_env) no_options 0 0 false None Sample.crtc 1 0 (GpuInfo 141 0) true false start_world).
Defined.

(** Where the kernel makes no framebuffer for the screen, copying the console's picture
    reads the handle of a framebuffer that is not there. *)
Definition no_fb_env : Env := fun history e =>
  match e return answer e with DrmModeAddFB _ _ _ _ _ _ => None | e' => Sample.env history e' end.
Definition console_world : world :=
  Sample.w <| w_crtcs := {[3%positive := Sample.crtc <| driver_private ::= setf buffer_id (fun _ => 5) |>]} |>.
Example copy_fb_null : drmmode_copy_fb (env := no_fb_env) 1 console_world = Fault NullDeref.
Proof. vm_compute. reflexivity. Qed.
(** Otherwise the picture is copied and the pixmap made for it is gone again. *)
Example copy_fb_done :
  match drmmode_copy_fb (env := Sample.env) 1 console_world with
  | Ok _ w' => (elements (dom (w_pixmaps w')), existsb (fun e => match e with GlamorDraw "CopyArea" 2 [_] => true | _ => false end) (w_trace w'))
  | _ => ([], false)
  end = ([2%positive], true).
Proof. vm_compute. reflexivity. Qed.
