(* ===== verification/Dispatch.v ===== *)
(** * The whole driver: requests, events and timers

    The queue calls handlers through function pointers, and a handler may call the
    queue again; [driver_callbacks] ties this knot.  Its argument bounds how deep
    such calls are nested; a run that needs more is not a run of the model.  On top
    of it, [driver_reachable] are the states the driver can be in after any sequence
    of requests of the X server, events of the kernel and expired timers. *)
From stdpp Require Import strings.
From S2P Require Import Prelude Modes Region World Video Lut Cursor Fb DriState Queue Bo PixmapFb Crtc Keeps.
From S2P Require Import Scanout Modeset CursorHw Flip Prime Present Dri2 Dri2Safe Names Color Outputs Wrappers Coherence.
From S2P Require Import Leases Screen Hotplug.

Section Present.
Context `{env : Env} `{srv : XServer} `{safe : CallbacksSafe} `{rsafe : RotatorSafe}.

#[local] Hint Extern 3 (keeps (modify _)) => apply keeps_modify; intros; by apply kept_frame : keeps.
Lemma cookie_event_keeps data : keeps (cookie_event data).
Proof. unfold cookie_event. keeps_auto. Qed.
#[local] Hint Resolve cookie_event_keeps : keeps.
Lemma present_vblank_handler_keeps crtc msc usec data : keeps (amdgpu_present_vblank_handler crtc msc usec data).
Proof. unfold amdgpu_present_vblank_handler. keeps_auto. Qed.
Lemma present_vblank_abort_keeps data : keeps (amdgpu_present_vblank_abort data).
Proof. unfold amdgpu_present_vblank_abort. keeps_auto. Qed.
Lemma present_flip_event_keeps crtc msc ust data : keeps (amdgpu_present_flip_event crtc msc ust data).
Proof. unfold amdgpu_present_flip_event. keeps_auto. Qed.
Lemma present_flip_abort_keeps data : keeps (amdgpu_present_flip_abort data).
Proof. unfold amdgpu_present_flip_abort. keeps_auto. Qed.
Lemma present_set_screen_vrr_keeps scrn on : keeps (amdgpu_present_set_screen_vrr scrn on).
Proof. unfold amdgpu_present_set_screen_vrr, drmmode_crtc_set_vrr. keeps_auto. Qed.
#[local] Hint Resolve present_set_screen_vrr_keeps : keeps.
Lemma vrr_property_keeps scrn window vrr : keeps (amdgpu_vrr_property_update scrn window vrr).
Proof. unfold amdgpu_vrr_property_update. keeps_auto. Qed.
Lemma poll_loop_keeps fuel : keeps (poll_loop fuel).
Proof. induction fuel; cbn [poll_loop]; keeps_auto. Qed.
#[local] Hint Resolve poll_loop_keeps : keeps.
Lemma flush_drm_events_keeps fuel : keeps (amdgpu_present_flush_drm_events fuel).
Proof. unfold amdgpu_present_flush_drm_events. keeps_auto. Qed.
#[local] Hint Resolve flush_drm_events_keeps : keeps.
Lemma queue_vblank_loop_keeps fuel crtc msc seq : keeps (queue_vblank_loop fuel crtc msc seq).
Proof. induction fuel; cbn [queue_vblank_loop]; keeps_auto. Qed.
#[local] Hint Resolve queue_vblank_loop_keeps : keeps.
Lemma queue_vblank_keeps fuel crtc id msc : keeps (amdgpu_present_queue_vblank fuel crtc id msc).
Proof. unfold amdgpu_present_queue_vblank, new_event. keeps_auto. Qed.
Lemma abort_vblank_keeps id : keeps (amdgpu_present_abort_vblank id).
Proof. unfold amdgpu_present_abort_vblank. keeps_auto. Qed.
Lemma can_flip_crtc_keeps crtc : keeps (drmmode_crtc_can_flip crtc).
Proof. unfold drmmode_crtc_can_flip. keeps_auto. Qed.
#[local] Hint Resolve can_flip_crtc_keeps : keeps.
Lemma count_unflip_keeps l n : keeps (count_unflip l n).
Proof. revert n. induction l; intros n; cbn [count_unflip]; keeps_auto. Qed.
Lemma count_flip_keeps l t n : keeps (count_flip l t n).
Proof. revert n. induction l; intros n; cbn [count_flip]; keeps_auto. Qed.
#[local] Hint Resolve count_unflip_keeps count_flip_keeps : keeps.
Lemma check_unflip_keeps scrn : keeps (amdgpu_present_check_unflip scrn).
Proof. unfold amdgpu_present_check_unflip. keeps_auto. Qed.
Lemma check_flip_keeps crtc window pix : keeps (amdgpu_present_check_flip crtc window pix).
Proof. unfold amdgpu_present_check_flip, amdgpu_pixmap_get_tiling_info. keeps_auto. Qed.
#[local] Hint Resolve check_unflip_keeps check_flip_keeps reset_mode_keeps : keeps.
Lemma present_flip_keeps fuel crtc id msc pix sync : keeps (amdgpu_present_flip fuel crtc id msc pix sync).
Proof. unfold amdgpu_present_flip, new_event, amdgpu_window_has_variable_refresh. keeps_auto. Qed.
Lemma unflip_modeset_keeps sw fuel scrn id : keeps (unflip_modeset sw fuel scrn id).
Proof. unfold unflip_modeset. keeps_auto. Qed.
#[local] Hint Resolve unflip_modeset_keeps : keeps.
Lemma present_unflip_keeps sw fuel scrn id : keeps (amdgpu_present_unflip sw fuel scrn id).
Proof. unfold amdgpu_present_unflip, new_event. keeps_auto. Qed.
Lemma get_ust_msc_keeps crtc : keeps (amdgpu_present_get_ust_msc crtc).
Proof. unfold amdgpu_present_get_ust_msc, drmmode_crtc_get_ust_msc. keeps_auto. Qed.
Lemma present_screen_init_keeps scrn ok : keeps (amdgpu_present_screen_init scrn ok).
Proof. unfold amdgpu_present_screen_init, amdgpu_present_has_async_flip. keeps_auto. Qed.
End Present.

(** ** The functions behind the pointers *)
Section Callbacks.
Context `{env : Env} `{srv : XServer} `{randr : RandR} `{comp : Composite} `{prime : PrimeServer}.

Definition abort_crtc (crtc : option loc) (f : loc -> D unit) : D unit := c ← deref crtc; f c.

Definition one_level (inner : Callbacks) (fuel : nat) : Callbacks := {|
  call_handler h crtc frame usec data :=
    match h with
    | drmmode_flip_handler_proc => drmmode_flip_handler crtc frame usec data
    | amdgpu_scanout_flip_handler_proc => amdgpu_scanout_flip_handler crtc frame usec data
    | amdgpu_scanout_update_handler_proc => amdgpu_scanout_update_handler crtc frame usec data
    | amdgpu_prime_scanout_update_handler_proc => amdgpu_prime_scanout_update_handler crtc frame usec data
    | amdgpu_present_vblank_handler_proc => amdgpu_present_vblank_handler crtc frame usec data
    | amdgpu_present_flip_event_proc => amdgpu_present_flip_event crtc frame usec data
    | amdgpu_dri2_frame_event_handler_proc => amdgpu_dri2_frame_event_handler fuel crtc frame usec data
    | amdgpu_dri2_flip_event_handler_proc => amdgpu_dri2_flip_event_handler crtc frame usec data
    end;
  call_abort a crtc data :=
    match a with
    | drmmode_flip_abort_proc => abort_crtc crtc (fun c => drmmode_flip_abort c data)
    | amdgpu_scanout_flip_abort_proc => abort_crtc crtc (fun c => amdgpu_scanout_flip_abort c data)
    | amdgpu_scanout_update_abort_proc => amdgpu_scanout_update_abort data
    | amdgpu_prime_scanout_update_abort_proc => abort_crtc crtc amdgpu_prime_scanout_update_abort
    | amdgpu_present_vblank_abort_proc => amdgpu_present_vblank_abort data
    | amdgpu_present_flip_abort_proc => amdgpu_present_flip_abort data
    | amdgpu_dri2_frame_event_abort_proc => amdgpu_dri2_frame_event_abort data
    | amdgpu_dri2_flip_event_abort_proc => amdgpu_dri2_flip_event_abort crtc data
    end
|}.

(** Calls nested [n] deep. *)
Fixpoint driver_callbacks (n : nat) : Callbacks :=
  match n with
  | O => {| call_handler _ _ _ _ _ := nofuel; call_abort _ _ _ := nofuel |}
  | S n' => one_level (driver_callbacks n') n
  end.

Context `{psafe : !PrimeSafe}.

Lemma one_level_safe inner fuel : @CallbacksSafe inner -> @CallbacksSafe (one_level inner fuel).
Proof.
  intros Hs.
  assert (Hc : forall c f, (forall x, keeps (f x)) -> keeps (abort_crtc c f)).
  { intros c f Hf. unfold abort_crtc. apply keeps_bind; [keeps_auto | done]. }
  split.
  - intros [] c f u d; cbn [call_handler one_level];
      auto using flip_handler_keeps, scanout_flip_handler_keeps, scanout_update_handler_keeps,
        prime_update_handler_keeps, present_vblank_handler_keeps, present_flip_event_keeps,
        frame_event_handler_keeps, flip_event_handler_keeps.
  - intros [] c d; cbn [call_abort one_level];
      auto using flip_abort_keeps, scanout_flip_abort_keeps, scanout_update_abort_keeps, prime_update_abort_keeps,
        present_vblank_abort_keeps, present_flip_abort_keeps, frame_event_abort_keeps, flip_event_abort_keeps.
Qed.

#[export] Instance driver_callbacks_safe n : @CallbacksSafe (driver_callbacks n).
Proof. induction n as [|n IH]; [split; intros; apply keeps_nofuel | by apply one_level_safe]. Qed.
End Callbacks.

(** ** The driver under the X server *)

(** What the server, the kernel and clients can ask of the driver. *)
Inductive request : Type :=
| DrmEvent
| ClientState (client : Z) (gone : bool)
| BlockHandler (scrn : loc)
| CrtcDpms (crtc : loc) (mode : Z)
| SetModeMajor (crtc : loc) (mode : option DisplayModeRec) (rot x y : Z)
| CloseQueue (scrn : loc)
| Dri2Init (scrn : loc)
| Dri2Close
| Dri2CopyRegion (scrn : loc) (draw : Z) (r : region) (dest src : loc)
| Dri2GetMsc (draw : Z)
| Dri2WaitMsc (client draw target divisor remainder : Z)
| Dri2Swap (client draw : Z) (front back : loc) (target divisor remainder func data : Z)
| PresentInit (scrn : loc) (ok : bool)
| PresentGetUstMsc (crtc : loc)
| PresentVblank (crtc : loc) (event_id msc : Z)
| PresentAbort (event_id : Z)
| PresentCheckFlip (crtc : loc) (window : option loc) (pix : loc)
| PresentFlip (crtc : loc) (event_id msc : Z) (pix : loc) (sync : bool)
| PresentUnflip (scrn : loc) (event_id : Z)
| VrrProperty (scrn window : loc) (vrr : bool)
(* cursors *)
| CursorMove (crtc : loc) (x y : Z)
| CursorHide (crtc : loc)
| CursorShow (crtc : loc)
| CursorLoad (crtc : loc) (image : list Z)
(* rotation *)
| ShadowCreate (crtc : loc) (data : bool) (width height : Z)
| ShadowDestroy (crtc : loc)
(* colors and outputs *)
| GammaSet (crtc : loc) (r g b : list Z) (size : Z)
| OutputDetect (output : loc)
| OutputSetProperty (output : loc) (property : string) (v : RRPropertyValue)
| OutputGetProperty (output : loc) (property : string)
| OutputResources (scrn output : loc)
| Uevents (scrn : loc)
(* leases *)
| LeaseCreate (lease : loc)
| LeaseTerminate (scrn lease : loc)
| LeasesValidate (scrn : loc)
(* the screen *)
| DamageEvent (scrn : loc) (client : Z) (types : list Z)
| FlushClient (scrn : loc) (client : option Z)
| SaveScreen (scrn : loc) (unblank : bool)
| AdjustFrame (scrn : loc) (x y : Z)
| Resize (scrn : loc) (width height : Z)
| SetDesiredModes (scrn : loc) (set_hw : bool)
| WindowExposures (scrn : loc)
| LeaveVT (scrn : loc) (has_gc : bool)
| EnterVT (scrn : loc)
| BlackTimer (scrn : loc)
(* drawing *)
| Draw (scrn : loc) (d : drawing).

(** What the driver is told once: whether the cursor is drawn in software, and for the
    outputs that appear later the index of the screen, its number on the device, whether
    the device is shared and the option "ZaphodHeads". *)
Record driver_config := DriverConfig {
  dc_sw_cursor : bool;
  dc_scrnIndex : Z;
  dc_instance_id : Z;
  dc_shared : bool;
  dc_zaphod : option string
}.

Section Driver.
Context `{env : Env} `{srv : XServer} `{randr : RandR} `{comp : Composite} `{prime : PrimeServer} `{rot : Rotator}.
Context (cfg : driver_config).

Definition ignore {A} (m : D A) : D unit := _ ← m; mret tt.

Definition run_request (n : nat) (r : request) : D unit :=
  let _ := driver_callbacks n in
  let sw_cursor := dc_sw_cursor cfg in
  let rr := rrPrivKey_registered in
  match r with
  | DrmEvent => ignore (amdgpu_drm_handle_event n)
  | ClientState client gone => amdgpu_dri2_client_state_changed client gone
  | BlockHandler scrn => AMDGPUBlockHandler_KMS sw_cursor n scrn
  | CrtcDpms crtc mode => drmmode_crtc_dpms sw_cursor n crtc mode
  | SetModeMajor crtc mode rot x y => ignore (drmmode_set_mode_major sw_cursor n crtc mode rot x y)
  | CloseQueue scrn => amdgpu_drm_queue_close n scrn
  | Dri2Init scrn => ignore (amdgpu_dri2_screen_init scrn)
  | Dri2Close => amdgpu_dri2_close_screen
  | Dri2CopyRegion scrn draw r dest src => amdgpu_dri2_copy_region2 scrn draw r dest src
  | Dri2GetMsc draw => ignore (amdgpu_dri2_get_msc draw)
  | Dri2WaitMsc client draw t d r => amdgpu_dri2_schedule_wait_msc n client draw t d r
  | Dri2Swap client draw front back t d r func data =>
      ignore (amdgpu_dri2_schedule_swap n client draw front back t d r func data)
  | PresentInit scrn ok => ignore (amdgpu_present_screen_init scrn ok)
  | PresentGetUstMsc crtc => ignore (amdgpu_present_get_ust_msc crtc)
  | PresentVblank crtc id msc => ignore (amdgpu_present_queue_vblank n crtc id msc)
  | PresentAbort id => amdgpu_present_abort_vblank id
  | PresentCheckFlip crtc window pix => ignore (amdgpu_present_check_flip crtc window pix)
  | PresentFlip crtc id msc pix sync => ignore (amdgpu_present_flip n crtc id msc pix sync)
  | PresentUnflip scrn id => amdgpu_present_unflip sw_cursor n scrn id
  | VrrProperty scrn window vrr => amdgpu_vrr_property_update scrn window vrr
  | CursorMove crtc x y => drmmode_set_cursor_position crtc x y
  | CursorHide crtc => drmmode_hide_cursor crtc
  | CursorShow crtc => drmmode_show_cursor crtc
  | CursorLoad crtc image => ignore (drmmode_load_cursor_argb_check sw_cursor crtc image)
  | ShadowCreate crtc data width height => ignore (drmmode_crtc_shadow_create crtc data width height)
  | ShadowDestroy crtc => drmmode_crtc_shadow_destroy crtc
  | GammaSet crtc r g b size => drmmode_crtc_gamma_set crtc r g b size
  | OutputDetect output => ignore (drmmode_output_detect output)
  | OutputSetProperty output property v => ignore (drmmode_output_set_property sw_cursor n output property v)
  | OutputGetProperty output property => ignore (drmmode_output_get_property output property)
  | OutputResources scrn output => drmmode_output_create_resources scrn output
  | Uevents scrn =>
      drmmode_handle_uevents sw_cursor (dc_scrnIndex cfg) (dc_instance_id cfg) (dc_shared cfg) (dc_zaphod cfg) n scrn
  | LeaseCreate lease => ignore (drmmode_create_lease lease)
  | LeaseTerminate scrn lease => drmmode_terminate_lease scrn lease
  | LeasesValidate scrn => drmmode_validate_leases scrn
  | DamageEvent scrn client types => amdgpu_event_callback scrn client types
  | FlushClient scrn client => amdgpu_flush_callback scrn client
  | SaveScreen scrn unblank => ignore (AMDGPUSaveScreen_KMS sw_cursor n scrn unblank)
  | AdjustFrame scrn x y => drmmode_adjust_frame sw_cursor n scrn x y
  | Resize scrn width height => ignore (drmmode_xf86crtc_resize sw_cursor n scrn width height)
  | SetDesiredModes scrn set_hw => ignore (drmmode_set_desired_modes sw_cursor rr n scrn set_hw)
  | WindowExposures scrn => AMDGPUWindowExposures_oneshot sw_cursor rr n scrn
  | LeaveVT scrn has_gc => AMDGPULeaveVT_KMS n has_gc scrn
  | EnterVT scrn => ignore (AMDGPUEnterVT_KMS sw_cursor rr n scrn)
  | BlackTimer scrn => cleanup_black_fb scrn
  | Draw scrn d => run_drawing scrn d
  end.

(** The timer [t] expires. *)
Definition fire_timer (n : nat) (t : loc) : D unit :=
  let _ := driver_callbacks n in l ← load w_timers t; amdgpu_dri2_deferred_event n l.

Context `{psafe : !PrimeSafe} `{rsafe : !RotatorSafe}.

Lemma ignore_keeps {A} (m : D A) : keeps m -> keeps (ignore m).
Proof. intros Hm. apply keeps_bind; [done | intros; apply keeps_ret]. Qed.

Lemma run_drawing_keeps scrn d : keeps (run_drawing scrn d).
Proof.
  destruct d; cbn [run_drawing];
    unfold amdgpu_glamor_copy_plane, amdgpu_glamor_copy_plane_nodstbo, amdgpu_glamor_push_pixels,
      amdgpu_glamor_push_pixels_nodstbo, amdgpu_glamor_copy_area, amdgpu_glamor_copy_area_nodstbo,
      amdgpu_glamor_bitmap_to_region, amdgpu_glamor_copy_window, amdgpu_glamor_add_traps,
      amdgpu_glamor_poly_lines, amdgpu_glamor_poly_segment;
    keeps_auto; first [apply fb_with_gc_keeps | apply fb_without_gc_keeps | apply fb_reading_keeps | apply saved_render_keeps].
Qed.

Lemma run_request_keeps n r : keeps (run_request n r).
Proof.
  pose proof (driver_callbacks_safe n) as Hs. unfold run_request. cbv zeta. set (cb := driver_callbacks n) in *.
  destruct r; try apply ignore_keeps;
    auto using handle_event_keeps, client_state_changed_keeps, block_handler_keeps, crtc_dpms_keeps, set_mode_major_keeps,
      queue_close_keeps, screen_init_keeps, close_screen_keeps, copy_region_keeps, get_msc_keeps,
      schedule_wait_msc_keeps, schedule_swap_keeps, present_screen_init_keeps, get_ust_msc_keeps, queue_vblank_keeps,
      abort_vblank_keeps, check_flip_keeps, present_flip_keeps, present_unflip_keeps, vrr_property_keeps,
      set_cursor_position_keeps, hide_cursor_keeps, show_cursor_keeps, load_cursor_check_keeps, shadow_create_keeps,
      rotate_destroy_keeps, gamma_set_keeps, output_detect_keeps, set_property_keeps, get_property_keeps,
      create_resources_keeps, handle_uevents_keeps, create_lease_keeps, terminate_lease_keeps, validate_leases_keeps,
      event_callback_keeps, flush_callback_keeps, save_screen_keeps, adjust_frame_keeps, resize_keeps,
      set_desired_modes_keeps, window_exposures_keeps, leave_vt_keeps, enter_vt_keeps, cleanup_black_fb_keeps,
      run_drawing_keeps.
Qed.

Lemma fire_timer_keeps n t : keeps (fire_timer n t).
Proof.
  pose proof (driver_callbacks_safe n) as Hs. unfold fire_timer. cbv zeta. set (cb := driver_callbacks n) in *.
  apply keeps_bind; [keeps_auto | intros l; apply deferred_event_keeps].
Qed.

(** The buffers the server holds: one reference each. *)
Definition owner (S : gset loc) (b : loc) : Z := if bool_decide (b ∈ S) then 1 else 0.

(** The states of the driver, with the buffers the server holds: after
    [amdgpu_drm_queue_init]; after a request, an expired timer, the creation of a
    buffer or the destruction of one the server has; after other code that leaves
    the queue, the nesting levels and the DRI state alone. *)
Inductive driver_reachable : gset loc -> world -> Prop :=
| dr_start w w' :
    amdgpu_drm_queue_refcnt (w_queue w) = 0 ->
    0 <= amdgpu_drm_queue_seq (w_queue w) < 2 ^ 64 ->
    (forall c n, nest_of w c = Some n -> 0 <= n) ->
    (forall s info, w_scrns w !! s = Some info -> NoDup (crtcs info)) ->
    w_dri2_buffers w = ∅ -> w_frame_events w = ∅ -> w_timers w = ∅ ->
    amdgpu_drm_queue_init w = Ok tt w' -> driver_reachable ∅ w'
| dr_request S n r w w' :
    driver_reachable S w -> run_request n r w = Ok tt w' -> driver_reachable S w'
| dr_timer S n t w w' :
    driver_reachable S w -> fire_timer n t w = Ok tt w' -> driver_reachable S w'
| dr_create_none S scrn draw attachment format w w' :
    driver_reachable S w -> amdgpu_dri2_create_buffer2 scrn draw attachment format w = Ok None w' ->
    driver_reachable S w'
| dr_create S scrn draw attachment format l w w' :
    driver_reachable S w -> amdgpu_dri2_create_buffer2 scrn draw attachment format w = Ok (Some l) w' ->
    driver_reachable ({[l]} ∪ S) w'
| dr_destroy S l w w' :
    driver_reachable S w -> l ∈ S -> amdgpu_dri2_destroy_buffer2 (Some l) w = Ok tt w' ->
    driver_reachable (S ∖ {[l]}) w'
| dr_other S w w' :
    driver_reachable S w -> w_queue w' = w_queue w -> (w_next w <= w_next w')%positive ->
    (forall c, nest_of w' c = nest_of w c) -> (forall s, crtcs_of w' s = crtcs_of w s) ->
    w_dri w' = w_dri w -> driver_reachable S w'.

(** No count can wrap around: fewer than 2{^30} objects were ever made. *)
Definition counts_fit (w : world) : Prop := Zpos (w_next w) < 2 ^ 30.

Definition driver_inv (S : gset loc) (w : world) : Prop :=
  queue_wf w /\ (counts_fit w -> dri_inv (owner S) w).

Lemma owner_range S b : 0 <= owner S b <= 1.
Proof. unfold owner. by case_bool_decide. Qed.

Lemma owner_room S w : counts_fit w -> room (owner S) w.
Proof. intros Hf b. pose proof (owner_range S b). unfold counts_fit in Hf. lia. Qed.

Lemma dri_inv_own own own' w : (forall b, own b = own' b) -> dri_inv own w -> dri_inv own' w.
Proof.
  intros Ho [H1 H2 H3 H4 H5 H6 H7]. split; try done.
  - eapply counted_ext; [| exact H1]. intros b. cbn. by rewrite Ho.
  - intros b. rewrite <- Ho. apply H2.
Qed.

Lemma kept_inv S w w' : driver_inv S w -> kept w w' -> driver_inv S w'.
Proof.
  intros [Hw Hd] (Hw' & _ & Hn & Hg). split; [done |]. intros Hf.
  apply Hg; [apply Hd; unfold counts_fit in *; lia | by apply owner_room].
Qed.

Lemma owner_in S w b : dri_inv (owner S) w -> b ∈ S -> (b < w_next w)%positive.
Proof.
  intros Hi Hb. apply (di_buffers_below _ _ Hi).
  destruct (counted_live _ _ _ b (di_refs _ _ Hi)) as (x & Hx & _); [| eauto].
  pose proof (frame_refs_bound _ _ b Hi). unfold owner. rewrite bool_decide_eq_true_2 by done. lia.
Qed.

Lemma init_leaves : leaves w_dri amdgpu_drm_queue_init.
Proof. unfold amdgpu_drm_queue_init. leaves_auto. Qed.

Lemma start_inv w w' :
  amdgpu_drm_queue_refcnt (w_queue w) = 0 -> 0 <= amdgpu_drm_queue_seq (w_queue w) < 2 ^ 64 ->
  (forall c n, nest_of w c = Some n -> 0 <= n) ->
  (forall s info, w_scrns w !! s = Some info -> NoDup (crtcs info)) ->
  w_dri2_buffers w = ∅ -> w_frame_events w = ∅ -> w_timers w = ∅ ->
  amdgpu_drm_queue_init w = Ok tt w' -> driver_inv ∅ w'.
Proof.
  intros Hr Hq Hn Hc Hb He Ht Hi.
  assert (Hd : w_dri w' = w_dri w) by (pose proof (init_leaves w) as Hl; unfold pwp in Hl; by rewrite Hi in Hl).
  assert (Hw : queue_wf w') by (by apply (queue_init_wf w)).
  split; [done |]. intros _.
  assert (Hb' : w_dri2_buffers w' = ∅) by (unfold w_dri2_buffers in *; by rewrite Hd).
  assert (He' : w_frame_events w' = ∅) by (unfold w_frame_events in *; by rewrite Hd).
  assert (Ht' : w_timers w' = ∅) by (unfold w_timers in *; by rewrite Hd).
  split; rewrite ?Hb', ?He', ?Ht'; try (intros *; rewrite lookup_empty; (done || by intros [])).
  - intros l. rewrite lookup_empty. unfold owner, frame_refs. by rewrite He', msum_empty.
  - intros b. apply owner_range.
Qed.

Lemma driver_reachable_inv S w : driver_reachable S w -> driver_inv S w.
Proof.
  induction 1 as [w w' ? ? ? ? ? ? ? Hi | S n r w w' _ IH Hr | S n t w w' _ IH Hr
    | S scrn draw a f w w' _ IH Hr | S scrn draw a f l w w' _ IH Hr | S l w w' _ IH Hl Hr
    | S w w' _ IH Hq Hn Hc Hs Hd].
  - by apply (start_inv w).
  - apply (kept_inv S w); [done |]. pose proof (run_request_keeps n r w (proj1 IH)) as Hk. unfold pwp in Hk.
    by rewrite Hr in Hk.
  - apply (kept_inv S w); [done |]. pose proof (fire_timer_keeps n t w (proj1 IH)) as Hk. unfold pwp in Hk.
    by rewrite Hr in Hk.
  - pose proof (create_buffer_grants scrn draw a f w (proj1 IH)) as Hk. unfold pwp in Hk. rewrite Hr in Hk.
    destruct Hk as ((Hw & _ & Hn) & _ & Hg). split; [done |]. intros Hf.
    apply Hg; [apply IH; unfold counts_fit in *; lia | by apply owner_room].
  - pose proof (create_buffer_grants scrn draw a f w (proj1 IH)) as Hk. unfold pwp in Hk. rewrite Hr in Hk.
    destruct Hk as ((Hw & _ & Hn) & Hnew & Hg). split; [done |]. intros Hf.
    assert (Hi : dri_inv (owner S) w) by (apply IH; unfold counts_fit in *; lia).
    apply (dri_inv_own (own_of (owner S) (Some l))); [| apply Hg; [done | by apply owner_room]].
    assert (Hl : l ∉ S) by (intros Hin; pose proof (owner_in S w l Hi Hin); specialize (Hnew l eq_refl); lia).
    intros b. cbn [own_of]. unfold own_new, owner, points. repeat case_bool_decide; set_solver.
  - destruct IH as [Hw IH]. assert (Hn : (w_next w <= w_next w')%positive /\ queue_wf w').
    { pose proof (qkeeps_destroy (Some l) w Hw) as Hk. unfold pwp in Hk. rewrite Hr in Hk. split; apply Hk. }
    split; [apply Hn |]. intros Hf. assert (Hfw : counts_fit w) by (unfold counts_fit in *; lia).
    pose proof (destroy_buffer_revokes l (owner S) w Hw (IH Hfw) (owner_room S w Hfw)) as Hk. unfold pwp in Hk.
    rewrite Hr in Hk. destruct Hk as [_ Hi]; [unfold owner; rewrite bool_decide_eq_true_2 by done; lia |].
    revert Hi. apply dri_inv_own. intros b. unfold owner, points. repeat case_bool_decide; set_solver.
  - apply (kept_inv S w); [done |]. apply kept_frame; try done. apply IH.
Qed.

(** C1. Whatever the order in which clients ask for swaps, waits, flips and
    presentations, the kernel delivers events, timers expire, modes, cursors, colors
    and leases change, connectors and terminals are switched, the screen is resized and
    drawn to, and buffers come and go, with every handler the driver installs called through the
    queue: while fewer than 2{^30} objects have been made ([counts_fit], so that no
    32-bit count wraps), the event queue stays well-formed, the reference count of
    every DRI2 buffer is the number of references, one if the server holds it and one
    for each end of a swap that waits, and a timer and its swap or wait point to each
    other. *)
Theorem driver_reachable_safe S w :
  driver_reachable S w -> counts_fit w -> queue_wf w /\ dri_inv (owner S) w.
Proof. intros Hr Hf. destruct (driver_reachable_inv S w Hr) as [Hw Hd]. auto. Qed.

(** C7. In every reachable state in which fewer than 2{^30} objects have been made,
    the buffers of a swap that waits exist, and so
    does the event of a timer that has not expired: neither a delayed swap nor a
    timer can touch freed memory, whatever the server destroyed in the meantime. *)
Theorem waiting_swap_alive S w l e b :
  driver_reachable S w -> counts_fit w -> w_frame_events w !! l = Some e ->
  fv_front e = Some b \/ fv_back e = Some b ->
  (exists x, w_dri2_buffers w !! b = Some x /\ 0 < bp_refcnt x) /\
  (forall t, fv_timer e = Some t <-> w_timers w !! t = Some l).
Proof.
  intros Hr Hf He Hb. destruct (driver_reachable_inv S w Hr) as [_ Hd]. specialize (Hd Hf). split.
  - destruct (counted_live _ _ _ b (di_refs _ _ Hd)) as (x & Hx & Hrc).
    + pose proof (owner_range S b). unfold frame_refs. rewrite (msum_delete _ _ _ _ He).
      assert (0 <= msum (event_refs b) (delete l (w_frame_events w)))
        by (apply msum_nonneg; intros; apply event_refs_range).
      assert (0 < event_refs b e); [| lia]. unfold event_refs.
      pose proof (points_range b (fv_front e)). pose proof (points_range b (fv_back e)).
      destruct Hb as [-> | ->]; rewrite points_self in *; lia.
    + exists x. split; [done |]. by destruct (counted_pos _ _ _ _ _ (di_refs _ _ Hd) Hx) as [-> ?].
  - intros t. split; [apply (di_event_timer _ _ Hd l e t He) |]. intros Ht.
    destruct (di_timer _ _ Hd _ _ Ht) as (y & Hy & Hty). congruence.
Qed.
End Driver.

(** ** A swap whose back buffer the server destroys *)

Definition sample_driver : driver_config := DriverConfig true 0 0 false None.
Definition sample_randr : RandR :=
  {| rrPrivKey_registered := true; RRFirstOutput _ := None; rr_screen _ _ := mkScreen false false None [] |}.
Definition sample_composite : Composite := fun _ _ => (0, 0).
Definition sample_prime : PrimeServer :=
  {| current_primary _ := None; SyncSharedPixmap _ := None; primary_pixmap _ := false |}.
Definition sample_rotator : Rotator := fun crtc => mret true.
Lemma sample_prime_safe : @PrimeSafe sample_prime.
Proof. by intros s f p. Qed.
Lemma sample_rotator_safe : @RotatorSafe sample_rotator.
Proof. intros crtc. apply keeps_ret. Qed.

(** The sample machine, where no drawable can be flipped. *)
Definition blit_env : Env := fun history e =>
  match e as e return answer e with DRI2CanFlip _ => false | e => Sample.env history e end.

Section SampleRun.
#[local] Existing Instances blit_env sample_randr sample_composite sample_prime sample_rotator
  sample_prime_safe sample_rotator_safe.

(** Window 100 covers the screen and is on CRTC 3. *)
Definition sample_start : world :=
  Sample.w <| w_queue ::= setf amdgpu_drm_queue_refcnt (fun _ => 0) |>
    <| w_dri := Dri {[100 := DrawableRec true 1 0 0 64 64 24 32 2 (Some 3%positive) 0 0 0]} ∅ ∅ ∅ ∅ 0 true ∅ |>.
Definition sample_open : world := after amdgpu_drm_queue_init sample_start.
(** The server makes a front buffer (10) and a back buffer (13), the client swaps
    them, and the server destroys the back buffer before the swap happens. *)
Definition sample_front : world := after (amdgpu_dri2_create_buffer2 1 100 0 0) sample_open.
Definition sample_back : world := after (amdgpu_dri2_create_buffer2 1 100 1 0) sample_front.
Definition sample_swap : world := after (run_request sample_driver 8 (Dri2Swap 7 100 10 13 0 0 0 0 0)) sample_back.
Definition sample_destroyed : world := after (amdgpu_dri2_destroy_buffer2 (Some 13%positive)) sample_swap.

Lemma sample_driver_reachable : driver_reachable sample_driver {[10%positive]} sample_destroyed.
Proof.
  assert (H1 : driver_reachable sample_driver ∅ sample_open).
  { apply (dr_start sample_driver sample_start); try reflexivity; [cbn; lia | exact sample_nesting | exact sample_config]. }
  assert (H2 : driver_reachable sample_driver ({[10%positive]} ∪ ∅) sample_front).
  { apply (dr_create sample_driver ∅ 1 100 0 0 10%positive sample_open); [done | vm_compute; reflexivity]. }
  assert (H3 : driver_reachable sample_driver ({[13%positive]} ∪ ({[10%positive]} ∪ ∅)) sample_back).
  { apply (dr_create sample_driver _ 1 100 1 0 13%positive sample_front); [done | vm_compute; reflexivity]. }
  assert (H4 : driver_reachable sample_driver ({[13%positive]} ∪ ({[10%positive]} ∪ ∅)) sample_swap).
  { apply (dr_request sample_driver _ 8 (Dri2Swap 7 100 10 13 0 0 0 0 0) sample_back); [done | vm_compute; reflexivity]. }
  replace {[10%positive]} with (({[13%positive]} ∪ ({[10%positive]} ∪ ∅)) ∖ {[13%positive]} : gset loc)
    by (vm_compute; reflexivity).
  apply (dr_destroy sample_driver _ 13%positive sample_swap); [done | set_solver | vm_compute; reflexivity].
Qed.

Lemma driver_reachable_safe_witness :
  queue_wf sample_destroyed /\ dri_inv (owner {[10%positive]}) sample_destroyed.
Proof.
  apply (driver_reachable_safe sample_driver); [exact sample_driver_reachable | vm_compute; reflexivity].
Defined.

Lemma waiting_swap_alive_witness :
  exists x, w_dri2_buffers sample_destroyed !! 13%positive = Some x /\ 0 < bp_refcnt x.
Proof.
  refine (proj1 (waiting_swap_alive sample_driver {[10%positive]} sample_destroyed 14%positive _ 13%positive
    sample_driver_reachable _ _ (or_intror _))); [vm_compute; reflexivity .. |].
  vm_compute; reflexivity.
Defined.
End SampleRun.
